(** * PPP over serial (pppos.c): HDLC-like framing, FCS and buffer chains

    A shallow embedding of [src/netif/ppp/pppos.c].  Bytes, lengths and
    check sequences are integers with their C width written out; pbufs live
    in a heap indexed by address; the framer code runs in a state and error
    monad over that heap.

    Build configuration embedded here: [VJ_SUPPORT] off, [IP_FORWARD] and
    [LWIP_IPV6_FORWARD] off, [PPP_INPROC_MULTITHREADED] off.  Both settings
    of [PPP_FCS_TABLE] are embedded and related to each other. *)

From Stdlib Require Import ZArith Lia List Bool.
From stdpp Require Import base option list gmap.

Open Scope Z_scope.

(** ** Wire constants *)

(** Modelled from the spec: the framing constants of [ppp_impl.h], which is
    not among the sources; values as listed in the spec's constants. *)
Definition PPP_FLAG : Z := 0x7e.
Definition PPP_ESCAPE : Z := 0x7d.
Definition PPP_TRANS : Z := 0x20.
Definition PPP_ALLSTATIONS : Z := 0xff.
Definition PPP_UI : Z := 0x03.

Definition PPP_INITFCS : Z := 0xffff.
Definition PPP_GOODFCS : Z := 0xf0b8.

(** Unsigned C integers of 8, 16 and 32 bits: a value is stored modulo the
    width. *)
Definition u8 (x : Z) : Z := x mod 256.
Definition u16 (x : Z) : Z := x mod 65536.
Definition u32 (x : Z) : Z := x mod 4294967296.

Definition is_u8 (x : Z) : Prop := 0 <= x < 256.
Definition is_u16 (x : Z) : Prop := 0 <= x < 65536.

(** ** Asynchronous control character map *)

Definition ppp_accm_mask : list Z :=
  [0x01; 0x02; 0x04; 0x08; 0x10; 0x20; 0x40; 0x80].

(** [ext_accm] is an array of 32 octets. *)
Definition ext_accm := list Z.

Definition ESCAPE_P (accm : ext_accm) (c : Z) : Z :=
  Z.land (nth (Z.to_nat (Z.shiftr c 3)) accm 0)
         (nth (Z.to_nat (Z.land c 0x07)) ppp_accm_mask 0).

Definition escaped (accm : ext_accm) (c : Z) : bool :=
  negb (ESCAPE_P accm c =? 0).

(** ** Frame check sequence *)

Definition fcstab : list Z := [
  0x0000; 0x1189; 0x2312; 0x329b; 0x4624; 0x57ad; 0x6536; 0x74bf;
  0x8c48; 0x9dc1; 0xaf5a; 0xbed3; 0xca6c; 0xdbe5; 0xe97e; 0xf8f7;
  0x1081; 0x0108; 0x3393; 0x221a; 0x56a5; 0x472c; 0x75b7; 0x643e;
  0x9cc9; 0x8d40; 0xbfdb; 0xae52; 0xdaed; 0xcb64; 0xf9ff; 0xe876;
  0x2102; 0x308b; 0x0210; 0x1399; 0x6726; 0x76af; 0x4434; 0x55bd;
  0xad4a; 0xbcc3; 0x8e58; 0x9fd1; 0xeb6e; 0xfae7; 0xc87c; 0xd9f5;
  0x3183; 0x200a; 0x1291; 0x0318; 0x77a7; 0x662e; 0x54b5; 0x453c;
  0xbdcb; 0xac42; 0x9ed9; 0x8f50; 0xfbef; 0xea66; 0xd8fd; 0xc974;
  0x4204; 0x538d; 0x6116; 0x709f; 0x0420; 0x15a9; 0x2732; 0x36bb;
  0xce4c; 0xdfc5; 0xed5e; 0xfcd7; 0x8868; 0x99e1; 0xab7a; 0xbaf3;
  0x5285; 0x430c; 0x7197; 0x601e; 0x14a1; 0x0528; 0x37b3; 0x263a;
  0xdecd; 0xcf44; 0xfddf; 0xec56; 0x98e9; 0x8960; 0xbbfb; 0xaa72;
  0x6306; 0x728f; 0x4014; 0x519d; 0x2522; 0x34ab; 0x0630; 0x17b9;
  0xef4e; 0xfec7; 0xcc5c; 0xddd5; 0xa96a; 0xb8e3; 0x8a78; 0x9bf1;
  0x7387; 0x620e; 0x5095; 0x411c; 0x35a3; 0x242a; 0x16b1; 0x0738;
  0xffcf; 0xee46; 0xdcdd; 0xcd54; 0xb9eb; 0xa862; 0x9af9; 0x8b70;
  0x8408; 0x9581; 0xa71a; 0xb693; 0xc22c; 0xd3a5; 0xe13e; 0xf0b7;
  0x0840; 0x19c9; 0x2b52; 0x3adb; 0x4e64; 0x5fed; 0x6d76; 0x7cff;
  0x9489; 0x8500; 0xb79b; 0xa612; 0xd2ad; 0xc324; 0xf1bf; 0xe036;
  0x18c1; 0x0948; 0x3bd3; 0x2a5a; 0x5ee5; 0x4f6c; 0x7df7; 0x6c7e;
  0xa50a; 0xb483; 0x8618; 0x9791; 0xe32e; 0xf2a7; 0xc03c; 0xd1b5;
  0x2942; 0x38cb; 0x0a50; 0x1bd9; 0x6f66; 0x7eef; 0x4c74; 0x5dfd;
  0xb58b; 0xa402; 0x9699; 0x8710; 0xf3af; 0xe226; 0xd0bd; 0xc134;
  0x39c3; 0x284a; 0x1ad1; 0x0b58; 0x7fe7; 0x6e6e; 0x5cf5; 0x4d7c;
  0xc60c; 0xd785; 0xe51e; 0xf497; 0x8028; 0x91a1; 0xa33a; 0xb2b3;
  0x4a44; 0x5bcd; 0x6956; 0x78df; 0x0c60; 0x1de9; 0x2f72; 0x3efb;
  0xd68d; 0xc704; 0xf59f; 0xe416; 0x90a9; 0x8120; 0xb3bb; 0xa232;
  0x5ac5; 0x4b4c; 0x79d7; 0x685e; 0x1ce1; 0x0d68; 0x3ff3; 0x2e7a;
  0xe70e; 0xf687; 0xc41c; 0xd595; 0xa12a; 0xb0a3; 0x8238; 0x93b1;
  0x6b46; 0x7acf; 0x4854; 0x59dd; 0x2d62; 0x3ceb; 0x0e70; 0x1ff9;
  0xf78f; 0xe606; 0xd49d; 0xc514; 0xb1ab; 0xa022; 0x92b9; 0x8330;
  0x7bc7; 0x6a4e; 0x58d5; 0x495c; 0x3de3; 0x2c6a; 0x1ef1; 0x0f78 ].

Definition PPP_FCS_POLYNOMIAL : Z := 0x8408.

Definition ppp_get_fcs_step (octet : Z) : Z :=
  if Z.land octet 0x01 =? 0
  then Z.shiftr octet 1
  else Z.lxor (Z.shiftr octet 1) PPP_FCS_POLYNOMIAL.

Definition ppp_get_fcs (byte : Z) : Z :=
  Z.land (Nat.iter 8 ppp_get_fcs_step byte) 0xffff.

(** [PPP_FCS] when [PPP_FCS_TABLE] is set. *)
Definition PPP_FCS (fcs c : Z) : Z :=
  Z.lxor (Z.shiftr fcs 8)
         (nth (Z.to_nat (Z.land (Z.lxor fcs c) 0xff)) fcstab 0).

(** [PPP_FCS] when [PPP_FCS_TABLE] is not set. *)
Definition PPP_FCS_bitwise (fcs c : Z) : Z :=
  Z.lxor (Z.shiftr fcs 8) (ppp_get_fcs (Z.land (Z.lxor fcs c) 0xff)).

(** The check sequence of a run of octets. *)
Definition fcs_update (fcs : Z) (bs : list Z) : Z := fold_left PPP_FCS bs fcs.

(** ** Packet buffers and the machine state *)

(** A pbuf address; the null pointer is [None]. *)
Definition loc := nat.

Record pbuf := mk_pbuf {
  next : option loc;
  payload : list Z;
  tot_len : Z;
  len : Z
}.

Definition set_next (n : option loc) (b : pbuf) : pbuf :=
  mk_pbuf n (payload b) (tot_len b) (len b).
Definition set_payload (p : list Z) (b : pbuf) : pbuf :=
  mk_pbuf (next b) p (tot_len b) (len b).
Definition set_tot_len (t : Z) (b : pbuf) : pbuf :=
  mk_pbuf (next b) (payload b) t (len b).
Definition set_len (n : Z) (b : pbuf) : pbuf :=
  mk_pbuf (next b) (payload b) (tot_len b) n.

(** Modelled from the spec: the receive states of [ppp_impl.h], in the order
    the spec lists them. *)
Inductive pd_state :=
  PDIDLE | PDSTART | PDADDRESS | PDCONTROL | PDPROTOCOL1 | PDPROTOCOL2 | PDDATA.

Definition pd_num (s : pd_state) : Z :=
  match s with
  | PDIDLE => 0 | PDSTART => 1 | PDADDRESS => 2 | PDCONTROL => 3
  | PDPROTOCOL1 => 4 | PDPROTOCOL2 => 5 | PDDATA => 6
  end.

(** The fields of [ppp_pcb_rx] and [ppp_pcb] that pppos.c reads or writes. *)
Record ppp_pcb_rx := mk_rx {
  in_accm : ext_accm;
  in_head : option loc;
  in_tail : option loc;
  in_protocol : Z;
  in_fcs : Z;
  in_state : pd_state;
  in_escaped : bool
}.

Record ppp_pcb := mk_pcb {
  last_xmit : Z;
  out_accm : ext_accm;
  accomp : bool;
  pcomp : bool;
  rx : ppp_pcb_rx
}.

(** Link statistics and SNMP counters touched by pppos.c. *)
Inductive counter :=
  | link_memerr | link_proterr | link_drop | link_lenerr | link_chkerr
  | link_err | link_xmit
  | ifoutdiscards | ifindiscards | ifoutoctets | ifoutucastpkts.

Global Instance counter_eq_dec : EqDecision counter.
Proof. solve_decision. Defined.

(** The state the code runs in: the pbuf heap, how many buffers were
    requested so far (the next fresh address), how many serial writes were
    issued, the tick counter, the octets accepted by the serial device, the
    chains handed to [ppp_input], the arguments of the [pbuf_free] calls, the
    counter bumps (newest first), and the control block. *)
Record world := mk_world {
  heap : gmap loc pbuf;
  allocs : nat;
  sio_calls : nat;
  jiffies : Z;
  wire : list Z;
  delivered : list loc;
  freed : list loc;
  stats : list (counter * Z);
  ppp : ppp_pcb
}.

Definition set_heap (f : gmap loc pbuf -> gmap loc pbuf) (w : world) : world :=
  mk_world (f (heap w)) (allocs w) (sio_calls w) (jiffies w) (wire w)
           (delivered w) (freed w) (stats w) (ppp w).
Definition set_allocs (n : nat) (w : world) : world :=
  mk_world (heap w) n (sio_calls w) (jiffies w) (wire w)
           (delivered w) (freed w) (stats w) (ppp w).
Definition set_sio (n : nat) (bs : list Z) (w : world) : world :=
  mk_world (heap w) (allocs w) n (jiffies w) (wire w ++ bs)
           (delivered w) (freed w) (stats w) (ppp w).
Definition add_delivered (l : loc) (w : world) : world :=
  mk_world (heap w) (allocs w) (sio_calls w) (jiffies w) (wire w)
           (delivered w ++ [l]) (freed w) (stats w) (ppp w).
Definition add_freed (l : loc) (w : world) : world :=
  mk_world (heap w) (allocs w) (sio_calls w) (jiffies w) (wire w)
           (delivered w) (freed w ++ [l]) (stats w) (ppp w).
Definition add_stat (c : counter) (n : Z) (w : world) : world :=
  mk_world (heap w) (allocs w) (sio_calls w) (jiffies w) (wire w)
           (delivered w) (freed w) ((c, n) :: stats w) (ppp w).
Definition set_ppp (f : ppp_pcb -> ppp_pcb) (w : world) : world :=
  mk_world (heap w) (allocs w) (sio_calls w) (jiffies w) (wire w)
           (delivered w) (freed w) (stats w) (f (ppp w)).

Definition set_last_xmit (t : Z) (p : ppp_pcb) : ppp_pcb :=
  mk_pcb t (out_accm p) (accomp p) (pcomp p) (rx p).
Definition set_rx (f : ppp_pcb_rx -> ppp_pcb_rx) (p : ppp_pcb) : ppp_pcb :=
  mk_pcb (last_xmit p) (out_accm p) (accomp p) (pcomp p) (f (rx p)).

Definition set_in_head (h : option loc) (r : ppp_pcb_rx) : ppp_pcb_rx :=
  mk_rx (in_accm r) h (in_tail r) (in_protocol r) (in_fcs r) (in_state r)
        (in_escaped r).
Definition set_in_tail (t : option loc) (r : ppp_pcb_rx) : ppp_pcb_rx :=
  mk_rx (in_accm r) (in_head r) t (in_protocol r) (in_fcs r) (in_state r)
        (in_escaped r).
Definition set_in_protocol (p : Z) (r : ppp_pcb_rx) : ppp_pcb_rx :=
  mk_rx (in_accm r) (in_head r) (in_tail r) p (in_fcs r) (in_state r)
        (in_escaped r).
Definition set_in_fcs (f : Z) (r : ppp_pcb_rx) : ppp_pcb_rx :=
  mk_rx (in_accm r) (in_head r) (in_tail r) (in_protocol r) f (in_state r)
        (in_escaped r).
Definition set_in_state (s : pd_state) (r : ppp_pcb_rx) : ppp_pcb_rx :=
  mk_rx (in_accm r) (in_head r) (in_tail r) (in_protocol r) (in_fcs r) s
        (in_escaped r).
Definition set_in_escaped (e : bool) (r : ppp_pcb_rx) : ppp_pcb_rx :=
  mk_rx (in_accm r) (in_head r) (in_tail r) (in_protocol r) (in_fcs r)
        (in_state r) e.

Arguments set_next _ _ /.
Arguments set_payload _ _ /.
Arguments set_tot_len _ _ /.
Arguments set_len _ _ /.
Arguments set_heap _ _ /.
Arguments set_allocs _ _ /.
Arguments set_sio _ _ _ /.
Arguments add_delivered _ _ /.
Arguments add_freed _ _ /.
Arguments add_stat _ _ _ /.
Arguments set_ppp _ _ /.
Arguments set_last_xmit _ _ /.
Arguments set_rx _ _ /.
Arguments set_in_head _ _ /.
Arguments set_in_tail _ _ /.
Arguments set_in_protocol _ _ /.
Arguments set_in_fcs _ _ /.
Arguments set_in_state _ _ /.
Arguments set_in_escaped _ _ /.

(** The value of a counter: the sum of its bumps. *)
Definition stat (c : counter) (w : world) : Z :=
  fold_right (fun e acc => if decide (e.1 = c) then e.2 + acc else acc) 0
             (stats w).

(** ** A state and error monad *)

Inductive fault := NullDeref | Dangling | OutOfBounds | NoTermination.

Inductive res (A : Type) :=
  | Ok (a : A)
  | Err (f : fault).
Arguments Ok {A} a.
Arguments Err {A} f.

Definition M (A : Type) : Type := world -> res (A * world).

Definition ret {A} (a : A) : M A := fun w => Ok (a, w).
Definition bind {A B} (m : M A) (k : A -> M B) : M B :=
  fun w => match m w with
           | Ok (a, w') => k a w'
           | Err f => Err f
           end.
Definition fail {A} (f : fault) : M A := fun _ => Err f.
Definition get : M world := fun w => Ok (w, w).
Definition modify (f : world -> world) : M unit := fun w => Ok (tt, f w).

Notation "x <- m ;; k" := (bind m (fun x => k))
  (at level 90, m at level 69, right associativity).
Notation "m ;;; k" := (bind m (fun _ => k))
  (at level 90, right associativity).

(** Dereferencing a pbuf pointer. *)
Definition load (p : option loc) : M pbuf :=
  fun w => match p with
           | None => Err NullDeref
           | Some l => match heap w !! l with
                       | Some b => Ok (b, w)
                       | None => Err Dangling
                       end
           end.

(** [p->field = ...] for a pointer known to be live. *)
Definition update (p : option loc) (f : pbuf -> pbuf) : M unit :=
  b <- load p ;;
  match p with
  | Some l => modify (set_heap (<[l := f b]>))
  | None => fail NullDeref
  end.

(** [((u_char * )p->payload)[i]] as an rvalue. *)
Definition peek (p : option loc) (i : nat) : M Z :=
  b <- load p ;;
  match payload b !! i with
  | Some c => ret c
  | None => fail OutOfBounds
  end.

(** [((u_char * )p->payload)[i] = c]. *)
Definition poke (p : option loc) (i : nat) (c : Z) : M unit :=
  b <- load p ;;
  if (i <? length (payload b))%nat
  then update p (set_payload (<[i := c]> (payload b)))
  else fail OutOfBounds.

(** [*((u_char * )p->payload + p->len++) = c]. *)
Definition push (p : option loc) (c : Z) : M unit :=
  b <- load p ;;
  update p (set_len (u16 (len b + 1))) ;;;
  poke p (Z.to_nat (len b)) c.

Definition LINK_STATS_INC (c : counter) : M unit := modify (add_stat c 1).
Definition snmp_inc (c : counter) : M unit := modify (add_stat c 1).
Definition snmp_add (c : counter) (n : Z) : M unit := modify (add_stat c n).

Inductive err_t := ERR_OK | ERR_MEM | ERR_VAL.
Inductive ppperr := PPPERR_NONE | PPPERR_ALLOC.

(** ** Example configurations *)

(** The character map [pppos_connect] leaves: only 0x7D and 0x7E marked. *)
Definition ex_accm : ext_accm := <[15%nat := 0x60]> (replicate 32 0).

(** A receiver right after [pppos_connect]. *)
Definition ex_rx : world :=
  mk_world ∅ 0 0 1000 [] [] [] []
    (mk_pcb 0 ex_accm false false (mk_rx ex_accm None None 0 0 PDIDLE false)).

(** A receiver right after a flag. *)
Definition ex_rx_ready : world :=
  mk_world ∅ 0 0 1000 [] [] [] []
    (mk_pcb 0 ex_accm false false
            (mk_rx ex_accm None None 0 0xFFFF PDADDRESS false)).

(** A receiver that has read 0xFF 0x03 of a frame. *)
Definition ex_rx_header : world :=
  mk_world ∅ 0 0 1000 [] [] [] []
    (mk_pcb 0 ex_accm false false
            (mk_rx ex_accm None None 0 0x3DE3 PDPROTOCOL1 false)).

(** The octets of an LCP echo request and their check sequence. *)
Definition ex_payload : list Z := [0x09; 0x01; 0x00; 0x04].
Definition ex_fcs : list Z := [0x09; 0x50].

(** A receiver, with buffers of 8 bytes, that has read the frame
    FF 03 C0 21 09 01 00 04 09 50 up to its closing flag. *)
Definition ex_rx_data : world :=
  mk_world {[ 0%nat := mk_pbuf None ([0xC0; 0x21] ++ ex_payload ++ ex_fcs) 0 8 ]}
    1 0 1000 [] [] [] []
    (mk_pcb 0 ex_accm false false
            (mk_rx ex_accm (Some 0%nat) (Some 0%nat) 0xC021 0xF0B8 PDDATA false)).

(** A sender on an idle link holding the payload in one buffer. *)
Definition ex_tx : world :=
  mk_world {[ 0%nat := mk_pbuf None ex_payload 4 4 ]} 1 0 1000 [] [] [] []
    (mk_pcb 0 ex_accm false false (mk_rx ex_accm None None 0 0 PDIDLE false)).


(** A sender with both header compressions on, holding two octets. *)
Definition ex_tx_comp : world :=
  mk_world {[ 0%nat := mk_pbuf None [0x21; 0x45] 2 2 ]} 1 0 1000 [] [] [] []
    (mk_pcb 0 ex_accm true true (mk_rx ex_accm None None 0 0 PDIDLE false)).

(** A sender holding a packet of two buffers. *)
Definition ex_tx_chain : world :=
  mk_world {[ 0%nat := mk_pbuf (Some 1%nat) [0x01; 0x02; 0x03] 5 3;
              1%nat := mk_pbuf None [0x04; 0x05] 2 2 ]} 2 0 1000 [] [] [] []
    (mk_pcb 0 ex_accm false false (mk_rx ex_accm None None 0 0 PDIDLE false)).

(** A framed chain of two buffers of 8 bytes ready for [pppos_xmit], early
    after start-up. *)
Definition ex_tx_framed : world :=
  mk_world {[ 0%nat := mk_pbuf (Some 1%nat)
                         [0x7E; 0xFF; 0x7D; 0x23; 0xC0; 0x21; 0x09; 0x00] 0 7;
              1%nat := mk_pbuf None [0x01; 0x02; 0x03; 0x7E; 0; 0; 0; 0] 0 4 ]}
    2 0 5 [] [] [] []
    (mk_pcb 5 ex_accm false false (mk_rx ex_accm None None 0 0 PDIDLE false)).

(** A serial device that takes three bytes of the first write offered and
    every later write whole. *)
Definition ex_sio_short (k : nat) (n : Z) : Z := if (k =? 0)%nat then 3 else n.

(** A receiver right after a flag whose character map also marks XON and
    XOFF (0x11 and 0x13). *)
Definition ex_rx_xon : world :=
  mk_world ∅ 0 0 1000 [] [] [] []
    (mk_pcb 0 ex_accm false false
            (mk_rx (<[2%nat := 0x0A]> ex_accm) None None 0 0xFFFF PDADDRESS
                   false)).



(** A receiver, with buffers of 8 bytes, that has read 7E 00 78 F0: the
    protocol field 00 78 and the single data octet F0, with the check
    sequence at 0xF0B8. *)
Definition ex_rx_short : world :=
  mk_world {[ 0%nat := mk_pbuf None [0x00; 0x78; 0xF0; 0; 0; 0; 0; 0] 0 3 ]}
    1 0 1000 [] [] [] []
    (mk_pcb 0 ex_accm false false
            (mk_rx ex_accm (Some 0%nat) (Some 0%nat) 0x0078 0xF0B8 PDDATA false)).

(** A sender whose transmit map marks XON and XOFF besides the flag and
    the escape octet, holding a payload with three marked octets. *)
Definition ex_tx_marked : world :=
  mk_world {[ 0%nat := mk_pbuf None [0x7E; 0x11; 0x7D; 0x04] 4 4 ]}
    1 0 1000 [] [] [] []
    (mk_pcb 0 (<[2%nat := 0x0A]> ex_accm) false false
            (mk_rx ex_accm None None 0 0 PDIDLE false)).

Section PPPoS.

(** The size of a pool buffer and the idle time after which a fresh flag is
    sent are configuration macros of lwipopts.h / ppp_opts.h. *)
Variable PBUF_POOL_BUFSIZE : Z.
Variable PPP_MAXIDLEFLAG : Z.

(** The pool is shared with the rest of the stack: whether the k-th request
    for a buffer succeeds is decided outside this file. *)
Variable pool_ok : nat -> bool.

(** The serial device: how many octets the k-th [sio_write] reports as
    written when offered a given number. *)
Variable sio_ret : nat -> Z -> Z.

(** ** pbuf library *)

(** Modelled from the spec: [pbuf_alloc(PBUF_RAW, 0, PBUF_POOL)] of
    lwip/pbuf.c, which is not among the sources.  A fixed-capacity buffer
    with no bytes in use, or null when the pool is exhausted. *)
Definition pbuf_alloc : M (option loc) :=
  fun w =>
    let k := allocs w in
    if pool_ok k
    then Ok (Some k,
             set_allocs (S k)
               (set_heap (<[k := mk_pbuf None
                                 (replicate (Z.to_nat PBUF_POOL_BUFSIZE) 0)
                                 0 0]>) w))
    else Ok (None, set_allocs (S k) w).

Fixpoint pbuf_free_chain (fuel : nat) (p : option loc) : M unit :=
  match p with
  | None => ret tt
  | Some l =>
      match fuel with
      | O => fail NoTermination
      | S f =>
          b <- load p ;;
          modify (set_heap (delete l)) ;;;
          pbuf_free_chain f (next b)
      end
  end.

(** Modelled from the spec: [pbuf_free] of lwip/pbuf.c, for buffers that
    have a single reference: the whole chain is returned to the pool. *)
Definition pbuf_free (p : option loc) : M unit :=
  match p with
  | None => ret tt
  | Some l =>
      modify (add_freed l) ;;;
      w <- get ;;
      pbuf_free_chain (S (allocs w)) p
  end.

Fixpoint pbuf_cat_loop (fuel : nat) (p t : option loc) : M unit :=
  match fuel with
  | O => fail NoTermination
  | S f =>
      b <- load p ;;
      tb <- load t ;;
      update p (set_tot_len (u16 (tot_len b + tot_len tb))) ;;;
      match next b with
      | Some _ => pbuf_cat_loop f (next b) t
      | None => update p (set_next t)
      end
  end.

(** Modelled from the spec: [pbuf_cat] of lwip/pbuf.c ("concatenate tail into
    head"): the total length of [t] is added to every buffer of the chain
    [h], whose last buffer is then linked to [t]. *)
Definition pbuf_cat (h t : option loc) : M unit :=
  w <- get ;;
  pbuf_cat_loop (S (allocs w)) h t.

Fixpoint pbuf_realloc_loop (fuel : nat) (q : option loc) (rem_len grow : Z)
  : M (option loc * Z) :=
  match fuel with
  | O => fail NoTermination
  | S f =>
      b <- load q ;;
      if rem_len >? len b
      then update q (set_tot_len (u16 (tot_len b + grow))) ;;;
           pbuf_realloc_loop f (next b) (u16 (rem_len - len b)) grow
      else ret (q, rem_len)
  end.

(** Modelled from the spec: [pbuf_realloc] of lwip/pbuf.c ("shrink head's
    total length"): the chain is cut to [new_len] bytes, the buffers after
    the new last one are freed. *)
Definition pbuf_realloc (p : option loc) (new_len : Z) : M unit :=
  b <- load p ;;
  if new_len >=? tot_len b then ret tt
  else
    w <- get ;;
    r <- pbuf_realloc_loop (S (allocs w)) p new_len (new_len - tot_len b) ;;
    update r.1 (set_len r.2) ;;;
    update r.1 (set_tot_len r.2) ;;;
    q <- load r.1 ;;
    pbuf_free (next q) ;;;
    update r.1 (set_next None).

(** ** Collaborators *)

(** Modelled from the spec: the serial device, "a single write primitive
    returning the number of bytes actually written". *)
Definition sio_write (data : list Z) : M Z :=
  fun w =>
    let c := sio_ret (sio_calls w) (Z.of_nat (length data)) in
    Ok (c, set_sio (S (sio_calls w)) (take (Z.to_nat c) data) w).

(** Modelled from the spec: [sys_jiffies], the tick counter of the port. *)
Definition sys_jiffies : M Z := w <- get ;; ret (jiffies w).

(** Modelled from the spec: [ppp_input], which takes ownership of the
    chain. *)
Definition ppp_input (inp : option loc) : M unit :=
  match inp with
  | Some l => modify (add_delivered l)
  | None => fail NullDeref
  end.

(** ** pppos_append *)

Definition pppos_append (c : Z) (nb : option loc) (out_accm : option ext_accm)
  : M (option loc) :=
  tb <- match nb with
        | Some _ =>
            b <- load nb ;;
            if PBUF_POOL_BUFSIZE - len b <? 2
            then
              tb <- pbuf_alloc ;;
              match tb with
              | Some _ => update nb (set_next tb)
              | None => LINK_STATS_INC link_memerr
              end ;;;
              ret tb
            else ret nb
        | None => ret None
        end ;;
  match tb with
  | Some _ =>
      match out_accm with
      | Some accm =>
          if escaped accm c
          then push tb PPP_ESCAPE ;;; push tb (Z.lxor c PPP_TRANS)
          else push tb c
      | None => push tb c
      end
  | None => ret tt
  end ;;;
  ret tb.

(** ** pppos_xmit *)

Fixpoint pppos_xmit_loop (fuel : nat) (nb b : option loc) : M bool :=
  match b with
  | None => ret true
  | Some _ =>
      match fuel with
      | O => fail NoTermination
      | S f =>
          pb <- load b ;;
          if (Z.to_nat (len pb) <=? length (payload pb))%nat
          then
            c <- sio_write (take (Z.to_nat (len pb)) (payload pb)) ;;
            if negb (c =? len pb)
            then LINK_STATS_INC link_err ;;;
                 modify (set_ppp (set_last_xmit 0)) ;;;
                 snmp_inc ifoutdiscards ;;;
                 pbuf_free nb ;;;
                 ret false
            else pppos_xmit_loop f nb (next pb)
          else fail OutOfBounds
      end
  end.

Definition pppos_xmit (nb : option loc) : M unit :=
  w <- get ;;
  sent <- pppos_xmit_loop (S (allocs w)) nb nb ;;
  if sent
  then h <- load nb ;;
       snmp_add ifoutoctets (tot_len h) ;;;
       snmp_inc ifoutucastpkts ;;;
       pbuf_free nb ;;;
       LINK_STATS_INC link_xmit
  else ret tt.

(** ** Transmit callbacks *)

(** The loop [while (n-- > 0) { c = *s++; ... }] over the bytes of one
    buffer, [i] being the offset [s] has reached. *)
Fixpoint tx_load (n : nat) (p : option loc) (i : nat) (fcs_out : Z)
  (tail : option loc) : M (Z * option loc) :=
  match n with
  | O => ret (fcs_out, tail)
  | S n' =>
      c <- peek p i ;;
      w <- get ;;
      tail' <- pppos_append c tail (Some (out_accm (ppp w))) ;;
      tx_load n' p (S i) (PPP_FCS fcs_out c) tail'
  end.

(** "Add FCS and trailing flag", common to both callbacks. *)
Definition tx_trailer (fcs_out : Z) (tail : option loc) : M (option loc) :=
  w <- get ;;
  tail <- pppos_append (Z.land (u32 (Z.lnot fcs_out)) 0xFF) tail
            (Some (out_accm (ppp w))) ;;
  tail <- pppos_append (Z.land (Z.shiftr (u32 (Z.lnot fcs_out)) 8) 0xFF) tail
            (Some (out_accm (ppp w))) ;;
  pppos_append PPP_FLAG tail None.

(** "If the link has been idle, send a fresh flag", then stamp the time. *)
Definition tx_idle_flag (tail : option loc) : M (option loc) :=
  now <- sys_jiffies ;;
  w <- get ;;
  tail <- (if u32 (now - last_xmit (ppp w)) >=? PPP_MAXIDLEFLAG
           then pppos_append PPP_FLAG tail None
           else ret tail) ;;
  now' <- sys_jiffies ;;
  modify (set_ppp (set_last_xmit now')) ;;;
  ret tail.

Definition pppos_link_write_callback (p : option loc) : M ppperr :=
  pb <- load p ;;
  head <- pbuf_alloc ;;
  match head with
  | None =>
      LINK_STATS_INC link_memerr ;;;
      LINK_STATS_INC link_proterr ;;;
      snmp_inc ifoutdiscards ;;;
      pbuf_free p ;;;
      ret PPPERR_ALLOC
  | Some _ =>
      tail <- tx_idle_flag head ;;
      r <- tx_load (Z.to_nat (len pb)) p 0 PPP_INITFCS tail ;;
      tail <- tx_trailer r.1 r.2 ;;
      match tail with
      | None =>
          pbuf_free head ;;;
          LINK_STATS_INC link_memerr ;;;
          LINK_STATS_INC link_proterr ;;;
          snmp_inc ifoutdiscards ;;;
          pbuf_free p ;;;
          ret PPPERR_ALLOC
      | Some _ =>
          pppos_xmit head ;;;
          pbuf_free p ;;;
          ret PPPERR_NONE
      end
  end.

(** The loop [for (p = pb; p; p = p->next)] over the payload chain. *)
Fixpoint tx_load_chain (fuel : nat) (p : option loc) (fcs_out : Z)
  (tail : option loc) : M (Z * option loc) :=
  match p with
  | None => ret (fcs_out, tail)
  | Some _ =>
      match fuel with
      | O => fail NoTermination
      | S f =>
          b <- load p ;;
          r <- tx_load (Z.to_nat (len b)) p 0 fcs_out tail ;;
          b' <- load p ;;
          tx_load_chain f (next b') r.1 r.2
      end
  end.

(** One header octet: into the check sequence, then onto the chain. *)
Definition tx_header_byte (c : Z) (st : Z * option loc) : M (Z * option loc) :=
  w <- get ;;
  tail <- pppos_append c st.2 (Some (out_accm (ppp w))) ;;
  ret (PPP_FCS st.1 c, tail).

Definition pppos_link_netif_output_callback (pb : option loc) (protocol : Z)
  : M err_t :=
  head <- pbuf_alloc ;;
  match head with
  | None =>
      LINK_STATS_INC link_memerr ;;;
      LINK_STATS_INC link_drop ;;;
      snmp_inc ifoutdiscards ;;;
      ret ERR_MEM
  | Some _ =>
      tail <- tx_idle_flag head ;;
      w <- get ;;
      st <- (if negb (accomp (ppp w))
             then st <- tx_header_byte PPP_ALLSTATIONS (PPP_INITFCS, tail) ;;
                  tx_header_byte PPP_UI st
             else ret (PPP_INITFCS, tail)) ;;
      st <- (if negb (pcomp (ppp w)) || (protocol >? 0xFF)
             then tx_header_byte (Z.land (Z.shiftr protocol 8) 0xFF) st
             else ret st) ;;
      st <- tx_header_byte (Z.land protocol 0xFF) st ;;
      w' <- get ;;
      st <- tx_load_chain (S (allocs w')) pb st.1 st.2 ;;
      tail <- tx_trailer st.1 st.2 ;;
      match tail with
      | None =>
          pbuf_free head ;;;
          LINK_STATS_INC link_memerr ;;;
          LINK_STATS_INC link_drop ;;;
          snmp_inc ifoutdiscards ;;;
          ret ERR_MEM
      | Some _ =>
          pppos_xmit head ;;;
          ret ERR_OK
      end
  end.

(** ** Receive side *)

Definition rx_get : M ppp_pcb_rx := w <- get ;; ret (rx (ppp w)).
Definition rx_set (f : ppp_pcb_rx -> ppp_pcb_rx) : M unit :=
  modify (set_ppp (set_rx f)).

Definition pppos_free_current_input_packet : M unit :=
  r <- rx_get ;;
  match in_head r with
  | Some _ =>
      (if bool_decide (in_tail r <> None) && bool_decide (in_tail r <> in_head r)
       then pbuf_free (in_tail r)
       else ret tt) ;;;
      pbuf_free (in_head r) ;;;
      rx_set (set_in_head None)
  | None => ret tt
  end ;;;
  rx_set (set_in_tail None).

Definition pppos_drop : M unit :=
  pppos_free_current_input_packet ;;;
  LINK_STATS_INC link_drop ;;;
  snmp_inc ifindiscards.

(** "Otherwise it's a good packet so pass it on." *)
Definition rx_deliver : M unit :=
  r <- rx_get ;;
  t <- load (in_tail r) ;;
  (if len t >? 2
   then
     update (in_tail r) (set_len (u16 (len t - 2))) ;;;
     t' <- load (in_tail r) ;;
     update (in_tail r) (set_tot_len (len t')) ;;;
     (if bool_decide (in_tail r <> in_head r)
      then pbuf_cat (in_head r) (in_tail r)
      else ret tt)
   else
     update (in_tail r) (set_tot_len (len t)) ;;;
     (if bool_decide (in_tail r <> in_head r)
      then pbuf_cat (in_head r) (in_tail r)
      else ret tt) ;;;
     h <- load (in_head r) ;;
     pbuf_realloc (in_head r) (u16 (tot_len h - 2))) ;;;
  rx_set (set_in_head None) ;;;
  rx_set (set_in_tail None) ;;;
  ppp_input (in_head r).

(** The branch [cur_char == PPP_FLAG]. *)
Definition rx_flag : M unit :=
  r <- rx_get ;;
  (if pd_num (in_state r) <=? pd_num PDADDRESS then ret tt
   else if pd_num (in_state r) <? pd_num PDDATA
   then LINK_STATS_INC link_lenerr ;;; pppos_drop
   else if negb (in_fcs r =? PPP_GOODFCS)
   then LINK_STATS_INC link_chkerr ;;; pppos_drop
   else rx_deliver) ;;;
  rx_set (set_in_fcs PPP_INITFCS) ;;;
  rx_set (set_in_state PDADDRESS) ;;;
  rx_set (set_in_escaped false).

(** The labels of the switch, each falling through to the next. *)
Definition case_PDPROTOCOL1 (cur_char : Z) : M unit :=
  if negb (Z.land cur_char 1 =? 0)
  then rx_set (set_in_protocol cur_char) ;;;
       rx_set (set_in_state PDDATA)
  else rx_set (set_in_protocol (u16 (Z.shiftl cur_char 8))) ;;;
       rx_set (set_in_state PDPROTOCOL2).

Definition case_PDCONTROL (cur_char : Z) : M unit :=
  if cur_char =? PPP_UI
  then rx_set (set_in_state PDPROTOCOL1)
  else case_PDPROTOCOL1 cur_char.

Definition case_PDADDRESS (cur_char : Z) : M unit :=
  if cur_char =? PPP_ALLSTATIONS
  then rx_set (set_in_state PDCONTROL)
  else case_PDCONTROL cur_char.

Definition case_PDSTART (cur_char : Z) : M unit :=
  rx_set (set_in_fcs PPP_INITFCS) ;;;
  case_PDADDRESS cur_char.

Definition case_PDIDLE (cur_char : Z) : M unit :=
  if negb (cur_char =? PPP_ALLSTATIONS)
  then ret tt
  else case_PDSTART cur_char.

Definition case_PDPROTOCOL2 (cur_char : Z) : M unit :=
  r <- rx_get ;;
  rx_set (set_in_protocol (Z.lor (in_protocol r) cur_char)) ;;;
  rx_set (set_in_state PDDATA).

(** "Make space to receive processed data", first half: the full tail is
    closed and, unless it is the head itself, chained behind the head. *)
Definition rx_close_tail : M unit :=
  r <- rx_get ;;
  match in_tail r with
  | Some _ =>
      t <- load (in_tail r) ;;
      update (in_tail r) (set_tot_len (len t)) ;;;
      if bool_decide (in_tail r <> in_head r)
      then pbuf_cat (in_head r) (in_tail r) ;;;
           rx_set (set_in_tail None)
      else ret tt
  | None => ret tt
  end.

(** Second half: a buffer is requested and becomes the tail, and the head
    with the protocol number in front when there is no head yet.  Returns
    [false] when the switch is left early because no buffer could be had. *)
Definition rx_open_tail : M bool :=
  next_pbuf <- pbuf_alloc ;;
  match next_pbuf with
  | None =>
      LINK_STATS_INC link_memerr ;;;
      pppos_drop ;;;
      rx_set (set_in_state PDSTART) ;;;
      ret false
  | Some _ =>
      r' <- rx_get ;;
      match in_head r' with
      | None =>
          nb <- load next_pbuf ;;
          update next_pbuf (set_len (u16 (len nb + 2))) ;;;
          poke next_pbuf 0 (u8 (Z.shiftr (in_protocol r') 8)) ;;;
          poke next_pbuf 1 (u8 (Z.land (in_protocol r') 0xFF)) ;;;
          rx_set (set_in_head next_pbuf)
      | Some _ => ret tt
      end ;;;
      rx_set (set_in_tail next_pbuf) ;;;
      ret true
  end.

Definition rx_make_space : M bool :=
  rx_close_tail ;;;
  rx_open_tail.

Definition case_PDDATA (cur_char : Z) : M unit :=
  r <- rx_get ;;
  full <- match in_tail r with
          | None => ret true
          | Some _ => t <- load (in_tail r) ;; ret (len t =? PBUF_POOL_BUFSIZE)
          end ;;
  go <- (if full then rx_make_space else ret true) ;;
  if go
  then r' <- rx_get ;; push (in_tail r') cur_char
  else ret tt.

(** "Process character relative to current state." *)
Definition rx_switch (st : pd_state) (cur_char : Z) : M unit :=
  match st with
  | PDIDLE => case_PDIDLE cur_char
  | PDSTART => case_PDSTART cur_char
  | PDADDRESS => case_PDADDRESS cur_char
  | PDCONTROL => case_PDCONTROL cur_char
  | PDPROTOCOL1 => case_PDPROTOCOL1 cur_char
  | PDPROTOCOL2 => case_PDPROTOCOL2 cur_char
  | PDDATA => case_PDDATA cur_char
  end.

(** "Process other characters": unescape, run the switch, update the check
    sequence. *)
Definition rx_char (cur_char : Z) : M unit :=
  r <- rx_get ;;
  let cur_char' := if in_escaped r then Z.lxor cur_char PPP_TRANS
                   else cur_char in
  (if in_escaped r then rx_set (set_in_escaped false) else ret tt) ;;;
  rx_switch (in_state r) cur_char' ;;;
  r' <- rx_get ;;
  rx_set (set_in_fcs (u16 (PPP_FCS (in_fcs r') cur_char'))).

(** One turn of the loop of [pppos_input]. *)
Definition pppos_input_byte (cur_char : Z) : M unit :=
  r <- rx_get ;;
  if escaped (in_accm r) cur_char
  then
    if cur_char =? PPP_ESCAPE then rx_set (set_in_escaped true)
    else if cur_char =? PPP_FLAG then rx_flag
    else ret tt
  else rx_char cur_char.

(** [magic_randomize] reseeds the random number generator; it touches
    nothing the framer reads. *)
Definition magic_randomize : M unit := ret tt.

Fixpoint pppos_input_loop (s : list Z) : M unit :=
  match s with
  | [] => ret tt
  | cur_char :: s' => pppos_input_byte cur_char ;;; pppos_input_loop s'
  end.

Definition pppos_input (s : list Z) : M unit :=
  pppos_input_loop s ;;;
  magic_randomize.

(** ** pppos_connect *)

(** Modelled from the spec: [ppp_clear] of ppp.c, "reset PPP engine's
    per-session state": the control block is zeroed. *)
Definition ppp_clear : M unit :=
  modify (set_ppp (fun _ =>
    mk_pcb 0 (replicate 32 0) false false
           (mk_rx (replicate 32 0) None None 0 0 PDIDLE false))).

(** Of the statements of [pppos_connect], those on [rx.pcb], [rx.fd] and
    the IPCP option blocks write fields that are not part of the control
    block modelled here, and [ppp_start], which notifies the upper engine,
    touches nothing that is. *)
Definition pppos_connect : M unit :=
  pppos_free_current_input_packet ;;;
  ppp_clear ;;;
  rx_set (fun r => mk_rx (<[15%nat := 0x60]> (in_accm r)) (in_head r)
                         (in_tail r) (in_protocol r) (in_fcs r) (in_state r)
                         (in_escaped r)) ;;;
  modify (set_ppp (fun p => mk_pcb (last_xmit p) (<[15%nat := 0x60]> (out_accm p))
                                   (accomp p) (pcomp p) (rx p))).

(** ** pppos_disconnect, pppos_destroy and the command callback *)

(** Modelled from the spec: [ppp_link_end] of ppp.c, "notify upper engine
    of link end"; the upper engine's state is outside this model. *)
Definition ppp_link_end : M unit := ret tt.

(** Modelled from the spec: [memp_free(MEMP_PPPOS_PCB, sc)], "release the
    link context"; the storage of the context is outside this model. *)
Definition memp_free : M unit := ret tt.

Definition pppos_disconnect : M unit :=
  ppp_link_end.

Definition pppos_destroy : M err_t :=
  pppos_free_current_input_packet ;;;
  memp_free ;;;
  ret ERR_OK.

(** Modelled from the spec: the commands of the link adapter, "CONNECT,
    DISCONNECT, FREE"; [PPP_LINK_COMMAND_other] stands for any other
    command code. *)
Inductive link_command :=
  | PPP_LINK_COMMAND_CONNECT
  | PPP_LINK_COMMAND_DISCONNECT
  | PPP_LINK_COMMAND_FREE
  | PPP_LINK_COMMAND_other (code : Z).

Definition pppos_link_command_callback (command : link_command) : M unit :=
  match command with
  | PPP_LINK_COMMAND_CONNECT => pppos_connect
  | PPP_LINK_COMMAND_DISCONNECT => pppos_disconnect
  | PPP_LINK_COMMAND_FREE => pppos_destroy ;;; ret tt
  | PPP_LINK_COMMAND_other _ => ret tt
  end.

(** ** Vocabulary of the statements *)

(** The bytes in use in one buffer, and in a list of buffers. *)
Definition buf_bytes (b : pbuf) : list Z := take (Z.to_nat (len b)) (payload b).

Definition bytes_at (h : gmap loc pbuf) (l : loc) : list Z :=
  from_option buf_bytes [] (h !! l).

Definition chain_bytes (h : gmap loc pbuf) (ls : list loc) : list Z :=
  concat (map (bytes_at h) ls).

(** [lseg_to h p ls q]: following [next] from [p] visits exactly [ls] and then
    reaches [q]; [lseg] is the case of a chain that ends in the null
    pointer. *)
Fixpoint lseg_to (h : gmap loc pbuf) (p : option loc) (ls : list loc)
  (q : option loc) : Prop :=
  match ls with
  | [] => p = q
  | l :: ls' => p = Some l /\ exists b, h !! l = Some b /\ lseg_to h (next b) ls' q
  end.

Definition lseg (h : gmap loc pbuf) (p : option loc) (ls : list loc) : Prop :=
  lseg_to h p ls None.

(** Every live buffer was handed out by an earlier allocation. *)
Definition heap_ok (w : world) : Prop :=
  forall l, is_Some (heap w !! l) -> (l < allocs w)%nat.

(** A pool buffer in a sane state. *)
Definition pool_buf (b : pbuf) : Prop :=
  length (payload b) = Z.to_nat PBUF_POOL_BUFSIZE /\
  0 <= len b <= PBUF_POOL_BUFSIZE.

(** What one logical octet becomes on the wire under an ACCM (spec 4.2:
    "c -> two bytes 0x7D, c XOR 0x20"). *)
Definition enc (accm : option ext_accm) (c : Z) : list Z :=
  match accm with
  | Some a => if escaped a c then [PPP_ESCAPE; Z.lxor c PPP_TRANS] else [c]
  | None => [c]
  end.

Definition enc_all (accm : ext_accm) (bs : list Z) : list Z :=
  concat (map (enc (Some accm)) bs).

(** The character map in the words of the specification (4.2), written
    without [ESCAPE_P] so that the two can be compared: a mask of 256 bits
    stored as 32 octets, least significant bit first; the character [c] is
    marked when bit [c mod 8] of octet [c / 8] of the map is set. *)
Definition accm_bit (accm : ext_accm) (c : Z) : bool :=
  Z.testbit (nth (Z.to_nat (c / 8)) accm 0) (c mod 8).

(** ACCM escaping in the words of the specification (4.2): a marked octet
    goes out as the two octets 0x7D, [c] XOR 0x20, any other octet as
    itself. *)
Definition escape_octet (accm : ext_accm) (c : Z) : list Z :=
  if accm_bit accm c then [0x7D; Z.lxor c 0x20] else [c].

Definition escape_octets (accm : ext_accm) (bs : list Z) : list Z :=
  concat (map (escape_octet accm) bs).

(** The octet that stands for [c] on the wire: [c] itself when it is sent
    as it is, and [c] XOR 0x20, sent after 0x7D, when it is escaped. *)
Definition wire_octet (accm : ext_accm) (c : Z) : Z :=
  if escaped accm c then Z.lxor c PPP_TRANS else c.

(** The effect of [push] on the buffer it writes. *)
Definition push_buf (c : Z) (b : pbuf) : pbuf :=
  mk_pbuf (next b) (<[Z.to_nat (len b) := c]> (payload b)) (tot_len b)
          (u16 (len b + 1)).

Definition push_list (cs : list Z) (b : pbuf) : pbuf :=
  fold_left (fun b c => push_buf c b) cs b.

Definition fresh_pbuf : pbuf :=
  mk_pbuf None (replicate (Z.to_nat PBUF_POOL_BUFSIZE) 0) 0 0.

(** The output chain under construction: a null-terminated chain of pool
    buffers, all allocated at or after address [A0]. *)
Record tx_chain (A0 : nat) (w : world) (hd : loc) (ls : list loc) : Prop := {
  txc_heap : heap_ok w;
  txc_seg : lseg (heap w) (Some hd) ls;
  txc_nodup : NoDup ls;
  txc_fresh : Forall (fun l => (A0 <= l)%nat) ls;
  txc_bufs : Forall (fun l => exists b, heap w !! l = Some b /\ pool_buf b) ls
}.

(** The tail pointer of the callbacks: null after a failed allocation,
    else the last buffer of the chain. *)
Definition tail_ok (ls : list loc) (tail : option loc) : Prop :=
  tail = None \/ tail = last ls.

(** What building the output chain leaves alone. *)
Record tx_step (A0 : nat) (w w' : world) : Prop := {
  txs_ppp : ppp w' = ppp w;
  txs_wire : wire w' = wire w;
  txs_delivered : delivered w' = delivered w;
  txs_freed : freed w' = freed w;
  txs_sio : sio_calls w' = sio_calls w;
  txs_jiffies : jiffies w' = jiffies w;
  txs_allocs : (allocs w <= allocs w')%nat;
  txs_frame : forall l, (l < A0)%nat -> heap w' !! l = heap w !! l
}.

(** The builder state of the transmit callbacks: the chain from [hd], the
    tail pointer, and the octets laid down so far while the tail is live. *)
Definition tx_inv (A0 : nat) (w : world) (hd : loc) (tail : option loc)
  (out : list Z) : Prop :=
  exists ls, tx_chain A0 w hd ls /\ tail_ok ls tail /\
             (tail <> None -> chain_bytes (heap w) ls = out).

(** A tail pointer only ever goes from live to null, and not at all when
    every allocation succeeds. *)
Definition tail_flow (tail tail' : option loc) : Prop :=
  (tail' <> None -> tail <> None) /\
  (tail <> None -> (forall k, pool_ok k = true) -> tail' <> None).

(** A payload chain as the upper engine hands it over: null-terminated,
    every buffer holding [len] bytes within its storage. *)
Definition payload_chain (w : world) (pb : option loc) (pls : list loc) : Prop :=
  lseg (heap w) pb pls /\
  Forall (fun l => exists b, heap w !! l = Some b /\ 0 <= len b /\
                             (Z.to_nat (len b) <= length (payload b))%nat) pls.

(** The two octets sent after the payload: the complemented check sequence,
    low octet first. *)
Definition fcs_trailer (fcs : Z) : list Z :=
  [Z.land (u32 (Z.lnot fcs)) 0xFF; Z.land (Z.shiftr (u32 (Z.lnot fcs)) 8) 0xFF].

(** The address, control and protocol octets in front of the payload. *)
Definition tx_header (acfc pfc : bool) (protocol : Z) : list Z :=
  (if acfc then [] else [PPP_ALLSTATIONS; PPP_UI]) ++
  (if negb pfc || (protocol >? 0xFF)
   then [Z.land (Z.shiftr protocol 8) 0xFF] else []) ++
  [Z.land protocol 0xFF].

(** The octets of one frame on the wire. *)
Definition hdlc_frame (idle : bool) (accm : ext_accm) (body : list Z) : list Z :=
  (if idle then [PPP_FLAG] else []) ++
  enc_all accm (body ++ fcs_trailer (fcs_update PPP_INITFCS body)) ++
  [PPP_FLAG].

(** The idle test of the callbacks. *)
Definition link_idle (w : world) : bool :=
  u32 (jiffies w - last_xmit (ppp w)) >=? PPP_MAXIDLEFLAG.

(** The heap without the buffers of [ls]. *)
Definition delete_all (ls : list loc) (h : gmap loc pbuf) : gmap loc pbuf :=
  fold_left (fun h l => delete l h) ls h.

(** The first short write when the segments [segs] are offered to the
    serial device from its k-th call on: its position and what the device
    reported; [None] when every segment is taken whole. *)
Fixpoint short_write (k : nat) (segs : list (list Z)) : option (nat * Z) :=
  match segs with
  | [] => None
  | s :: rest =>
      let c := sio_ret k (Z.of_nat (length s)) in
      if c =? Z.of_nat (length s)
      then match short_write (S k) rest with
           | Some (j, c') => Some (S j, c')
           | None => None
           end
      else Some (O, c)
  end.

(** The state [pppos_xmit] leaves behind, for both outcomes. *)
Definition xmit_result (w : world) (hd : loc) (ls : list loc) : world :=
  let segs := map (bytes_at (heap w)) ls in
  match short_write (sio_calls w) segs with
  | None =>
      mk_world (delete_all ls (heap w)) (allocs w)
               (sio_calls w + length ls)%nat (jiffies w)
               (wire w ++ concat segs) (delivered w) (freed w ++ [hd])
               ((link_xmit, 1) :: (ifoutucastpkts, 1) ::
                (ifoutoctets, from_option tot_len 0 (heap w !! hd)) :: stats w)
               (ppp w)
  | Some (j, c) =>
      mk_world (delete_all ls (heap w)) (allocs w)
               (sio_calls w + S j)%nat (jiffies w)
               (wire w ++ concat (take j segs) ++
                  take (Z.to_nat c) (nth j segs []))
               (delivered w) (freed w ++ [hd])
               ((ifoutdiscards, 1) :: (link_err, 1) :: stats w)
               (set_last_xmit 0 (ppp w))
  end.

(** A decidable form of [heap_ok]. *)
Definition heap_okb (w : world) : bool :=
  forallb (fun e => (e.1 <? allocs w)%nat) (map_to_list (heap w)).

(** ** The receive chain *)

(** The buffers the framer has filled and chained behind the head: each
    holds a full [PBUF_POOL_BUFSIZE] bytes, and [tot_len] of the i-th counts
    the bytes from it to the end of the chain (as a 16-bit value). *)
Definition full_chain (h : gmap loc pbuf) (ls : list loc) : Prop :=
  forall i l, ls !! i = Some l ->
    exists b, h !! l = Some b /\
              length (payload b) = Z.to_nat PBUF_POOL_BUFSIZE /\
              len b = PBUF_POOL_BUFSIZE /\
              tot_len b = u16 (Z.of_nat (length ls - i) * PBUF_POOL_BUFSIZE).

(** The shapes the receive chain takes between two input bytes, with the
    bytes [stored] in it: nothing yet; the head alone; or a chain of full
    buffers and a separate tail not yet linked to it. *)
Inductive rx_shape (w : world) (stored : list Z) : Prop :=
  | rx_none :
      in_head (rx (ppp w)) = None -> in_tail (rx (ppp w)) = None ->
      stored = [] ->
      rx_shape w stored
  | rx_single hd b :
      in_head (rx (ppp w)) = Some hd -> in_tail (rx (ppp w)) = Some hd ->
      heap w !! hd = Some b -> pool_buf b -> next b = None -> 3 <= len b ->
      stored = buf_bytes b ->
      rx_shape w stored
  | rx_multi hd t ls tb :
      in_head (rx (ppp w)) = Some hd -> in_tail (rx (ppp w)) = Some t ->
      lseg (heap w) (Some hd) ls -> t ∉ ls -> full_chain (heap w) ls ->
      heap w !! t = Some tb -> pool_buf tb -> next tb = None -> 1 <= len tb ->
      stored = chain_bytes (heap w) ls ++ buf_bytes tb ->
      rx_shape w stored.

(** The two octets reserved in front of the data. *)
Definition proto_prefix (w : world) : list Z :=
  [u8 (Z.shiftr (in_protocol (rx (ppp w))) 8);
   u8 (Z.land (in_protocol (rx (ppp w))) 0xFF)].

(** The bytes in the receive chain when [data] are the octets absorbed in
    state DATA since the protocol field. *)
Definition rx_stored (w : world) (data : list Z) : list Z :=
  match data with
  | [] => []
  | _ => proto_prefix w ++ data
  end.

(** The invariant of the receive side. *)
Record rx_inv (w : world) (data : list Z) : Prop := {
  rxi_heap : heap_ok w;
  rxi_proto : is_u16 (in_protocol (rx (ppp w)));
  rxi_fcs : is_u16 (in_fcs (rx (ppp w)));
  rxi_shape : rx_shape w (rx_stored w data);
  rxi_state : data <> [] -> in_state (rx (ppp w)) = PDDATA
}.

(** What the receive side never touches. *)
Record rx_step (w w' : world) : Prop := {
  rxs_wire : wire w' = wire w;
  rxs_sio : sio_calls w' = sio_calls w;
  rxs_jiffies : jiffies w' = jiffies w;
  rxs_last_xmit : last_xmit (ppp w') = last_xmit (ppp w);
  rxs_out_accm : out_accm (ppp w') = out_accm (ppp w);
  rxs_accomp : accomp (ppp w') = accomp (ppp w);
  rxs_pcomp : pcomp (ppp w') = pcomp (ppp w);
  rxs_in_accm : in_accm (rx (ppp w')) = in_accm (rx (ppp w));
  rxs_allocs : (allocs w <= allocs w')%nat
}.

(** The receive control block. *)
Definition rxf (w : world) : ppp_pcb_rx := rx (ppp w).

(** A receive chain that [pppos_drop] can release: no head; a chain from
    the head with the tail inside it or null; or a chain from the head and
    a separate, unlinked tail. *)
Definition rx_droppable (w : world) : Prop :=
  in_head (rxf w) = None \/
  exists hd ls,
    in_head (rxf w) = Some hd /\ lseg (heap w) (Some hd) ls /\
    (in_tail (rxf w) = None \/ in_tail (rxf w) = Some hd \/
     exists t tb, in_tail (rxf w) = Some t /\ (t ∉ ls) /\
                  heap w !! t = Some tb /\ next tb = None).

(** The head buffer right after the protocol number is written into its
    first two bytes. *)
Definition head_buf (x y : Z) : pbuf :=
  mk_pbuf None
          (<[1%nat := y]> (<[0%nat := x]> (replicate (Z.to_nat PBUF_POOL_BUFSIZE) 0)))
          0 2.

(** What absorbing one data octet [c] does to the receive side: the octet
    joins the chain, or, when no buffer can be had, the frame is dropped
    and the framer waits for the next flag. *)
Definition data_post (w : world) (data : list Z) (c : Z) (w' : world) : Prop :=
  rx_step w w' /\
  in_fcs (rxf w') = in_fcs (rxf w) /\
  in_escaped (rxf w') = in_escaped (rxf w) /\
  in_protocol (rxf w') = in_protocol (rxf w) /\
  delivered w' = delivered w /\
  ((rx_inv w' (data ++ [c]) /\ in_state (rxf w') = PDDATA /\
    stats w' = stats w) \/
   (rx_inv w' [] /\ in_state (rxf w') = PDSTART /\
    pool_ok (allocs w) = false /\
    stats w' = (ifindiscards, 1) :: (link_drop, 1) :: (link_memerr, 1)
               :: stats w)).

(** What the good-frame branch leaves behind when the frame carries [data]
    in its data phase: the chain from [hd], along the buffers [ls], is with
    the upper engine, holds the protocol number and the data without the
    two check octets, and the framer has let go of it. *)
Definition deliver_post (w : world) (data : list Z) (w' : world)
  (hd : loc) (ls : list loc) : Prop :=
  in_head (rxf w) = Some hd /\
  delivered w' = delivered w ++ [hd] /\
  rxf w' = set_in_tail None (set_in_head None (rxf w)) /\
  heap_ok w' /\ rx_step w w' /\ stats w' = stats w /\
  lseg (heap w') (Some hd) ls /\
  chain_bytes (heap w') ls
    = proto_prefix w ++ take (length data - 2) data /\
  exists b, heap w' !! hd = Some b /\
            tot_len b = 2 + Z.of_nat (length data - 2).

(** "Prepare for a new packet": what every processed flag leaves in the
    receive control block. *)
Definition rx_reset (r : ppp_pcb_rx) : ppp_pcb_rx :=
  set_in_escaped false (set_in_state PDADDRESS (set_in_fcs PPP_INITFCS r)).

(** The receive control block after a frame is let go of and the framer is
    prepared for the next one. *)
Definition rx_released (r : ppp_pcb_rx) : ppp_pcb_rx :=
  rx_reset (set_in_tail None (set_in_head None r)).

(** A dropped frame: the counters of the drop after the counter [c] of its
    cause, nothing delivered, the chain let go of. *)
Definition flag_drop_post (c : counter) (w w' : world) : Prop :=
  heap_ok w' /\ rx_step w w' /\
  rxf w' = rx_released (rxf w) /\
  stats w' = (ifindiscards, 1) :: (link_drop, 1) :: (c, 1) :: stats w /\
  delivered w' = delivered w /\
  (forall l, is_Some (heap w' !! l) -> is_Some (heap w !! l)).

(** A delivered frame with [data] absorbed in its data phase. *)
Definition flag_deliver_post (w : world) (data : list Z) (w' : world)
  (hd : loc) (ls : list loc) : Prop :=
  in_head (rxf w) = Some hd /\
  delivered w' = delivered w ++ [hd] /\
  rxf w' = rx_released (rxf w) /\
  heap_ok w' /\ rx_step w w' /\ stats w' = stats w /\
  lseg (heap w') (Some hd) ls /\
  chain_bytes (heap w') ls
    = proto_prefix w ++ take (length data - 2) data /\
  exists b, heap w' !! hd = Some b /\
            tot_len b = 2 + Z.of_nat (length data - 2).

(** The world [w] when the tick counter reads [now]. *)
Definition at_time (now : Z) (w : world) : world :=
  mk_world (heap w) (allocs w) (sio_calls w) now (wire w) (delivered w)
           (freed w) (stats w) (ppp w).


(** ** The round trip *)

(** [P] holds of the [n] integers from [z] on. *)
Fixpoint forall_from (n : nat) (z : Z) (P : Z -> bool) : bool :=
  match n with
  | O => true
  | S n' => P z && forall_from n' (z + 1) P
  end.

(** A protocol number as the receive side can recover it: 16 bits, the high
    octet even and the low octet odd. *)
Definition valid_protocol (p : Z) : bool :=
  (0 <=? p) && (p <? 65536) &&
  (Z.land (Z.shiftr p 8) 1 =? 0) && (Z.land p 1 =? 1).

(** The protocol numbers that, sent as a single octet right after the
    flag, are taken for an address or control octet. *)
Definition header_clash (acfc pfc : bool) (p : Z) : bool :=
  acfc && pfc && ((p =? PPP_UI) || (p =? PPP_ALLSTATIONS)).

(** Character maps of a sender and a receiver that agree: the receiver
    marks the flag and the escape octet, takes for line noise only what
    the sender escapes, and does not take the second octet of an escape
    sequence for line noise. *)
Definition accm_consistent (out inn : ext_accm) : bool :=
  escaped inn PPP_ESCAPE && escaped inn PPP_FLAG &&
  forallb (fun c => implb (escaped inn c) (escaped out c) &&
                    implb (escaped out c)
                          (negb (escaped inn (Z.lxor c PPP_TRANS))))
          (map Z.of_nat (seq 0 256)).

(** The receive side between two frames: no chain held, and either a flag
    comes first or the framer is where the last flag left it. *)
Definition rx_at_boundary (flagged : bool) (w : world) : Prop :=
  in_head (rxf w) = None /\ in_tail (rxf w) = None /\
  if flagged then pd_num (in_state (rxf w)) <= pd_num PDADDRESS
  else in_state (rxf w) = PDADDRESS /\ in_fcs (rxf w) = PPP_INITFCS /\
       in_escaped (rxf w) = false.

(** ** Further vocabulary *)

(** A character the receiver takes for line noise: marked in its map and
    neither the escape octet nor the flag. *)
Definition rx_noise (accm : ext_accm) (c : Z) : bool :=
  escaped accm c && negb (c =? PPP_ESCAPE) && negb (c =? PPP_FLAG).

(** The buffers the receive side holds: none without a head; else the
    chain from the head, and in front of it the tail when the tail is a
    buffer of its own, not yet linked behind the chain. *)
Definition rx_holds (w : world) (held : list loc) : Prop :=
  (in_head (rxf w) = None /\ held = []) \/
  exists hd ls,
    in_head (rxf w) = Some hd /\ lseg (heap w) (Some hd) ls /\
    (((in_tail (rxf w) = None \/ in_tail (rxf w) = Some hd) /\ held = ls) \/
     exists t tb, in_tail (rxf w) = Some t /\ (t ∉ ls) /\
                  heap w !! t = Some tb /\ next tb = None /\
                  held = t :: ls).

(** The calls of [pbuf_free] that [pppos_free_current_input_packet] makes:
    on the tail when it is neither null nor the head, then on the head. *)
Definition rx_freed (w : world) : list loc :=
  match in_head (rxf w) with
  | None => []
  | Some hd =>
      match in_tail (rxf w) with
      | Some t => if bool_decide (t = hd) then [hd] else [t; hd]
      | None => [hd]
      end
  end.

(** The test "Make space to receive processed data": there is no tail
    buffer, or the tail buffer is full. *)
Definition rx_needs_buffer (w : world) : Prop :=
  match in_tail (rxf w) with
  | None => True
  | Some t => exists tb, heap w !! t = Some tb /\ len tb = PBUF_POOL_BUFSIZE
  end.

(** ** Buffers held by the transmit callbacks *)

(** Every live buffer at or above [A0] is on the chain from [hd]: the
    builder holds no buffer outside its chain. *)
Definition tx_owned (A0 : nat) (w : world) (hd : loc) : Prop :=
  exists ls, lseg (heap w) (Some hd) ls /\
             forall l, (A0 <= l)%nat -> is_Some (heap w !! l) -> l ∈ ls.

(** What laying octets on the output chain does besides: nothing at all
    once the tail is null; else [link.memerr] is counted exactly when the
    tail becomes null, no buffer is held outside the chain, and [tot_len]
    of the head buffer stays as it is. *)
Definition tx_build (A0 : nat) (hd : loc) (w : world) (tail : option loc)
  (w' : world) (tail' : option loc) : Prop :=
  match tail with
  | None => w' = w /\ tail' = None
  | Some _ =>
      stats w' = match tail' with
                 | Some _ => stats w
                 | None => (link_memerr, 1) :: stats w
                 end /\
      (tx_owned A0 w hd -> tx_owned A0 w' hd) /\
      (forall b, heap w !! hd = Some b ->
         exists b', heap w' !! hd = Some b' /\ tot_len b' = tot_len b)
  end.

(** The control block [pppos_connect] leaves behind: cleared, with the flag
    and the escape octet marked in both character maps. *)
Definition connected_pcb : ppp_pcb :=
  mk_pcb 0 (<[15%nat := 0x60]> (replicate 32 0)) false false
         (mk_rx (<[15%nat := 0x60]> (replicate 32 0)) None None 0 0 PDIDLE
                false).


(** ** Buffers of others *)

(** The world with the buffer [b] live at the address [l]. *)
Definition with_buf (l : loc) (b : pbuf) (w : world) : world :=
  set_heap (<[l := b]>) w.

(** The address [l] was handed out once and holds no buffer. *)
Definition absent (l : loc) (w : world) : Prop :=
  heap w !! l = None /\ (l < allocs w)%nat.

(** A computation that has no part in the buffer at [l]: what it does
    without that buffer it does with it, and leaves it as it is.  Without
    the buffer, reaching for it is a dangling dereference, which says
    nothing about the run with it. *)
Definition local {A} (l : loc) (b : pbuf) (m : M A) : Prop :=
  forall w, absent l w ->
    match m w with
    | Ok (a, w') =>
        m (with_buf l b w) = Ok (a, with_buf l b w') /\ absent l w'
    | Err Dangling => True
    | Err f => m (with_buf l b w) = Err f
    end.

(** ** Frames that fit a 16-bit length *)

(** The octets the receiver with the map [accm] takes for a flag. *)
Definition rx_is_flag (accm : ext_accm) (c : Z) : bool :=
  escaped accm c && (c =? PPP_FLAG).

(** In the stream [s], read by a receiver with the map [accm] that has
    taken in at most [n] octets since the last flag, at most 65533 octets
    lie between one flag and the next: at every flag of the stream the two
    octets of the protocol field and the octets since the flag before fit
    a 16-bit [tot_len]. The stream may be of any length. *)
Fixpoint frames_fit (accm : ext_accm) (n : nat) (s : list Z) : bool :=
  match s with
  | [] => true
  | c :: s' =>
      if rx_is_flag accm c
      then (2 + Z.of_nat n <=? 65535) && frames_fit accm 0 s'
      else frames_fit accm (S n) s'
  end.

(** The octets since the last flag when [s] has been read. *)
Fixpoint open_run (accm : ext_accm) (n : nat) (s : list Z) : nat :=
  match s with
  | [] => n
  | c :: s' =>
      if rx_is_flag accm c then open_run accm 0 s'
      else open_run accm (S n) s'
  end.

(** A computation that leaves the receive character map as it is. *)
Definition keeps_accm {A} (m : M A) : Prop :=
  forall w a w', m w = Ok (a, w') -> in_accm (rxf w') = in_accm (rxf w).

(** ** Frames back to back *)





(** ** A sender's session *)





(** * Properties *)

Hypothesis bufsize_range : 3 <= PBUF_POOL_BUFSIZE <= 65535.

(** ** Exhaustive checks over octets *)

Lemma forall_u8 (P : Z -> bool) :
  forallb P (map Z.of_nat (seq 0 256)) = true ->
  forall c, is_u8 c -> P c = true.
Proof.
  intros H c Hc. rewrite forallb_forall in H. apply H.
  apply in_map_iff. exists (Z.to_nat c). split; [unfold is_u8 in Hc; lia|].
  apply in_seq. unfold is_u8 in Hc. lia.
Qed.

Lemma land_255_u8 x : is_u8 (Z.land x 0xff).
Proof.
  unfold is_u8. change 0xff with (Z.ones 8). rewrite Z.land_ones by lia.
  apply Z.mod_pos_bound. lia.
Qed.

(** C9.  Every entry of the lookup table is the value the bit loop computes
    for its index, hence the table-driven and the bit-serial FCS updates
    agree on every check sequence and every octet. *)
Theorem fcstab_matches_ppp_get_fcs :
  (forall i, 0 <= i < 256 -> nth (Z.to_nat i) fcstab 0 = ppp_get_fcs i) /\
  (forall f c, PPP_FCS f c = PPP_FCS_bitwise f c).
Proof.
  assert (T : forall i, is_u8 i -> nth (Z.to_nat i) fcstab 0 = ppp_get_fcs i).
  { intros i Hi.
    apply Z.eqb_eq.
    apply (forall_u8 (fun i => nth (Z.to_nat i) fcstab 0 =? ppp_get_fcs i));
      [vm_compute; reflexivity | exact Hi]. }
  split; [exact T|].
  intros f c. unfold PPP_FCS, PPP_FCS_bitwise.
  rewrite T; [reflexivity | apply land_255_u8].
Qed.


(** ** Running the monad *)

Lemma bind_Ok {A B} (m : M A) (k : A -> M B) w a w' :
  m w = Ok (a, w') -> bind m k w = k a w'.
Proof. unfold bind. intros ->. reflexivity. Qed.

Lemma bind_Err {A B} (m : M A) (k : A -> M B) w f :
  m w = Err f -> bind m k w = Err f.
Proof. unfold bind. intros ->. reflexivity. Qed.

Lemma bind_inv {A B} (m : M A) (k : A -> M B) w b w'' :
  bind m k w = Ok (b, w'') ->
  exists a w', m w = Ok (a, w') /\ k a w' = Ok (b, w'').
Proof.
  unfold bind. destruct (m w) as [[a w']|f]; [eauto | discriminate].
Qed.

Lemma load_Ok w l b : heap w !! l = Some b -> load (Some l) w = Ok (b, w).
Proof. unfold load. intros ->. reflexivity. Qed.

Lemma update_Ok w l b f :
  heap w !! l = Some b ->
  update (Some l) f w = Ok (tt, set_heap (<[l := f b]>) w).
Proof.
  intros H. unfold update. rewrite (bind_Ok _ _ _ _ _ (load_Ok _ _ _ H)).
  reflexivity.
Qed.

Lemma set_heap_set_heap f g w : set_heap f (set_heap g w) = set_heap (fun h => f (g h)) w.
Proof. reflexivity. Qed.

Lemma push_Ok w l b c :
  heap w !! l = Some b ->
  (Z.to_nat (len b) < length (payload b))%nat ->
  push (Some l) c w = Ok (tt, set_heap (<[l := push_buf c b]>) w).
Proof.
  intros H Hlt. unfold push.
  rewrite (bind_Ok _ _ _ _ _ (load_Ok _ _ _ H)).
  rewrite (bind_Ok _ _ _ _ _ (update_Ok _ _ _ _ H)).
  unfold poke.
  assert (H1 : heap (set_heap (<[l := set_len (u16 (len b + 1)) b]>) w) !! l
               = Some (set_len (u16 (len b + 1)) b))
    by (simpl; apply lookup_insert_eq).
  rewrite (bind_Ok _ _ _ _ _ (load_Ok _ _ _ H1)).
  simpl. apply Nat.ltb_lt in Hlt. rewrite Hlt.
  rewrite (update_Ok _ _ _ _ H1).
  unfold set_heap; simpl. rewrite insert_insert_eq. reflexivity.
Qed.

(** ** Buffers *)

Lemma buf_bytes_push c b :
  0 <= len b -> len b < 65535 ->
  (Z.to_nat (len b) < length (payload b))%nat ->
  buf_bytes (push_buf c b) = buf_bytes b ++ [c].
Proof.
  intros H0 H1 H2. unfold buf_bytes, push_buf, u16. simpl.
  rewrite Z.mod_small by lia.
  replace (Z.to_nat (len b + 1)) with (S (Z.to_nat (len b))) by lia.
  rewrite (take_S_r _ _ c) by (apply list_lookup_insert_eq; lia).
  rewrite take_insert_ge by lia. reflexivity.
Qed.

Lemma push_buf_len c b :
  0 <= len b -> len b < 65535 -> len (push_buf c b) = len b + 1.
Proof. intros. unfold push_buf, u16. simpl. apply Z.mod_small. lia. Qed.

Lemma push_buf_payload_length c b :
  length (payload (push_buf c b)) = length (payload b).
Proof. unfold push_buf. simpl. apply length_insert. Qed.

Lemma push_buf_next c b : next (push_buf c b) = next b.
Proof. reflexivity. Qed.

Lemma push_list_next cs b : next (push_list cs b) = next b.
Proof.
  revert b. induction cs as [|c cs IH]; intros b; [reflexivity|].
  simpl. rewrite IH. reflexivity.
Qed.

Lemma push_list_tot_len cs b : tot_len (push_list cs b) = tot_len b.
Proof.
  revert b. induction cs as [|c cs IH]; intros b; [reflexivity|].
  simpl. rewrite IH. reflexivity.
Qed.

Lemma push_list_payload_length cs b :
  length (payload (push_list cs b)) = length (payload b).
Proof.
  revert b. induction cs as [|c cs IH]; intros b; [reflexivity|].
  simpl. rewrite IH. apply push_buf_payload_length.
Qed.

(** Pushing a run of octets that fits appends exactly those octets. *)
Lemma push_list_fits cs b :
  length (payload b) = Z.to_nat PBUF_POOL_BUFSIZE ->
  0 <= len b -> len b + Z.of_nat (length cs) <= PBUF_POOL_BUFSIZE ->
  len (push_list cs b) = len b + Z.of_nat (length cs) /\
  buf_bytes (push_list cs b) = buf_bytes b ++ cs.
Proof.
  revert b. induction cs as [|c cs IH]; intros b Hp H0 Hfit.
  - simpl. rewrite Z.add_0_r, app_nil_r. auto.
  - simpl length in *. simpl push_list.
    destruct (IH (push_buf c b)) as [IH1 IH2].
    + rewrite push_buf_payload_length. exact Hp.
    + rewrite push_buf_len by lia. lia.
    + rewrite push_buf_len by lia. lia.
    + rewrite IH1, IH2. rewrite push_buf_len by lia.
      rewrite buf_bytes_push by lia. rewrite <- app_assoc. simpl.
      split; [lia | reflexivity].
Qed.

Lemma enc_length accm c : (1 <= length (enc accm c) <= 2)%nat.
Proof.
  unfold enc. destruct accm as [a|]; [destruct (escaped a c)|]; simpl; lia.
Qed.

Lemma fresh_pbuf_pool : pool_buf fresh_pbuf /\ len fresh_pbuf = 0 /\
  buf_bytes fresh_pbuf = [] /\ next fresh_pbuf = None.
Proof.
  unfold pool_buf, fresh_pbuf, buf_bytes. simpl.
  rewrite length_replicate. repeat split; lia.
Qed.

(** ** pppos_append, case by case *)

(** Storing the encoded octet into a buffer with room for two. *)
Lemma append_store w l b c accm :
  heap w !! l = Some b -> pool_buf b -> len b + 2 <= PBUF_POOL_BUFSIZE ->
  match accm with
  | Some a => if escaped a c
              then push (Some l) PPP_ESCAPE ;;; push (Some l) (Z.lxor c PPP_TRANS)
              else push (Some l) c
  | None => push (Some l) c
  end w = Ok (tt, set_heap (<[l := push_list (enc accm c) b]>) w).
Proof.
  intros H [Hp Hl] Hroom.
  assert (P1 : forall x, push (Some l) x w
               = Ok (tt, set_heap (<[l := push_buf x b]>) w))
    by (intros x; apply push_Ok; [exact H | lia]).
  unfold enc. destruct accm as [a|]; [destruct (escaped a c)|]; simpl push_list;
    try apply P1.
  rewrite (bind_Ok _ _ _ _ _ (P1 _)).
  rewrite (push_Ok _ l (push_buf PPP_ESCAPE b)).
  - unfold set_heap. simpl. rewrite insert_insert_eq. reflexivity.
  - simpl. apply lookup_insert_eq.
  - rewrite push_buf_payload_length, push_buf_len by lia. lia.
Qed.

Lemma append_null c accm w : pppos_append c None accm w = Ok (None, w).
Proof. reflexivity. Qed.

Lemma append_room w l b c accm :
  heap w !! l = Some b -> pool_buf b -> len b + 2 <= PBUF_POOL_BUFSIZE ->
  pppos_append c (Some l) accm w
  = Ok (Some l, set_heap (<[l := push_list (enc accm c) b]>) w).
Proof.
  intros H Hb Hroom. unfold pppos_append.
  rewrite (bind_Ok _ _ _ (Some l) w).
  2:{ rewrite (bind_Ok _ _ _ _ _ (load_Ok _ _ _ H)).
      destruct (Z.ltb_spec (PBUF_POOL_BUFSIZE - len b) 2); [lia | reflexivity]. }
  rewrite (bind_Ok _ _ _ _ _ (append_store w l b c accm H Hb Hroom)).
  reflexivity.
Qed.

Lemma append_grow w l b c accm :
  heap w !! l = Some b -> heap_ok w ->
  PBUF_POOL_BUFSIZE - len b < 2 -> pool_ok (allocs w) = true ->
  pppos_append c (Some l) accm w
  = Ok (Some (allocs w),
        set_allocs (S (allocs w))
          (set_heap (fun h => <[allocs w := push_list (enc accm c) fresh_pbuf]>
                                (<[l := set_next (Some (allocs w)) b]> h)) w)).
Proof.
  intros H Hok Hfull Hpool. unfold pppos_append.
  assert (Hne : l <> allocs w).
  { intros ->. assert (allocs w < allocs w)%nat by (apply Hok; eauto). lia. }
  set (w1 := set_allocs (S (allocs w))
               (set_heap (<[allocs w := fresh_pbuf]>) w)).
  assert (Hl1 : heap w1 !! l = Some b)
    by (simpl; rewrite lookup_insert_ne by congruence; exact H).
  rewrite (bind_Ok _ _ _ (Some (allocs w))
             (set_heap (<[l := set_next (Some (allocs w)) b]>) w1)).
  2:{ rewrite (bind_Ok _ _ _ _ _ (load_Ok _ _ _ H)).
      destruct (Z.ltb_spec (PBUF_POOL_BUFSIZE - len b) 2); [|lia].
      rewrite (bind_Ok _ _ _ (Some (allocs w)) w1)
        by (unfold pbuf_alloc; rewrite Hpool; reflexivity).
      rewrite (bind_Ok _ _ _ _ _ (update_Ok _ _ _ _ Hl1)). reflexivity. }
  destruct fresh_pbuf_pool as (Hfp & Hfl & _).
  assert (Hk : heap (set_heap (<[l := set_next (Some (allocs w)) b]>) w1)
               !! allocs w = Some fresh_pbuf)
    by (simpl; rewrite lookup_insert_ne by congruence; apply lookup_insert_eq).
  rewrite (bind_Ok _ _ _ _ _
    (append_store _ (allocs w) fresh_pbuf c accm Hk Hfp ltac:(lia))).
  unfold w1, set_heap, set_allocs. simpl. f_equal. f_equal. f_equal.
  rewrite (insert_insert_ne _ l (allocs w)) by exact Hne.
  rewrite insert_insert_eq. reflexivity.
Qed.

Lemma append_starved w l b c accm :
  heap w !! l = Some b ->
  PBUF_POOL_BUFSIZE - len b < 2 -> pool_ok (allocs w) = false ->
  pppos_append c (Some l) accm w
  = Ok (None, add_stat link_memerr 1 (set_allocs (S (allocs w)) w)).
Proof.
  intros H Hfull Hpool. unfold pppos_append.
  rewrite (bind_Ok _ _ _ None
             (add_stat link_memerr 1 (set_allocs (S (allocs w)) w))).
  2:{ rewrite (bind_Ok _ _ _ _ _ (load_Ok _ _ _ H)).
      destruct (Z.ltb_spec (PBUF_POOL_BUFSIZE - len b) 2); [|lia].
      rewrite (bind_Ok _ _ _ None (set_allocs (S (allocs w)) w))
        by (unfold pbuf_alloc; rewrite Hpool; reflexivity).
      reflexivity. }
  reflexivity.
Qed.


(** ** Chains in the heap *)

Lemma lseg_to_app h p l1 l2 q :
  lseg_to h p (l1 ++ l2) q <->
  exists m, lseg_to h p l1 m /\ lseg_to h m l2 q.
Proof.
  revert p. induction l1 as [|l l1 IH]; intros p; simpl.
  - split; [intros H; exists p; auto | intros (m & -> & H); exact H].
  - split.
    + intros (-> & b & Hb & H). apply IH in H as (m & H1 & H2).
      exists m. split; [|exact H2]. split; [reflexivity|]. eauto.
    + intros (m & (-> & b & Hb & H1) & H2). split; [reflexivity|].
      exists b. split; [exact Hb|]. apply IH. eauto.
Qed.

Lemma lseg_to_insert_notin h l b p ls q :
  l ∉ ls -> lseg_to (<[l := b]> h) p ls q <-> lseg_to h p ls q.
Proof.
  revert p. induction ls as [|x ls IH]; intros p Hn; simpl; [reflexivity|].
  apply not_elem_of_cons in Hn as [Hx Hn].
  rewrite lookup_insert_ne by congruence.
  split; intros (-> & b' & Hb & H); (split; [reflexivity|]); exists b';
    (split; [exact Hb|]); apply (IH _ Hn); exact H.
Qed.

Lemma lseg_to_delete_notin h l p ls q :
  l ∉ ls -> lseg_to (delete l h) p ls q <-> lseg_to h p ls q.
Proof.
  revert p. induction ls as [|x ls IH]; intros p Hn; simpl; [reflexivity|].
  apply not_elem_of_cons in Hn as [Hx Hn].
  rewrite lookup_delete_ne by congruence.
  split; intros (-> & b' & Hb & H); (split; [reflexivity|]); exists b';
    (split; [exact Hb|]); apply (IH _ Hn); exact H.
Qed.

Lemma lseg_to_frame h h' p ls q :
  (forall l, l ∈ ls -> h' !! l = h !! l) ->
  lseg_to h p ls q -> lseg_to h' p ls q.
Proof.
  revert p. induction ls as [|x ls IH]; intros p Hf; simpl; [auto|].
  intros (-> & b & Hb & H). split; [reflexivity|]. exists b. split.
  - rewrite Hf by (apply elem_of_cons; auto). exact Hb.
  - apply IH; [|exact H]. intros l Hl. apply Hf. apply elem_of_cons; auto.
Qed.

Lemma lseg_last_next h p ls t b :
  lseg h p (ls ++ [t]) -> NoDup (ls ++ [t]) -> h !! t = Some b -> next b = None.
Proof.
  intros H _ Hb. apply lseg_to_app in H as (m & _ & H). simpl in H.
  destruct H as (_ & b' & Hb' & H). congruence.
Qed.

Lemma lseg_to_functional h p ls q b l :
  lseg_to h p ls q -> l ∈ ls -> h !! l = Some b ->
  exists l1 l2, ls = l1 ++ l :: l2 /\ lseg_to h (next b) l2 q.
Proof.
  revert p. induction ls as [|x ls IH]; intros p H Hin Hb.
  - apply elem_of_nil in Hin. contradiction.
  - simpl in H. destruct H as (-> & b' & Hb' & H).
    apply elem_of_cons in Hin as [->|Hin].
    + exists [], ls. split; [reflexivity|]. congruence.
    + destruct (IH _ H Hin Hb) as (l1 & l2 & -> & H2).
      exists (x :: l1), l2. split; [reflexivity | exact H2].
Qed.

Lemma chain_bytes_app h l1 l2 :
  chain_bytes h (l1 ++ l2) = chain_bytes h l1 ++ chain_bytes h l2.
Proof. unfold chain_bytes. rewrite map_app, concat_app. reflexivity. Qed.

Lemma chain_bytes_frame h h' ls :
  (forall l, l ∈ ls -> h' !! l = h !! l) ->
  chain_bytes h' ls = chain_bytes h ls.
Proof.
  intros Hf. unfold chain_bytes. f_equal. apply map_ext_in.
  intros l Hl. unfold bytes_at. rewrite Hf; [reflexivity|].
  apply list_elem_of_In. exact Hl.
Qed.

Lemma chain_bytes_single h l b :
  h !! l = Some b -> chain_bytes h [l] = buf_bytes b.
Proof.
  intros H. unfold chain_bytes, bytes_at. simpl. rewrite H. simpl.
  apply app_nil_r.
Qed.

Lemma heap_ok_fresh w l : heap_ok w -> is_Some (heap w !! l) -> l <> allocs w.
Proof. intros Hok Hl ->. specialize (Hok _ Hl). lia. Qed.

Lemma push_list_pool cs b :
  pool_buf b -> len b + Z.of_nat (length cs) <= PBUF_POOL_BUFSIZE ->
  pool_buf (push_list cs b) /\
  buf_bytes (push_list cs b) = buf_bytes b ++ cs /\
  next (push_list cs b) = next b.
Proof.
  intros [Hp Hl] Hfit.
  destruct (push_list_fits cs b Hp ltac:(lia) Hfit) as [E1 E2].
  split; [|split; [exact E2 | apply push_list_next]].
  split; [rewrite push_list_payload_length; exact Hp | lia].
Qed.


(** ** The output chain grows by the encoded octet *)

Lemma tx_step_refl A0 w : tx_step A0 w w.
Proof. constructor; auto. Qed.

Lemma tx_step_trans A0 w1 w2 w3 :
  tx_step A0 w1 w2 -> tx_step A0 w2 w3 -> tx_step A0 w1 w3.
Proof.
  intros [] []. constructor; try congruence; try lia.
  intros l Hl. rewrite txs_frame1, txs_frame0 by exact Hl. reflexivity.
Qed.

Lemma tx_chain_last A0 w hd ls t :
  tx_chain A0 w hd ls -> last ls = Some t ->
  exists ls0 b, ls = ls0 ++ [t] /\ heap w !! t = Some b /\ pool_buf b /\
                next b = None /\ (t ∉ ls0) /\ (A0 <= t)%nat.
Proof.
  intros [Hok Hseg Hnd Hfr Hbufs] Hlast.
  apply last_Some in Hlast as [ls0 ->].
  apply Forall_app in Hbufs as [_ Hb]. apply Forall_inv in Hb as (b & Hb & Hp).
  apply Forall_app in Hfr as [_ Hf]. apply Forall_inv in Hf.
  exists ls0, b. split; [reflexivity|]. split; [exact Hb|]. split; [exact Hp|].
  split; [eapply lseg_last_next; eauto|]. split; [|exact Hf].
  apply NoDup_app in Hnd as (_ & Hd & _). intros Hin.
  apply (Hd _ Hin). apply list_elem_of_singleton. reflexivity.
Qed.

Lemma append_chain A0 w hd ls tail c accm :
  tx_chain A0 w hd ls -> tail_ok ls tail ->
  exists tail' w' ls',
    pppos_append c tail accm w = Ok (tail', w') /\
    tx_chain A0 w' hd ls' /\ tail_ok ls' tail' /\ tx_step A0 w w' /\
    (tail' <> None ->
     tail <> None /\
     chain_bytes (heap w') ls' = chain_bytes (heap w) ls ++ enc accm c) /\
    (tail <> None -> (forall k, pool_ok k = true) -> tail' <> None).
Proof.
  intros Hc Ht.
  destruct tail as [t|].
  2:{ exists None, w, ls. rewrite append_null.
      split; [reflexivity|]. split; [exact Hc|]. split; [left; reflexivity|].
      split; [apply tx_step_refl|]. split; congruence. }
  destruct Ht as [Ht|Ht]; [discriminate|]. symmetry in Ht.
  destruct (tx_chain_last _ _ _ _ _ Hc Ht) as (ls0 & b & -> & Hb & Hp & Hn & Hni & HA).
  destruct Hc as [Hok Hseg Hnd Hfr Hbufs].
  assert (Henc : (Z.of_nat (length (enc accm c)) <= 2))
    by (pose proof (enc_length accm c); lia).
  destruct (Z.ltb_spec (PBUF_POOL_BUFSIZE - len b) 2) as [Hfull|Hroom].
  - destruct (pool_ok (allocs w)) eqn:Hpool.
    + (* a fresh buffer is linked behind the tail *)
      pose proof (append_grow w t b c accm Hb Hok Hfull Hpool) as Hrun.
      assert (Hkt : t <> allocs w) by (apply heap_ok_fresh; [exact Hok | eauto]).
      remember (allocs w) as k eqn:Ek.
      assert (Hkls : k ∉ ls0 ++ [t]).
      { intros Hin. rewrite Forall_forall in Hbufs.
        destruct (Hbufs _ Hin) as (bk & Hbk & _).
        apply (heap_ok_fresh w k Hok); [eauto | exact Ek]. }
      destruct fresh_pbuf_pool as (Hfp & Hfl & Hfb & Hfn).
      destruct (push_list_pool (enc accm c) fresh_pbuf Hfp ltac:(lia))
        as (P1 & P2 & P3).
      rewrite Hfb in P2. rewrite Hfn in P3.
      eexists (Some k), _, ((ls0 ++ [t]) ++ [k]).
      split; [exact Hrun|]. simpl.
      assert (Hframe : forall l, l <> t -> l <> k ->
        <[k := push_list (enc accm c) fresh_pbuf]>
          (<[t := set_next (Some k) b]> (heap w)) !! l = heap w !! l)
        by (intros l H1 H2; rewrite !lookup_insert_ne by congruence; reflexivity).
      split; [|split; [|split; [|split]]].
      * constructor; simpl.
        { intros l [x Hx]; simpl in *. destruct (decide (l = k)) as [->|Hlk]; [lia|].
          destruct (decide (l = t)) as [->|Hlt].
          - assert (t < allocs w)%nat by (apply Hok; eauto). lia.
          - rewrite Hframe in Hx by assumption.
            assert (l < allocs w)%nat by (apply Hok; eauto). lia. }
        { unfold lseg. rewrite <- app_assoc. apply lseg_to_app.
          unfold lseg in Hseg. apply lseg_to_app in Hseg as (m & H1 & H2).
          exists m. split.
          - eapply lseg_to_frame; [|exact H1]. intros l Hl. apply Hframe.
            + intros ->. contradiction.
            + intros ->. apply Hkls. apply elem_of_app. auto.
          - simpl in H2. destruct H2 as (-> & _). simpl.
            split; [reflexivity|]. eexists. split.
            { rewrite lookup_insert_ne by congruence. apply lookup_insert_eq. }
            simpl. split; [reflexivity|]. eexists.
            split; [apply lookup_insert_eq | exact P3]. }
        { apply NoDup_app. split; [exact Hnd|]. split; [|apply NoDup_singleton].
          intros x Hx Hk. apply list_elem_of_singleton in Hk as ->.
          contradiction. }
        { apply Forall_app. split; [exact Hfr|]. apply Forall_singleton.
          assert (t < allocs w)%nat by (apply Hok; eauto). lia. }
        { apply Forall_app. split.
          - rewrite Forall_forall in Hbufs |- *. intros l Hl.
            destruct (decide (l = t)) as [->|Hlt].
            + eexists. split.
              { rewrite lookup_insert_ne by congruence. apply lookup_insert_eq. }
              exact Hp.
            + destruct (Hbufs _ Hl) as (bl & Hbl & Hpl). exists bl.
              split; [|exact Hpl]. rewrite Hframe; [exact Hbl | exact Hlt |].
              intros ->. contradiction.
          - apply Forall_singleton. eexists.
            split; [apply lookup_insert_eq | exact P1]. }
      * right. rewrite last_snoc. reflexivity.
      * constructor; simpl; auto; try lia.
        intros l Hl. assert (t < allocs w)%nat by (apply Hok; eauto).
        apply Hframe; lia.
      * intros _. split; [congruence|].
        rewrite (chain_bytes_app _ (ls0 ++ [t]) [k]).
        f_equal.
        { unfold chain_bytes. f_equal. apply map_ext_in. intros l Hl.
          apply list_elem_of_In in Hl. unfold bytes_at.
          destruct (decide (l = t)) as [->|Hlt].
          - rewrite lookup_insert_ne by congruence.
            rewrite lookup_insert_eq, Hb. reflexivity.
          - rewrite Hframe; [reflexivity | exact Hlt |].
            intros ->. contradiction. }
        { erewrite chain_bytes_single by apply lookup_insert_eq. exact P2. }
      * intros _ _. congruence.
    + (* the pool is exhausted *)
      eexists None, _, (ls0 ++ [t]).
      split; [apply (append_starved w t b c accm Hb Hfull Hpool)|].
      split; [|split; [|split; [|split]]].
      * constructor; simpl; auto.
        intros l Hl; simpl in *. specialize (Hok l Hl). lia.
      * left; reflexivity.
      * constructor; simpl; auto.
      * intros Hx. congruence.
      * intros _ Hall. rewrite Hall in Hpool. discriminate.
  - (* room in the tail *)
    destruct Hp as [Hpl Hlen].
    destruct (push_list_pool (enc accm c) b (conj Hpl Hlen) ltac:(lia))
      as (P1 & P2 & P3).
    eexists (Some t), _, (ls0 ++ [t]).
    split; [apply (append_room w t b c accm Hb (conj Hpl Hlen) ltac:(lia))|].
    simpl.
    assert (Hframe : forall l, l <> t ->
      <[t := push_list (enc accm c) b]> (heap w) !! l = heap w !! l)
      by (intros l H1; rewrite lookup_insert_ne by congruence; reflexivity).
    split; [|split; [|split; [|split]]].
    * constructor; simpl.
      { intros l [x Hx]; simpl in *. destruct (decide (l = t)) as [->|Hlt].
        - apply Hok; eauto.
        - rewrite Hframe in Hx by assumption. apply Hok; eauto. }
      { unfold lseg in *. apply lseg_to_app.
        apply lseg_to_app in Hseg as (m & H1 & H2).
        exists m. split.
        - apply lseg_to_insert_notin; assumption.
        - simpl in H2. destruct H2 as (-> & _). simpl.
          split; [reflexivity|]. eexists.
          split; [apply lookup_insert_eq|]. rewrite P3. exact Hn. }
      { exact Hnd. }
      { exact Hfr. }
      { rewrite Forall_forall in Hbufs |- *. intros l Hl.
        destruct (decide (l = t)) as [->|Hlt].
        - eexists. split; [apply lookup_insert_eq | exact P1].
        - destruct (Hbufs _ Hl) as (bl & Hbl & Hpb). exists bl.
          rewrite Hframe by assumption. auto. }
    * right. rewrite last_snoc. reflexivity.
    * constructor; simpl; auto.
      intros l Hl. apply Hframe. lia.
    * intros _. split; [congruence|].
      rewrite !chain_bytes_app. rewrite <- app_assoc. f_equal.
      { apply chain_bytes_frame. intros l Hl. apply Hframe.
        intros ->. contradiction. }
      { erewrite chain_bytes_single by apply lookup_insert_eq.
        erewrite (chain_bytes_single (heap w)) by exact Hb. exact P2. }
    * intros _ _. congruence.
Qed.

Lemma tail_flow_refl t : tail_flow t t.
Proof. split; auto. Qed.

Lemma tail_flow_trans t1 t2 t3 :
  tail_flow t1 t2 -> tail_flow t2 t3 -> tail_flow t1 t3.
Proof. intros [A1 A2] [B1 B2]. split; auto. Qed.

Lemma enc_all_app accm l1 l2 :
  enc_all accm (l1 ++ l2) = enc_all accm l1 ++ enc_all accm l2.
Proof. unfold enc_all. rewrite map_app, concat_app. reflexivity. Qed.

Lemma enc_all_single accm c : enc_all accm [c] = enc (Some accm) c.
Proof. unfold enc_all. simpl. apply app_nil_r. Qed.

Lemma append_inv A0 w hd tail out c accm :
  tx_inv A0 w hd tail out ->
  exists tail' w',
    pppos_append c tail accm w = Ok (tail', w') /\
    tx_inv A0 w' hd tail' (out ++ enc accm c) /\
    tx_step A0 w w' /\ tail_flow tail tail'.
Proof.
  intros (ls & Hc & Ht & Hout).
  destruct (append_chain A0 w hd ls tail c accm Hc Ht)
    as (tail' & w' & ls' & Hrun & Hc' & Ht' & Hstep & Hb & Hf).
  exists tail', w'. split; [exact Hrun|]. split; [|split; [exact Hstep|]].
  - exists ls'. split; [exact Hc'|]. split; [exact Ht'|].
    intros Hn. destruct (Hb Hn) as [Hn0 ->]. rewrite (Hout Hn0). reflexivity.
  - split; [intros Hn; apply (Hb Hn) | exact Hf].
Qed.

Lemma fcs_update_app f l1 l2 :
  fcs_update f (l1 ++ l2) = fcs_update (fcs_update f l1) l2.
Proof. unfold fcs_update. apply fold_left_app. Qed.

(** The inner loop of the callbacks over the bytes of one buffer. *)
Lemma tx_load_inv A0 n : forall w hd tail out p pb i fcs,
  tx_inv A0 w hd tail out ->
  (p < A0)%nat -> heap w !! p = Some pb ->
  (i + n <= length (payload pb))%nat ->
  exists tail' w',
    let seg := take n (drop i (payload pb)) in
    tx_load n (Some p) i fcs tail w = Ok ((fcs_update fcs seg, tail'), w') /\
    tx_inv A0 w' hd tail' (out ++ enc_all (out_accm (ppp w)) seg) /\
    tx_step A0 w w' /\ tail_flow tail tail'.
Proof.
  induction n as [|n IH]; intros w hd tail out p pb i fcs Hinv Hp Hpb Hlen.
  - exists tail, w. simpl. rewrite app_nil_r.
    repeat split; auto using tx_step_refl.
  - assert (Hi : (i < length (payload pb))%nat) by lia.
    destruct (lookup_lt_is_Some_2 _ _ Hi) as [c Hc].
    destruct (append_inv A0 w hd tail out c (Some (out_accm (ppp w))) Hinv)
      as (t1 & w1 & Hrun & Hinv1 & Hstep1 & Hfl1).
    assert (Hpb1 : heap w1 !! p = Some pb)
      by (rewrite (txs_frame _ _ _ Hstep1) by exact Hp; exact Hpb).
    destruct (IH w1 hd t1 _ p pb (S i) (PPP_FCS fcs c) Hinv1 Hp Hpb1 ltac:(lia))
      as (t2 & w2 & Hrun2 & Hinv2 & Hstep2 & Hfl2).
    exists t2, w2.
    assert (Hseg : take (S n) (drop i (payload pb))
                   = c :: take n (drop (S i) (payload pb))).
    { erewrite drop_S by exact Hc. reflexivity. }
    cbv zeta in *. rewrite Hseg. split; [|split; [|split]].
    + simpl tx_load. unfold peek.
      rewrite (bind_Ok _ _ _ c w).
      2:{ rewrite (bind_Ok _ _ _ _ _ (load_Ok _ _ _ Hpb)). rewrite Hc.
          reflexivity. }
      rewrite (bind_Ok _ _ _ w w) by reflexivity.
      rewrite (bind_Ok _ _ _ _ _ Hrun). exact Hrun2.
    + rewrite (txs_ppp _ _ _ Hstep1) in Hinv2.
      replace (c :: take n (drop (S i) (payload pb)))
        with ([c] ++ take n (drop (S i) (payload pb))) by reflexivity.
      rewrite enc_all_app, enc_all_single, app_assoc. exact Hinv2.
    + eapply tx_step_trans; eauto.
    + eapply tail_flow_trans; eauto.
Qed.

Lemma tx_header_byte_inv A0 w hd tail out c fcs :
  tx_inv A0 w hd tail out ->
  exists tail' w',
    tx_header_byte c (fcs, tail) w = Ok ((PPP_FCS fcs c, tail'), w') /\
    tx_inv A0 w' hd tail' (out ++ enc_all (out_accm (ppp w)) [c]) /\
    tx_step A0 w w' /\ tail_flow tail tail'.
Proof.
  intros Hinv.
  destruct (append_inv A0 w hd tail out c (Some (out_accm (ppp w))) Hinv)
    as (t1 & w1 & Hrun & Hinv1 & Hstep1 & Hfl1).
  exists t1, w1. rewrite enc_all_single. split; [|auto].
  unfold tx_header_byte. rewrite (bind_Ok _ _ _ w w) by reflexivity.
  simpl. rewrite (bind_Ok _ _ _ _ _ Hrun). reflexivity.
Qed.

Lemma tx_trailer_inv A0 w hd tail out fcs :
  tx_inv A0 w hd tail out ->
  exists tail' w',
    tx_trailer fcs tail w = Ok (tail', w') /\
    tx_inv A0 w' hd tail'
      (out ++ enc_all (out_accm (ppp w)) (fcs_trailer fcs) ++ [PPP_FLAG]) /\
    tx_step A0 w w' /\ tail_flow tail tail'.
Proof.
  intros Hinv. set (accm := out_accm (ppp w)).
  destruct (append_inv A0 w hd tail out
              (Z.land (u32 (Z.lnot fcs)) 0xFF) (Some accm) Hinv)
    as (t1 & w1 & Hrun1 & Hinv1 & Hstep1 & Hfl1).
  destruct (append_inv A0 w1 hd t1 _
              (Z.land (Z.shiftr (u32 (Z.lnot fcs)) 8) 0xFF) (Some accm) Hinv1)
    as (t2 & w2 & Hrun2 & Hinv2 & Hstep2 & Hfl2).
  destruct (append_inv A0 w2 hd t2 _ PPP_FLAG None Hinv2)
    as (t3 & w3 & Hrun3 & Hinv3 & Hstep3 & Hfl3).
  exists t3, w3. split; [|split; [|split]].
  - unfold tx_trailer. rewrite (bind_Ok _ _ _ w w) by reflexivity.
    fold accm. rewrite (bind_Ok _ _ _ _ _ Hrun1).
    rewrite (bind_Ok _ _ _ _ _ Hrun2). exact Hrun3.
  - unfold fcs_trailer.
    change (enc_all accm [?a; ?b]) with (enc (Some accm) a ++ enc (Some accm) b ++ []).
    rewrite app_nil_r. simpl (enc None PPP_FLAG) in Hinv3.
    rewrite <- !app_assoc in Hinv3. rewrite <- !app_assoc. exact Hinv3.
  - eauto using tx_step_trans.
  - eauto using tail_flow_trans.
Qed.

Lemma tx_idle_flag_inv A0 w hd tail out :
  tx_inv A0 w hd tail out ->
  exists tail' w',
    tx_idle_flag tail w = Ok (tail', w') /\
    tx_inv A0 w' hd tail' (out ++ if link_idle w then [PPP_FLAG] else []) /\
    heap_ok w' /\
    ppp w' = set_last_xmit (jiffies w) (ppp w) /\
    wire w' = wire w /\ delivered w' = delivered w /\ freed w' = freed w /\
    sio_calls w' = sio_calls w /\ jiffies w' = jiffies w /\
    (allocs w <= allocs w')%nat /\
    (forall l, (l < A0)%nat -> heap w' !! l = heap w !! l) /\
    tail_flow tail tail'.
Proof.
  intros Hinv. unfold tx_idle_flag, sys_jiffies, link_idle.
  rewrite (bind_Ok _ _ _ (jiffies w) w) by reflexivity.
  rewrite (bind_Ok _ _ _ w w) by reflexivity.
  destruct (u32 (jiffies w - last_xmit (ppp w)) >=? PPP_MAXIDLEFLAG).
  - destruct (append_inv A0 w hd tail out PPP_FLAG None Hinv)
      as (t1 & w1 & Hrun & Hinv1 & Hstep1 & Hfl1).
    exists t1, (set_ppp (set_last_xmit (jiffies w1)) w1).
    rewrite (bind_Ok _ _ _ _ _ Hrun).
    destruct Hstep1. destruct Hinv1 as (ls & [] & Ht & Hb).
    split; [reflexivity|]. split.
    { exists ls. split; [constructor; assumption|]. auto. }
    simpl. rewrite txs_jiffies0, txs_ppp0. repeat split; auto; apply Hfl1.
  - exists tail, (set_ppp (set_last_xmit (jiffies w)) w).
    destruct Hinv as (ls & [] & Ht & Hb).
    split; [reflexivity|]. rewrite app_nil_r. split.
    { exists ls. split; [constructor; assumption|]. auto. }
    simpl. repeat split; auto.
Qed.

(** ** Null-terminated chains are repetition-free and finite *)

Lemma lseg_functional h p l1 : forall l2,
  lseg h p l1 -> lseg h p l2 -> l1 = l2.
Proof.
  unfold lseg. revert p. induction l1 as [|x l1 IH]; intros p l2 H1 H2.
  - simpl in H1. subst p. destruct l2; [reflexivity|].
    simpl in H2. destruct H2 as [H2 _]. discriminate.
  - simpl in H1. destruct H1 as (-> & b & Hb & H1).
    destruct l2 as [|y l2]; simpl in H2; [discriminate|].
    destruct H2 as (E & b' & Hb' & H2). injection E as <-.
    rewrite Hb in Hb'. injection Hb' as <-.
    f_equal. eapply IH; eauto.
Qed.

Lemma lseg_NoDup h p ls : lseg h p ls -> NoDup ls.
Proof.
  revert p. induction ls as [|x ls IH]; intros p H; [constructor|].
  destruct H as (-> & b & Hb & H). constructor; [|eapply IH; exact H].
  intros Hin.
  destruct (lseg_to_functional _ _ _ _ _ _ H Hin Hb) as (l1 & l2 & E & H2).
  pose proof (lseg_functional _ _ _ _ H H2) as E2.
  assert (length ls = length l2) by (rewrite E2 at 1; reflexivity).
  rewrite E in H0. rewrite length_app in H0. simpl in H0. lia.
Qed.

Lemma NoDup_bounded_length (ls : list nat) n :
  NoDup ls -> Forall (fun l => (l < n)%nat) ls -> (length ls <= n)%nat.
Proof.
  intros Hnd Hall.
  assert (Hincl : incl ls (seq 0 n)).
  { intros x Hx. apply in_seq. rewrite Forall_forall in Hall.
    apply list_elem_of_In in Hx. specialize (Hall x Hx). lia. }
  apply NoDup_ListNoDup in Hnd.
  pose proof (NoDup_incl_length Hnd Hincl) as H.
  rewrite length_seq in H. exact H.
Qed.

Lemma lseg_live h p ls l :
  lseg h p ls -> l ∈ ls -> is_Some (h !! l).
Proof.
  unfold lseg. revert p. induction ls as [|x ls IH]; intros p H Hin.
  - apply elem_of_nil in Hin. contradiction.
  - destruct H as (-> & b & Hb & H).
    apply elem_of_cons in Hin as [->|Hin]; [eauto | eapply IH; eauto].
Qed.

Lemma lseg_bounded w p ls :
  heap_ok w -> lseg (heap w) p ls ->
  Forall (fun l => (l < allocs w)%nat) ls /\ (length ls <= allocs w)%nat.
Proof.
  intros Hok H.
  assert (Hall : Forall (fun l => (l < allocs w)%nat) ls).
  { apply Forall_forall. intros l Hl. apply Hok. eapply lseg_live; eauto. }
  split; [exact Hall|].
  apply NoDup_bounded_length; [eapply lseg_NoDup; eauto | exact Hall].
Qed.

Lemma payload_chain_frame w w' p pls :
  payload_chain w p pls ->
  (forall l, l ∈ pls -> heap w' !! l = heap w !! l) ->
  payload_chain w' p pls /\
  chain_bytes (heap w') pls = chain_bytes (heap w) pls.
Proof.
  intros [Hseg Hall] Hf. split; [split|].
  - eapply lseg_to_frame; eauto.
  - rewrite Forall_forall in Hall |- *. intros l Hl.
    rewrite (Hf l Hl). apply Hall. exact Hl.
  - apply chain_bytes_frame. exact Hf.
Qed.

(** The outer loop of the netif callback over the payload chain. *)
Lemma tx_load_chain_inv A0 pls : forall fuel w hd tail out pb fcs,
  tx_inv A0 w hd tail out ->
  payload_chain w pb pls -> Forall (fun l => (l < A0)%nat) pls ->
  (length pls <= fuel)%nat ->
  exists tail' w',
    let P := chain_bytes (heap w) pls in
    tx_load_chain fuel pb fcs tail w = Ok ((fcs_update fcs P, tail'), w') /\
    tx_inv A0 w' hd tail' (out ++ enc_all (out_accm (ppp w)) P) /\
    tx_step A0 w w' /\ tail_flow tail tail'.
Proof.
  induction pls as [|l pls IH]; intros fuel w hd tail out pb fcs Hinv Hpc Hlt Hfuel.
  - destruct Hpc as [Hseg _]. unfold lseg in Hseg. simpl in Hseg. subst pb.
    exists tail, w. cbv zeta. unfold chain_bytes. simpl.
    rewrite app_nil_r. destruct fuel; simpl;
      repeat split; auto using tx_step_refl.
  - destruct fuel as [|fuel]; [simpl in Hfuel; lia|].
    pose proof Hpc as [Hseg Hall].
    destruct Hseg as (-> & b & Hb & Hseg).
    apply Forall_cons in Hall as [(b0 & Hb0 & Hl0 & Hcap) Hall].
    rewrite Hb in Hb0. injection Hb0 as <-.
    apply Forall_cons in Hlt as [HlA HltA].
    destruct (tx_load_inv A0 (Z.to_nat (len b)) w hd tail out l b 0%nat fcs
                Hinv HlA Hb ltac:(lia))
      as (t1 & w1 & Hrun1 & Hinv1 & Hstep1 & Hfl1).
    cbv zeta in Hrun1, Hinv1. rewrite drop_0 in Hrun1, Hinv1.
    fold (buf_bytes b) in Hrun1, Hinv1.
    assert (Hb1 : heap w1 !! l = Some b)
      by (rewrite (txs_frame _ _ _ Hstep1) by exact HlA; exact Hb).
    assert (Hpc1 : payload_chain w (next b) pls) by (split; assumption).
    destruct (payload_chain_frame w w1 (next b) pls Hpc1) as [Hpc1' Hbytes].
    { intros x Hx. apply (txs_frame _ _ _ Hstep1).
      rewrite Forall_forall in HltA. apply HltA. exact Hx. }
    destruct (IH fuel w1 hd t1 _ (next b) (fcs_update fcs (buf_bytes b))
                Hinv1 Hpc1' HltA ltac:(simpl in Hfuel; lia))
      as (t2 & w2 & Hrun2 & Hinv2 & Hstep2 & Hfl2).
    cbv zeta in Hrun2, Hinv2. rewrite Hbytes in Hrun2, Hinv2.
    rewrite (txs_ppp _ _ _ Hstep1) in Hinv2.
    exists t2, w2. cbv zeta.
    assert (EP : chain_bytes (heap w) (l :: pls)
                 = buf_bytes b ++ chain_bytes (heap w) pls).
    { unfold chain_bytes, bytes_at. simpl. rewrite Hb. reflexivity. }
    rewrite EP. split; [|split; [|split]].
    + simpl tx_load_chain.
      rewrite (bind_Ok _ _ _ _ _ (load_Ok _ _ _ Hb)).
      rewrite (bind_Ok _ _ _ _ _ Hrun1).
      rewrite (bind_Ok _ _ _ _ _ (load_Ok _ _ _ Hb1)).
      simpl. rewrite Hrun2. rewrite fcs_update_app. reflexivity.
    + rewrite enc_all_app, app_assoc. exact Hinv2.
    + eauto using tx_step_trans.
    + eauto using tail_flow_trans.
Qed.

(** ** Counters and ownership while the output chain is built *)

Lemma tx_build_refl A0 hd w tail : tx_build A0 hd w tail w tail.
Proof. destruct tail; simpl; eauto. Qed.

Lemma tx_build_trans A0 hd w1 t1 w2 t2 w3 t3 :
  tx_build A0 hd w1 t1 w2 t2 -> tx_build A0 hd w2 t2 w3 t3 ->
  tx_build A0 hd w1 t1 w3 t3.
Proof.
  destruct t1 as [a|]; simpl.
  - intros (S1 & O1 & T1). destruct t2 as [b|]; simpl.
    + intros (S2 & O2 & T2). split; [rewrite S2, S1; reflexivity|].
      split; [auto|]. intros b0 Hb0.
      destruct (T1 _ Hb0) as (b1 & Hb1 & E1).
      destruct (T2 _ Hb1) as (b2 & Hb2 & E2).
      exists b2. split; [exact Hb2 | congruence].
    + intros [-> ->]. auto.
  - intros [-> ->]. simpl. auto.
Qed.

Lemma append_build A0 w hd tail out c accm tail' w' :
  tx_inv A0 w hd tail out ->
  pppos_append c tail accm w = Ok (tail', w') ->
  tx_build A0 hd w tail w' tail'.
Proof.
  intros (ls & Hc & Ht & _) Hrun.
  destruct tail as [t|].
  2:{ rewrite append_null in Hrun. injection Hrun as <- <-. simpl. auto. }
  destruct Ht as [Ht|Ht]; [discriminate|]. symmetry in Ht.
  destruct (tx_chain_last _ _ _ _ _ Hc Ht)
    as (ls0 & b & -> & Hb & Hp & Hn & Hni & HA).
  destruct Hc as [Hok Hseg Hnd Hfr Hbufs].
  assert (Henc : (Z.of_nat (length (enc accm c)) <= 2))
    by (pose proof (enc_length accm c); lia).
  simpl.
  destruct (Z.ltb_spec (PBUF_POOL_BUFSIZE - len b) 2) as [Hfull|Hroom].
  - destruct (pool_ok (allocs w)) eqn:Hpool.
    + rewrite (append_grow w t b c accm Hb Hok Hfull Hpool) in Hrun.
      injection Hrun as <- <-. split; [reflexivity|].
      assert (Hkt : t <> allocs w)
        by (apply heap_ok_fresh; [exact Hok | eauto]).
      split.
      2:{ intros b0 Hb0. simpl.
          assert (hd <> allocs w)
            by (apply heap_ok_fresh; [exact Hok | eauto]).
          rewrite lookup_insert_ne by congruence.
          destruct (decide (hd = t)) as [->|Hne].
          - rewrite lookup_insert_eq. eexists. split; [reflexivity|].
            simpl. congruence.
          - rewrite lookup_insert_ne by congruence. eauto. }
      intros (ls1 & Hseg1 & Hown).
      assert (ls1 = ls0 ++ [t]) by (eapply lseg_functional; eauto).
      subst ls1.
      assert (Hkls : allocs w ∉ ls0 ++ [t]).
      { intros Hin. rewrite Forall_forall in Hbufs.
        destruct (Hbufs _ Hin) as (bk & Hbk & _).
        apply (heap_ok_fresh w (allocs w) Hok); [eauto | reflexivity]. }
      destruct fresh_pbuf_pool as (Hfp & Hfl & Hfb & Hfn).
      destruct (push_list_pool (enc accm c) fresh_pbuf Hfp ltac:(lia))
        as (P1 & P2 & P3).
      rewrite Hfn in P3.
      exists ((ls0 ++ [t]) ++ [allocs w]). simpl. split.
      * unfold lseg. rewrite <- app_assoc. apply lseg_to_app.
        unfold lseg in Hseg. apply lseg_to_app in Hseg as (m & H1 & H2).
        exists m. split.
        { eapply lseg_to_frame; [|exact H1]. intros l Hl.
          assert (l <> t) by (intros ->; contradiction).
          assert (l <> allocs w)
            by (intros ->; apply Hkls; apply elem_of_app; auto).
          rewrite !lookup_insert_ne by congruence. reflexivity. }
        simpl in H2. destruct H2 as (-> & _). simpl.
        split; [reflexivity|]. eexists. split.
        { rewrite lookup_insert_ne by congruence. apply lookup_insert_eq. }
        simpl. split; [reflexivity|]. eexists.
        split; [apply lookup_insert_eq | exact P3].
      * intros l Hl Hlive. apply elem_of_app.
        destruct (decide (l = allocs w)) as [->|Hlk];
          [right; apply list_elem_of_singleton; reflexivity|].
        left. apply Hown; [exact Hl|].
        destruct (decide (l = t)) as [->|Hlt]; [eauto|].
        rewrite !lookup_insert_ne in Hlive by congruence. exact Hlive.
    + rewrite (append_starved w t b c accm Hb Hfull Hpool) in Hrun.
      injection Hrun as <- <-. split; [reflexivity|].
      split; [intros H; exact H | intros b0 Hb0; eauto].
  - rewrite (append_room w t b c accm Hb Hp ltac:(lia)) in Hrun.
    injection Hrun as <- <-. split; [reflexivity|].
    split.
    2:{ intros b0 Hb0. simpl.
        destruct (decide (hd = t)) as [->|Hne].
        - rewrite lookup_insert_eq. eexists. split; [reflexivity|].
          rewrite push_list_tot_len. congruence.
        - rewrite lookup_insert_ne by congruence. eauto. }
    intros (ls1 & Hseg1 & Hown).
    assert (ls1 = ls0 ++ [t]) by (eapply lseg_functional; eauto).
    subst ls1.
    destruct (push_list_pool (enc accm c) b Hp ltac:(lia)) as (P1 & P2 & P3).
    exists (ls0 ++ [t]). simpl. split.
    + unfold lseg in *. apply lseg_to_app.
      apply lseg_to_app in Hseg as (m & H1 & H2).
      exists m. split.
      * apply lseg_to_insert_notin; assumption.
      * simpl in H2. destruct H2 as (-> & _). simpl.
        split; [reflexivity|]. eexists.
        split; [apply lookup_insert_eq|]. rewrite P3. exact Hn.
    + intros l Hl Hlive. apply Hown; [exact Hl|].
      destruct (decide (l = t)) as [->|Hlt]; [eauto|].
      rewrite lookup_insert_ne in Hlive by congruence. exact Hlive.
Qed.

Lemma tx_load_build A0 n : forall w hd tail out p pb i fcs r w',
  tx_inv A0 w hd tail out ->
  (p < A0)%nat -> heap w !! p = Some pb ->
  (i + n <= length (payload pb))%nat ->
  tx_load n (Some p) i fcs tail w = Ok (r, w') ->
  tx_build A0 hd w tail w' r.2.
Proof.
  induction n as [|n IH]; intros w hd tail out p pb i fcs r w' Hinv Hp Hpb Hlen Hrun.
  - simpl in Hrun. injection Hrun as <- <-. apply tx_build_refl.
  - assert (Hi : (i < length (payload pb))%nat) by lia.
    destruct (lookup_lt_is_Some_2 _ _ Hi) as [c Hc].
    destruct (append_inv A0 w hd tail out c (Some (out_accm (ppp w))) Hinv)
      as (t1 & w1 & Hrun1 & Hinv1 & Hstep1 & Hfl1).
    assert (Hpb1 : heap w1 !! p = Some pb)
      by (rewrite (txs_frame _ _ _ Hstep1) by exact Hp; exact Hpb).
    simpl tx_load in Hrun. unfold peek in Hrun.
    rewrite (bind_Ok _ _ _ c w) in Hrun.
    2:{ rewrite (bind_Ok _ _ _ _ _ (load_Ok _ _ _ Hpb)). rewrite Hc.
        reflexivity. }
    rewrite (bind_Ok _ _ _ w w) in Hrun by reflexivity.
    rewrite (bind_Ok _ _ _ _ _ Hrun1) in Hrun.
    eapply tx_build_trans.
    + eapply append_build; [exact Hinv | exact Hrun1].
    + eapply (IH w1 hd t1 _ p pb (S i)); [exact Hinv1 | exact Hp | exact Hpb1
                                            | lia | exact Hrun].
Qed.

Lemma tx_header_byte_build A0 w hd tail out c fcs r w' :
  tx_inv A0 w hd tail out ->
  tx_header_byte c (fcs, tail) w = Ok (r, w') ->
  tx_build A0 hd w tail w' r.2.
Proof.
  intros Hinv Hrun.
  destruct (append_inv A0 w hd tail out c (Some (out_accm (ppp w))) Hinv)
    as (t1 & w1 & Hrun1 & _).
  unfold tx_header_byte in Hrun.
  rewrite (bind_Ok _ _ _ w w) in Hrun by reflexivity.
  simpl in Hrun. rewrite (bind_Ok _ _ _ _ _ Hrun1) in Hrun.
  injection Hrun as <- <-. simpl.
  eapply append_build; [exact Hinv | exact Hrun1].
Qed.

Lemma tx_trailer_build A0 w hd tail out fcs tail' w' :
  tx_inv A0 w hd tail out ->
  tx_trailer fcs tail w = Ok (tail', w') ->
  tx_build A0 hd w tail w' tail'.
Proof.
  intros Hinv Hrun. set (accm := out_accm (ppp w)).
  destruct (append_inv A0 w hd tail out
              (Z.land (u32 (Z.lnot fcs)) 0xFF) (Some accm) Hinv)
    as (t1 & w1 & Hrun1 & Hinv1 & _).
  destruct (append_inv A0 w1 hd t1 _
              (Z.land (Z.shiftr (u32 (Z.lnot fcs)) 8) 0xFF) (Some accm) Hinv1)
    as (t2 & w2 & Hrun2 & Hinv2 & _).
  unfold tx_trailer in Hrun.
  rewrite (bind_Ok _ _ _ w w) in Hrun by reflexivity.
  fold accm in Hrun. rewrite (bind_Ok _ _ _ _ _ Hrun1) in Hrun.
  rewrite (bind_Ok _ _ _ _ _ Hrun2) in Hrun.
  eapply tx_build_trans; [eapply append_build; [exact Hinv | exact Hrun1]|].
  eapply tx_build_trans; [eapply append_build; [exact Hinv1 | exact Hrun2]|].
  eapply append_build; [exact Hinv2 | exact Hrun].
Qed.

Lemma tx_idle_flag_build A0 w hd t out tail' w' :
  tx_inv A0 w hd (Some t) out ->
  tx_idle_flag (Some t) w = Ok (tail', w') ->
  tx_build A0 hd w (Some t) w' tail'.
Proof.
  intros Hinv Hrun. unfold tx_idle_flag, sys_jiffies in Hrun.
  rewrite (bind_Ok _ _ _ (jiffies w) w) in Hrun by reflexivity.
  rewrite (bind_Ok _ _ _ w w) in Hrun by reflexivity.
  destruct (u32 (jiffies w - last_xmit (ppp w)) >=? PPP_MAXIDLEFLAG).
  - destruct (append_inv A0 w hd (Some t) out PPP_FLAG None Hinv)
      as (t1 & w1 & Hrun1 & _).
    rewrite (bind_Ok _ _ _ _ _ Hrun1) in Hrun.
    injection Hrun as <- <-.
    exact (append_build A0 w hd (Some t) out PPP_FLAG None t1 w1 Hinv Hrun1).
  - injection Hrun as <- <-. simpl. eauto.
Qed.

Lemma tx_load_chain_build A0 pls : forall fuel w hd tail out pb fcs r w',
  tx_inv A0 w hd tail out ->
  payload_chain w pb pls -> Forall (fun l => (l < A0)%nat) pls ->
  (length pls <= fuel)%nat ->
  tx_load_chain fuel pb fcs tail w = Ok (r, w') ->
  tx_build A0 hd w tail w' r.2.
Proof.
  induction pls as [|l pls IH];
    intros fuel w hd tail out pb fcs r w' Hinv Hpc Hlt Hfuel Hrun.
  - destruct Hpc as [Hseg _]. unfold lseg in Hseg. simpl in Hseg. subst pb.
    destruct fuel; simpl in Hrun; injection Hrun as <- <-; apply tx_build_refl.
  - destruct fuel as [|fuel]; [simpl in Hfuel; lia|].
    pose proof Hpc as [Hseg Hall].
    destruct Hseg as (-> & b & Hb & Hseg).
    apply Forall_cons in Hall as [(b0 & Hb0 & Hl0 & Hcap) Hall].
    rewrite Hb in Hb0. injection Hb0 as <-.
    apply Forall_cons in Hlt as [HlA HltA].
    destruct (tx_load_inv A0 (Z.to_nat (len b)) w hd tail out l b 0%nat fcs
                Hinv HlA Hb ltac:(lia))
      as (t1 & w1 & Hrun1 & Hinv1 & Hstep1 & Hfl1).
    cbv zeta in Hrun1, Hinv1.
    assert (Hb1 : heap w1 !! l = Some b)
      by (rewrite (txs_frame _ _ _ Hstep1) by exact HlA; exact Hb).
    assert (Hpc1 : payload_chain w (next b) pls) by (split; assumption).
    destruct (payload_chain_frame w w1 (next b) pls Hpc1) as [Hpc1' _].
    { intros x Hx. apply (txs_frame _ _ _ Hstep1).
      rewrite Forall_forall in HltA. apply HltA. exact Hx. }
    simpl tx_load_chain in Hrun.
    rewrite (bind_Ok _ _ _ _ _ (load_Ok _ _ _ Hb)) in Hrun.
    rewrite (bind_Ok _ _ _ _ _ Hrun1) in Hrun.
    rewrite (bind_Ok _ _ _ _ _ (load_Ok _ _ _ Hb1)) in Hrun.
    simpl in Hrun.
    eapply tx_build_trans.
    + apply (tx_load_build A0 (Z.to_nat (len b)) w hd tail out l b 0%nat fcs
               _ w1 Hinv HlA Hb ltac:(lia) Hrun1).
    + simpl. eapply (IH fuel w1 hd t1); [exact Hinv1 | exact Hpc1' | exact HltA
                                          | simpl in Hfuel; lia | exact Hrun].
Qed.

(** ** Freeing and transmitting a chain *)

Lemma pbuf_free_chain_ok ls : forall fuel w p,
  lseg (heap w) p ls -> (length ls <= fuel)%nat ->
  pbuf_free_chain fuel p w = Ok (tt, set_heap (delete_all ls) w).
Proof.
  induction ls as [|l ls IH]; intros fuel w p Hseg Hfuel.
  - unfold lseg in Hseg. simpl in Hseg. subst p.
    destruct w; destruct fuel; reflexivity.
  - pose proof (lseg_NoDup _ _ _ Hseg) as Hnd.
    apply NoDup_cons in Hnd as [Hni _].
    destruct Hseg as (-> & b & Hb & Hseg).
    destruct fuel as [|fuel]; [simpl in Hfuel; lia|].
    simpl pbuf_free_chain.
    rewrite (bind_Ok _ _ _ _ _ (load_Ok _ _ _ Hb)).
    rewrite (bind_Ok _ _ _ tt (set_heap (delete l) w)) by reflexivity.
    rewrite (IH fuel (set_heap (delete l) w) (next b)).
    + reflexivity.
    + simpl. apply lseg_to_delete_notin; assumption.
    + simpl in Hfuel. lia.
Qed.

Lemma pbuf_free_ok w hd ls :
  heap_ok w -> lseg (heap w) (Some hd) ls ->
  pbuf_free (Some hd) w = Ok (tt, set_heap (delete_all ls) (add_freed hd w)).
Proof.
  intros Hok Hseg. unfold pbuf_free.
  rewrite (bind_Ok _ _ _ tt (add_freed hd w)) by reflexivity.
  rewrite (bind_Ok _ _ _ (add_freed hd w) (add_freed hd w)) by reflexivity.
  apply pbuf_free_chain_ok; [exact Hseg|].
  destruct (lseg_bounded w _ _ Hok Hseg) as [_ H]. simpl. lia.
Qed.

Lemma delete_all_notin ls : forall h l, l ∉ ls -> delete_all ls h !! l = h !! l.
Proof.
  induction ls as [|x ls IH]; intros h l Hn; [reflexivity|].
  apply not_elem_of_cons in Hn as [Hx Hn]. simpl.
  rewrite IH by exact Hn. apply lookup_delete_ne. congruence.
Qed.

Lemma delete_all_in ls : forall h l, l ∈ ls -> delete_all ls h !! l = None.
Proof.
  induction ls as [|x ls IH]; intros h l Hin.
  - apply elem_of_nil in Hin. contradiction.
  - simpl. destruct (decide (l ∈ ls)) as [Hl|Hl]; [apply IH; exact Hl|].
    apply elem_of_cons in Hin as [->|Hin]; [|contradiction].
    rewrite delete_all_notin by exact Hl. apply lookup_delete_eq.
Qed.

Lemma pool_buf_bytes_length b :
  pool_buf b -> Z.of_nat (length (buf_bytes b)) = len b /\
                (Z.to_nat (len b) <= length (payload b))%nat.
Proof.
  intros [Hp Hl]. unfold buf_bytes. rewrite length_take. lia.
Qed.

(** The loop of [pppos_xmit] from the buffer after [pre] on. *)
Lemma pppos_xmit_loop_ok suf : forall pre fuel w hd cur,
  heap_ok w ->
  lseg (heap w) (Some hd) (pre ++ suf) ->
  lseg (heap w) cur suf ->
  Forall (fun l => exists b, heap w !! l = Some b /\ pool_buf b) suf ->
  (length suf <= fuel)%nat ->
  let segs := map (bytes_at (heap w)) suf in
  pppos_xmit_loop fuel (Some hd) cur w =
  match short_write (sio_calls w) segs with
  | None =>
      Ok (true, set_sio (sio_calls w + length suf) (concat segs) w)
  | Some (j, c) =>
      Ok (false,
          set_heap (delete_all (pre ++ suf))
            (add_freed hd
              (add_stat ifoutdiscards 1
                (set_ppp (set_last_xmit 0)
                  (add_stat link_err 1
                    (set_sio (sio_calls w + S j)
                       (concat (take j segs) ++ take (Z.to_nat c) (nth j segs []))
                       w))))))
  end.
Proof.
  induction suf as [|l suf IH]; intros pre fuel w hd cur Hok Hall Hcur Hbufs Hfuel.
  - unfold lseg in Hcur. simpl in Hcur. subst cur. simpl.
    destruct w, fuel; simpl; rewrite ?Nat.add_0_r, ?app_nil_r; reflexivity.
  - destruct fuel as [|fuel]; [simpl in Hfuel; lia|].
    destruct Hcur as (-> & b & Hb & Hcur).
    apply Forall_cons in Hbufs as [(b0 & Hb0 & Hpool) Hbufs].
    rewrite Hb in Hb0. injection Hb0 as <-.
    destruct (pool_buf_bytes_length b Hpool) as [Hlen Hcap].
    assert (Hbl : bytes_at (heap w) l = buf_bytes b)
      by (unfold bytes_at; rewrite Hb; reflexivity).
    cbv zeta. simpl map. rewrite Hbl. simpl short_write. rewrite Hlen.
    simpl pppos_xmit_loop.
    rewrite (bind_Ok _ _ _ _ _ (load_Ok _ _ _ Hb)).
    apply Nat.leb_le in Hcap. rewrite Hcap. fold (buf_bytes b).
    set (w1 := set_sio (S (sio_calls w))
                 (take (Z.to_nat (sio_ret (sio_calls w) (len b))) (buf_bytes b)) w).
    rewrite (bind_Ok _ _ _ (sio_ret (sio_calls w) (len b)) w1)
      by (unfold sio_write; rewrite Hlen; reflexivity).
    destruct (Z.eqb_spec (sio_ret (sio_calls w) (len b)) (len b)) as [Heq|Hne];
      cbn [negb].
    + assert (Htake : take (Z.to_nat (sio_ret (sio_calls w) (len b))) (buf_bytes b)
                      = buf_bytes b).
      { apply take_ge. rewrite Heq. lia. }
      pose proof (IH (pre ++ [l]) fuel w1 hd (next b)) as IH1.
      rewrite <- app_assoc in IH1.
      specialize (IH1 Hok Hall Hcur Hbufs ltac:(simpl in Hfuel; lia)).
      cbv zeta in IH1. rewrite IH1.
      replace (sio_calls w1) with (S (sio_calls w)) by reflexivity.
      replace (heap w1) with (heap w) by reflexivity.
      destruct (short_write (S (sio_calls w)) (map (bytes_at (heap w)) suf))
        as [[j c]|]; unfold w1; rewrite Htake; destruct w; cbn;
        do 3 f_equal; first [lia | rewrite <- ?app_assoc; reflexivity].
    + unfold LINK_STATS_INC, snmp_inc.
      rewrite (bind_Ok _ _ _ tt (add_stat link_err 1 w1)) by reflexivity.
      rewrite (bind_Ok _ _ _ tt (set_ppp (set_last_xmit 0) (add_stat link_err 1 w1)))
        by reflexivity.
      rewrite (bind_Ok _ _ _ tt (add_stat ifoutdiscards 1
                 (set_ppp (set_last_xmit 0) (add_stat link_err 1 w1))))
        by reflexivity.
      erewrite (bind_Ok _ _ _ tt _).
      2:{ apply (pbuf_free_ok _ hd (pre ++ l :: suf)).
          - intros x Hx. simpl in *. apply Hok. exact Hx.
          - simpl. exact Hall. }
      unfold w1, ret. destruct w; cbn. do 3 f_equal. lia.
Qed.

Lemma pppos_xmit_ok A0 w hd ls :
  tx_chain A0 w hd ls ->
  pppos_xmit (Some hd) w = Ok (tt, xmit_result w hd ls).
Proof.
  intros [Hok Hseg Hnd Hfr Hbufs].
  unfold pppos_xmit. rewrite (bind_Ok _ _ _ w w) by reflexivity.
  destruct (lseg_bounded w _ _ Hok Hseg) as [_ Hlen].
  pose proof (pppos_xmit_loop_ok ls [] (S (allocs w)) w hd (Some hd)
                Hok Hseg Hseg Hbufs ltac:(lia)) as Hloop.
  cbv zeta in Hloop. unfold xmit_result. cbv zeta.
  destruct (short_write (sio_calls w) (map (bytes_at (heap w)) ls))
    as [[j c]|].
  - rewrite (bind_Ok _ _ _ _ _ Hloop). unfold ret. destruct w; reflexivity.
  - rewrite (bind_Ok _ _ _ _ _ Hloop).
    destruct ls as [|x ls']; [unfold lseg in Hseg; simpl in Hseg; discriminate|].
    pose proof Hseg as (E & b & Hb & _). injection E as <-.
    set (w1 := set_sio (sio_calls w + length (hd :: ls'))
                 (concat (map (bytes_at (heap w)) (hd :: ls'))) w).
    assert (Hb1 : heap w1 !! hd = Some b) by exact Hb.
    rewrite (bind_Ok _ _ _ _ _ (load_Ok _ _ _ Hb1)).
    unfold snmp_add, snmp_inc, LINK_STATS_INC.
    rewrite (bind_Ok _ _ _ tt (add_stat ifoutoctets (tot_len b) w1)) by reflexivity.
    rewrite (bind_Ok _ _ _ tt (add_stat ifoutucastpkts 1
               (add_stat ifoutoctets (tot_len b) w1))) by reflexivity.
    erewrite (bind_Ok _ _ _ tt _).
    2:{ apply (pbuf_free_ok _ hd (hd :: ls')).
        - intros y Hy. simpl in *. apply Hok. exact Hy.
        - exact Hseg. }
    rewrite Hb. unfold w1, modify. destruct w; reflexivity.
Qed.

(** ** The netif output callback *)

Lemma alloc_head_inv w :
  heap_ok w -> pool_ok (allocs w) = true ->
  let w0 := set_allocs (S (allocs w))
              (set_heap (<[allocs w := fresh_pbuf]>) w) in
  pbuf_alloc w = Ok (Some (allocs w), w0) /\
  tx_inv (allocs w) w0 (allocs w) (Some (allocs w)) [].
Proof.
  intros Hok Hpool. cbv zeta. split.
  - unfold pbuf_alloc. rewrite Hpool. reflexivity.
  - destruct fresh_pbuf_pool as (Hfp & Hfl & Hfb & Hfn).
    exists [allocs w]. split; [constructor|split].
    + intros l [x Hx]. simpl in *. destruct (decide (l = allocs w)) as [->|Hne].
      * lia.
      * rewrite lookup_insert_ne in Hx by congruence.
        assert (l < allocs w)%nat by (apply Hok; eauto). lia.
    + simpl. split; [reflexivity|]. exists fresh_pbuf.
      split; [apply lookup_insert_eq | exact Hfn].
    + apply NoDup_singleton.
    + apply Forall_singleton. lia.
    + apply Forall_singleton. exists fresh_pbuf.
      split; [simpl; apply lookup_insert_eq | exact Hfp].
    + right. reflexivity.
    + intros _. erewrite chain_bytes_single by (simpl; apply lookup_insert_eq).
      exact Hfb.
Qed.

Lemma tx_inv_live A0 w hd tail out :
  tx_inv A0 w hd tail out -> tail <> None ->
  exists ls, tx_chain A0 w hd ls /\ chain_bytes (heap w) ls = out.
Proof. intros (ls & Hc & _ & Hb) Hn. exists ls. auto. Qed.

Lemma alloc_head_owned w :
  heap_ok w ->
  tx_owned (allocs w)
    (set_allocs (S (allocs w)) (set_heap (<[allocs w := fresh_pbuf]>) w))
    (allocs w).
Proof.
  intros Hok. destruct fresh_pbuf_pool as (_ & _ & _ & Hfn).
  exists [allocs w]. simpl. split.
  - split; [reflexivity|]. exists fresh_pbuf.
    split; [apply lookup_insert_eq | exact Hfn].
  - intros l Hl Hlive. apply list_elem_of_singleton.
    destruct (decide (l = allocs w)) as [->|Hne]; [reflexivity|].
    rewrite lookup_insert_ne in Hlive by congruence.
    specialize (Hok _ Hlive). lia.
Qed.

(** The callback up to the test of the tail pointer, whatever the pool
    grants after the head buffer. *)
Lemma netif_output_build w pb pls protocol :
  heap_ok w -> payload_chain w pb pls -> pool_ok (allocs w) = true ->
  exists (t6 : option loc) w6,
    pppos_link_netif_output_callback pb protocol w
      = match t6 with
        | None =>
            (pbuf_free (Some (allocs w)) ;;;
             LINK_STATS_INC link_memerr ;;;
             LINK_STATS_INC link_drop ;;;
             snmp_inc ifoutdiscards ;;;
             ret ERR_MEM) w6
        | Some _ => (pppos_xmit (Some (allocs w)) ;;; ret ERR_OK) w6
        end /\
    tx_inv (allocs w) w6 (allocs w) t6
      (hdlc_frame (link_idle w) (out_accm (ppp w))
         (tx_header (accomp (ppp w)) (pcomp (ppp w)) protocol
          ++ chain_bytes (heap w) pls)) /\
    tx_owned (allocs w) w6 (allocs w) /\
    (exists b, heap w6 !! allocs w = Some b /\ tot_len b = 0) /\
    stats w6 = match t6 with
               | Some _ => stats w
               | None => (link_memerr, 1) :: stats w
               end /\
    ((forall k, pool_ok k = true) -> t6 <> None) /\
    ppp w6 = set_last_xmit (jiffies w) (ppp w) /\
    wire w6 = wire w /\ delivered w6 = delivered w /\ freed w6 = freed w /\
    sio_calls w6 = sio_calls w /\ jiffies w6 = jiffies w /\
    (forall l, (l < allocs w)%nat -> heap w6 !! l = heap w !! l).
Proof.
  intros Hok Hpc Hpool.
  set (A0 := allocs w). set (accm := out_accm (ppp w)).
  destruct (alloc_head_inv w Hok Hpool) as [Halloc Hinv0].
  pose proof (alloc_head_owned w Hok) as Hown0.
  cbv zeta in Halloc, Hinv0. fold A0 in Halloc, Hinv0, Hown0.
  set (w0 := set_allocs (S A0) (set_heap (<[A0 := fresh_pbuf]>) w)) in *.
  assert (Hfr0 : forall l, (l < A0)%nat -> heap w0 !! l = heap w !! l).
  { intros l Hl. simpl. apply lookup_insert_ne. lia. }
  destruct (tx_idle_flag_inv A0 w0 A0 _ _ Hinv0)
    as (t1 & w1 & Hrun1 & Hinv1 & Hok1 & Hppp1 & Hwire1 & Hdel1 & Hfreed1 &
        Hsio1 & Hjif1 & Hal1 & Hfr1 & Hfl1).
  pose proof (tx_idle_flag_build A0 w0 A0 A0 _ t1 w1 Hinv0 Hrun1) as Hb1.
  change (link_idle w0) with (link_idle w) in Hinv1.
  change (jiffies w0) with (jiffies w) in Hppp1.
  change (ppp w0) with (ppp w) in Hppp1.
  assert (Haccm1 : out_accm (ppp w1) = accm) by (rewrite Hppp1; reflexivity).
  (* address and control *)
  assert (Hhdr1 : exists t2 w2 f2,
    (if negb (accomp (ppp w1))
     then st <- tx_header_byte PPP_ALLSTATIONS (PPP_INITFCS, t1) ;;
          tx_header_byte PPP_UI st
     else ret (PPP_INITFCS, t1)) w1 = Ok ((f2, t2), w2) /\
    f2 = fcs_update PPP_INITFCS
           (if accomp (ppp w) then [] else [PPP_ALLSTATIONS; PPP_UI]) /\
    tx_inv A0 w2 A0 t2
      (([] ++ if link_idle w then [PPP_FLAG] else []) ++
       enc_all accm (if accomp (ppp w) then [] else [PPP_ALLSTATIONS; PPP_UI])) /\
    tx_step A0 w1 w2 /\ tail_flow t1 t2 /\ tx_build A0 A0 w1 t1 w2 t2).
  { replace (accomp (ppp w1)) with (accomp (ppp w)) by (rewrite Hppp1; reflexivity).
    destruct (accomp (ppp w)); cbn [negb].
    - exists t1, w1, PPP_INITFCS. unfold enc_all. simpl. rewrite app_nil_r.
      repeat split; auto using tx_step_refl, tx_build_refl.
    - destruct (tx_header_byte_inv A0 w1 A0 t1 _ PPP_ALLSTATIONS PPP_INITFCS Hinv1)
        as (ta & wa & Hra & Hia & Hsa & Hfa).
      destruct (tx_header_byte_inv A0 wa A0 ta _ PPP_UI
                  (PPP_FCS PPP_INITFCS PPP_ALLSTATIONS) Hia)
        as (tb & wb & Hrb & Hib & Hsb & Hfb).
      pose proof (tx_header_byte_build A0 w1 A0 t1 _ _ _ _ _ Hinv1 Hra) as Hba.
      pose proof (tx_header_byte_build A0 wa A0 ta _ _ _ _ _ Hia Hrb) as Hbb.
      exists tb, wb, (PPP_FCS (PPP_FCS PPP_INITFCS PPP_ALLSTATIONS) PPP_UI).
      split; [rewrite (bind_Ok _ _ _ _ _ Hra); exact Hrb|].
      split; [reflexivity|].
      split; [|split; [eauto using tx_step_trans
                      |split; [eauto using tail_flow_trans
                              |eauto using tx_build_trans]]].
      rewrite (txs_ppp _ _ _ Hsa), Haccm1 in Hib.
      rewrite <- app_assoc in Hib. rewrite <- enc_all_app in Hib. exact Hib. }
  destruct Hhdr1 as (t2 & w2 & f2 & Hrun2 & Hf2 & Hinv2 & Hstep2 & Hfl2 & Hb2).
  assert (Haccm2 : out_accm (ppp w2) = accm)
    by (rewrite (txs_ppp _ _ _ Hstep2); exact Haccm1).
  (* protocol, high octet *)
  set (hi := if negb (pcomp (ppp w)) || (protocol >? 0xFF)
             then [Z.land (Z.shiftr protocol 8) 0xFF] else []).
  assert (Hhdr2 : exists t3 w3,
    (if negb (pcomp (ppp w1)) || (protocol >? 0xFF)
     then tx_header_byte (Z.land (Z.shiftr protocol 8) 0xFF) (f2, t2)
     else ret (f2, t2)) w2 = Ok ((fcs_update f2 hi, t3), w3) /\
    tx_inv A0 w3 A0 t3
      ((([] ++ if link_idle w then [PPP_FLAG] else []) ++
        enc_all accm (if accomp (ppp w) then [] else [PPP_ALLSTATIONS; PPP_UI]))
       ++ enc_all accm hi) /\
    tx_step A0 w2 w3 /\ tail_flow t2 t3 /\ tx_build A0 A0 w2 t2 w3 t3).
  { replace (pcomp (ppp w1)) with (pcomp (ppp w)) by (rewrite Hppp1; reflexivity).
    unfold hi. destruct (negb (pcomp (ppp w)) || (protocol >? 0xFF)).
    - destruct (tx_header_byte_inv A0 w2 A0 t2 _
                  (Z.land (Z.shiftr protocol 8) 0xFF) f2 Hinv2)
        as (ta & wa & Hra & Hia & Hsa & Hfa).
      pose proof (tx_header_byte_build A0 w2 A0 t2 _ _ _ _ _ Hinv2 Hra) as Hba.
      exists ta, wa. rewrite Haccm2 in Hia. auto.
    - exists t2, w2. unfold enc_all. simpl. rewrite app_nil_r.
      repeat split; auto using tx_step_refl, tx_build_refl. }
  destruct Hhdr2 as (t3 & w3 & Hrun3 & Hinv3 & Hstep3 & Hfl3 & Hb3).
  assert (Haccm3 : out_accm (ppp w3) = accm)
    by (rewrite (txs_ppp _ _ _ Hstep3); exact Haccm2).
  (* protocol, low octet *)
  destruct (tx_header_byte_inv A0 w3 A0 t3 _ (Z.land protocol 0xFF)
              (fcs_update f2 hi) Hinv3)
    as (t4 & w4 & Hrun4 & Hinv4 & Hstep4 & Hfl4).
  pose proof (tx_header_byte_build A0 w3 A0 t3 _ _ _ _ _ Hinv3 Hrun4) as Hb4.
  simpl snd in Hb4.
  rewrite Haccm3 in Hinv4.
  assert (Haccm4 : out_accm (ppp w4) = accm)
    by (rewrite (txs_ppp _ _ _ Hstep4); exact Haccm3).
  (* payload *)
  assert (Hstep04 : forall l, (l < A0)%nat -> heap w4 !! l = heap w !! l).
  { intros l Hl. rewrite (txs_frame _ _ _ Hstep4), (txs_frame _ _ _ Hstep3),
      (txs_frame _ _ _ Hstep2), Hfr1, Hfr0 by exact Hl. reflexivity. }
  destruct (lseg_bounded w pb pls Hok (proj1 Hpc)) as [HplsA Hplslen].
  fold A0 in HplsA, Hplslen.
  destruct (payload_chain_frame w w4 pb pls Hpc) as [Hpc4 Hbytes4].
  { intros l Hl. apply Hstep04. rewrite Forall_forall in HplsA. auto. }
  assert (Hal4 : (A0 <= allocs w4)%nat).
  { pose proof (txs_allocs _ _ _ Hstep4). pose proof (txs_allocs _ _ _ Hstep3).
    pose proof (txs_allocs _ _ _ Hstep2). simpl in Hal1. lia. }
  destruct (tx_load_chain_inv A0 pls (S (allocs w4)) w4 A0 t4 _ pb
              (PPP_FCS (fcs_update f2 hi) (Z.land protocol 0xFF))
              Hinv4 Hpc4 HplsA ltac:(lia))
    as (t5 & w5 & Hrun5 & Hinv5 & Hstep5 & Hfl5).
  pose proof (tx_load_chain_build A0 pls (S (allocs w4)) w4 A0 t4 _ pb _ _ _
                Hinv4 Hpc4 HplsA ltac:(lia) Hrun5) as Hb5.
  simpl snd in Hb5.
  cbv zeta in Hrun5, Hinv5. rewrite Hbytes4, Haccm4 in *.
  set (P := chain_bytes (heap w) pls) in *.
  (* trailer *)
  set (f5 := fcs_update (PPP_FCS (fcs_update f2 hi) (Z.land protocol 0xFF)) P) in *.
  destruct (tx_trailer_inv A0 w5 A0 t5 _ f5 Hinv5)
    as (t6 & w6 & Hrun6 & Hinv6 & Hstep6 & Hfl6).
  pose proof (tx_trailer_build A0 w5 A0 t5 _ f5 t6 w6 Hinv5 Hrun6) as Hb6.
  rewrite (txs_ppp _ _ _ Hstep5), Haccm4 in Hinv6.
  pose proof (tx_build_trans _ _ _ _ _ _ _ _ Hb1
               (tx_build_trans _ _ _ _ _ _ _ _ Hb2
                 (tx_build_trans _ _ _ _ _ _ _ _ Hb3
                   (tx_build_trans _ _ _ _ _ _ _ _ Hb4
                     (tx_build_trans _ _ _ _ _ _ _ _ Hb5 Hb6)))))
    as (Hstats & Hown & Htot).
  exists t6, w6. split; [|split; [|split; [|split; [|split; [|split]]]]].
  - unfold pppos_link_netif_output_callback.
    rewrite (bind_Ok _ _ _ _ _ Halloc).
    rewrite (bind_Ok _ _ _ _ _ Hrun1).
    rewrite (bind_Ok _ _ _ w1 w1) by reflexivity.
    rewrite (bind_Ok _ _ _ _ _ Hrun2).
    rewrite (bind_Ok _ _ _ _ _ Hrun3).
    rewrite (bind_Ok _ _ _ _ _ Hrun4).
    rewrite (bind_Ok _ _ _ w4 w4) by reflexivity.
    simpl fst. simpl snd.
    rewrite (bind_Ok _ _ _ _ _ Hrun5).
    simpl fst. simpl snd. fold f5.
    rewrite (bind_Ok _ _ _ _ _ Hrun6).
    destruct t6; reflexivity.
  - match type of Hinv6 with
    | tx_inv _ _ _ _ ?o =>
        replace (hdlc_frame (link_idle w) accm
                   (tx_header (accomp (ppp w)) (pcomp (ppp w)) protocol ++ P))
          with o; [exact Hinv6|]
    end.
    unfold hdlc_frame, tx_header. fold accm hi P.
    rewrite !enc_all_app. rewrite <- !app_assoc. simpl app at 1.
    do 5 f_equal.
    unfold f5. rewrite Hf2.
    change (PPP_FCS (fcs_update ?f hi) ?c) with (fcs_update (fcs_update f hi) [c]).
    rewrite <- !fcs_update_app. reflexivity.
  - exact (Hown Hown0).
  - apply (Htot fresh_pbuf). simpl. apply lookup_insert_eq.
  - exact Hstats.
  - intros Hall.
    apply Hfl6; [|exact Hall]. apply Hfl5; [|exact Hall].
    apply Hfl4; [|exact Hall]. apply Hfl3; [|exact Hall].
    apply Hfl2; [|exact Hall]. apply Hfl1; [|exact Hall]. discriminate.
  - pose proof (tx_step_trans _ _ _ _ Hstep2
                 (tx_step_trans _ _ _ _ Hstep3
                   (tx_step_trans _ _ _ _ Hstep4
                     (tx_step_trans _ _ _ _ Hstep5 Hstep6)))) as [].
    rewrite txs_ppp0, txs_wire0, txs_delivered0, txs_freed0, txs_sio0,
      txs_jiffies0.
    repeat split; auto.
    intros l Hl. rewrite txs_frame0, Hfr1, Hfr0 by exact Hl. reflexivity.
Qed.

Lemma netif_output_ok w pb pls protocol :
  heap_ok w -> payload_chain w pb pls -> (forall k, pool_ok k = true) ->
  exists ls w1,
    pppos_link_netif_output_callback pb protocol w
      = Ok (ERR_OK, xmit_result w1 (allocs w) ls) /\
    tx_chain (allocs w) w1 (allocs w) ls /\
    chain_bytes (heap w1) ls
      = hdlc_frame (link_idle w) (out_accm (ppp w))
          (tx_header (accomp (ppp w)) (pcomp (ppp w)) protocol
           ++ chain_bytes (heap w) pls) /\
    ppp w1 = set_last_xmit (jiffies w) (ppp w) /\
    wire w1 = wire w /\ delivered w1 = delivered w /\ freed w1 = freed w /\
    sio_calls w1 = sio_calls w /\ jiffies w1 = jiffies w /\
    (forall l, (l < allocs w)%nat -> heap w1 !! l = heap w !! l).
Proof.
  intros Hok Hpc Hall.
  destruct (netif_output_build w pb pls protocol Hok Hpc (Hall _))
    as (t6 & w6 & Hrun & Hinv6 & _ & _ & _ & Hlive & Hrest).
  specialize (Hlive Hall).
  destruct (tx_inv_live _ _ _ _ _ Hinv6 Hlive) as (ls & Hchain & Hbytes).
  exists ls, w6. split; [|split; [exact Hchain|split; [exact Hbytes|exact Hrest]]].
  rewrite Hrun. destruct t6 as [t6|]; [|congruence].
  rewrite (bind_Ok _ _ _ _ _ (pppos_xmit_ok _ w6 _ ls Hchain)).
  reflexivity.
Qed.

Lemma heap_okb_sound w : heap_okb w = true -> heap_ok w.
Proof.
  unfold heap_okb. rewrite forallb_forall. intros H l [b Hb].
  apply elem_of_map_to_list in Hb. apply list_elem_of_In in Hb.
  specialize (H _ Hb). simpl in H. apply Nat.ltb_lt. exact H.
Qed.

Lemma short_write_complete segs : forall k,
  (forall k n, sio_ret k n = n) -> short_write k segs = None.
Proof.
  induction segs as [|s segs IH]; intros k Hsio; [reflexivity|].
  simpl. rewrite Hsio, Z.eqb_refl, IH by exact Hsio. reflexivity.
Qed.

(** ** The character map test against the map as a mask of 256 bits *)

Lemma land_pow2_testbit (x k : Z) :
  0 <= k -> (Z.land x (2 ^ k) =? 0) = negb (Z.testbit x k).
Proof.
  intros Hk. destruct (Z.testbit x k) eqn:E; simpl.
  - apply Z.eqb_neq. intros H.
    pose proof (Z.land_spec x (2 ^ k) k) as Hb.
    rewrite H, Z.bits_0, E, Z.pow2_bits_true in Hb by exact Hk.
    discriminate Hb.
  - apply Z.eqb_eq. apply Z.bits_inj'. intros n Hn.
    rewrite Z.land_spec, Z.bits_0, Z.pow2_bits_eqb by exact Hk.
    destruct (Z.eqb_spec k n) as [->|_]; [rewrite E; reflexivity|].
    apply andb_false_r.
Qed.

Lemma ppp_accm_mask_pow2 (k : Z) :
  0 <= k < 8 -> nth (Z.to_nat k) ppp_accm_mask 0 = 2 ^ k.
Proof.
  intros Hk.
  assert (H : k = 0 \/ k = 1 \/ k = 2 \/ k = 3 \/ k = 4 \/ k = 5 \/ k = 6
              \/ k = 7) by lia.
  repeat (destruct H as [->|H]; [reflexivity|]). subst k. reflexivity.
Qed.

(** [ESCAPE_P] is non-zero exactly for the characters whose bit is set in
    the map, whatever the map and the character. *)
Lemma escaped_accm_bit (accm : ext_accm) (c : Z) :
  escaped accm c = accm_bit accm c.
Proof.
  unfold escaped, ESCAPE_P, accm_bit.
  rewrite Z.shiftr_div_pow2 by lia. change (2 ^ 3) with 8.
  change 0x07 with (Z.ones 3). rewrite Z.land_ones by lia.
  change (2 ^ 3) with 8.
  pose proof (Z.mod_pos_bound c 8 ltac:(lia)) as Hm.
  rewrite ppp_accm_mask_pow2 by exact Hm.
  rewrite land_pow2_testbit by lia. apply negb_involutive.
Qed.

Lemma enc_escape_octet (accm : ext_accm) (c : Z) :
  enc (Some accm) c = escape_octet accm c.
Proof.
  unfold enc, escape_octet. rewrite escaped_accm_bit. reflexivity.
Qed.

Lemma enc_all_escape_octets (accm : ext_accm) (bs : list Z) :
  enc_all accm bs = escape_octets accm bs.
Proof.
  unfold enc_all, escape_octets. f_equal. apply map_ext. intros c.
  apply enc_escape_octet.
Qed.

(** C4.  A packet sent through the netif callback, every buffer granted and
    every serial write complete, puts on the wire: a flag when the link was
    idle; 0xFF 0x03 unless ACFC is on; the high protocol octet unless PFC is
    on and the protocol fits one octet; the low protocol octet; the payload;
    the low then the high octet of the complemented check sequence, which
    runs over exactly the header octets sent and the payload; all of these
    ACCM-escaped, that is, each octet whose bit is set in the transmit map
    sent as 0x7D followed by the octet XOR 0x20 and every other octet sent
    as itself; and last a flag that is not escaped. The escaping is stated
    with [escape_octet], which reads the map bit by bit and does not use
    [ESCAPE_P]. *)
Theorem netif_output_wire_format (w : world) (pb : option loc)
  (pls : list loc) (protocol : Z) :
  heap_ok w -> payload_chain w pb pls ->
  (forall k, pool_ok k = true) -> (forall k n, sio_ret k n = n) ->
  exists w',
    pppos_link_netif_output_callback pb protocol w = Ok (ERR_OK, w') /\
    let accm := out_accm (ppp w) in
    let P := chain_bytes (heap w) pls in
    let hdr := (if accomp (ppp w) then [] else [0xFF; 0x03]) ++
               (if negb (pcomp (ppp w)) || (protocol >? 0xFF)
                then [Z.land (Z.shiftr protocol 8) 0xFF] else []) ++
               [Z.land protocol 0xFF] in
    let fcs := fold_left PPP_FCS (hdr ++ P) 0xFFFF in
    wire w' = wire w ++
              (if u32 (jiffies w - last_xmit (ppp w)) >=? PPP_MAXIDLEFLAG
               then [0x7E] else []) ++
              escape_octets accm hdr ++ escape_octets accm P ++
              escape_octet accm (Z.land (u32 (Z.lnot fcs)) 0xFF) ++
              escape_octet accm (Z.land (Z.shiftr (u32 (Z.lnot fcs)) 8) 0xFF) ++
              [0x7E].
Proof.
  intros Hok Hpc Hpool Hsio.
  destruct (netif_output_ok w pb pls protocol Hok Hpc Hpool)
    as (ls & w1 & Hrun & Hchain & Hbytes & Hppp & Hwire & _).
  eexists. split; [exact Hrun|]. cbv zeta.
  rewrite <- !enc_all_escape_octets, <- !enc_escape_octet.
  unfold xmit_result. cbv zeta.
  rewrite short_write_complete by exact Hsio. simpl wire.
  rewrite Hwire. f_equal.
  change (concat (map (bytes_at (heap w1)) ls)) with (chain_bytes (heap w1) ls).
  rewrite Hbytes. unfold hdlc_frame, tx_header, link_idle, fcs_trailer, fcs_update.
  rewrite !enc_all_app. f_equal.
  change (enc_all ?a [?x; ?y]) with (enc (Some a) x ++ enc (Some a) y ++ []).
  rewrite app_nil_r. rewrite <- !app_assoc. reflexivity.
Qed.

(** ** The raw write callback, on every return path *)

Lemma heap_ok_shrink w w' :
  heap_ok w -> (allocs w <= allocs w')%nat ->
  (forall l, is_Some (heap w' !! l) -> is_Some (heap w !! l)) ->
  heap_ok w'.
Proof. intros Hok Hal Hsub l Hl. specialize (Hok l (Hsub l Hl)). lia. Qed.

Lemma delete_all_is_Some ls h l :
  is_Some (delete_all ls h !! l) -> is_Some (h !! l).
Proof.
  destruct (decide (l ∈ ls)) as [Hin|Hni].
  - rewrite delete_all_in by exact Hin. intros [x Hx]. discriminate.
  - rewrite delete_all_notin by exact Hni. auto.
Qed.

Lemma pbuf_free_framed w w' p pls :
  heap_ok w' -> lseg (heap w) (Some p) pls ->
  (forall l, l ∈ pls -> heap w' !! l = heap w !! l) ->
  pbuf_free (Some p) w' = Ok (tt, set_heap (delete_all pls) (add_freed p w')).
Proof.
  intros Hok Hseg Hf. apply pbuf_free_ok; [exact Hok|].
  eapply lseg_to_frame; eauto.
Qed.

Lemma write_callback_run (w : world) (p : loc) (pb : pbuf) (pls : list loc) :
  heap_ok w -> heap w !! p = Some pb ->
  (Z.to_nat (len pb) <= length (payload pb))%nat ->
  lseg (heap w) (Some p) pls ->
  exists r w',
    pppos_link_write_callback (Some p) w = Ok (r, w') /\
    (exists pre, freed w' = freed w ++ pre ++ [p] /\ p ∉ pre) /\
    (forall l, l ∈ pls -> heap w' !! l = None) /\
    (r = PPPERR_NONE ->
     exists ls w1,
       tx_chain (allocs w) w1 (allocs w) ls /\
       chain_bytes (heap w1) ls
         = hdlc_frame (link_idle w) (out_accm (ppp w)) (buf_bytes pb) /\
       wire w1 = wire w /\ sio_calls w1 = sio_calls w /\
       wire w' = wire (xmit_result w1 (allocs w) ls) /\
       sio_calls w' = sio_calls (xmit_result w1 (allocs w) ls) /\
       ppp w' = ppp (xmit_result w1 (allocs w) ls) /\
       ppp w1 = set_last_xmit (jiffies w) (ppp w)) /\
    ((forall k, pool_ok k = true) -> r = PPPERR_NONE).
Proof.
  intros Hok Hp Hcap Hpls.
  set (A0 := allocs w).
  assert (HpA : (p < A0)%nat) by (apply Hok; eauto).
  destruct (lseg_bounded w _ _ Hok Hpls) as [HplsA _]. fold A0 in HplsA.
  rewrite Forall_forall in HplsA.
  unfold pppos_link_write_callback.
  rewrite (bind_Ok _ _ _ _ _ (load_Ok _ _ _ Hp)).
  destruct (pool_ok (allocs w)) eqn:Hpool.
  2:{ (* no head buffer *)
    rewrite (bind_Ok _ _ _ None (set_allocs (S A0) w))
      by (unfold pbuf_alloc; rewrite Hpool; reflexivity).
    unfold LINK_STATS_INC, snmp_inc.
    do 3 (erewrite (bind_Ok _ _ _ tt _) by reflexivity).
    erewrite (bind_Ok _ _ _ tt _).
    2:{ apply (pbuf_free_framed w _ p pls); [|exact Hpls|reflexivity].
        eapply heap_ok_shrink; [exact Hok | simpl; lia | simpl; auto]. }
    eexists _, _. split; [reflexivity|]. simpl.
    split; [exists []; split; [reflexivity | apply not_elem_of_nil]|].
    split; [intros l Hl; apply delete_all_in; exact Hl|].
    split; [discriminate|].
    intros Hall. rewrite Hall in Hpool. discriminate. }
  destruct (alloc_head_inv w Hok Hpool) as [Halloc Hinv0].
  cbv zeta in Halloc, Hinv0. fold A0 in Halloc, Hinv0.
  set (w0 := set_allocs (S A0) (set_heap (<[A0 := fresh_pbuf]>) w)) in *.
  assert (Hfr0 : forall l, (l < A0)%nat -> heap w0 !! l = heap w !! l).
  { intros l Hl. simpl. apply lookup_insert_ne. lia. }
  destruct (tx_idle_flag_inv A0 w0 A0 _ _ Hinv0)
    as (t1 & w1 & Hrun1 & Hinv1 & Hok1 & Hppp1 & Hwire1 & Hdel1 & Hfreed1 &
        Hsio1 & Hjif1 & Hal1 & Hfr1 & Hfl1).
  change (link_idle w0) with (link_idle w) in Hinv1.
  change (jiffies w0) with (jiffies w) in Hppp1.
  change (ppp w0) with (ppp w) in Hppp1.
  assert (Hp1 : heap w1 !! p = Some pb)
    by (rewrite Hfr1, Hfr0 by exact HpA; exact Hp).
  destruct (tx_load_inv A0 (Z.to_nat (len pb)) w1 A0 t1 _ p pb 0%nat
              PPP_INITFCS Hinv1 HpA Hp1 ltac:(lia))
    as (t2 & w2 & Hrun2 & Hinv2 & Hstep2 & Hfl2).
  cbv zeta in Hrun2, Hinv2. rewrite drop_0 in Hrun2, Hinv2.
  fold (buf_bytes pb) in Hrun2, Hinv2.
  replace (out_accm (ppp w1)) with (out_accm (ppp w)) in Hinv2
    by (rewrite Hppp1; reflexivity).
  destruct (tx_trailer_inv A0 w2 A0 t2 _ (fcs_update PPP_INITFCS (buf_bytes pb)) Hinv2)
    as (t3 & w3 & Hrun3 & Hinv3 & Hstep3 & Hfl3).
  replace (out_accm (ppp w2)) with (out_accm (ppp w)) in Hinv3
    by (rewrite (txs_ppp _ _ _ Hstep2), Hppp1; reflexivity).
  pose proof (tx_step_trans _ _ _ _ Hstep2 Hstep3) as Hstep13.
  rewrite (bind_Ok _ _ _ _ _ Halloc).
  rewrite (bind_Ok _ _ _ _ _ Hrun1).
  rewrite (bind_Ok _ _ _ _ _ Hrun2). simpl fst. simpl snd.
  rewrite (bind_Ok _ _ _ _ _ Hrun3).
  destruct Hinv3 as (ls & Hchain & Htail & Hbytes).
  assert (Hpls3 : forall l, l ∈ pls -> heap w3 !! l = heap w !! l).
  { intros l Hl. rewrite (txs_frame _ _ _ Hstep13), Hfr1, Hfr0
      by (apply HplsA; exact Hl). reflexivity. }
  assert (Hdisj : forall l, l ∈ pls -> l ∉ ls).
  { intros l Hl Hin. pose proof (txc_fresh _ _ _ _ Hchain) as Hf.
    rewrite Forall_forall in Hf. specialize (Hf l Hin).
    specialize (HplsA l Hl). lia. }
  assert (HfreedA : freed w3 = freed w).
  { rewrite (txs_freed _ _ _ Hstep13). exact Hfreed1. }
  assert (HnA : p ∉ [A0]).
  { intros Hin. apply list_elem_of_singleton in Hin. lia. }
  destruct t3 as [t3|].
  - (* the frame is complete: send it *)
    rewrite (bind_Ok _ _ _ _ _ (pppos_xmit_ok A0 w3 A0 ls Hchain)).
    set (wx := xmit_result w3 A0 ls).
    assert (Hwx : heap wx = delete_all ls (heap w3) /\
                  freed wx = freed w3 ++ [A0] /\ allocs wx = allocs w3).
    { unfold wx, xmit_result. cbv zeta.
      destruct (short_write _ _) as [[j c]|]; simpl; auto. }
    destruct Hwx as (Hhx & Hfx & Hax).
    erewrite (bind_Ok _ _ _ tt _).
    2:{ apply (pbuf_free_framed w _ p pls); [|exact Hpls|].
        - eapply heap_ok_shrink; [apply (txc_heap _ _ _ _ Hchain) | lia |].
          intros l. rewrite Hhx. apply delete_all_is_Some.
        - intros l Hl. rewrite Hhx, delete_all_notin by (apply Hdisj; exact Hl).
          apply Hpls3. exact Hl. }
    eexists _, _. split; [reflexivity|]. simpl.
    split; [exists [A0]; split; [|exact HnA]|].
    { rewrite Hfx, HfreedA, <- app_assoc. reflexivity. }
    split; [intros l Hl; apply delete_all_in; exact Hl|].
    split; [|reflexivity].
    intros _. exists ls, w3.
    split; [exact Hchain|]. split.
    { rewrite Hbytes by discriminate. unfold hdlc_frame.
      rewrite enc_all_app, <- !app_assoc. reflexivity. }
    split; [rewrite (txs_wire _ _ _ Hstep13); exact Hwire1|].
    split; [rewrite (txs_sio _ _ _ Hstep13); exact Hsio1|].
    split; [reflexivity|]. split; [reflexivity|]. split; [reflexivity|].
    rewrite (txs_ppp _ _ _ Hstep13). exact Hppp1.
  - (* a buffer was refused on the way: discard the chain *)
    erewrite (bind_Ok _ _ _ tt _)
      by (apply (pbuf_free_ok _ A0 ls);
          [apply (txc_heap _ _ _ _ Hchain) | apply (txc_seg _ _ _ _ Hchain)]).
    unfold LINK_STATS_INC, snmp_inc.
    do 3 (erewrite (bind_Ok _ _ _ tt _) by reflexivity).
    erewrite (bind_Ok _ _ _ tt _).
    2:{ apply (pbuf_free_framed w _ p pls); [|exact Hpls|].
        - eapply heap_ok_shrink; [apply (txc_heap _ _ _ _ Hchain) | simpl; lia |].
          intros l. simpl. apply delete_all_is_Some.
        - intros l Hl. simpl. rewrite delete_all_notin by (apply Hdisj; exact Hl).
          apply Hpls3. exact Hl. }
    eexists _, _. split; [reflexivity|]. simpl.
    split; [exists [A0]; split; [|exact HnA]|].
    { rewrite HfreedA, <- app_assoc. reflexivity. }
    split; [intros l Hl; apply delete_all_in; exact Hl|].
    split; [discriminate|].
    intros Hall. exfalso.
    assert (Hlive : @None loc <> None); [|congruence].
    apply Hfl3; [|exact Hall]. apply Hfl2; [|exact Hall].
    apply Hfl1; [|exact Hall]. discriminate.
Qed.

(** ** pbuf_cat and pbuf_realloc on well-formed chains *)

Lemma pbuf_cat_loop_spec ls : forall fuel w p t tb,
  lseg (heap w) p ls -> ls <> [] -> t ∉ ls -> heap w !! t = Some tb ->
  (length ls <= fuel)%nat ->
  exists h',
    pbuf_cat_loop fuel p (Some t) w = Ok (tt, set_heap (fun _ => h') w) /\
    (forall l, l ∉ ls -> h' !! l = heap w !! l) /\
    lseg_to h' p ls (Some t) /\
    (forall l b, l ∈ ls -> heap w !! l = Some b ->
       exists b', h' !! l = Some b' /\ payload b' = payload b /\
                  len b' = len b /\
                  tot_len b' = u16 (tot_len b + tot_len tb)).
Proof.
  induction ls as [|l ls IH]; intros fuel w p t tb Hseg Hne Ht Htb Hfuel;
    [congruence|].
  pose proof (lseg_NoDup _ _ _ Hseg) as Hnd.
  apply NoDup_cons in Hnd as [Hl _].
  apply not_elem_of_cons in Ht as [Htl Ht].
  destruct Hseg as (-> & b & Hb & Hseg).
  destruct fuel as [|fuel]; [simpl in Hfuel; lia|].
  simpl pbuf_cat_loop.
  rewrite (bind_Ok _ _ _ _ _ (load_Ok _ _ _ Hb)).
  rewrite (bind_Ok _ _ _ _ _ (load_Ok _ _ _ Htb)).
  rewrite (bind_Ok _ _ _ _ _ (update_Ok _ _ _ _ Hb)).
  set (b1 := set_tot_len (u16 (tot_len b + tot_len tb)) b).
  set (w1 := set_heap (<[l := b1]>) w).
  destruct ls as [|l2 ls].
  - unfold lseg in Hseg. simpl in Hseg. rewrite Hseg.
    assert (Hb1 : heap w1 !! l = Some b1) by (simpl; apply lookup_insert_eq).
    rewrite (update_Ok _ _ _ _ Hb1).
    exists (<[l := set_next (Some t) b1]> (heap w)).
    split; [|split; [|split]].
    + unfold w1. simpl. rewrite insert_insert_eq. reflexivity.
    + intros x Hx. apply not_elem_of_cons in Hx as [Hx _].
      apply lookup_insert_ne. congruence.
    + simpl. split; [reflexivity|]. eexists.
      split; [apply lookup_insert_eq | reflexivity].
    + intros x bx Hx Hbx. apply list_elem_of_singleton in Hx as ->.
      rewrite Hb in Hbx. injection Hbx as <-.
      eexists. split; [apply lookup_insert_eq|]. auto.
  - pose proof Hseg as (Hn & _). rewrite Hn.
    assert (Hseg1 : lseg (heap w1) (next b) (l2 :: ls)).
    { unfold w1. simpl. apply lseg_to_insert_notin; assumption. }
    assert (Htb1 : heap w1 !! t = Some tb).
    { unfold w1. simpl. rewrite lookup_insert_ne by congruence. exact Htb. }
    rewrite Hn in Hseg1.
    destruct (IH fuel w1 (Some l2) t tb Hseg1 ltac:(discriminate) Ht Htb1
                ltac:(simpl in Hfuel |- *; lia))
      as (h' & Hrun & Hfr & Hseg' & Hnodes).
    exists h'. split; [|split; [|split]].
    + rewrite Hrun. reflexivity.
    + intros x Hx. apply not_elem_of_cons in Hx as [Hx1 Hx2].
      rewrite Hfr by exact Hx2. unfold w1. simpl.
      apply lookup_insert_ne. congruence.
    + split; [reflexivity|]. exists b1. split.
      * rewrite Hfr by exact Hl. unfold w1. simpl. apply lookup_insert_eq.
      * simpl. rewrite Hn. exact Hseg'.
    + intros x bx Hx Hbx. apply elem_of_cons in Hx as [->|Hx].
      * rewrite Hb in Hbx. injection Hbx as <-. exists b1.
        split; [|auto]. rewrite Hfr by exact Hl. unfold w1. simpl.
        apply lookup_insert_eq.
      * apply (Hnodes x bx Hx). unfold w1. simpl.
        rewrite lookup_insert_ne; [exact Hbx|]. intros ->. contradiction.
Qed.

Lemma pbuf_cat_spec w hd ls t tb :
  heap_ok w -> lseg (heap w) (Some hd) ls -> t ∉ ls ->
  heap w !! t = Some tb -> next tb = None ->
  exists h',
    pbuf_cat (Some hd) (Some t) w = Ok (tt, set_heap (fun _ => h') w) /\
    (forall l, l ∉ ls -> h' !! l = heap w !! l) /\
    lseg h' (Some hd) (ls ++ [t]) /\
    (forall l b, l ∈ ls -> heap w !! l = Some b ->
       exists b', h' !! l = Some b' /\ payload b' = payload b /\
                  len b' = len b /\
                  tot_len b' = u16 (tot_len b + tot_len tb)).
Proof.
  intros Hok Hseg Ht Htb Hn.
  destruct (lseg_bounded w _ _ Hok Hseg) as [_ Hlen].
  assert (Hne : ls <> []).
  { destruct ls; [unfold lseg in Hseg; simpl in Hseg|]; congruence. }
  destruct (pbuf_cat_loop_spec ls (S (allocs w)) w (Some hd) t tb
              Hseg Hne Ht Htb ltac:(lia))
    as (h' & Hrun & Hfr & Hseg' & Hnodes).
  exists h'. split; [|split; [exact Hfr|split; [|exact Hnodes]]].
  - unfold pbuf_cat. rewrite (bind_Ok _ _ _ w w) by reflexivity. exact Hrun.
  - unfold lseg. apply lseg_to_app. exists (Some t). split; [exact Hseg'|].
    simpl. split; [reflexivity|]. exists tb.
    split; [rewrite Hfr by exact Ht; exact Htb | exact Hn].
Qed.

(** ** The receive chain, one data octet at a time *)

Lemma bind_assoc {A B C} (m : M A) (f : A -> M B) (g : B -> M C) w :
  bind (bind m f) g w = bind m (fun x => bind (f x) g) w.
Proof. unfold bind. destruct (m w) as [[a w']|e]; reflexivity. Qed.

Lemma bind_ret {A B} (a : A) (k : A -> M B) w : bind (ret a) k w = k a w.
Proof. reflexivity. Qed.

Ltac wsimpl :=
  cbn [heap allocs sio_calls jiffies wire delivered freed stats ppp
       last_xmit out_accm accomp pcomp rx
       in_accm in_head in_tail in_protocol in_fcs in_state in_escaped
       set_heap set_allocs set_sio add_delivered add_freed add_stat set_ppp
       set_last_xmit set_rx set_in_head set_in_tail set_in_protocol
       set_in_fcs set_in_state set_in_escaped
       next payload tot_len len set_next set_payload set_tot_len set_len
       fst snd].
Ltac mnorm := cbv beta iota; rewrite ?bind_assoc.
Ltac mprim := mnorm; erewrite bind_Ok by reflexivity; cbv beta iota; wsimpl.
Ltac mstep H := mnorm; rewrite (bind_Ok _ _ _ _ _ H); cbv beta iota; wsimpl.

Lemma rx_step_refl w : rx_step w w.
Proof. constructor; auto. Qed.

Lemma rx_step_trans w1 w2 w3 : rx_step w1 w2 -> rx_step w2 w3 -> rx_step w1 w3.
Proof. intros [] []. constructor; try congruence; lia. Qed.

Lemma lseg_hd h hd ls : lseg h (Some hd) ls -> exists ls', ls = hd :: ls'.
Proof.
  destruct ls as [|x ls']; unfold lseg; simpl; [discriminate|].
  intros (E & _). injection E as <-. eauto.
Qed.

(** [pppos_drop] releases the whole receive chain, whatever its shape. *)
Lemma pppos_drop_spec w :
  heap_ok w -> rx_droppable w ->
  exists w',
    pppos_drop w = Ok (tt, w') /\
    heap_ok w' /\ rx_step w w' /\
    rxf w' = set_in_tail None (set_in_head None (rxf w)) /\
    stats w' = (ifindiscards, 1) :: (link_drop, 1) :: stats w /\
    delivered w' = delivered w /\ allocs w' = allocs w /\
    (forall l, is_Some (heap w' !! l) -> is_Some (heap w !! l)).
Proof.
  intros Hok Hd. unfold pppos_drop, pppos_free_current_input_packet.
  unfold rx_droppable, rxf in *.
  destruct Hd as [Hh | (hd & ls & Hh & Hseg & Ht)].
  - eexists. split.
    { mprim. rewrite Hh. repeat mprim. reflexivity. }
    destruct w as [h a s j wi d f st [lx oa ac pc [ia ih it ip ifc ist ie]]].
    simpl in *. subst ih.
    repeat split; auto.
  - assert (Hfree_hd : forall w1, heap w1 = heap w -> allocs w1 = allocs w ->
              pbuf_free (Some hd) w1
              = Ok (tt, set_heap (delete_all ls) (add_freed hd w1))).
    { intros w1 E1 E2. apply pbuf_free_ok.
      - intros l Hl. rewrite E1 in Hl. rewrite E2. apply Hok. exact Hl.
      - rewrite E1. exact Hseg. }
    destruct Ht as [Ht | [Ht | (t & tb & Ht & Hni & Htb & Hn)]].
    + eexists. split.
      { mprim. rewrite Hh. rewrite Ht.
        rewrite bool_decide_eq_false_2 by auto. cbn [andb]. mprim.
        mstep (Hfree_hd w eq_refl eq_refl). repeat mprim.
        reflexivity. }
      destruct w as [h a s j wi d f st [lx oa ac pc [ia ih it ip ifc ist ie]]].
      simpl in *. subst ih it.
      repeat split; auto.
      * intros l Hl. simpl in *. apply Hok. eapply delete_all_is_Some. exact Hl.
      * intros l Hl. eapply delete_all_is_Some. exact Hl.
    + eexists. split.
      { mprim. rewrite Hh. rewrite Ht.
        rewrite (bool_decide_eq_false_2 (Some hd <> Some hd)) by auto.
        rewrite andb_false_r. mprim.
        mstep (Hfree_hd w eq_refl eq_refl). repeat mprim.
        reflexivity. }
      destruct w as [h a s j wi d f st [lx oa ac pc [ia ih it ip ifc ist ie]]].
      simpl in *. subst ih it.
      repeat split; auto.
      * intros l Hl. simpl in *. apply Hok. eapply delete_all_is_Some. exact Hl.
      * intros l Hl. eapply delete_all_is_Some. exact Hl.
    + assert (Hne : t <> hd).
      { destruct (lseg_hd _ _ _ Hseg) as [ls' ->].
        apply not_elem_of_cons in Hni as [Hne _]. exact Hne. }
      assert (Hseg_t : lseg (heap w) (Some t) [t]).
      { split; [reflexivity|]. exists tb. split; [exact Htb | exact Hn]. }
      eexists. split.
      { mprim. rewrite Hh. rewrite Ht.
        rewrite (bool_decide_eq_true_2 (Some t <> None)) by discriminate.
        rewrite (bool_decide_eq_true_2 (Some t <> Some hd)) by congruence.
        cbn [andb].
        mstep (pbuf_free_ok w t [t] Hok Hseg_t).
        mnorm. erewrite bind_Ok.
        2:{ apply (pbuf_free_ok _ hd ls).
            - intros l Hl. simpl in *. apply Hok.
              rewrite lookup_delete_ne in Hl; [exact Hl|].
              intros ->. rewrite lookup_delete_eq in Hl.
              destruct Hl; discriminate.
            - simpl. apply lseg_to_delete_notin; assumption. }
        repeat mprim. reflexivity. }
      destruct w as [h a s j wi d f st [lx oa ac pc [ia ih it ip ifc ist ie]]].
      simpl in *. subst ih it.
      assert (Hsub : forall l, is_Some (delete_all ls (delete t h) !! l) ->
                               is_Some (h !! l)).
      { intros l Hl. apply delete_all_is_Some in Hl.
        destruct (decide (l = t)) as [->|Hlt].
        - rewrite lookup_delete_eq in Hl. destruct Hl; discriminate.
        - rewrite lookup_delete_ne in Hl by congruence. exact Hl. }
      repeat split; auto.
      intros l Hl. simpl in *. apply Hok. apply Hsub. exact Hl.
Qed.


Lemma poke_Ok w l b i c :
  heap w !! l = Some b -> (i < length (payload b))%nat ->
  poke (Some l) i c w
  = Ok (tt, set_heap (<[l := set_payload (<[i := c]> (payload b)) b]>) w).
Proof.
  intros H Hi. unfold poke. mstep (load_Ok _ _ _ H).
  apply Nat.ltb_lt in Hi. rewrite Hi. exact (update_Ok _ _ _ _ H).
Qed.

Lemma rx_stored_snoc w data c :
  rx_stored w (data ++ [c]) = proto_prefix w ++ data ++ [c].
Proof. destruct data; reflexivity. Qed.

Lemma rx_stored_nil w data : rx_stored w data = [] -> data = [].
Proof. destruct data; [reflexivity | discriminate]. Qed.

Lemma rx_stored_cons w data :
  data <> [] -> rx_stored w data = proto_prefix w ++ data.
Proof. destruct data; [congruence | reflexivity]. Qed.

Lemma heap_ok_insert w l b :
  heap_ok w -> (l < allocs w)%nat -> heap_ok (set_heap (<[l := b]>) w).
Proof.
  intros Hok Hl x Hx. simpl in *. destruct (decide (x = l)) as [->|Hne].
  - exact Hl.
  - rewrite lookup_insert_ne in Hx by congruence. apply Hok. exact Hx.
Qed.

Lemma full_chain_frame h h' ls :
  (forall l, l ∈ ls -> h' !! l = h !! l) ->
  full_chain h ls -> full_chain h' ls.
Proof.
  intros Hf Hfull i l Hi. destruct (Hfull i l Hi) as (b & Hb & Hrest).
  exists b. split; [|exact Hrest].
  rewrite Hf; [exact Hb|]. eapply list_elem_of_lookup_2. exact Hi.
Qed.

Lemma rx_inv_droppable w data : rx_inv w data -> rx_droppable w.
Proof.
  intros [_ _ _ Hs _]. unfold rx_droppable, rxf.
  destruct Hs as [Hh Ht _ | hd b Hh Ht Hb Hp Hn _ _
                 | hd t ls tb Hh Ht Hseg Hni _ Htb _ Hn _ _].
  - left. exact Hh.
  - right. exists hd, [hd]. split; [exact Hh|]. split; [|auto].
    split; [reflexivity|]. exists b. split; [exact Hb | exact Hn].
  - right. exists hd, ls. split; [exact Hh|]. split; [exact Hseg|].
    right. right. exists t, tb. auto.
Qed.

Ltac heap_lookup :=
  simpl;
  repeat (rewrite lookup_insert_eq || rewrite lookup_insert_ne by congruence);
  first [reflexivity | eassumption].

Ltac mload := mnorm; erewrite bind_Ok by (apply load_Ok; heap_lookup);
              cbv beta iota; wsimpl.
Ltac mupdate := mnorm; erewrite bind_Ok by (apply update_Ok; heap_lookup);
                cbv beta iota; wsimpl.

Lemma head_buf_push x y c :
  let b := push_buf c (head_buf x y) in
  pool_buf b /\ next b = None /\ len b = 3 /\ buf_bytes b = [x; y; c].
Proof.
  cbv zeta. unfold push_buf, head_buf, pool_buf, buf_bytes, u16. simpl.
  rewrite !length_insert, length_replicate.
  change ((2 + 1) mod 65536) with 3. change (Z.to_nat 3) with 3%nat.
  change (Z.to_nat 2) with 2%nat.
  split; [split; [reflexivity | lia]|]. split; [reflexivity|].
  split; [reflexivity|].
  assert (E : exists n, Z.to_nat PBUF_POOL_BUFSIZE = S (S (S n))).
  { exists (Z.to_nat PBUF_POOL_BUFSIZE - 3)%nat. lia. }
  destruct E as [n ->]. reflexivity.
Qed.

Lemma rx_open_tail_first w :
  in_head (rxf w) = None -> pool_ok (allocs w) = true ->
  rx_open_tail w
  = Ok (true,
        set_ppp (set_rx (fun r => set_in_tail (Some (allocs w))
                                     (set_in_head (Some (allocs w)) r)))
          (set_allocs (S (allocs w))
             (set_heap (<[allocs w :=
                            head_buf (u8 (Z.shiftr (in_protocol (rxf w)) 8))
                                     (u8 (Z.land (in_protocol (rxf w)) 0xFF))]>)
                w))).
Proof.
  intros Hh Hpool. unfold rxf in *. unfold rx_open_tail.
  mnorm. erewrite bind_Ok by (unfold pbuf_alloc; rewrite Hpool; reflexivity).
  mprim. rewrite Hh.
  mload. mupdate.
  mnorm. erewrite bind_Ok.
  2:{ apply poke_Ok; [heap_lookup|]. simpl. rewrite length_replicate. lia. }
  wsimpl.
  mnorm. erewrite bind_Ok.
  2:{ apply poke_Ok; [heap_lookup|]. simpl.
      rewrite length_insert, length_replicate. lia. }
  wsimpl.
  repeat mprim. change (u16 (0 + 2)) with 2.
  destruct w as [h a s j wi d f st [lx oa ac pc [ia ih it ip ifc ist ie]]].
  simpl in *. unfold head_buf, ret. rewrite !insert_insert_eq. reflexivity.
Qed.

Lemma rx_open_tail_next w hd :
  in_head (rxf w) = Some hd -> pool_ok (allocs w) = true ->
  rx_open_tail w
  = Ok (true,
        set_ppp (set_rx (set_in_tail (Some (allocs w))))
          (set_allocs (S (allocs w))
             (set_heap (<[allocs w := fresh_pbuf]>) w))).
Proof.
  intros Hh Hpool. unfold rxf in *. unfold rx_open_tail.
  mnorm. erewrite bind_Ok by (unfold pbuf_alloc; rewrite Hpool; reflexivity).
  mprim. rewrite Hh. repeat mprim.
  destruct w as [h a s j wi d f st [lx oa ac pc [ia ih it ip ifc ist ie]]].
  simpl in *. subst. reflexivity.
Qed.

Lemma rx_open_tail_starved w :
  heap_ok w -> rx_droppable w -> pool_ok (allocs w) = false ->
  exists w',
    rx_open_tail w = Ok (false, w') /\
    heap_ok w' /\ rx_step w w' /\
    rxf w' = set_in_state PDSTART (set_in_tail None (set_in_head None (rxf w))) /\
    stats w' = (ifindiscards, 1) :: (link_drop, 1) :: (link_memerr, 1) :: stats w /\
    delivered w' = delivered w.
Proof.
  intros Hok Hd Hpool.
  set (w1 := add_stat link_memerr 1 (set_allocs (S (allocs w)) w)).
  assert (Hok1 : heap_ok w1).
  { intros l Hl. simpl in *. specialize (Hok l Hl). lia. }
  destruct (pppos_drop_spec w1 Hok1 Hd)
    as (w2 & Hrun & Hok2 & Hstep & Hrx & Hstats & Hdel & Hal & _).
  eexists. split.
  { unfold rx_open_tail.
    mnorm. erewrite bind_Ok by (unfold pbuf_alloc; rewrite Hpool; reflexivity).
    mprim. fold w1. mstep Hrun. mprim. reflexivity. }
  unfold rxf in *.
  destruct w2 as [h a s j wi d f st [lx oa ac pc r2]].
  destruct w as [h0 a0 s0 j0 wi0 d0 f0 st0 [lx0 oa0 ac0 pc0 r0]].
  destruct Hstep. simpl in *. subst.
  repeat split; auto. simpl. lia.
Qed.

Lemma case_PDDATA_first w c :
  heap_ok w -> in_head (rxf w) = None -> in_tail (rxf w) = None ->
  pool_ok (allocs w) = true ->
  case_PDDATA c w
  = Ok (tt,
        set_heap (<[allocs w :=
                      push_buf c (head_buf (u8 (Z.shiftr (in_protocol (rxf w)) 8))
                                           (u8 (Z.land (in_protocol (rxf w)) 0xFF)))]>)
          (set_ppp (set_rx (fun r => set_in_tail (Some (allocs w))
                                       (set_in_head (Some (allocs w)) r)))
             (set_allocs (S (allocs w)) w))).
Proof.
  intros Hok Hh Ht Hpool.
  unfold case_PDDATA. mprim. fold (rxf w). rewrite Ht. mprim.
  unfold rx_make_space. unfold rx_close_tail at 1. mprim.
  fold (rxf w). rewrite Ht. mprim.
  mstep (rx_open_tail_first w Hh Hpool). mprim.
  erewrite push_Ok.
  2:{ heap_lookup. }
  2:{ unfold head_buf. simpl. rewrite !length_insert, length_replicate. lia. }
  unfold rxf in *.
  destruct w as [h a s j wi d f st [lx oa ac pc [ia ih it ip ifc ist ie]]].
  simpl in *. rewrite !insert_insert_eq. reflexivity.
Qed.

Lemma buf_bytes_nonempty b : pool_buf b -> 1 <= len b -> buf_bytes b <> [].
Proof.
  intros Hp Hl E. destruct (pool_buf_bytes_length b Hp) as [H _].
  rewrite E in H. simpl in H. lia.
Qed.

(** The first data octet of a frame. *)
Lemma data_none w data c :
  rx_inv w data -> in_state (rxf w) = PDDATA ->
  in_head (rxf w) = None -> in_tail (rxf w) = None ->
  exists w', case_PDDATA c w = Ok (tt, w') /\ data_post w data c w'.
Proof.
  intros Hinv Hst Hh Ht. pose proof Hinv as [Hok Hpr Hfc Hs _].
  assert (Hdata : data = []).
  { destruct Hs as [_ _ E | hd b Hh' | hd t ls tb Hh'].
    - eapply rx_stored_nil; eauto.
    - unfold rxf in *; congruence.
    - unfold rxf in *; congruence. }
  subst data.
  destruct (pool_ok (allocs w)) eqn:Hpool.
  - eexists. split; [apply case_PDDATA_first; assumption|].
    unfold data_post, rxf in *.
    destruct w as [h a s j wi d f st [lx oa ac pc [ia ih it ip ifc ist ie]]].
    simpl in *. subst.
    destruct (head_buf_push (u8 (Z.shiftr ip 8)) (u8 (Z.land ip 0xFF)) c)
      as (P1 & P2 & P3 & P4).
    split; [constructor; simpl; auto|].
    do 4 (split; [reflexivity|]). left.
    split; [|auto]. constructor; simpl; auto.
    + intros l [x Hx]. simpl in *.
      destruct (decide (l = a)) as [->|Hne]; [lia|].
      rewrite lookup_insert_ne in Hx by congruence.
      assert (l < a)%nat by (apply (Hok l); eauto). lia.
    + eapply rx_single;
        [reflexivity | reflexivity | simpl; apply lookup_insert_eq
        | exact P1 | exact P2 | rewrite P3; lia | rewrite P4; reflexivity].
  - unfold case_PDDATA.
    destruct (rx_open_tail_starved w Hok (rx_inv_droppable _ _ Hinv) Hpool)
      as (w' & Hrun & Hok' & Hstep & Hrx & Hstats & Hdel).
    exists w'. split.
    { mprim. fold (rxf w). rewrite Ht. mprim.
      unfold rx_make_space. unfold rx_close_tail at 1. mprim.
      fold (rxf w). rewrite Ht. mprim. mstep Hrun. reflexivity. }
    unfold data_post. rewrite Hrx. simpl.
    split; [exact Hstep|]. do 3 (split; [reflexivity|]).
    split; [exact Hdel|]. right.
    split; [|auto]. constructor; auto.
    + unfold rxf in Hrx. rewrite Hrx. exact Hpr.
    + unfold rxf in Hrx. rewrite Hrx. exact Hfc.
    + apply rx_none; unfold rxf in Hrx; try rewrite Hrx; reflexivity.
    + congruence.
Qed.

Lemma case_PDDATA_room w t tb c :
  in_tail (rxf w) = Some t -> heap w !! t = Some tb ->
  len tb <> PBUF_POOL_BUFSIZE ->
  (Z.to_nat (len tb) < length (payload tb))%nat ->
  case_PDDATA c w = Ok (tt, set_heap (<[t := push_buf c tb]>) w).
Proof.
  intros Ht Htb Hlen Hcap. unfold case_PDDATA.
  mprim. fold (rxf w). rewrite Ht. mload. mprim.
  apply Z.eqb_neq in Hlen. rewrite Hlen. mprim. mprim.
  fold (rxf w). rewrite Ht. apply push_Ok; assumption.
Qed.

Lemma rx_close_tail_head w hd b :
  in_head (rxf w) = Some hd -> in_tail (rxf w) = Some hd ->
  heap w !! hd = Some b ->
  rx_close_tail w = Ok (tt, set_heap (<[hd := set_tot_len (len b) b]>) w).
Proof.
  intros Hh Ht Hb. unfold rx_close_tail.
  mprim. fold (rxf w). rewrite Ht, Hh. mload. mupdate.
  rewrite (bool_decide_eq_false_2 (Some hd <> Some hd)) by auto.
  reflexivity.
Qed.

Lemma rx_close_tail_cat w hd t ls tb :
  heap_ok w ->
  in_head (rxf w) = Some hd -> in_tail (rxf w) = Some t ->
  lseg (heap w) (Some hd) ls -> t ∉ ls ->
  heap w !! t = Some tb -> next tb = None ->
  exists h',
    rx_close_tail w
    = Ok (tt, set_ppp (set_rx (set_in_tail None)) (set_heap (fun _ => h') w)) /\
    (forall l, l ∉ ls -> l <> t -> h' !! l = heap w !! l) /\
    h' !! t = Some (set_tot_len (len tb) tb) /\
    lseg h' (Some hd) (ls ++ [t]) /\
    (forall l b, l ∈ ls -> heap w !! l = Some b ->
       exists b', h' !! l = Some b' /\ payload b' = payload b /\
                  len b' = len b /\ next b' <> None /\
                  tot_len b' = u16 (tot_len b + len tb)).
Proof.
  intros Hok Hh Ht Hseg Hni Htb Hn.
  assert (Hne : t <> hd).
  { destruct (lseg_hd _ _ _ Hseg) as [ls' ->].
    apply not_elem_of_cons in Hni as [Hne _]. exact Hne. }
  set (tb1 := set_tot_len (len tb) tb).
  set (w1 := set_heap (<[t := tb1]>) w).
  assert (Hok1 : heap_ok w1).
  { apply heap_ok_insert; [exact Hok|]. apply Hok. eauto. }
  assert (Hseg1 : lseg (heap w1) (Some hd) ls).
  { unfold w1. simpl. apply lseg_to_insert_notin; assumption. }
  assert (Htb1 : heap w1 !! t = Some tb1) by (simpl; apply lookup_insert_eq).
  destruct (pbuf_cat_spec w1 hd ls t tb1 Hok1 Hseg1 Hni Htb1 Hn)
    as (h' & Hrun & Hfr & Hseg' & Hnodes).
  exists h'. split; [|split; [|split; [|split]]].
  - unfold rx_close_tail. mprim. fold (rxf w). rewrite Ht, Hh. mload. mupdate.
    rewrite (bool_decide_eq_true_2 (Some t <> Some hd)) by congruence.
    fold tb1. fold w1. mstep Hrun. unfold ret, rxf in *.
    destruct w as [h a s j wi d f st [lx oa ac pc [ia ih it ip ifc ist ie]]].
    simpl in Hh, Ht. subst ih it. reflexivity.
  - intros l Hl Hlt. rewrite Hfr by exact Hl. unfold w1. simpl.
    apply lookup_insert_ne. congruence.
  - rewrite Hfr by exact Hni. exact Htb1.
  - exact Hseg'.
  - intros l b Hl Hb.
    assert (Hb1 : heap w1 !! l = Some b).
    { unfold w1. simpl. rewrite lookup_insert_ne; [exact Hb|].
      intros ->. contradiction. }
    destruct (Hnodes l b Hl Hb1) as (b' & Hb' & Hpay & Hlen & Htot).
    exists b'. split; [exact Hb'|]. split; [exact Hpay|]. split; [exact Hlen|].
    split; [|exact Htot].
    (* every buffer of [ls] now has a successor *)
    unfold lseg in Hseg'. apply lseg_to_app in Hseg' as (m & Hs1 & Hs2).
    apply list_elem_of_lookup in Hl as [i Hi].
    apply take_drop_middle in Hi. rewrite <- Hi in Hs1.
    apply lseg_to_app in Hs1 as (m1 & _ & Hs3).
    simpl in Hs3. destruct Hs3 as (_ & bx & Hbx & Hs3).
    rewrite Hb' in Hbx. injection Hbx as <-.
    destruct (drop (S i) ls) as [|y ys]; simpl in Hs3.
    + simpl in Hs2. destruct Hs2 as (E & _). congruence.
    + destruct Hs3 as (E & _). congruence.
Qed.

Lemma case_PDDATA_full w t tb c w1 w2 k bk :
  in_tail (rxf w) = Some t -> heap w !! t = Some tb ->
  len tb = PBUF_POOL_BUFSIZE ->
  rx_close_tail w = Ok (tt, w1) -> rx_open_tail w1 = Ok (true, w2) ->
  in_tail (rxf w2) = Some k -> heap w2 !! k = Some bk ->
  (Z.to_nat (len bk) < length (payload bk))%nat ->
  case_PDDATA c w = Ok (tt, set_heap (<[k := push_buf c bk]>) w2).
Proof.
  intros Ht Htb Hlen Hclose Hopen Hk Hbk Hcap. unfold case_PDDATA.
  mprim. fold (rxf w). rewrite Ht. mload. mprim.
  apply Z.eqb_eq in Hlen. rewrite Hlen.
  unfold rx_make_space. mstep Hclose. mstep Hopen. mprim.
  fold (rxf w2). rewrite Hk. apply push_Ok; assumption.
Qed.

Lemma case_PDDATA_full_starved w t tb c w1 w2 :
  in_tail (rxf w) = Some t -> heap w !! t = Some tb ->
  len tb = PBUF_POOL_BUFSIZE ->
  rx_close_tail w = Ok (tt, w1) -> rx_open_tail w1 = Ok (false, w2) ->
  case_PDDATA c w = Ok (tt, w2).
Proof.
  intros Ht Htb Hlen Hclose Hopen. unfold case_PDDATA.
  mprim. fold (rxf w). rewrite Ht. mload. mprim.
  apply Z.eqb_eq in Hlen. rewrite Hlen.
  unfold rx_make_space. mstep Hclose. mstep Hopen. reflexivity.
Qed.

Lemma fresh_push c :
  let b := push_buf c fresh_pbuf in
  pool_buf b /\ next b = None /\ len b = 1 /\ buf_bytes b = [c].
Proof.
  destruct fresh_pbuf_pool as (Hfp & Hfl & Hfb & Hfn).
  destruct (push_list_pool [c] fresh_pbuf Hfp ltac:(simpl; lia)) as (P1 & P2 & P3).
  destruct (push_list_fits [c] fresh_pbuf (proj1 Hfp) ltac:(lia) ltac:(simpl; lia))
    as [P4 _].
  rewrite Hfb in P2. rewrite Hfn in P3. rewrite Hfl in P4.
  cbv zeta. split; [exact P1|]. split; [exact P3|].
  split; [exact P4 | exact P2].
Qed.

(** The result of a failed allocation, as a receive state. *)
Lemma starved_post w w1 w' data c :
  rx_inv w data -> rx_step w w1 ->
  in_protocol (rxf w1) = in_protocol (rxf w) ->
  in_fcs (rxf w1) = in_fcs (rxf w) ->
  in_escaped (rxf w1) = in_escaped (rxf w) ->
  delivered w1 = delivered w -> stats w1 = stats w -> allocs w1 = allocs w ->
  heap_ok w' -> rx_step w1 w' ->
  rxf w' = set_in_state PDSTART (set_in_tail None (set_in_head None (rxf w1))) ->
  stats w' = (ifindiscards, 1) :: (link_drop, 1) :: (link_memerr, 1) :: stats w1 ->
  delivered w' = delivered w1 ->
  pool_ok (allocs w1) = false ->
  data_post w data c w'.
Proof.
  intros [Hok Hpr Hfc _ _] Hs1 Hp1 Hf1 He1 Hd1 Hst1 Ha1 Hok' Hs2 Hrx Hst2 Hd2 Hpool.
  unfold data_post. rewrite Hrx. simpl.
  split; [eapply rx_step_trans; eauto|].
  split; [exact Hf1|]. split; [exact He1|]. split; [exact Hp1|].
  split; [congruence|]. right.
  split; [|split; [reflexivity|split; [congruence|congruence]]].
  unfold rxf in *. constructor; auto.
  - rewrite Hrx. simpl. rewrite Hp1. exact Hpr.
  - rewrite Hrx. simpl. rewrite Hf1. exact Hfc.
  - apply rx_none; try rewrite Hrx; reflexivity.
  - congruence.
Qed.

Lemma rx_step_heap w f : rx_step w (set_heap f w).
Proof. constructor; reflexivity || (simpl; lia). Qed.

Lemma u16_small x : 0 <= x < 65536 -> u16 x = x.
Proof. intros H. unfold u16. apply Z.mod_small. exact H. Qed.

(** A data octet while the head is the only buffer. *)
Lemma data_single w data c hd b :
  rx_inv w data -> in_state (rxf w) = PDDATA ->
  in_head (rxf w) = Some hd -> in_tail (rxf w) = Some hd ->
  heap w !! hd = Some b -> pool_buf b -> next b = None -> 3 <= len b ->
  rx_stored w data = buf_bytes b ->
  exists w', case_PDDATA c w = Ok (tt, w') /\ data_post w data c w'.
Proof.
  intros Hinv Hst Hh Ht Hb Hp Hn H3 Hstored.
  pose proof Hinv as [Hok Hpr Hfc _ _].
  assert (Hdata : data <> []).
  { intros ->. simpl in Hstored. symmetry in Hstored.
    apply (buf_bytes_nonempty b Hp ltac:(lia) Hstored). }
  rewrite (rx_stored_cons w data Hdata) in Hstored.
  assert (HhdA : (hd < allocs w)%nat) by (apply Hok; eauto).
  destruct Hp as [Hpl Hlen].
  destruct (decide (len b = PBUF_POOL_BUFSIZE)) as [Hfull|Hroom].
  - set (b1 := set_tot_len (len b) b).
    set (w1 := set_heap (<[hd := b1]>) w).
    pose proof (rx_close_tail_head w hd b Hh Ht Hb) as Hclose. fold b1 w1 in Hclose.
    assert (Hok1 : heap_ok w1) by (apply heap_ok_insert; assumption).
    destruct (pool_ok (allocs w)) eqn:Hpool.
    + pose proof (rx_open_tail_next w1 hd Hh Hpool) as Hopen.
      eexists. split.
      { eapply (case_PDDATA_full w hd b c w1 _ (allocs w) fresh_pbuf Ht Hb Hfull
                  Hclose Hopen); [reflexivity | simpl; apply lookup_insert_eq |].
        unfold fresh_pbuf. simpl. rewrite length_replicate. lia. }
      unfold data_post, rxf in *.
      destruct w as [h a s j wi d f st [lx oa ac pc [ia ih it ip ifc ist ie]]].
      simpl in *. subst ih it ist.
      split; [constructor; simpl; auto|].
      do 4 (split; [reflexivity|]). left.
      split; [|auto]. constructor; simpl; auto.
      * intros l [x Hx]. simpl in *.
        destruct (decide (l = a)) as [->|Hne]; [lia|].
        rewrite !lookup_insert_ne in Hx by congruence.
        destruct (decide (l = hd)) as [->|Hne2]; [lia|].
        rewrite lookup_insert_ne in Hx by congruence.
        assert (l < a)%nat by (apply (Hok l); eauto). lia.
      * rewrite rx_stored_snoc. unfold proto_prefix in *. simpl in *.
        destruct (fresh_push c) as (F1 & F2 & F3 & F4).
        cbv zeta in F1, F2, F3, F4.
        eapply (rx_multi _ _ hd a [hd] (push_buf c fresh_pbuf));
          [reflexivity | reflexivity | | | | | exact F1 | exact F2
          | rewrite F3; lia |].
        { split; [reflexivity|]. exists b1. split; [|exact Hn].
          simpl. rewrite !lookup_insert_ne by lia. apply lookup_insert_eq. }
        { intros Hin. apply list_elem_of_singleton in Hin. lia. }
        { intros i l Hi. destruct i as [|i]; [|destruct i; discriminate].
          injection Hi as <-. exists b1. split.
          - simpl. rewrite !lookup_insert_ne by lia. apply lookup_insert_eq.
          - split; [exact Hpl|]. split; [exact Hfull|].
            simpl. rewrite u16_small by lia. lia. }
        { simpl. apply lookup_insert_eq. }
        { rewrite F4. erewrite chain_bytes_single
            by (simpl; rewrite !lookup_insert_ne by lia; apply lookup_insert_eq).
          change (buf_bytes b1) with (buf_bytes b). rewrite <- Hstored.
          reflexivity. }
    + assert (Hd1 : rx_droppable w1).
      { right. exists hd, [hd]. split; [exact Hh|]. split; [|auto].
        split; [reflexivity|]. exists b1.
        split; [simpl; apply lookup_insert_eq | exact Hn]. }
      destruct (rx_open_tail_starved w1 Hok1 Hd1 Hpool)
        as (w' & Hrun & Hok' & Hstep & Hrx & Hstats & Hdel).
      exists w'. split.
      { eapply case_PDDATA_full_starved; eauto. }
      eapply (starved_post w w1 w'); eauto using rx_step_heap.
  - eexists. split.
    { apply (case_PDDATA_room w hd b c Ht Hb Hroom). lia. }
    unfold data_post, rxf in *.
    destruct w as [h a s j wi d f st [lx oa ac pc [ia ih it ip ifc ist ie]]].
    simpl in *. subst ih it ist.
    split; [constructor; simpl; auto|].
    do 4 (split; [reflexivity|]). left.
    split; [|auto]. constructor; simpl; auto.
    + intros l [x Hx]. simpl in *.
      destruct (decide (l = hd)) as [->|Hne2]; [lia|].
      rewrite lookup_insert_ne in Hx by congruence.
      apply (Hok l); eauto.
    + rewrite rx_stored_snoc. unfold proto_prefix in *. simpl in *.
      eapply (rx_single _ _ hd (push_buf c b));
        [reflexivity | reflexivity | simpl; apply lookup_insert_eq | | exact Hn | |].
      * split; [rewrite push_buf_payload_length; exact Hpl|].
        rewrite push_buf_len by lia. lia.
      * rewrite push_buf_len by lia. lia.
      * rewrite buf_bytes_push by lia. rewrite <- Hstored.
        reflexivity.
Qed.

Lemma chain_bytes_ext h h' ls :
  (forall l, l ∈ ls -> bytes_at h' l = bytes_at h l) ->
  chain_bytes h' ls = chain_bytes h ls.
Proof.
  intros Hf. unfold chain_bytes. f_equal. apply map_ext_in.
  intros l Hl. apply Hf. apply list_elem_of_In. exact Hl.
Qed.

Lemma u16_add_l x y : u16 (u16 x + y) = u16 (x + y).
Proof. unfold u16. apply Zplus_mod_idemp_l. Qed.

Lemma full_chain_live h ls l :
  full_chain h ls -> l ∈ ls ->
  exists b, h !! l = Some b /\
            length (payload b) = Z.to_nat PBUF_POOL_BUFSIZE /\
            len b = PBUF_POOL_BUFSIZE.
Proof.
  intros Hf Hl. apply list_elem_of_lookup in Hl as [i Hi].
  destruct (Hf i l Hi) as (b & Hb & Hp & Hlen & _). eauto.
Qed.

(** A data octet while a separate tail is being filled. *)
Lemma data_multi w data c hd t ls tb :
  rx_inv w data -> in_state (rxf w) = PDDATA ->
  in_head (rxf w) = Some hd -> in_tail (rxf w) = Some t ->
  lseg (heap w) (Some hd) ls -> t ∉ ls -> full_chain (heap w) ls ->
  heap w !! t = Some tb -> pool_buf tb -> next tb = None -> 1 <= len tb ->
  rx_stored w data = chain_bytes (heap w) ls ++ buf_bytes tb ->
  exists w', case_PDDATA c w = Ok (tt, w') /\ data_post w data c w'.
Proof.
  intros Hinv Hst Hh Ht Hseg Hni Hfull Htb Hp Hn H1 Hstored.
  pose proof Hinv as [Hok Hpr Hfc _ _].
  assert (Hdata : data <> []).
  { intros ->. simpl in Hstored. symmetry in Hstored.
    apply app_eq_nil in Hstored as [_ E].
    apply (buf_bytes_nonempty tb Hp H1 E). }
  rewrite (rx_stored_cons w data Hdata) in Hstored.
  assert (HtA : (t < allocs w)%nat) by (apply Hok; eauto).
  assert (HlsA : forall l, l ∈ ls -> (l < allocs w)%nat).
  { intros l Hl. apply Hok. eapply lseg_live; eauto. }
  pose proof Hp as [Hpl Hlen].
  destruct (decide (len tb = PBUF_POOL_BUFSIZE)) as [Htfull|Hroom].
  - destruct (rx_close_tail_cat w hd t ls tb Hok Hh Ht Hseg Hni Htb Hn)
      as (h' & Hclose & Hfr & Ht' & Hseg' & Hnodes).
    set (w1 := set_ppp (set_rx (set_in_tail None)) (set_heap (fun _ => h') w))
      in *.
    assert (Hlive' : forall l, is_Some (h' !! l) -> is_Some (heap w !! l)).
    { intros l Hl. destruct (decide (l = t)) as [->|Hlt]; [eauto|].
      destruct (decide (l ∈ ls)) as [Hin|Hnin].
      - eapply lseg_live; eauto.
      - rewrite Hfr in Hl by assumption. exact Hl. }
    assert (Hok1 : heap_ok w1).
    { intros l Hl. simpl in *. apply Hok. apply Hlive'. exact Hl. }
    assert (Hh1 : in_head (rxf w1) = Some hd) by exact Hh.
    destruct (pool_ok (allocs w)) eqn:Hpool.
    + pose proof (rx_open_tail_next w1 hd Hh1 Hpool) as Hopen.
      eexists. split.
      { eapply (case_PDDATA_full w t tb c w1 _ (allocs w) fresh_pbuf Ht Htb Htfull
                  Hclose Hopen); [reflexivity | simpl; apply lookup_insert_eq |].
        unfold fresh_pbuf. simpl. rewrite length_replicate. lia. }
      unfold data_post, rxf in *.
      destruct w as [h a s j wi d f st [lx oa ac pc [ia ih it ip ifc ist ie]]].
      simpl in *. subst ih it ist.
      split; [constructor; simpl; auto|].
      do 4 (split; [reflexivity|]). left.
      split; [|auto]. constructor; simpl; auto.
      * intros l [x Hx]. simpl in *.
        destruct (decide (l = a)) as [->|Hne]; [lia|].
        rewrite !lookup_insert_ne in Hx by congruence.
        assert (l < a)%nat by (apply (Hok l); apply Hlive'; eauto). lia.
      * rewrite rx_stored_snoc. unfold proto_prefix in *. simpl in *.
        destruct (fresh_push c) as (F1 & F2 & F3 & F4).
        cbv zeta in F1, F2, F3, F4.
        assert (Hk : a ∉ ls ++ [t]).
        { intros Hin. apply elem_of_app in Hin as [Hin|Hin].
          - specialize (HlsA _ Hin). lia.
          - apply list_elem_of_singleton in Hin. lia. }
        assert (Hfrk : forall l, l ∈ ls ++ [t] ->
          <[a := push_buf c fresh_pbuf]> (<[a := fresh_pbuf]> h') !! l = h' !! l).
        { intros l Hl. rewrite !lookup_insert_ne; [reflexivity| |];
            intros ->; contradiction. }
        eapply (rx_multi _ _ hd a (ls ++ [t]) (push_buf c fresh_pbuf));
          [reflexivity | reflexivity | | exact Hk | | | exact F1 | exact F2
          | rewrite F3; lia |].
        { simpl. eapply lseg_to_frame; [|exact Hseg']. exact Hfrk. }
        { simpl. eapply full_chain_frame; [exact Hfrk|].
          intros i l Hi. rewrite length_app. simpl.
          destruct (decide (i < length ls)%nat) as [Hlt|Hge].
          - rewrite lookup_app_l in Hi by exact Hlt.
            destruct (Hfull i l Hi) as (b & Hb & Hbp & Hbl & Hbt).
            destruct (Hnodes l b (list_elem_of_lookup_2 _ _ _ Hi) Hb)
              as (b' & Hb' & Hpay & Hlen' & _ & Htot).
            exists b'. split; [exact Hb'|]. rewrite Hpay, Hlen', Htot, Hbt.
            split; [exact Hbp|]. split; [exact Hbl|].
            rewrite u16_add_l. f_equal. rewrite Htfull. lia.
          - assert (Hil : i = length ls).
            { apply lookup_lt_Some in Hi. rewrite length_app in Hi.
              simpl in Hi. lia. }
            subst i. rewrite lookup_app_r in Hi by lia.
            rewrite Nat.sub_diag in Hi. injection Hi as <-.
            eexists. split; [exact Ht'|]. simpl.
            split; [exact Hpl|]. split; [exact Htfull|].
            rewrite u16_small by lia. lia. }
        { simpl. apply lookup_insert_eq. }
        { rewrite F4. cbn [heap].
          change (u8 (ip ≫ 8) :: u8 (Z.land ip 255) :: data ++ [c])
            with ((u8 (ip ≫ 8) :: u8 (Z.land ip 255) :: data) ++ [c]).
          rewrite Hstored. f_equal.
          erewrite (chain_bytes_frame _ _ (ls ++ [t])) by exact Hfrk.
          rewrite chain_bytes_app. f_equal.
          - apply chain_bytes_ext. intros l Hl.
            destruct (full_chain_live _ _ _ Hfull Hl) as (b & Hb & _).
            destruct (Hnodes l b Hl Hb) as (b' & Hb' & Hpay & Hlen' & _).
            unfold bytes_at. rewrite Hb, Hb'. simpl. unfold buf_bytes.
            rewrite Hpay, Hlen'. reflexivity.
          - erewrite chain_bytes_single by exact Ht'. reflexivity. }
    + assert (Hd1 : rx_droppable w1).
      { right. exists hd, (ls ++ [t]). split; [exact Hh|].
        split; [exact Hseg'|]. left. reflexivity. }
      destruct (rx_open_tail_starved w1 Hok1 Hd1 Hpool)
        as (w' & Hrun & Hok' & Hstep & Hrx & Hstats & Hdel).
      exists w'. split.
      { eapply case_PDDATA_full_starved; eauto. }
      eapply (starved_post w w1 w'); eauto.
      constructor; reflexivity || (simpl; lia).
  - eexists. split.
    { apply (case_PDDATA_room w t tb c Ht Htb Hroom). lia. }
    unfold data_post, rxf in *.
    destruct w as [h a s j wi d f st [lx oa ac pc [ia ih it ip ifc ist ie]]].
    simpl in *. subst ih it ist.
    split; [constructor; simpl; auto|].
    do 4 (split; [reflexivity|]). left.
    split; [|auto]. constructor; simpl; auto.
    + intros l [x Hx]. simpl in *.
      destruct (decide (l = t)) as [->|Hne2]; [lia|].
      rewrite lookup_insert_ne in Hx by congruence.
      apply (Hok l); eauto.
    + rewrite rx_stored_snoc. unfold proto_prefix in *. simpl in *.
      assert (Hfrt : forall l, l ∈ ls ->
                <[t := push_buf c tb]> h !! l = h !! l).
      { intros l Hl. apply lookup_insert_ne. intros ->. contradiction. }
      eapply (rx_multi _ _ hd t ls (push_buf c tb));
        [reflexivity | reflexivity | | exact Hni | | | | exact Hn | |].
      * simpl. apply lseg_to_insert_notin; assumption.
      * simpl. eapply full_chain_frame; [exact Hfrt | exact Hfull].
      * simpl. apply lookup_insert_eq.
      * split; [rewrite push_buf_payload_length; exact Hpl|].
        rewrite push_buf_len by lia. lia.
      * rewrite push_buf_len by lia. lia.
      * simpl. rewrite (chain_bytes_frame _ _ _ Hfrt).
        rewrite buf_bytes_push by lia. rewrite app_assoc, <- Hstored.
        reflexivity.
Qed.

(** Every data octet, whatever the shape of the chain. *)
Lemma case_PDDATA_spec w data c :
  rx_inv w data -> in_state (rxf w) = PDDATA ->
  exists w', case_PDDATA c w = Ok (tt, w') /\ data_post w data c w'.
Proof.
  intros Hinv Hst. pose proof (rxi_shape _ _ Hinv) as Hs.
  destruct Hs as [Hh Ht E | hd b Hh Ht Hb Hp Hn H3 E
                 | hd t ls tb Hh Ht Hseg Hni Hfull Htb Hp Hn H1 E].
  - eapply data_none; eauto.
  - eapply data_single; eauto.
  - eapply data_multi; eauto.
Qed.

(** ** Octet arithmetic *)



Lemma u16_is_u16 x : is_u16 (u16 x).
Proof. unfold is_u16, u16. apply Z.mod_pos_bound. lia. Qed.

Lemma u8_is_u8 x : is_u8 (u8 x).
Proof. unfold is_u8, u8. apply Z.mod_pos_bound. lia. Qed.

Lemma lxor_trans_involutive c : Z.lxor (Z.lxor c PPP_TRANS) PPP_TRANS = c.
Proof. rewrite Z.lxor_assoc, Z.lxor_nilpotent, Z.lxor_0_r. reflexivity. Qed.

(** ** The switch before the data phase *)


(** ** pbuf_realloc on a chain of full buffers *)

Lemma pbuf_realloc_loop_spec ls1 : forall fuel w p q bq rem grow,
  lseg_to (heap w) p ls1 (Some q) -> NoDup (ls1 ++ [q]) ->
  (forall l, l ∈ ls1 -> exists b, heap w !! l = Some b /\
                                  len b = PBUF_POOL_BUFSIZE) ->
  heap w !! q = Some bq ->
  Z.of_nat (length ls1) * PBUF_POOL_BUFSIZE < rem < 65536 ->
  rem - Z.of_nat (length ls1) * PBUF_POOL_BUFSIZE <= len bq ->
  (length ls1 < fuel)%nat ->
  exists h',
    pbuf_realloc_loop fuel p rem grow w
    = Ok ((Some q, rem - Z.of_nat (length ls1) * PBUF_POOL_BUFSIZE),
          set_heap (fun _ => h') w) /\
    (forall l, l ∉ ls1 -> h' !! l = heap w !! l) /\
    (forall l b, l ∈ ls1 -> heap w !! l = Some b ->
       h' !! l = Some (set_tot_len (u16 (tot_len b + grow)) b)).
Proof.
  induction ls1 as [|l ls1 IH]; intros fuel w p q bq rem grow
    Hseg Hnd Hfull Hq Hrem Hstop Hfuel.
  - simpl in Hseg. subst p. destruct fuel as [|fuel]; [lia|].
    exists (heap w). simpl pbuf_realloc_loop.
    mstep (load_Ok _ _ _ Hq). simpl in Hstop, Hrem.
    destruct (Z.gtb_spec rem (len bq)) as [Hgt|Hle]; [lia|].
    split; [|split; [reflexivity|]].
    + unfold ret. rewrite Z.sub_0_r. destruct w; reflexivity.
    + intros x b Hx. apply elem_of_nil in Hx. contradiction.
  - simpl in Hseg. destruct Hseg as (-> & b & Hb & Hseg).
    destruct fuel as [|fuel]; [lia|].
    simpl in Hnd. apply NoDup_cons in Hnd as [Hl Hnd].
    destruct (Hfull l ltac:(apply elem_of_cons; auto)) as (b0 & Hb0 & Hlenb).
    rewrite Hb in Hb0. injection Hb0 as <-.
    simpl length in *.
    assert (HB : 3 <= PBUF_POOL_BUFSIZE) by lia.
    set (w1 := set_heap (<[l := set_tot_len (u16 (tot_len b + grow)) b]>) w).
    assert (Hlq : l <> q).
    { intros ->. apply Hl. apply elem_of_app. right.
      apply list_elem_of_singleton. reflexivity. }
    assert (Hl1 : l ∉ ls1).
    { intros Hin. apply Hl. apply elem_of_app. auto. }
    destruct (IH fuel w1 (next b) q bq (rem - PBUF_POOL_BUFSIZE) grow)
      as (h' & Hrun & Hfr & Hnodes).
    + unfold w1. simpl. apply lseg_to_insert_notin; assumption.
    + exact Hnd.
    + intros x Hx. destruct (Hfull x ltac:(apply elem_of_cons; auto))
        as (bx & Hbx & Hlx).
      exists bx. split; [|exact Hlx]. unfold w1. simpl.
      rewrite lookup_insert_ne; [exact Hbx|]. intros ->. contradiction.
    + unfold w1. simpl. rewrite lookup_insert_ne by congruence. exact Hq.
    + lia.
    + lia.
    + lia.
    + exists h'. simpl pbuf_realloc_loop.
      mstep (load_Ok _ _ _ Hb). rewrite Hlenb.
      destruct (Z.gtb_spec rem PBUF_POOL_BUFSIZE) as [Hgt|Hle]; [|lia].
      mstep (update_Ok _ _ _ (set_tot_len (u16 (tot_len b + grow))) Hb).
      rewrite (u16_small (rem - PBUF_POOL_BUFSIZE)) by lia.
      match goal with
      | |- ?lhs = _ /\ _ =>
          change lhs with (pbuf_realloc_loop fuel (next b)
                             (rem - PBUF_POOL_BUFSIZE) grow w1)
      end.
      rewrite Hrun. split; [|split].
      * do 3 f_equal. lia.
      * intros x Hx. apply not_elem_of_cons in Hx as [Hx1 Hx2].
        rewrite Hfr by exact Hx2. unfold w1. simpl.
        apply lookup_insert_ne. congruence.
      * intros x bx Hx Hbx. apply elem_of_cons in Hx as [->|Hx].
        { rewrite Hb in Hbx. injection Hbx as <-.
          rewrite Hfr by exact Hl1. unfold w1. simpl. apply lookup_insert_eq. }
        { apply Hnodes; [exact Hx|]. unfold w1. simpl.
          rewrite lookup_insert_ne; [exact Hbx|]. intros ->. contradiction. }
Qed.

(** ** Delivery of a good frame *)

Lemma full_chain_bytes_length h ls :
  full_chain h ls ->
  Z.of_nat (length (chain_bytes h ls)) = Z.of_nat (length ls) * PBUF_POOL_BUFSIZE.
Proof.
  intros Hf.
  assert (Hall : Forall (fun l => exists b, h !! l = Some b /\
                   length (payload b) = Z.to_nat PBUF_POOL_BUFSIZE /\
                   len b = PBUF_POOL_BUFSIZE) ls).
  { apply Forall_forall. intros l Hl. eapply full_chain_live; eauto. }
  clear Hf. induction Hall as [|l ls (b & Hb & Hp & Hl) _ IH].
  - reflexivity.
  - change (l :: ls) with ([l] ++ ls). rewrite chain_bytes_app, length_app.
    rewrite (chain_bytes_single _ _ _ Hb). unfold buf_bytes.
    rewrite length_take. simpl length. lia.
Qed.

Lemma take_stored (pre data : list Z) :
  length pre = 2%nat -> (2 <= length data)%nat ->
  take (length (pre ++ data) - 2) (pre ++ data)
  = pre ++ take (length data - 2) data.
Proof.
  intros Hp Hd. rewrite length_app, Hp.
  replace (2 + length data - 2)%nat with (length data) by lia.
  rewrite take_app. rewrite take_ge by lia. f_equal. f_equal. lia.
Qed.

Lemma ppp_input_Ok w hd : ppp_input (Some hd) w = Ok (tt, add_delivered hd w).
Proof. reflexivity. Qed.

Lemma deliver_single w data hd b :
  rx_inv w data -> (2 <= length data)%nat ->
  in_head (rxf w) = Some hd -> in_tail (rxf w) = Some hd ->
  heap w !! hd = Some b -> pool_buf b -> next b = None ->
  rx_stored w data = buf_bytes b ->
  exists w', rx_deliver w = Ok (tt, w') /\ deliver_post w data w' hd [hd].
Proof.
  intros Hinv Hd2 Hh Ht Hb Hp Hn Hstored.
  pose proof Hinv as [Hok Hpr Hfc _ _].
  assert (Hdata : data <> []) by (intros ->; simpl in Hd2; lia).
  rewrite (rx_stored_cons w data Hdata) in Hstored.
  destruct (pool_buf_bytes_length b Hp) as [Hlen Hcap].
  rewrite <- Hstored in Hlen. rewrite length_app in Hlen.
  change (length (proto_prefix w)) with 2%nat in Hlen.
  destruct Hp as [Hpl Hlb].
  set (b2 := set_tot_len (len b - 2) (set_len (len b - 2) b)).
  exists (add_delivered hd
            (set_ppp (set_rx (fun r => set_in_tail None (set_in_head None r)))
               (set_heap (<[hd := b2]>) w))).
  split.
  - unfold rx_deliver. mprim. fold (rxf w). rewrite Ht, Hh. mload.
    destruct (Z.gtb_spec (len b) 2) as [_|Hle]; [|lia].
    mupdate. mload. mupdate.
    rewrite (bool_decide_eq_false_2 (Some hd <> Some hd)) by auto.
    repeat mprim. rewrite (u16_small (len b - 2)) by lia.
    unfold ppp_input, modify. rewrite !insert_insert_eq.
    unfold rxf in *.
    destruct w as [h a s j wi d f st [lx oa ac pc [ia ih it ip ifc ist ie]]].
    simpl in *. subst ih it. reflexivity.
  - unfold deliver_post, rxf in *.
    assert (HhdA : (hd < allocs w)%nat) by (apply Hok; eauto).
    assert (Hpre : length (proto_prefix w) = 2%nat) by reflexivity.
    remember (proto_prefix w) as pre eqn:Epre. clear Epre.
    destruct w as [h a s j wi d f st [lx oa ac pc [ia ih it ip ifc ist ie]]].
    simpl in *. subst ih it.
    split; [reflexivity|]. split; [reflexivity|]. split; [reflexivity|].
    split.
    { intros l [x Hx]. simpl in *.
      destruct (decide (l = hd)) as [->|Hne]; [exact HhdA|].
      rewrite lookup_insert_ne in Hx by congruence. apply (Hok l); eauto. }
    split; [constructor; simpl; auto|]. split; [reflexivity|].
    split.
    { split; [reflexivity|]. exists b2.
      split; [apply lookup_insert_eq | exact Hn]. }
    split.
    { erewrite chain_bytes_single by apply lookup_insert_eq.
      unfold buf_bytes, b2. simpl.
      replace (Z.to_nat (len b - 2))
        with (Init.Nat.min (length (pre ++ data) - 2) (Z.to_nat (len b)))
        by (rewrite length_app; lia).
      rewrite <- take_take. fold (buf_bytes b). rewrite <- Hstored.
      apply take_stored; [exact Hpre | exact Hd2]. }
    exists b2. split; [apply lookup_insert_eq|]. simpl. lia.
Qed.

Lemma take_app_tail (l1 l2 : list Z) :
  (2 <= length l2)%nat ->
  take (length (l1 ++ l2) - 2) (l1 ++ l2) = l1 ++ take (length l2 - 2) l2.
Proof.
  intros H. rewrite length_app, take_app.
  rewrite take_ge by lia. f_equal. f_equal. lia.
Qed.

Lemma deliver_multi_long w data hd t ls tb :
  rx_inv w data -> (2 <= length data)%nat -> 2 + Z.of_nat (length data) <= 65535 ->
  in_head (rxf w) = Some hd -> in_tail (rxf w) = Some t ->
  lseg (heap w) (Some hd) ls -> t ∉ ls -> full_chain (heap w) ls ->
  heap w !! t = Some tb -> pool_buf tb -> next tb = None -> 2 < len tb ->
  rx_stored w data = chain_bytes (heap w) ls ++ buf_bytes tb ->
  exists w', rx_deliver w = Ok (tt, w') /\
             deliver_post w data w' hd (ls ++ [t]).
Proof.
  intros Hinv Hd2 Hbound Hh Ht Hseg Hni Hfull Htb Hp Hn H2 Hstored.
  pose proof Hinv as [Hok Hpr Hfc _ _].
  assert (Hdata : data <> []) by (intros ->; simpl in Hd2; lia).
  rewrite (rx_stored_cons w data Hdata) in Hstored.
  assert (Hpre : length (proto_prefix w) = 2%nat) by reflexivity.
  destruct (pool_buf_bytes_length tb Hp) as [Hlen Hcap].
  pose proof (full_chain_bytes_length _ _ Hfull) as Hclen.
  assert (Htotal : Z.of_nat (length ls) * PBUF_POOL_BUFSIZE + len tb
                   = 2 + Z.of_nat (length data)).
  { rewrite <- Hclen, <- Hlen. rewrite <- Nat2Z.inj_add, <- length_app.
    rewrite <- Hstored, length_app, Hpre. lia. }
  destruct Hp as [Hpl Hlb].
  assert (Hne : t <> hd).
  { destruct (lseg_hd _ _ _ Hseg) as [ls' ->].
    apply not_elem_of_cons in Hni as [Hne _]. exact Hne. }
  set (tb2 := set_tot_len (len tb - 2) (set_len (len tb - 2) tb)).
  set (w1 := set_heap (<[t := tb2]>) w).
  assert (Hok1 : heap_ok w1).
  { apply heap_ok_insert; [exact Hok|]. apply Hok. eauto. }
  assert (Hseg1 : lseg (heap w1) (Some hd) ls).
  { unfold w1. simpl. apply lseg_to_insert_notin; assumption. }
  assert (Htb1 : heap w1 !! t = Some tb2) by (simpl; apply lookup_insert_eq).
  destruct (pbuf_cat_spec w1 hd ls t tb2 Hok1 Hseg1 Hni Htb1 Hn)
    as (h' & Hrun & Hfr & Hseg' & Hnodes).
  assert (Hlive' : forall l, is_Some (h' !! l) -> is_Some (heap w !! l)).
  { intros l Hl. destruct (decide (l = t)) as [->|Hlt]; [eauto|].
    destruct (decide (l ∈ ls)) as [Hin|Hnin].
    - eapply lseg_live; eauto.
    - rewrite Hfr in Hl by assumption. unfold w1 in Hl. simpl in Hl.
      rewrite lookup_insert_ne in Hl by congruence. exact Hl. }
  exists (add_delivered hd
            (set_ppp (set_rx (fun r => set_in_tail None (set_in_head None r)))
               (set_heap (fun _ => h') w))).
  split.
  - unfold rx_deliver. mprim. fold (rxf w). rewrite Ht, Hh. mload.
    destruct (Z.gtb_spec (len tb) 2) as [_|Hle]; [|lia].
    mupdate. mload. mupdate.
    rewrite (bool_decide_eq_true_2 (Some t <> Some hd)) by congruence.
    rewrite (u16_small (len tb - 2)) by lia. rewrite insert_insert_eq.
    mnorm. erewrite bind_Ok by exact Hrun. cbv beta iota.
    repeat mprim. unfold ppp_input, modify, rxf in *.
    destruct w as [h a s j wi d f st [lx oa ac pc [ia ih it ip ifc ist ie]]].
    simpl in *. subst ih it. reflexivity.
  - unfold deliver_post, rxf in *.
    remember (proto_prefix w) as pre eqn:Epre. clear Epre.
    destruct (lseg_hd _ _ _ Hseg) as [ls' Els].
    assert (Hhd0 : ls !! 0%nat = Some hd) by (rewrite Els; reflexivity).
    destruct (Hfull 0%nat hd Hhd0) as (b0 & Hb0 & _ & _ & Htot0).
    destruct (Hnodes hd b0 (list_elem_of_lookup_2 _ _ _ Hhd0))
      as (b0' & Hb0' & _ & _ & Htot0').
    { unfold w1. simpl. rewrite lookup_insert_ne by congruence. exact Hb0. }
    assert (Ht' : h' !! t = Some tb2) by (rewrite Hfr by exact Hni; exact Htb1).
    destruct w as [h a s j wi d f st [lx oa ac pc [ia ih it ip ifc ist ie]]].
    simpl in *. subst ih it.
    split; [reflexivity|]. split; [reflexivity|]. split; [reflexivity|].
    split.
    { intros l Hl. simpl in *. apply (Hok l). apply Hlive'. exact Hl. }
    split; [constructor; simpl; auto|]. split; [reflexivity|].
    split; [exact Hseg'|].
    split.
    { rewrite chain_bytes_app. erewrite (chain_bytes_single h') by exact Ht'.
      rewrite (chain_bytes_ext h h' ls).
      2:{ intros l Hl.
          destruct (full_chain_live _ _ _ Hfull Hl) as (b & Hb & _).
          destruct (Hnodes l b Hl) as (b' & Hb' & Hpay & Hlen' & _).
          { rewrite lookup_insert_ne; [exact Hb|]. intros ->. contradiction. }
          unfold bytes_at. rewrite Hb, Hb'. simpl. unfold buf_bytes.
          rewrite Hpay, Hlen'. reflexivity. }
      rewrite <- (take_stored pre data Hpre Hd2). rewrite Hstored.
      rewrite take_app_tail by lia. f_equal.
      unfold buf_bytes, tb2. simpl. rewrite take_take. f_equal.
      rewrite length_take. lia. }
    exists b0'. split; [exact Hb0'|]. rewrite Htot0', Htot0. simpl.
    rewrite u16_add_l. rewrite Nat.sub_0_r. rewrite u16_small by lia. lia.
Qed.

(** Cutting two bytes off a chain of full buffers whose last buffer holds
    one or two bytes: the last buffer goes, the one before it shrinks. *)
Lemma pbuf_realloc_full_chain w hd ls1 q t bh bq bt :
  heap_ok w ->
  lseg (heap w) (Some hd) (ls1 ++ [q; t]) ->
  (forall l, l ∈ ls1 ++ [q] ->
     exists b, heap w !! l = Some b /\ len b = PBUF_POOL_BUFSIZE) ->
  heap w !! hd = Some bh -> heap w !! q = Some bq -> heap w !! t = Some bt ->
  1 <= len bt <= 2 ->
  tot_len bh = (Z.of_nat (length ls1) + 1) * PBUF_POOL_BUFSIZE + len bt ->
  tot_len bh <= 65535 ->
  let rem := PBUF_POOL_BUFSIZE + len bt - 2 in
  exists h',
    pbuf_realloc (Some hd) (u16 (tot_len bh - 2)) w
    = Ok (tt, set_heap (fun _ => h') (add_freed t w)) /\
    h' !! t = None /\
    h' !! q = Some (set_next None (set_tot_len rem (set_len rem bq))) /\
    (forall l b, l ∈ ls1 -> heap w !! l = Some b ->
       h' !! l = Some (set_tot_len (u16 (tot_len b + -2)) b)) /\
    (forall l, l ∉ ls1 -> l <> q -> l <> t -> h' !! l = heap w !! l).
Proof.
  intros Hok Hseg Hfull Hbh Hbq Hbt Hlt Htot Hmax. cbv zeta.
  pose proof (lseg_NoDup _ _ _ Hseg) as Hnd.
  change (ls1 ++ [q; t]) with (ls1 ++ [q] ++ [t]) in Hseg, Hnd.
  rewrite app_assoc in Hnd. apply NoDup_app in Hnd as (Hnd1 & Hdisj & _).
  assert (Htq : t <> q).
  { intros ->. apply (Hdisj q); [apply elem_of_app; right|];
      apply list_elem_of_singleton; reflexivity. }
  assert (Htls : t ∉ ls1).
  { intros Hin. apply (Hdisj t); [apply elem_of_app; auto|].
    apply list_elem_of_singleton. reflexivity. }
  assert (Hqls : q ∉ ls1).
  { apply NoDup_app in Hnd1 as (_ & Hd & _). intros Hin.
    apply (Hd q Hin). apply list_elem_of_singleton. reflexivity. }
  unfold lseg in Hseg. apply lseg_to_app in Hseg as (m & Hs1 & Hs2).
  simpl in Hs2. destruct Hs2 as (-> & bq0 & Hbq0 & E & bt0 & Hbt0 & Hnt).
  rewrite Hbq in Hbq0. injection Hbq0 as <-.
  rewrite Hbt in Hbt0. injection Hbt0 as <-.
  destruct (Hfull q ltac:(apply elem_of_app; right;
                           apply list_elem_of_singleton; reflexivity))
    as (bq1 & Hbq1 & Hlenq).
  rewrite Hbq in Hbq1. injection Hbq1 as <-.
  assert (HB : 3 <= PBUF_POOL_BUFSIZE) by lia.
  set (rem0 := tot_len bh - 2).
  destruct (lseg_bounded w (Some hd) ((ls1 ++ [q]) ++ [t]) Hok) as [_ Hfuel].
  { unfold lseg. rewrite <- app_assoc. apply lseg_to_app. exists (Some q).
    split; [exact Hs1|]. simpl. split; [reflexivity|]. exists bq.
    split; [exact Hbq|]. split; [exact E|]. exists bt. auto. }
  rewrite !length_app in Hfuel. simpl in Hfuel.
  destruct (pbuf_realloc_loop_spec ls1 (S (allocs w)) w (Some hd) q bq rem0
              (rem0 - tot_len bh) Hs1 Hnd1)
    as (h2 & Hloop & Hfr2 & Hnodes2).
  { intros l Hl. apply Hfull. apply elem_of_app. auto. }
  { exact Hbq. }
  { unfold rem0. nia. }
  { unfold rem0. nia. }
  { lia. }
  replace (rem0 - Z.of_nat (length ls1) * PBUF_POOL_BUFSIZE)
    with (PBUF_POOL_BUFSIZE + len bt - 2) in Hloop by (unfold rem0; nia).
  replace (rem0 - tot_len bh) with (-2) in Hloop, Hnodes2 by (unfold rem0; lia).
  set (rem := PBUF_POOL_BUFSIZE + len bt - 2) in *.
  set (bq2 := set_tot_len rem (set_len rem bq)).
  set (h3 := <[q := set_next None bq2]> (delete t (<[q := bq2]> h2))).
  exists h3. split; [|split; [|split; [|split]]].
  - unfold pbuf_realloc. mstep (load_Ok _ _ _ Hbh).
    rewrite (u16_small rem0) by (unfold rem0; nia).
    destruct (Z.geb_spec rem0 (tot_len bh)) as [Hge|_]; [unfold rem0 in Hge; lia|].
    mprim.
    replace (rem0 - tot_len bh) with (-2) by (unfold rem0; lia).
    mstep Hloop.
    assert (Hq2 : h2 !! q = Some bq) by (rewrite Hfr2 by exact Hqls; exact Hbq).
    mupdate. mupdate. rewrite insert_insert_eq. mload.
    rewrite E.
    mnorm. erewrite bind_Ok.
    2:{ apply (pbuf_free_ok _ t [t]).
        - intros l [x Hx]. simpl in *. apply Hok.
          destruct (decide (l = q)) as [->|Hlq]; [eauto|].
          rewrite lookup_insert_ne in Hx by congruence.
          destruct (decide (l ∈ ls1)) as [Hin|Hnin].
          + destruct (Hfull l ltac:(apply elem_of_app; auto)) as (b & Hb & _).
            eauto.
          + rewrite Hfr2 in Hx by exact Hnin. eauto.
        - simpl. split; [reflexivity|]. exists bt. split; [|exact Hnt].
          rewrite lookup_insert_ne by congruence.
          rewrite Hfr2 by exact Htls. exact Hbt. }
    wsimpl. unfold delete_all. simpl fold_left.
    erewrite update_Ok.
    2:{ simpl. rewrite lookup_delete_ne by congruence. apply lookup_insert_eq. }
    unfold h3, bq2. wsimpl. rewrite ?E. destruct w; reflexivity.
  - unfold h3. rewrite lookup_insert_ne by congruence. apply lookup_delete_eq.
  - unfold h3. apply lookup_insert_eq.
  - intros l b Hl Hb. unfold h3.
    assert (l <> q) by (intros ->; contradiction).
    assert (l <> t) by (intros ->; contradiction).
    rewrite lookup_insert_ne by congruence.
    rewrite lookup_delete_ne by congruence.
    rewrite lookup_insert_ne by congruence.
    apply Hnodes2; assumption.
  - intros l Hl Hlq Hlt'. unfold h3.
    rewrite lookup_insert_ne by congruence.
    rewrite lookup_delete_ne by congruence.
    rewrite lookup_insert_ne by congruence.
    apply Hfr2. exact Hl.
Qed.

Lemma lseg_to_ext h h' p ls q :
  (forall l b, l ∈ ls -> h !! l = Some b ->
     exists b', h' !! l = Some b' /\ next b' = next b) ->
  lseg_to h p ls q -> lseg_to h' p ls q.
Proof.
  revert p. induction ls as [|x ls IH]; intros p Hf; simpl; [auto|].
  intros (-> & b & Hb & H). split; [reflexivity|].
  destruct (Hf x b ltac:(apply elem_of_cons; auto) Hb) as (b' & Hb' & Hn).
  exists b'. split; [exact Hb'|]. rewrite Hn. apply IH; [|exact H].
  intros l bl Hl Hbl. apply Hf; [apply elem_of_cons; auto | exact Hbl].
Qed.

Lemma take_app_mid (c1 bq tl : list Z) (r : nat) :
  (r <= length bq)%nat ->
  (length c1 + r = length ((c1 ++ bq) ++ tl) - 2)%nat ->
  take (length ((c1 ++ bq) ++ tl) - 2) ((c1 ++ bq) ++ tl) = c1 ++ take r bq.
Proof.
  intros Hr E. rewrite <- E. rewrite <- app_assoc.
  rewrite take_app. rewrite take_ge by lia.
  f_equal. replace (length c1 + r - length c1)%nat with r by lia.
  apply take_app_le. exact Hr.
Qed.

Lemma deliver_multi_short w data hd t ls tb :
  rx_inv w data -> (2 <= length data)%nat -> 2 + Z.of_nat (length data) <= 65535 ->
  in_head (rxf w) = Some hd -> in_tail (rxf w) = Some t ->
  lseg (heap w) (Some hd) ls -> t ∉ ls -> full_chain (heap w) ls ->
  heap w !! t = Some tb -> pool_buf tb -> next tb = None -> 1 <= len tb <= 2 ->
  rx_stored w data = chain_bytes (heap w) ls ++ buf_bytes tb ->
  exists w', rx_deliver w = Ok (tt, w') /\ deliver_post w data w' hd ls.
Proof.
  intros Hinv Hd2 Hbound Hh Ht Hseg Hni Hfull Htb Hp Hn H12 Hstored.
  pose proof Hinv as [Hok Hpr Hfc _ _].
  assert (Hdata : data <> []) by (intros ->; simpl in Hd2; lia).
  rewrite (rx_stored_cons w data Hdata) in Hstored.
  assert (Hpre : length (proto_prefix w) = 2%nat) by reflexivity.
  destruct (pool_buf_bytes_length tb Hp) as [Hlen Hcap].
  pose proof (full_chain_bytes_length _ _ Hfull) as Hclen.
  assert (Htotal : Z.of_nat (length ls) * PBUF_POOL_BUFSIZE + len tb
                   = 2 + Z.of_nat (length data)).
  { rewrite <- Hclen, <- Hlen. rewrite <- Nat2Z.inj_add, <- length_app.
    rewrite <- Hstored, length_app, Hpre. lia. }
  destruct Hp as [Hpl Hlb].
  assert (Hne : t <> hd).
  { destruct (lseg_hd _ _ _ Hseg) as [ls' ->].
    apply not_elem_of_cons in Hni as [Hne _]. exact Hne. }
  set (tb1 := set_tot_len (len tb) tb).
  set (w1 := set_heap (<[t := tb1]>) w).
  assert (Hok1 : heap_ok w1).
  { apply heap_ok_insert; [exact Hok|]. apply Hok. eauto. }
  assert (Hseg1 : lseg (heap w1) (Some hd) ls).
  { unfold w1. simpl. apply lseg_to_insert_notin; assumption. }
  assert (Htb1 : heap w1 !! t = Some tb1) by (simpl; apply lookup_insert_eq).
  destruct (pbuf_cat_spec w1 hd ls t tb1 Hok1 Hseg1 Hni Htb1 Hn)
    as (h1 & Hrun1 & Hfr1 & Hseg1' & Hnodes1).
  assert (Hw1 : forall l, l <> t -> heap w1 !! l = heap w !! l).
  { intros l Hl. unfold w1. simpl. apply lookup_insert_ne. congruence. }
  assert (Hnodes : forall l b, l ∈ ls -> heap w !! l = Some b ->
            exists b', h1 !! l = Some b' /\ payload b' = payload b /\
                       len b' = len b /\
                       tot_len b' = u16 (tot_len b + len tb)).
  { intros l b Hl Hb. apply Hnodes1; [exact Hl|].
    rewrite Hw1; [exact Hb|]. intros ->. contradiction. }
  assert (Ht1 : h1 !! t = Some tb1) by (rewrite Hfr1 by exact Hni; exact Htb1).
  set (w2 := set_heap (fun _ => h1) w1).
  assert (Hlive1 : forall l, is_Some (h1 !! l) -> is_Some (heap w !! l)).
  { intros l Hl. destruct (decide (l = t)) as [->|Hlt]; [eauto|].
    destruct (decide (l ∈ ls)) as [Hin|Hnin].
    - eapply lseg_live; eauto.
    - rewrite Hfr1, Hw1 in Hl by assumption. exact Hl. }
  assert (Hok2 : heap_ok w2).
  { intros l Hl. simpl in *. apply Hok. apply Hlive1. exact Hl. }
  (* the head after the concatenation *)
  destruct (lseg_hd _ _ _ Hseg) as [ls' Els].
  assert (Hhd0 : ls !! 0%nat = Some hd) by (rewrite Els; reflexivity).
  destruct (Hfull 0%nat hd Hhd0) as (b0 & Hb0 & _ & _ & Htot0).
  destruct (Hnodes hd b0 (list_elem_of_lookup_2 _ _ _ Hhd0) Hb0)
    as (bh & Hbh & _ & _ & Htoth).
  rewrite Htot0, u16_add_l, Nat.sub_0_r in Htoth.
  rewrite u16_small in Htoth by lia.
  (* the chain ends in q, then t *)
  clear ls' Els.
  destruct ls as [|q ls1 _] using rev_ind; [discriminate|].
  rewrite length_app in Htotal, Htoth. simpl length in Htotal, Htoth.
  assert (Hq : q ∈ ls1 ++ [q]).
  { apply elem_of_app. right. apply list_elem_of_singleton. reflexivity. }
  destruct (full_chain_live _ _ _ Hfull Hq) as (bq0 & Hbq0 & Hplq & Hlenq).
  destruct (Hnodes q bq0 Hq Hbq0) as (bq & Hbq & Hpayq & Hlenq' & _).
  destruct (pbuf_realloc_full_chain w2 hd ls1 q t bh bq tb1 Hok2)
    as (h3 & Hrun3 & H3t & H3q & H3nodes & H3fr).
  { simpl. change (ls1 ++ [q; t]) with (ls1 ++ [q] ++ [t]).
    rewrite app_assoc. exact Hseg1'. }
  { intros l Hl. destruct (full_chain_live _ _ _ Hfull Hl) as (b & Hb & _ & Hlb').
    destruct (Hnodes l b Hl Hb) as (b' & Hb' & _ & Hlen' & _).
    exists b'. split; [exact Hb'|]. congruence. }
  { exact Hbh. }
  { exact Hbq. }
  { exact Ht1. }
  { exact H12. }
  { simpl. rewrite Htoth. lia. }
  { lia. }
  cbv zeta in H3q.
  set (rem := PBUF_POOL_BUFSIZE + len tb - 2) in *.
  exists (add_delivered hd
            (set_ppp (set_rx (fun r => set_in_tail None (set_in_head None r)))
               (set_heap (fun _ => h3) (add_freed t w)))).
  split.
  - unfold rx_deliver. mprim. fold (rxf w). rewrite Ht, Hh. mload.
    destruct (Z.gtb_spec (len tb) 2) as [Hgt|_]; [lia|].
    mupdate.
    rewrite (bool_decide_eq_true_2 (Some t <> Some hd)) by congruence.
    mnorm. erewrite bind_Ok by exact Hrun1. cbv beta iota.
    mnorm. erewrite bind_Ok by (apply load_Ok; exact Hbh). cbv beta iota.
    mnorm. erewrite bind_Ok by exact Hrun3. cbv beta iota.
    repeat mprim. unfold ppp_input, modify, rxf in *.
    destruct w as [h a s j wi d f st [lx oa ac pc [ia ih it ip ifc ist ie]]].
    simpl in *. subst ih it. reflexivity.
  - unfold deliver_post, rxf in *.
    remember (proto_prefix w) as pre eqn:Epre. clear Epre.
    assert (Hnd : NoDup (ls1 ++ [q])) by (eapply lseg_NoDup; eauto).
    assert (Hqls : q ∉ ls1).
    { apply NoDup_app in Hnd as (_ & Hd & _). intros Hin.
      apply (Hd q Hin). apply list_elem_of_singleton. reflexivity. }
    assert (Htls : t ∉ ls1).
    { intros Hin. apply Hni. apply elem_of_app. auto. }
    assert (Htq : t <> q) by (intros ->; contradiction).
    assert (Hlive3 : forall l, is_Some (h3 !! l) -> is_Some (heap w !! l)).
    { intros l Hl. destruct (decide (l = t)) as [->|Hlt]; [eauto|].
      destruct (decide (l = q)) as [->|Hlq]; [eauto|].
      destruct (decide (l ∈ ls1)) as [Hin|Hnin].
      - eapply lseg_live; [exact Hseg|]. apply elem_of_app. auto.
      - rewrite H3fr in Hl by assumption. apply Hlive1. exact Hl. }
    assert (Hbytes1 : forall l, l ∈ ls1 -> bytes_at h3 l = bytes_at (heap w) l).
    { intros l Hl.
      destruct (full_chain_live _ _ _ Hfull
                  (proj2 (elem_of_app ls1 [q] l) (or_introl Hl)))
        as (b & Hb & _).
      destruct (Hnodes l b (proj2 (elem_of_app ls1 [q] l) (or_introl Hl)) Hb)
        as (b' & Hb' & Hpay' & Hlen' & _).
      unfold bytes_at. rewrite (H3nodes l b' Hl Hb'), Hb. simpl.
      unfold buf_bytes. simpl. rewrite Hpay', Hlen'. reflexivity. }
    destruct w as [h a s j wi d f st [lx oa ac pc [ia ih it ip ifc ist ie]]].
    simpl in *. subst ih it.
    split; [reflexivity|]. split; [reflexivity|]. split; [reflexivity|].
    split.
    { intros l Hl. simpl in *. apply (Hok l). apply Hlive3. exact Hl. }
    split; [constructor; simpl; auto|]. split; [reflexivity|].
    split.
    { unfold lseg in *. apply lseg_to_app.
      apply lseg_to_app in Hseg1' as (m & Hs1 & Hs2).
      apply lseg_to_app in Hs1 as (m1 & Hs1 & Hs3).
      simpl in Hs3. destruct Hs3 as (-> & _).
      exists (Some q). split.
      - eapply lseg_to_ext; [|exact Hs1]. intros l b Hl Hb.
        rewrite (H3nodes l b Hl Hb). eexists. split; reflexivity.
      - simpl. split; [reflexivity|]. eexists. split; [exact H3q|]. reflexivity. }
    split.
    { rewrite chain_bytes_app.
      rewrite (chain_bytes_ext h h3 ls1 Hbytes1).
      erewrite (chain_bytes_single h3) by exact H3q.
      rewrite <- (take_stored pre data Hpre Hd2). rewrite Hstored.
      rewrite chain_bytes_app.
      rewrite (chain_bytes_single h q bq0 Hbq0).
      assert (Hbq0len : length (buf_bytes bq0) = Z.to_nat PBUF_POOL_BUFSIZE).
      { unfold buf_bytes. rewrite length_take. lia. }
      assert (Hbqp : buf_bytes bq0 = payload bq0).
      { unfold buf_bytes. apply take_ge. lia. }
      match goal with |- _ ++ buf_bytes ?b = _ =>
        assert (Hrem : buf_bytes b
                       = take (Z.to_nat (PBUF_POOL_BUFSIZE + len tb - 2)) (buf_bytes bq0))
      end.
      { unfold buf_bytes at 1. simpl. rewrite Hpayq, Hbqp. reflexivity. }
      rewrite Hrem. symmetry. apply take_app_mid.
      - rewrite Hbq0len. try unfold rem; lia.
      - rewrite !length_app. rewrite Hbq0len.
        assert (Hlt : length (buf_bytes tb) = Z.to_nat (len tb)) by lia.
        rewrite Hlt. try unfold rem; lia. }
    destruct ls1 as [|x ls1'].
    + simpl in Hhd0. injection Hhd0 as ->.
      eexists. split; [exact H3q|]. simpl. simpl in Htotal. try unfold rem; lia.
    + simpl in Hhd0. injection Hhd0 as ->.
      assert (Hin : hd ∈ hd :: ls1') by (apply elem_of_cons; auto).
      rewrite (H3nodes hd bh Hin Hbh).
      eexists. split; [reflexivity|]. simpl. rewrite Htoth.
      rewrite u16_small by lia. lia.
Qed.

(** The good-frame branch, whatever shape the chain has, for a frame with
    at least its two check octets in the data phase. *)
Lemma rx_deliver_spec w data :
  rx_inv w data -> (2 <= length data)%nat -> 2 + Z.of_nat (length data) <= 65535 ->
  exists w' hd ls, rx_deliver w = Ok (tt, w') /\ deliver_post w data w' hd ls.
Proof.
  intros Hinv Hd2 Hbound. pose proof (rxi_shape _ _ Hinv) as Hs.
  destruct Hs as [Hh Ht E | hd b Hh Ht Hb Hp Hn H3 E
                 | hd t ls tb Hh Ht Hseg Hni Hfull Htb Hp Hn H1 E].
  - destruct data; [simpl in Hd2; lia | discriminate E].
  - destruct (deliver_single w data hd b Hinv Hd2 Hh Ht Hb Hp Hn E) as (w' & H).
    exists w', hd, [hd]. exact H.
  - destruct (Z_lt_le_dec 2 (len tb)) as [Hlong|Hshort].
    + destruct (deliver_multi_long w data hd t ls tb Hinv Hd2 Hbound Hh Ht
                  Hseg Hni Hfull Htb Hp Hn Hlong E) as (w' & H).
      eauto.
    + destruct (deliver_multi_short w data hd t ls tb Hinv Hd2 Hbound Hh Ht
                  Hseg Hni Hfull Htb Hp Hn (conj H1 Hshort) E) as (w' & H).
      eauto.
Qed.

(** ** The flag *)

Lemma rx_flag_ignore w :
  pd_num (in_state (rxf w)) <= pd_num PDADDRESS ->
  rx_flag w = Ok (tt, set_ppp (set_rx rx_reset) w).
Proof.
  intros Hst. unfold rx_flag. mprim. fold (rxf w).
  destruct (Z.leb_spec (pd_num (in_state (rxf w))) (pd_num PDADDRESS)); [|lia].
  repeat mprim. reflexivity.
Qed.

Lemma rx_flag_tail (m : M unit) w w1 :
  m w = Ok (tt, w1) ->
  (m ;;; rx_set (set_in_fcs PPP_INITFCS) ;;; rx_set (set_in_state PDADDRESS) ;;;
   rx_set (set_in_escaped false)) w
  = Ok (tt, set_ppp (set_rx rx_reset) w1).
Proof.
  intros H. mstep H. repeat mprim. reflexivity.
Qed.

Lemma rx_flag_drop w data c :
  rx_inv w data ->
  (c = link_lenerr /\ pd_num PDADDRESS < pd_num (in_state (rxf w)) < pd_num PDDATA) \/
  (c = link_chkerr /\ in_state (rxf w) = PDDATA /\ in_fcs (rxf w) <> PPP_GOODFCS) ->
  exists w', rx_flag w = Ok (tt, w') /\ flag_drop_post c w w'.
Proof.
  intros Hinv Hc.
  set (w1 := add_stat c 1 w).
  assert (Hok1 : heap_ok w1) by exact (rxi_heap _ _ Hinv).
  assert (Hd1 : rx_droppable w1) by exact (rx_inv_droppable _ _ Hinv).
  destruct (pppos_drop_spec w1 Hok1 Hd1)
    as (w2 & Hrun & Hok2 & Hstep & Hrx & Hstats & Hdel & _ & Hlive).
  exists (set_ppp (set_rx rx_reset) w2). split.
  - unfold rx_flag.
    assert (Hbr : (if pd_num (in_state (rxf w)) <=? pd_num PDADDRESS then ret tt
                   else if pd_num (in_state (rxf w)) <? pd_num PDDATA
                   then LINK_STATS_INC link_lenerr ;;; pppos_drop
                   else if negb (in_fcs (rxf w) =? PPP_GOODFCS)
                   then LINK_STATS_INC link_chkerr ;;; pppos_drop
                   else rx_deliver) w = Ok (tt, w2)).
    { destruct Hc as [(-> & Hlo & Hhi) | (-> & Hst & Hfcs)].
      - destruct (Z.leb_spec (pd_num (in_state (rxf w))) (pd_num PDADDRESS)); [lia|].
        destruct (Z.ltb_spec (pd_num (in_state (rxf w))) (pd_num PDDATA)); [|lia].
        unfold LINK_STATS_INC. mprim. exact Hrun.
      - rewrite Hst. simpl.
        destruct (Z.eqb_spec (in_fcs (rxf w)) PPP_GOODFCS); [contradiction|].
        cbn [negb]. unfold LINK_STATS_INC. mprim. exact Hrun. }
    mprim. fold (rxf w). apply rx_flag_tail. exact Hbr.
  - unfold flag_drop_post, rx_released, rxf in *.
    destruct Hstep. split; [exact Hok2|].
    split; [constructor; simpl; auto|].
    simpl. rewrite Hrx. split; [reflexivity|].
    split; [exact Hstats|]. split; [exact Hdel|]. exact Hlive.
Qed.

Lemma rx_flag_deliver w data :
  rx_inv w data -> in_state (rxf w) = PDDATA -> in_fcs (rxf w) = PPP_GOODFCS ->
  (2 <= length data)%nat -> 2 + Z.of_nat (length data) <= 65535 ->
  exists w' hd ls, rx_flag w = Ok (tt, w') /\ flag_deliver_post w data w' hd ls.
Proof.
  intros Hinv Hst Hfcs Hd2 Hbound.
  destruct (rx_deliver_spec w data Hinv Hd2 Hbound)
    as (w1 & hd & ls & Hrun & Hh & Hdel & Hrx & Hok & Hstep & Hstats & Hseg & Hbytes & Hb).
  exists (set_ppp (set_rx rx_reset) w1), hd, ls. split.
  - unfold rx_flag. mprim. fold (rxf w). apply rx_flag_tail.
    rewrite Hst, Hfcs. simpl. exact Hrun.
  - unfold flag_deliver_post, rx_released, rxf in *.
    destruct Hstep. split; [exact Hh|]. split; [exact Hdel|].
    simpl. rewrite Hrx. split; [reflexivity|]. split; [exact Hok|].
    split; [constructor; simpl; auto|]. auto.
Qed.

Lemma pppos_input_byte_flag w :
  escaped (in_accm (rxf w)) PPP_FLAG = true ->
  pppos_input_byte PPP_FLAG w = rx_flag w.
Proof.
  intros He. unfold pppos_input_byte. mprim. fold (rxf w). rewrite He.
  reflexivity.
Qed.

Lemma rx_flag_resets w w' :
  rx_flag w = Ok (tt, w') ->
  exists w1, w' = set_ppp (set_rx rx_reset) w1.
Proof.
  unfold rx_flag. intros H.
  apply bind_inv in H as (r & w0 & Hget & H).
  apply bind_inv in H as ([] & w1 & Hbr & H).
  exists w1.
  change (Ok (tt, set_ppp (set_rx rx_reset) w1) = Ok (tt, w')) in H.
  congruence.
Qed.

(** C3 (amended). When [pppos_input] meets the flag 0x7E, marked in the
    receive character map, between two frames of a receive side in a
    consistent state: in a state up to ADDRESS the flag changes nothing but
    the three fields reset below, and no counter; in the states CONTROL,
    PROTOCOL1 and PROTOCOL2 the partial frame is dropped and the
    length-error counter goes up (with the two counters of every drop); in
    state DATA with a check sequence other than 0xF0B8 the frame is dropped
    and the check-error counter goes up; and whenever the flag is processed
    to the end, the state is ADDRESS (not START), the check sequence is
    0xFFFF and [in_escaped] is clear. *)
Theorem flag_dispositions w data :
  rx_inv w data -> escaped (in_accm (rxf w)) PPP_FLAG = true ->
  (pd_num (in_state (rxf w)) <= pd_num PDADDRESS ->
     pppos_input_byte PPP_FLAG w = Ok (tt, set_ppp (set_rx rx_reset) w)) /\
  (pd_num PDADDRESS < pd_num (in_state (rxf w)) < pd_num PDDATA ->
     exists w', pppos_input_byte PPP_FLAG w = Ok (tt, w') /\
                flag_drop_post link_lenerr w w') /\
  (in_state (rxf w) = PDDATA -> in_fcs (rxf w) <> PPP_GOODFCS ->
     exists w', pppos_input_byte PPP_FLAG w = Ok (tt, w') /\
                flag_drop_post link_chkerr w w') /\
  (forall w', pppos_input_byte PPP_FLAG w = Ok (tt, w') ->
     in_state (rxf w') = PDADDRESS /\ in_fcs (rxf w') = PPP_INITFCS /\
     in_escaped (rxf w') = false).
Proof.
  intros Hinv He. rewrite (pppos_input_byte_flag w He).
  split; [|split; [|split]].
  - apply rx_flag_ignore.
  - intros Hst. apply (rx_flag_drop w data); auto.
  - intros Hst Hfcs. apply (rx_flag_drop w data); auto.
  - intros w' H. destruct (rx_flag_resets w w' H) as (w1 & ->).
    repeat split.
Qed.

(** The good-frame branch when a single octet was absorbed in the data
    phase: the head holds the two octets of the protocol field and that one
    octet, the branch trims two bytes, and what is handed up is the high
    octet of the protocol number alone. *)
Lemma deliver_single_octet w d :
  rx_inv w [d] ->
  exists w' hd b,
    rx_deliver w = Ok (tt, w') /\
    delivered w' = delivered w ++ [hd] /\
    rxf w' = set_in_tail None (set_in_head None (rxf w)) /\
    stats w' = stats w /\
    heap w' !! hd = Some b /\ next b = None /\ tot_len b = 1 /\
    buf_bytes b = [u8 (Z.shiftr (in_protocol (rxf w)) 8)].
Proof.
  intros Hinv. pose proof (rxi_shape _ _ Hinv) as Hs.
  change (rx_stored w [d]) with (proto_prefix w ++ [d]) in Hs.
  destruct Hs as [_ _ E | hd b Hh Ht Hb Hpb Hn H3 E
                 | hd t ls tb Hh Ht Hseg Hni Hfull Htb Hpb Hn Hl E].
  - discriminate E.
  - destruct (pool_buf_bytes_length b Hpb) as [Hlen Hcap].
    rewrite <- E in Hlen. simpl in Hlen.
    destruct Hpb as [Hpl Hlb].
    set (b2 := set_tot_len (len b - 2) (set_len (len b - 2) b)).
    exists (add_delivered hd
              (set_ppp (set_rx (fun r => set_in_tail None (set_in_head None r)))
                 (set_heap (<[hd := b2]>) w))), hd, b2.
    split.
    { fold (rxf w) in Hh, Ht.
      unfold rx_deliver. mprim. fold (rxf w). rewrite Ht, Hh. mload.
      destruct (Z.gtb_spec (len b) 2) as [_|Hle]; [|lia].
      mupdate. mload. mupdate.
      rewrite (bool_decide_eq_false_2 (Some hd <> Some hd)) by auto.
      repeat mprim. rewrite (u16_small (len b - 2)) by lia.
      unfold ppp_input, modify. rewrite !insert_insert_eq.
      unfold rxf in *.
      destruct w as [h a s j wi dl f st [lx oa ac pc [ia ih it ip ifc ist ie]]].
      simpl in *. subst ih it. reflexivity. }
    split; [reflexivity|]. split; [reflexivity|]. split; [reflexivity|].
    split; [apply lookup_insert_eq|]. split; [exact Hn|].
    split; [simpl; lia|].
    unfold buf_bytes, b2. simpl.
    replace (Z.to_nat (len b - 2)) with (Init.Nat.min 1 (Z.to_nat (len b)))
      by lia.
    rewrite <- take_take. fold (buf_bytes b). rewrite <- E. reflexivity.
  - exfalso.
    apply (f_equal (@length Z)) in E. rewrite !length_app in E.
    change (length (proto_prefix w)) with 2%nat in E. simpl length in E.
    destruct (pool_buf_bytes_length tb Hpb) as [Hlen _].
    pose proof (full_chain_bytes_length _ _ Hfull) as Hclen.
    destruct (lseg_hd _ _ _ Hseg) as [ls' ->]. simpl length in Hclen.
    nia.
Qed.

(** C2 (code defect). A flag met in state DATA with the check sequence at
    0xF0B8 after the octets [data], at least one, were absorbed in the data
    phase of a frame that fits a 16-bit length: a chain is handed to
    [ppp_input] with [tot_len] 2 plus the octets absorbed less 2, whether
    the tail holds more than two bytes or not, and [in_head] and [in_tail]
    are null afterwards. When at least two octets were absorbed the chain
    holds the protocol number, high octet first, and then the data without
    its last two octets. When exactly one octet was absorbed, the two bytes
    the branch trims as the checksum are the low octet of the protocol
    number and that octet: the chain handed up is one byte long and holds
    the high octet of the protocol number alone. The branch has no test of
    a minimum length. *)
Theorem good_frame_delivery w data :
  rx_inv w data -> escaped (in_accm (rxf w)) PPP_FLAG = true ->
  in_state (rxf w) = PDDATA -> in_fcs (rxf w) = PPP_GOODFCS ->
  data <> [] -> 2 + Z.of_nat (length data) <= 65535 ->
  exists w' hd ls b,
    pppos_input_byte PPP_FLAG w = Ok (tt, w') /\
    delivered w' = delivered w ++ [hd] /\
    heap w' !! hd = Some b /\
    tot_len b = 2 + Z.of_nat (length data) - 2 /\
    lseg (heap w') (Some hd) ls /\
    chain_bytes (heap w') ls
      = take (length data)
          ([u8 (Z.shiftr (in_protocol (rxf w)) 8);
            u8 (Z.land (in_protocol (rxf w)) 0xFF)] ++ data) /\
    ((2 <= length data)%nat ->
     chain_bytes (heap w') ls
       = [u8 (Z.shiftr (in_protocol (rxf w)) 8);
          u8 (Z.land (in_protocol (rxf w)) 0xFF)]
         ++ take (length data - 2) data) /\
    (length data = 1%nat ->
     tot_len b = 1 /\
     chain_bytes (heap w') ls = [u8 (Z.shiftr (in_protocol (rxf w)) 8)]) /\
    in_head (rxf w') = None /\ in_tail (rxf w') = None /\
    stats w' = stats w.
Proof.
  intros Hinv He Hst Hfcs Hne Hbound.
  rewrite (pppos_input_byte_flag w He).
  destruct (le_lt_dec 2 (length data)) as [Hd2|Hd1].
  - destruct (rx_flag_deliver w data Hinv Hst Hfcs Hd2 Hbound)
      as (w' & hd & ls & Hrun & _ & Hdel & Hrx & _ & _ & Hstats & Hseg & Hbytes
          & b & Hb & Htot).
    exists w', hd, ls, b. rewrite Hrx.
    split; [exact Hrun|]. split; [exact Hdel|]. split; [exact Hb|].
    split; [lia|]. split; [exact Hseg|].
    split.
    { rewrite Hbytes. unfold proto_prefix, rxf.
      destruct (length data) as [|[|n]]; [lia|lia|].
      simpl. rewrite Nat.sub_0_r. reflexivity. }
    split; [intros _; exact Hbytes|].
    split; [intros E; lia|].
    split; [reflexivity|]. split; [reflexivity | exact Hstats].
  - destruct data as [|d [|d' data]]; [contradiction| |simpl in Hd1; lia].
    destruct (deliver_single_octet w d Hinv)
      as (w1 & hd & b & Hrun & Hdel & Hrx & Hstats & Hb & Hn & Htot & Hbytes).
    exists (set_ppp (set_rx rx_reset) w1), hd, [hd], b.
    split.
    { unfold rx_flag. mprim. fold (rxf w). apply rx_flag_tail.
      rewrite Hst, Hfcs. simpl. exact Hrun. }
    assert (Hcb : chain_bytes (heap w1) [hd]
                  = [u8 (Z.shiftr (in_protocol (rxf w)) 8)]).
    { erewrite chain_bytes_single by exact Hb. exact Hbytes. }
    split; [exact Hdel|]. split; [exact Hb|].
    split; [simpl; lia|].
    split; [split; [reflexivity|]; exists b; split; [exact Hb | exact Hn]|].
    split; [exact Hcb|].
    split; [simpl; lia|].
    split; [intros _; split; [exact Htot | exact Hcb]|].
    unfold rxf in *. simpl. rewrite Hrx. repeat split. exact Hstats.
Qed.

(** ** A frame that ends right after its protocol field *)

Lemma pppos_input_cons c s w w1 :
  pppos_input_byte c w = Ok (tt, w1) ->
  pppos_input (c :: s) w = pppos_input s w1.
Proof.
  intros H. unfold pppos_input. simpl. mstep H. reflexivity.
Qed.

Lemma pppos_input_byte_char c w :
  escaped (in_accm (rxf w)) c = false ->
  pppos_input_byte c w = rx_char c w.
Proof.
  intros He. unfold pppos_input_byte. mprim. fold (rxf w). rewrite He.
  reflexivity.
Qed.

Lemma rx_flag_null_tail w :
  in_state (rxf w) = PDDATA -> in_fcs (rxf w) = PPP_GOODFCS ->
  in_tail (rxf w) = None ->
  rx_flag w = Err NullDeref.
Proof.
  intros Hst Hfcs Ht. unfold rx_flag. mprim. fold (rxf w).
  rewrite Hst, Hfcs. simpl.
  apply bind_Err. unfold rx_deliver. mprim. fold (rxf w). rewrite Ht.
  reflexivity.
Qed.

(** C6. A frame made of the two octets 0x00 0x00 and a flag, met at a frame
    boundary by a receive side whose character map marks the flag and not
    0x00: the two octets are taken for the protocol field and run the check
    sequence to 0xF0B8, no data octet is stored, and the flag reaches the
    good-frame branch, which dereferences the null [in_tail]. *)
Theorem null_tail_at_delivery w :
  escaped (in_accm (rxf w)) PPP_FLAG = true ->
  escaped (in_accm (rxf w)) 0 = false ->
  in_state (rxf w) = PDADDRESS -> in_fcs (rxf w) = PPP_INITFCS ->
  in_escaped (rxf w) = false ->
  in_head (rxf w) = None -> in_tail (rxf w) = None ->
  exists w2,
    pppos_input_loop [0; 0] w = Ok (tt, w2) /\
    in_state (rxf w2) = PDDATA /\ in_fcs (rxf w2) = PPP_GOODFCS /\
    in_head (rxf w2) = None /\ in_tail (rxf w2) = None /\
    heap w2 = heap w /\
    pppos_input [0; 0; PPP_FLAG] w = Err NullDeref.
Proof.
  intros Hf H0 Hst Hfcs Hesc Hh Ht.
  unfold rxf in *.
  destruct w as [h a s j wi d f st [lx oa ac pc [ia ih it ip ifc ist ie]]].
  simpl in *. subst.
  set (w1 := mk_world h a s j wi d f st
               (mk_pcb lx oa ac pc (mk_rx ia None None 0 (u16 (PPP_FCS PPP_INITFCS 0))
                                          PDPROTOCOL2 false))).
  set (w2 := mk_world h a s j wi d f st
               (mk_pcb lx oa ac pc (mk_rx ia None None 0 PPP_GOODFCS PDDATA false))).
  assert (E1 : pppos_input_byte 0 (mk_world h a s j wi d f st
               (mk_pcb lx oa ac pc (mk_rx ia None None ip PPP_INITFCS PDADDRESS false)))
               = Ok (tt, w1)).
  { rewrite pppos_input_byte_char by exact H0. reflexivity. }
  assert (E2 : pppos_input_byte 0 w1 = Ok (tt, w2)).
  { rewrite pppos_input_byte_char by exact H0. reflexivity. }
  exists w2. split.
  { simpl. mstep E1. mstep E2. reflexivity. }
  repeat (split; [reflexivity|]).
  rewrite (pppos_input_cons _ _ _ _ E1), (pppos_input_cons _ _ _ _ E2).
  unfold pppos_input. simpl. apply bind_Err. apply bind_Err.
  rewrite pppos_input_byte_flag by exact Hf.
  apply rx_flag_null_tail; reflexivity.
Qed.

(** ** After a short write *)

Lemma short_write_complete_from K segs : forall k,
  (K <= k)%nat -> (forall k n, (K <= k)%nat -> sio_ret k n = n) ->
  short_write k segs = None.
Proof.
  induction segs as [|s segs IH]; intros k Hk Hsio; [reflexivity|].
  simpl. rewrite Hsio, Z.eqb_refl by exact Hk.
  rewrite IH by (auto; lia). reflexivity.
Qed.

(** C7. A short write in [pppos_xmit], at the j-th segment of the chain:
    the error counters go up, [last_xmit] is 0, the whole chain is freed,
    the device is not called again and nothing is retried.  The next
    packet, however, is not always sent behind a flag: when it goes out
    while the tick counter is still below [PPP_MAXIDLEFLAG], the idle test
    fails and the frame starts with its header octets. *)
Theorem short_write_recovery A0 w hd ls j c :
  tx_chain A0 w hd ls ->
  short_write (sio_calls w) (map (bytes_at (heap w)) ls) = Some (j, c) ->
  exists w',
    pppos_xmit (Some hd) w = Ok (tt, w') /\
    stats w' = (ifoutdiscards, 1) :: (link_err, 1) :: stats w /\
    last_xmit (ppp w') = 0 /\
    (forall l, l ∈ ls -> heap w' !! l = None) /\
    freed w' = freed w ++ [hd] /\
    sio_calls w' = (sio_calls w + S j)%nat /\
    wire w' = wire w ++ concat (take j (map (bytes_at (heap w)) ls)) ++
                take (Z.to_nat c) (nth j (map (bytes_at (heap w)) ls) []) /\
    forall now pb pls protocol,
      0 <= now < PPP_MAXIDLEFLAG -> now < 2 ^ 32 ->
      payload_chain (at_time now w') pb pls ->
      (forall k, pool_ok k = true) ->
      (forall k n, (sio_calls w' <= k)%nat -> sio_ret k n = n) ->
      exists w3,
        pppos_link_netif_output_callback pb protocol (at_time now w')
          = Ok (ERR_OK, w3) /\
        wire w3 = wire w' ++
          enc_all (out_accm (ppp w))
            (let body := tx_header (accomp (ppp w)) (pcomp (ppp w)) protocol
                         ++ chain_bytes (heap w') pls in
             body ++ fcs_trailer (fcs_update PPP_INITFCS body)) ++
          [PPP_FLAG].
Proof.
  intros Hchain Hshort.
  exists (xmit_result w hd ls). split; [eapply pppos_xmit_ok; exact Hchain|].
  pose proof Hchain as [Hok Hseg Hnd Hfr Hbufs].
  unfold xmit_result. cbv zeta. rewrite Hshort.
  split; [reflexivity|]. split; [reflexivity|].
  split; [intros l Hl; simpl; apply delete_all_in; exact Hl|].
  split; [reflexivity|]. split; [reflexivity|]. split; [reflexivity|].
  intros now pb pls protocol Hnow H32 Hpc Hpool Hsio.
  match type of Hpc with payload_chain ?x _ _ => set (w2 := x) in * end.
  assert (Hok2 : heap_ok w2).
  { intros l Hl. simpl in *. apply Hok. eapply delete_all_is_Some. exact Hl. }
  destruct (netif_output_ok w2 pb pls protocol Hok2 Hpc Hpool)
    as (ls' & w1 & Hrun & Hchain1 & Hbytes & Hppp & Hwire & _ & _ & Hsio1 & _).
  eexists. split; [exact Hrun|].
  unfold xmit_result. cbv zeta.
  rewrite (short_write_complete_from (sio_calls w2)); [|lia|exact Hsio].
  simpl wire. rewrite Hwire.
  change (concat (map (bytes_at (heap w1)) ls')) with (chain_bytes (heap w1) ls').
  rewrite Hbytes.
  assert (Hidle : link_idle w2 = false).
  { unfold link_idle, w2, at_time. simpl. rewrite Z.sub_0_r.
    unfold u32. rewrite Z.mod_small by lia.
    destruct (Z.geb_spec now PPP_MAXIDLEFLAG); [lia | reflexivity]. }
  rewrite Hidle. unfold hdlc_frame. reflexivity.
Qed.

(** ** The shape of an encoded frame *)






(** C10. The raw write callback called on the head [p] of a chain of
    buffers [pls]: it returns on every path, whatever buffers the pool
    refuses and whatever the device takes, and has then released [p] exactly
    once, and with it the whole chain; and when every buffer is granted and
    every write complete, the frame on the wire is built from, and its check
    sequence runs over, the [len] bytes of the first buffer alone, however
    many buffers follow it. *)
Theorem raw_write_first_buffer_only (w : world) (p : loc) (pb : pbuf)
  (pls : list loc) :
  heap_ok w -> heap w !! p = Some pb ->
  (Z.to_nat (len pb) <= length (payload pb))%nat ->
  lseg (heap w) (Some p) pls ->
  exists r w',
    pppos_link_write_callback (Some p) w = Ok (r, w') /\
    (exists pre, freed w' = freed w ++ pre ++ [p] /\ p ∉ pre) /\
    (forall l, l ∈ pls -> heap w' !! l = None) /\
    ((forall k, pool_ok k = true) -> (forall k n, sio_ret k n = n) ->
     r = PPPERR_NONE /\
     wire w' = wire w ++
       (if link_idle w then [PPP_FLAG] else []) ++
       enc_all (out_accm (ppp w))
         (take (Z.to_nat (len pb)) (payload pb) ++
          fcs_trailer (fold_left PPP_FCS (take (Z.to_nat (len pb)) (payload pb))
                                 PPP_INITFCS)) ++
       [PPP_FLAG]).
Proof.
  intros Hok Hp Hcap Hpls.
  destruct (write_callback_run w p pb pls Hok Hp Hcap Hpls)
    as (r & w' & Hrun & Hfreed & Hgone & Hnone & Hall).
  exists r, w'. split; [exact Hrun|]. split; [exact Hfreed|].
  split; [exact Hgone|].
  intros Hpool Hsio. specialize (Hall Hpool). split; [exact Hall|].
  destruct (Hnone Hall) as (ls & w1 & Hchain & Hbytes & Hwire1 & _ & Hwire & _).
  rewrite Hwire. unfold xmit_result. cbv zeta.
  rewrite short_write_complete by exact Hsio. simpl wire.
  rewrite Hwire1.
  change (concat (map (bytes_at (heap w1)) ls)) with (chain_bytes (heap w1) ls).
  rewrite Hbytes. reflexivity.
Qed.

(** ** The round trip *)

Lemma forall_from_spec P : forall n z,
  forall_from n z P = true ->
  forall x, z <= x < z + Z.of_nat n -> P x = true.
Proof.
  induction n as [|n IH]; intros z H x Hx; [lia|].
  simpl in H. apply andb_true_iff in H as [Hz H].
  destruct (Z.eq_dec x z) as [->|Hne]; [exact Hz|].
  apply (IH (z + 1) H). lia.
Qed.

Lemma forall_u16 (P : Z -> bool) :
  forall_from (Z.to_nat 65536) 0 P = true ->
  forall x, is_u16 x -> P x = true.
Proof.
  intros H x Hx. apply (forall_from_spec P _ 0 H). unfold is_u16 in Hx. lia.
Qed.

(** The check sequence run over its own complement, low octet first, ends
    at the good value. *)
Lemma fcs_residue f :
  is_u16 f ->
  fcs_update f (fcs_trailer f) = PPP_GOODFCS.
Proof.
  intros Hf.
  pose proof (forall_u16
    (fun f => fcs_update f (fcs_trailer f) =? PPP_GOODFCS)) as H.
  apply Z.eqb_eq. apply H; [vm_compute; reflexivity | exact Hf].
Qed.

Lemma testbit_u16_high a n : is_u16 a -> 16 <= n -> Z.testbit a n = false.
Proof.
  intros Ha Hn. rewrite <- (Z.mod_small a (2 ^ 16)) by (unfold is_u16 in Ha; lia).
  apply Z.mod_pow2_bits_high. lia.
Qed.

Lemma lxor_u16 a b : is_u16 a -> is_u16 b -> is_u16 (Z.lxor a b).
Proof.
  intros Ha Hb.
  assert (H : Z.lxor a b = Z.lxor a b mod 2 ^ 16).
  { apply Z.bits_inj'. intros n Hn.
    destruct (Z.lt_ge_cases n 16) as [Hlt|Hge].
    - rewrite Z.mod_pow2_bits_low by lia. reflexivity.
    - rewrite Z.mod_pow2_bits_high by lia. rewrite Z.lxor_spec.
      rewrite !testbit_u16_high by assumption. reflexivity. }
  unfold is_u16. rewrite H. apply Z.mod_pos_bound. lia.
Qed.

Lemma fcstab_u16 i : is_u16 (nth i fcstab 0).
Proof.
  destruct (Nat.lt_ge_cases i 256) as [Hlt|Hge].
  - pose proof (forall_u8
      (fun c => (0 <=? nth (Z.to_nat c) fcstab 0) &&
                (nth (Z.to_nat c) fcstab 0 <? 65536)) eq_refl (Z.of_nat i)) as H.
    cbv beta in H. rewrite Nat2Z.id in H. unfold is_u8 in H.
    specialize (H ltac:(lia)). apply andb_true_iff in H as [H1 H2].
    unfold is_u16. lia.
  - rewrite nth_overflow by exact Hge. unfold is_u16. lia.
Qed.

Lemma PPP_FCS_u16 f c : is_u16 f -> is_u16 (PPP_FCS f c).
Proof.
  intros Hf. unfold PPP_FCS. apply lxor_u16; [|apply fcstab_u16].
  unfold is_u16 in *. rewrite Z.shiftr_div_pow2 by lia.
  split; [apply Z.div_pos; lia|].
  apply Z.div_lt_upper_bound; lia.
Qed.

Lemma fcs_update_u16 bs : forall f, is_u16 f -> is_u16 (fcs_update f bs).
Proof.
  unfold fcs_update. induction bs as [|c bs IH]; intros f Hf; [exact Hf|].
  simpl. apply IH. apply PPP_FCS_u16. exact Hf.
Qed.

Lemma pppos_input_loop_app s1 : forall s2 w w1,
  pppos_input_loop s1 w = Ok (tt, w1) ->
  pppos_input_loop (s1 ++ s2) w = pppos_input_loop s2 w1.
Proof.
  induction s1 as [|c s1 IH]; intros s2 w w1 H.
  - injection H as ->. reflexivity.
  - simpl in *. apply bind_inv in H as ([] & w0 & Hc & H).
    mstep Hc. apply IH. exact H.
Qed.

Lemma accm_consistent_spec out inn :
  accm_consistent out inn = true ->
  escaped inn PPP_ESCAPE = true /\ escaped inn PPP_FLAG = true /\
  forall c, is_u8 c ->
    (escaped out c = false -> escaped inn c = false) /\
    (escaped out c = true -> escaped inn (Z.lxor c PPP_TRANS) = false).
Proof.
  unfold accm_consistent. intros H.
  apply andb_true_iff in H as [H Hall]. apply andb_true_iff in H as [He Hf].
  split; [exact He|]. split; [exact Hf|].
  intros c Hc. pose proof (forall_u8 _ Hall c Hc) as H. cbv beta in H.
  apply andb_true_iff in H as [H1 H2].
  destruct (escaped out c), (escaped inn c),
    (escaped inn (Z.lxor c PPP_TRANS)); simpl in *; split; congruence.
Qed.

(** What the sender writes for one octet is read back as that octet. *)
Lemma rx_decode out w c :
  accm_consistent out (in_accm (rxf w)) = true -> is_u8 c ->
  in_escaped (rxf w) = false ->
  pppos_input_loop (enc (Some out) c) w = (rx_char c ;;; ret tt) w.
Proof.
  intros Hacc Hc Hesc.
  destruct (accm_consistent_spec _ _ Hacc) as (He & _ & Hall).
  destruct (Hall c Hc) as [Hno Hyes].
  unfold enc. destruct (escaped out c) eqn:Eo.
  - specialize (Hyes eq_refl). simpl.
    assert (E1 : pppos_input_byte PPP_ESCAPE w
                 = Ok (tt, set_ppp (set_rx (set_in_escaped true)) w)).
    { unfold pppos_input_byte. mprim. fold (rxf w). rewrite He. reflexivity. }
    rewrite (bind_Ok _ _ _ _ _ E1).
    assert (E2 : pppos_input_byte (Z.lxor c PPP_TRANS)
                   (set_ppp (set_rx (set_in_escaped true)) w) = rx_char c w).
    { rewrite pppos_input_byte_char by exact Hyes.
      unfold rx_char. mprim. mprim. rewrite lxor_trans_involutive.
      symmetry. mprim. fold (rxf w). rewrite Hesc. mprim.
      unfold rxf in *.
      destruct w as [h a s j wi d f st [lx oa ac pc [ia ih it ip ifc ist ie]]].
      simpl in *. subst ie. reflexivity. }
    unfold bind. rewrite E2. reflexivity.
  - specialize (Hno eq_refl). simpl.
    unfold bind. rewrite pppos_input_byte_char by exact Hno. reflexivity.
Qed.

Lemma rx_inv_set_fcs w data f :
  rx_inv w data -> is_u16 f ->
  rx_inv (set_ppp (set_rx (set_in_fcs f)) w) data.
Proof.
  intros [Hok Hp Hf Hs Hst] Hf'. constructor; try assumption.
  destruct Hs as [Hh Ht E | hd b Hh Ht Hb Hpb Hn H3 E
                 | hd t ls tb Hh Ht Hseg Hni Hfull Htb Hpb Hn H1 E].
  - apply rx_none; assumption.
  - eapply rx_single; eassumption.
  - eapply rx_multi; eassumption.
Qed.

(** One octet of the data phase when every buffer is granted. *)
Lemma rx_char_data w data c :
  (forall k, pool_ok k = true) ->
  rx_inv w data -> in_state (rxf w) = PDDATA -> in_escaped (rxf w) = false ->
  exists w',
    rx_char c w = Ok (tt, w') /\
    rx_inv w' (data ++ [c]) /\ in_state (rxf w') = PDDATA /\
    in_escaped (rxf w') = false /\
    in_fcs (rxf w') = PPP_FCS (in_fcs (rxf w)) c /\
    in_protocol (rxf w') = in_protocol (rxf w) /\
    delivered w' = delivered w /\ stats w' = stats w /\ rx_step w w'.
Proof.
  intros Hpool Hinv Hst Hesc.
  destruct (case_PDDATA_spec w data c Hinv Hst)
    as (w1 & Hrun & Hstep & Hfcs & Hesc1 & Hproto & Hdel & Hcase).
  destruct Hcase as [(Hinv1 & Hst1 & Hstats) | (_ & _ & Hno & _)];
    [|rewrite Hpool in Hno; discriminate].
  set (f := u16 (PPP_FCS (in_fcs (rxf w1)) c)).
  exists (set_ppp (set_rx (set_in_fcs f)) w1). split.
  - unfold rx_char. mprim. fold (rxf w). rewrite Hesc, Hst. mprim.
    change (rx_switch PDDATA c) with (case_PDDATA c).
    mstep Hrun. repeat mprim. reflexivity.
  - split; [apply rx_inv_set_fcs; [exact Hinv1 | apply u16_is_u16]|].
    unfold rxf in *. simpl.
    split; [exact Hst1|]. split; [congruence|].
    split.
    { unfold f. rewrite Hfcs. apply u16_small. apply PPP_FCS_u16.
      exact (rxi_fcs _ _ Hinv). }
    split; [exact Hproto|]. split; [exact Hdel|]. split; [exact Hstats|].
    destruct Hstep. constructor; simpl; auto.
Qed.

Lemma rx_data_phase out cs : forall w data,
  (forall k, pool_ok k = true) ->
  accm_consistent out (in_accm (rxf w)) = true -> Forall is_u8 cs ->
  rx_inv w data -> in_state (rxf w) = PDDATA -> in_escaped (rxf w) = false ->
  exists w',
    pppos_input_loop (enc_all out cs) w = Ok (tt, w') /\
    rx_inv w' (data ++ cs) /\ in_state (rxf w') = PDDATA /\
    in_escaped (rxf w') = false /\
    in_fcs (rxf w') = fcs_update (in_fcs (rxf w)) cs /\
    in_protocol (rxf w') = in_protocol (rxf w) /\
    delivered w' = delivered w /\ stats w' = stats w /\ rx_step w w'.
Proof.
  induction cs as [|c cs IH]; intros w data Hpool Hacc Hcs Hinv Hst Hesc.
  - exists w. rewrite app_nil_r. split; [reflexivity|].
    repeat (split; [first [assumption | reflexivity]|]). apply rx_step_refl.
  - apply Forall_cons in Hcs as [Hc Hcs].
    destruct (rx_char_data w data c Hpool Hinv Hst Hesc)
      as (w1 & Hrun1 & Hinv1 & Hst1 & Hesc1 & Hfcs1 & Hproto1 & Hdel1 & Hstats1
          & Hstep1).
    assert (Hacc1 : accm_consistent out (in_accm (rxf w1)) = true).
    { unfold rxf. rewrite (rxs_in_accm _ _ Hstep1). exact Hacc. }
    destruct (IH w1 (data ++ [c]) Hpool Hacc1 Hcs Hinv1 Hst1 Hesc1)
      as (w2 & Hrun2 & Hinv2 & Hst2 & Hesc2 & Hfcs2 & Hproto2 & Hdel2 & Hstats2
          & Hstep2).
    exists w2. split.
    { change (enc_all out (c :: cs)) with (enc (Some out) c ++ enc_all out cs).
      rewrite (pppos_input_loop_app _ _ w w1); [exact Hrun2|].
      rewrite (rx_decode out w c Hacc Hc Hesc). mstep Hrun1. reflexivity. }
    rewrite <- app_assoc in Hinv2. split; [exact Hinv2|].
    split; [exact Hst2|]. split; [exact Hesc2|].
    split; [rewrite Hfcs2, Hfcs1; reflexivity|].
    split; [congruence|]. split; [congruence|]. split; [congruence|].
    eapply rx_step_trans; eauto.
Qed.

Lemma u16_PPP_FCS f c : is_u16 f -> u16 (PPP_FCS f c) = PPP_FCS f c.
Proof. intros Hf. apply u16_small. apply PPP_FCS_u16. exact Hf. Qed.

Lemma rx_decode_cons out w c s w1 :
  accm_consistent out (in_accm (rxf w)) = true -> is_u8 c ->
  in_escaped (rxf w) = false ->
  rx_char c w = Ok (tt, w1) ->
  pppos_input_loop (enc_all out (c :: s)) w
  = pppos_input_loop (enc_all out s) w1.
Proof.
  intros Hacc Hc Hesc Hrun.
  change (enc_all out (c :: s)) with (enc (Some out) c ++ enc_all out s).
  apply pppos_input_loop_app.
  rewrite (rx_decode out w c Hacc Hc Hesc). mstep Hrun. reflexivity.
Qed.

(** The octets of the header, one state at a time. *)
Lemma rx_char_address w :
  in_state (rxf w) = PDADDRESS -> in_escaped (rxf w) = false ->
  rx_char PPP_ALLSTATIONS w
  = Ok (tt, set_ppp (set_rx (fun r =>
              set_in_fcs (u16 (PPP_FCS (in_fcs r) PPP_ALLSTATIONS))
                         (set_in_state PDCONTROL r))) w).
Proof.
  intros Hst Hesc. unfold rx_char. mprim. fold (rxf w). rewrite Hesc, Hst.
  repeat mprim. wsimpl. unfold rxf in *. rewrite ?Hesc. reflexivity.
Qed.

Lemma rx_char_control w :
  in_state (rxf w) = PDCONTROL -> in_escaped (rxf w) = false ->
  rx_char PPP_UI w
  = Ok (tt, set_ppp (set_rx (fun r =>
              set_in_fcs (u16 (PPP_FCS (in_fcs r) PPP_UI))
                         (set_in_state PDPROTOCOL1 r))) w).
Proof.
  intros Hst Hesc. unfold rx_char. mprim. fold (rxf w). rewrite Hesc, Hst.
  repeat mprim. wsimpl. unfold rxf in *. rewrite ?Hesc. reflexivity.
Qed.

Lemma rx_switch_protocol1 st c :
  st = PDPROTOCOL1 \/
  (st = PDADDRESS /\ c <> PPP_ALLSTATIONS /\ c <> PPP_UI) ->
  rx_switch st c = case_PDPROTOCOL1 c.
Proof.
  intros [->|(-> & Hff & H03)]; [reflexivity|].
  simpl. unfold case_PDADDRESS, case_PDCONTROL.
  destruct (Z.eqb_spec c PPP_ALLSTATIONS); [contradiction|].
  destruct (Z.eqb_spec c PPP_UI); [contradiction|]. reflexivity.
Qed.

Lemma rx_char_protocol_high w c :
  in_state (rxf w) = PDPROTOCOL1 \/
  (in_state (rxf w) = PDADDRESS /\ c <> PPP_ALLSTATIONS /\ c <> PPP_UI) ->
  in_escaped (rxf w) = false -> Z.land c 1 = 0 ->
  rx_char c w
  = Ok (tt, set_ppp (set_rx (fun r =>
              set_in_fcs (u16 (PPP_FCS (in_fcs r) c))
                (set_in_state PDPROTOCOL2
                   (set_in_protocol (u16 (Z.shiftl c 8)) r)))) w).
Proof.
  intros Hst Hesc Hev. unfold rx_char. mprim. fold (rxf w). rewrite Hesc.
  rewrite (rx_switch_protocol1 _ c Hst). unfold case_PDPROTOCOL1.
  rewrite Hev. simpl. repeat mprim. wsimpl. unfold rxf in *. rewrite ?Hesc. reflexivity.
Qed.

Lemma rx_char_protocol_only w c :
  in_state (rxf w) = PDPROTOCOL1 \/
  (in_state (rxf w) = PDADDRESS /\ c <> PPP_ALLSTATIONS /\ c <> PPP_UI) ->
  in_escaped (rxf w) = false -> Z.land c 1 = 1 ->
  rx_char c w
  = Ok (tt, set_ppp (set_rx (fun r =>
              set_in_fcs (u16 (PPP_FCS (in_fcs r) c))
                (set_in_state PDDATA (set_in_protocol c r)))) w).
Proof.
  intros Hst Hesc Hod. unfold rx_char. mprim. fold (rxf w). rewrite Hesc.
  rewrite (rx_switch_protocol1 _ c Hst). unfold case_PDPROTOCOL1.
  rewrite Hod. simpl. repeat mprim. wsimpl. unfold rxf in *. rewrite ?Hesc. reflexivity.
Qed.

Lemma rx_char_protocol_low w c :
  in_state (rxf w) = PDPROTOCOL2 -> in_escaped (rxf w) = false ->
  rx_char c w
  = Ok (tt, set_ppp (set_rx (fun r =>
              set_in_fcs (u16 (PPP_FCS (in_fcs r) c))
                (set_in_state PDDATA
                   (set_in_protocol (Z.lor (in_protocol r) c) r)))) w).
Proof.
  intros Hst Hesc. unfold rx_char. mprim. fold (rxf w). rewrite Hesc, Hst.
  simpl rx_switch. unfold case_PDPROTOCOL2. repeat mprim. wsimpl. unfold rxf in *. rewrite ?Hesc. reflexivity.
Qed.

Lemma valid_protocol_spec p :
  valid_protocol p = true ->
  is_u16 p /\ Z.land (Z.land (Z.shiftr p 8) 0xFF) 1 = 0 /\
  Z.land (Z.land p 0xFF) 1 = 1 /\
  Z.lor (u16 (Z.shiftl (Z.land (Z.shiftr p 8) 0xFF) 8)) (Z.land p 0xFF) = p.
Proof.
  unfold valid_protocol. intros H.
  apply andb_true_iff in H as [H Hlo]. apply andb_true_iff in H as [H Hhi].
  apply andb_true_iff in H as [H0 H1].
  apply Z.eqb_eq in Hlo, Hhi. apply Z.leb_le in H0. apply Z.ltb_lt in H1.
  assert (Hp : is_u16 p) by (unfold is_u16; lia).
  split; [exact Hp|].
  rewrite <- !Z.land_assoc. change (Z.land 0xFF 1) with 1.
  split; [exact Hhi|]. split; [exact Hlo|].
  apply Z.eqb_eq.
  apply (forall_u16
    (fun p => Z.lor (u16 (Z.shiftl (Z.land (Z.shiftr p 8) 0xFF) 8))
                    (Z.land p 0xFF) =? p)); [vm_compute; reflexivity | exact Hp].
Qed.

Lemma land_255_small p : 0 <= p <= 0xFF -> Z.land p 0xFF = p.
Proof.
  intros Hp. change 0xFF with (Z.ones 8). rewrite Z.land_ones by lia.
  apply Z.mod_small. lia.
Qed.

(** The header the sender writes takes the receiver from a frame boundary
    to the data phase with the sender's protocol number. *)
Lemma rx_header_phase out w ac pc protocol :
  accm_consistent out (in_accm (rxf w)) = true ->
  valid_protocol protocol = true -> header_clash ac pc protocol = false ->
  in_state (rxf w) = PDADDRESS -> in_fcs (rxf w) = PPP_INITFCS ->
  in_escaped (rxf w) = false ->
  pppos_input_loop (enc_all out (tx_header ac pc protocol)) w
  = Ok (tt, set_ppp (set_rx (fun r =>
              mk_rx (in_accm r) (in_head r) (in_tail r) protocol
                    (fcs_update PPP_INITFCS (tx_header ac pc protocol))
                    PDDATA false)) w).
Proof.
  intros Hacc Hvalid Hclash Hst Hfcs Hesc.
  destruct (valid_protocol_spec _ Hvalid) as (Hp & Hhi & Hlo & Hjoin).
  set (hi := Z.land (Z.shiftr protocol 8) 0xFF) in *.
  set (lo := Z.land protocol 0xFF) in *.
  assert (Hhi8 : is_u8 hi) by apply land_255_u8.
  assert (Hlo8 : is_u8 lo) by apply land_255_u8.
  assert (Hff8 : is_u8 PPP_ALLSTATIONS) by (unfold is_u8, PPP_ALLSTATIONS; lia).
  assert (H038 : is_u8 PPP_UI) by (unfold is_u8, PPP_UI; lia).
  assert (Hhiff : hi <> PPP_ALLSTATIONS) by (intros E; rewrite E in Hhi; discriminate).
  assert (Hhi03 : hi <> PPP_UI) by (intros E; rewrite E in Hhi; discriminate).
  assert (Hinit : is_u16 PPP_INITFCS) by (unfold is_u16, PPP_INITFCS; lia).
  unfold tx_header. fold hi lo.
  destruct ac.
  - (* address and control compressed away *)
    destruct (negb pc || (protocol >? 0xFF)) eqn:Etwo; simpl app.
    + erewrite rx_decode_cons;
        [|exact Hacc|exact Hhi8|exact Hesc|
         apply rx_char_protocol_high; [right; auto|exact Hesc|exact Hhi]].
      erewrite rx_decode_cons;
        [|exact Hacc|exact Hlo8|exact Hesc|
         apply rx_char_protocol_low; [reflexivity|exact Hesc]].
      simpl pppos_input_loop. unfold ret, rxf in *. f_equal. f_equal.
      destruct w as [h a s j wi d f st [lx oa ac pc' [ia ih it ip ifc ist ie]]].
      simpl in *. subst ifc ie ist. unfold fcs_update. simpl.
      rewrite Hjoin, !u16_PPP_FCS by auto using PPP_FCS_u16, u16_is_u16. reflexivity.
    + apply orb_false_iff in Etwo as [Epc Ebig].
      apply negb_false_iff in Epc. subst pc.
      assert (Hsmall : 0 <= protocol <= 0xFF).
      { destruct (Z.gtb_spec protocol 0xFF); [discriminate|].
        unfold is_u16 in Hp. lia. }
      assert (Elo : lo = protocol) by (apply land_255_small; exact Hsmall).
      unfold header_clash in Hclash. simpl in Hclash.
      apply orb_false_iff in Hclash as [H3 Hf].
      apply Z.eqb_neq in H3, Hf.
      erewrite rx_decode_cons;
        [|exact Hacc|exact Hlo8|exact Hesc|
         apply rx_char_protocol_only;
         [right; rewrite Elo; auto|exact Hesc|exact Hlo]].
      simpl pppos_input_loop. unfold ret, rxf in *. f_equal. f_equal.
      destruct w as [h a s j wi d f st [lx oa ac pc' [ia ih it ip ifc ist ie]]].
      simpl in *. subst ifc ie ist. unfold fcs_update. simpl.
      rewrite Elo, !u16_PPP_FCS by auto using PPP_FCS_u16, u16_is_u16. reflexivity.
  - simpl app.
    erewrite rx_decode_cons;
      [|exact Hacc|exact Hff8|exact Hesc|
       apply rx_char_address; [exact Hst|exact Hesc]].
    erewrite rx_decode_cons;
      [|exact Hacc|exact H038|exact Hesc|
       apply rx_char_control; [reflexivity|exact Hesc]].
    destruct (negb pc || (protocol >? 0xFF)) eqn:Etwo; simpl app.
    + erewrite rx_decode_cons;
        [|exact Hacc|exact Hhi8|exact Hesc|
         apply rx_char_protocol_high; [left; reflexivity|exact Hesc|exact Hhi]].
      erewrite rx_decode_cons;
        [|exact Hacc|exact Hlo8|exact Hesc|
         apply rx_char_protocol_low; [reflexivity|exact Hesc]].
      simpl pppos_input_loop. unfold ret, rxf in *. f_equal. f_equal.
      destruct w as [h a s j wi d f st [lx oa ac pc' [ia ih it ip ifc ist ie]]].
      simpl in *. subst ifc ie ist. unfold fcs_update. simpl.
      rewrite Hjoin, !u16_PPP_FCS by auto using PPP_FCS_u16, u16_is_u16. reflexivity.
    + apply orb_false_iff in Etwo as [Epc Ebig].
      assert (Hsmall : 0 <= protocol <= 0xFF).
      { destruct (Z.gtb_spec protocol 0xFF); [discriminate|].
        unfold is_u16 in Hp. lia. }
      assert (Elo : lo = protocol) by (apply land_255_small; exact Hsmall).
      erewrite rx_decode_cons;
        [|exact Hacc|exact Hlo8|exact Hesc|
         apply rx_char_protocol_only;
         [left; reflexivity|exact Hesc|exact Hlo]].
      simpl pppos_input_loop. unfold ret, rxf in *. f_equal. f_equal.
      destruct w as [h a s j wi d f st [lx oa ac pc' [ia ih it ip ifc ist ie]]].
      simpl in *. subst ifc ie ist. unfold fcs_update. simpl.
      rewrite Elo, !u16_PPP_FCS by auto using PPP_FCS_u16, u16_is_u16. reflexivity.
Qed.

Lemma fcs_trailer_u8 f : Forall is_u8 (fcs_trailer f).
Proof. unfold fcs_trailer. repeat constructor; apply land_255_u8. Qed.

Lemma u8_shiftr_8 p : is_u16 p -> u8 (Z.shiftr p 8) = Z.shiftr p 8.
Proof.
  intros Hp. unfold u8, is_u16 in *. apply Z.mod_small.
  rewrite Z.shiftr_div_pow2 by lia.
  split; [apply Z.div_pos; lia | apply Z.div_lt_upper_bound; lia].
Qed.

Lemma u8_land_255 p : u8 (Z.land p 0xFF) = Z.land p 0xFF.
Proof. unfold u8. apply Z.mod_small. apply land_255_u8. Qed.

(** One frame, as the sender lays it out, through the receiver. *)
Lemma rx_frame out w flagged ac pc protocol P :
  (forall k, pool_ok k = true) -> heap_ok w ->
  accm_consistent out (in_accm (rxf w)) = true ->
  valid_protocol protocol = true -> header_clash ac pc protocol = false ->
  Forall is_u8 P -> Z.of_nat (length P) + 4 <= 65535 ->
  rx_at_boundary flagged w ->
  exists w' hd ls b,
    pppos_input (hdlc_frame flagged out (tx_header ac pc protocol ++ P)) w
      = Ok (tt, w') /\
    delivered w' = delivered w ++ [hd] /\
    lseg (heap w') (Some hd) ls /\
    chain_bytes (heap w') ls
      = [Z.shiftr protocol 8; Z.land protocol 0xFF] ++ P /\
    heap w' !! hd = Some b /\ tot_len b = 2 + Z.of_nat (length P) /\
    stats w' = stats w /\ heap_ok w' /\ rx_at_boundary false w' /\
    in_accm (rxf w') = in_accm (rxf w).
Proof.
  intros Hpool Hok Hacc Hvalid Hclash HP Hlen (Hh & Ht & Hb).
  destruct (accm_consistent_spec _ _ Hacc) as (_ & Hflag & _).
  destruct (valid_protocol_spec _ Hvalid) as (Hp16 & _).
  set (hdr := tx_header ac pc protocol).
  set (body := hdr ++ P).
  set (trailer := fcs_trailer (fcs_update PPP_INITFCS body)).
  (* the leading flag, when there is one *)
  assert (H0 : exists w0,
    pppos_input_loop (if flagged then [PPP_FLAG] else []) w = Ok (tt, w0) /\
    in_state (rxf w0) = PDADDRESS /\ in_fcs (rxf w0) = PPP_INITFCS /\
    in_escaped (rxf w0) = false /\ in_head (rxf w0) = None /\
    in_tail (rxf w0) = None /\ heap w0 = heap w /\ allocs w0 = allocs w /\
    in_accm (rxf w0) = in_accm (rxf w) /\ delivered w0 = delivered w /\
    stats w0 = stats w).
  { destruct flagged.
    - exists (set_ppp (set_rx rx_reset) w). split.
      + simpl. rewrite (bind_Ok _ _ _ _ _
          (eq_trans (pppos_input_byte_flag w Hflag) (rx_flag_ignore w Hb))).
        reflexivity.
      + unfold rxf in *. simpl. auto 12.
    - destruct Hb as (Hst & Hfcs & Hesc). exists w.
      split; [reflexivity|]. auto 12. }
  destruct H0 as (w0 & Hrun0 & Hst0 & Hfcs0 & Hesc0 & Hh0 & Ht0 & Hheap0 & Hal0
                  & Haccm0 & Hdel0 & Hstats0).
  assert (Hacc0 : accm_consistent out (in_accm (rxf w0)) = true)
    by (rewrite Haccm0; exact Hacc).
  (* the header *)
  pose proof (rx_header_phase out w0 ac pc protocol Hacc0 Hvalid Hclash
                Hst0 Hfcs0 Hesc0) as Hrun1.
  fold hdr in Hrun1.
  match type of Hrun1 with _ = Ok (tt, ?x) => set (w1 := x) in * end.
  assert (Hinv1 : rx_inv w1 []).
  { constructor.
    - intros l Hl. unfold w1 in *. simpl in *. rewrite Hheap0 in Hl.
      rewrite Hal0. apply Hok. exact Hl.
    - exact Hp16.
    - simpl. apply fcs_update_u16. unfold is_u16, PPP_INITFCS. lia.
    - apply rx_none; [exact Hh0 | exact Ht0 | reflexivity].
    - intros E. contradiction. }
  (* the data and the check sequence *)
  assert (Hcs : Forall is_u8 (P ++ trailer)).
  { apply Forall_app. split; [exact HP | apply fcs_trailer_u8]. }
  destruct (rx_data_phase out (P ++ trailer) w1 [] Hpool Hacc0 Hcs Hinv1
              eq_refl eq_refl)
    as (w2 & Hrun2 & Hinv2 & Hst2 & Hesc2 & Hfcs2 & Hproto2 & Hdel2 & Hstats2
        & Hstep2).
  simpl app in Hinv2.
  assert (Hgood : in_fcs (rxf w2) = PPP_GOODFCS).
  { rewrite Hfcs2. change (in_fcs (rxf w1)) with (fcs_update PPP_INITFCS hdr).
    rewrite fcs_update_app, <- (fcs_update_app _ hdr P). fold body.
    apply fcs_residue. apply fcs_update_u16. unfold is_u16, PPP_INITFCS. lia. }
  assert (Hlen2 : length (P ++ trailer) = (length P + 2)%nat).
  { rewrite length_app. reflexivity. }
  destruct (rx_flag_deliver w2 (P ++ trailer) Hinv2 Hst2 Hgood
              ltac:(lia) ltac:(lia))
    as (w3 & hd & ls & Hrun3 & _ & Hdel3 & Hrx3 & Hok3 & Hstep3 & Hstats3
        & Hseg3 & Hbytes3 & b & Hhd3 & Htot3).
  assert (Haccm2 : in_accm (rxf w2) = in_accm (rxf w)).
  { unfold rxf. rewrite (rxs_in_accm _ _ Hstep2). exact Haccm0. }
  exists w3, hd, ls, b. split.
  { unfold pppos_input, hdlc_frame. fold hdr body trailer.
    assert (Hloop : pppos_input_loop
              ((if flagged then [PPP_FLAG] else []) ++
               enc_all out (body ++ trailer) ++ [PPP_FLAG]) w = Ok (tt, w3)).
    { rewrite (pppos_input_loop_app _ _ _ _ Hrun0).
      unfold body. rewrite <- app_assoc, enc_all_app, <- app_assoc.
      rewrite (pppos_input_loop_app _ _ _ _ Hrun1).
      rewrite (pppos_input_loop_app _ _ _ _ Hrun2).
      assert (Hf2 : pppos_input_byte PPP_FLAG w2 = Ok (tt, w3)).
      { rewrite pppos_input_byte_flag by (rewrite Haccm2; exact Hflag).
        exact Hrun3. }
      simpl. mstep Hf2. reflexivity. }
    mstep Hloop. reflexivity. }
  split; [rewrite Hdel3, Hdel2; exact (f_equal (fun x => x ++ [hd]) Hdel0)|].
  split; [exact Hseg3|].
  split.
  { rewrite Hbytes3. unfold proto_prefix. fold (rxf w2). rewrite Hproto2.
    change (in_protocol (rxf w1)) with protocol.
    rewrite u8_shiftr_8, u8_land_255 by exact Hp16.
    rewrite Hlen2. replace (length P + 2 - 2)%nat with (length P) by lia.
    rewrite take_app_length. reflexivity. }
  split; [exact Hhd3|].
  split.
  { rewrite Htot3, Hlen2. f_equal. f_equal. lia. }
  split; [rewrite Hstats3, Hstats2; exact Hstats0|].
  split; [exact Hok3|].
  split.
  { unfold rx_at_boundary. rewrite Hrx3. simpl. auto. }
  rewrite Hrx3. simpl. exact Haccm2.
Qed.

(** C1 (amended). A payload of octets sent through the netif callback with
    a protocol number of 16 bits whose high octet is even and low octet
    odd, and which is neither 0x03 nor 0xFF when both header compressions
    are on, every buffer granted and every write complete; the octets put
    on the wire fed to [pppos_input] of a receiver that holds no chain, is
    at a frame boundary and whose character map agrees with the sender's:
    exactly one packet reaches the upper engine, no error is counted, and
    its chain holds the protocol number, high octet first, and the payload,
    with [tot_len] 2 plus the length of the payload. *)
Theorem round_trip (wt wr : world) (pb : option loc) (pls : list loc)
  (protocol : Z) :
  heap_ok wt -> payload_chain wt pb pls ->
  (forall k, pool_ok k = true) -> (forall k n, sio_ret k n = n) ->
  Forall is_u8 (chain_bytes (heap wt) pls) ->
  Z.of_nat (length (chain_bytes (heap wt) pls)) + 4 <= 65535 ->
  valid_protocol protocol = true ->
  header_clash (accomp (ppp wt)) (pcomp (ppp wt)) protocol = false ->
  heap_ok wr ->
  accm_consistent (out_accm (ppp wt)) (in_accm (rxf wr)) = true ->
  rx_at_boundary (link_idle wt) wr ->
  exists wt' stream wr' hd ls b,
    pppos_link_netif_output_callback pb protocol wt = Ok (ERR_OK, wt') /\
    wire wt' = wire wt ++ stream /\
    pppos_input stream wr = Ok (tt, wr') /\
    delivered wr' = delivered wr ++ [hd] /\
    lseg (heap wr') (Some hd) ls /\
    chain_bytes (heap wr') ls
      = [Z.shiftr protocol 8; Z.land protocol 0xFF]
        ++ chain_bytes (heap wt) pls /\
    heap wr' !! hd = Some b /\
    tot_len b = 2 + Z.of_nat (length (chain_bytes (heap wt) pls)) /\
    stats wr' = stats wr.
Proof.
  intros Hokt Hpc Hpool Hsio HP Hlen Hvalid Hclash Hokr Hacc Hbnd.
  destruct (netif_output_ok wt pb pls protocol Hokt Hpc Hpool)
    as (lst & w1 & Hrun & Hchain & Hbytes & Hppp & Hwire & _).
  destruct (rx_frame (out_accm (ppp wt)) wr (link_idle wt) (accomp (ppp wt))
              (pcomp (ppp wt)) protocol (chain_bytes (heap wt) pls)
              Hpool Hokr Hacc Hvalid Hclash HP Hlen Hbnd)
    as (wr' & hd & ls & b & Hin & Hdel & Hseg & Hcb & Hhd & Htot & Hstats & _).
  eexists _, _, wr', hd, ls, b. split; [exact Hrun|].
  split.
  { unfold xmit_result. cbv zeta.
    rewrite short_write_complete by exact Hsio. simpl wire.
    rewrite Hwire.
    change (concat (map (bytes_at (heap w1)) lst)) with (chain_bytes (heap w1) lst).
    rewrite Hbytes. reflexivity. }
  split; [exact Hin|]. auto 10.
Qed.

(** ** The receive side over any stream of octets

    The invariant [rx_inv] holds after [pppos_connect] and after every
    octet that [pppos_input] processes, and the only octet it does not
    process to the end is a flag that closes a frame without data octets
    whose header ran the check sequence to the good value. *)

Lemma rx_inv_ext w w' data :
  rx_inv w data -> heap w' = heap w -> allocs w' = allocs w ->
  in_head (rxf w') = in_head (rxf w) -> in_tail (rxf w') = in_tail (rxf w) ->
  is_u16 (in_protocol (rxf w')) ->
  (data <> [] -> in_protocol (rxf w') = in_protocol (rxf w)) ->
  is_u16 (in_fcs (rxf w')) ->
  (data <> [] -> in_state (rxf w') = PDDATA) ->
  rx_inv w' data.
Proof.
  intros [Hok Hp Hf Hs Hst] Hh Ha Hhd Htl Hp' Hpe Hf' Hst'.
  unfold rxf in *. constructor; try assumption.
  - intros l Hl. rewrite Hh in Hl. rewrite Ha. apply Hok. exact Hl.
  - assert (E : rx_stored w' data = rx_stored w data).
    { destruct data as [|d data]; [reflexivity|].
      unfold rx_stored, proto_prefix. rewrite Hpe by discriminate.
      reflexivity. }
    rewrite E.
    destruct Hs as [Hh0 Ht0 E0 | hd b Hh0 Ht0 Hb Hpb Hn H3 E0
                   | hd t ls tb Hh0 Ht0 Hseg Hni Hfull Htb Hpb Hn H1 E0].
    + apply rx_none; congruence.
    + apply (rx_single _ _ hd b);
        first [congruence | assumption | rewrite Hh; assumption].
    + apply (rx_multi _ _ hd t ls tb);
        first [congruence | assumption | rewrite Hh; assumption].
Qed.










(** Streams that meet one another end to end: the frames of the whole fit
    when those of the first part fit and those of the second fit after the
    octets the first part leaves open. *)
Lemma frames_fit_app accm s1 : forall n s2,
  frames_fit accm n (s1 ++ s2)
  = frames_fit accm n s1 && frames_fit accm (open_run accm n s1) s2.
Proof.
  induction s1 as [|c s1 IH]; intros n s2; [reflexivity|].
  simpl. destruct (rx_is_flag accm c).
  - rewrite IH, andb_assoc. reflexivity.
  - apply IH.
Qed.

(** A stream that with what came before it stays within 65533 octets has
    frames that fit, whatever it holds. *)
Lemma frames_fit_short accm s : forall n,
  2 + Z.of_nat n + Z.of_nat (length s) <= 65535 ->
  frames_fit accm n s = true.
Proof.
  induction s as [|c s IH]; intros n H; [reflexivity|].
  simpl in *. destruct (rx_is_flag accm c).
  - apply andb_true_iff. split; [apply Z.leb_le; lia | apply IH; lia].
  - apply IH. lia.
Qed.


(** [pppos_connect] leaves the receive side in the invariant, with a
    character map that marks the flag and the escape octet. *)
Lemma pppos_connect_inv w :
  heap_ok w -> rx_droppable w ->
  exists w',
    pppos_connect w = Ok (tt, w') /\ rx_inv w' [] /\
    in_state (rxf w') = PDIDLE /\
    escaped (in_accm (rxf w')) PPP_FLAG = true /\
    escaped (in_accm (rxf w')) PPP_ESCAPE = true /\
    escaped (out_accm (ppp w')) PPP_FLAG = true /\
    escaped (out_accm (ppp w')) PPP_ESCAPE = true.
Proof.
  intros Hok Hd.
  destruct (pppos_drop_spec w Hok Hd) as (w1 & Hrun & Hok1 & _).
  unfold pppos_drop in Hrun.
  apply bind_inv in Hrun as ([] & w0 & Hfree & Hrest).
  assert (E : w1 = add_stat ifindiscards 1 (add_stat link_drop 1 w0)).
  { unfold LINK_STATS_INC, snmp_inc in Hrest.
    rewrite (bind_Ok _ _ _ tt (add_stat link_drop 1 w0)) in Hrest by reflexivity.
    injection Hrest as <-. reflexivity. }
  assert (Hok0 : heap_ok w0).
  { intros l Hl. subst w1. apply (Hok1 l). exact Hl. }
  unfold pppos_connect. mstep Hfree. unfold ppp_clear. repeat mprim.
  eexists. split; [reflexivity|].
  split; [|repeat split].
  constructor.
  - exact Hok0.
  - simpl. unfold is_u16. lia.
  - simpl. unfold is_u16. lia.
  - apply rx_none; reflexivity.
  - intros H. contradiction.
Qed.

(** * Further properties of the code *)

(** ** The frame check sequence *)

(** X1. Whatever octets a frame carries, running the check sequence over
    them and then over the two octets "Add FCS" appends, the complement of
    the sequence low octet first, ends at [PPP_GOODFCS]: what the sender
    appends is what the receiver's test [in_fcs != PPP_GOODFCS] accepts. *)
Theorem fcs_good_after_trailer (bs : list Z) :
  fcs_update PPP_INITFCS (bs ++ fcs_trailer (fcs_update PPP_INITFCS bs))
  = PPP_GOODFCS.
Proof.
  rewrite fcs_update_app. apply fcs_residue. apply fcs_update_u16.
  unfold is_u16, PPP_INITFCS. lia.
Qed.

Lemma lxor_cancel_l a b c : Z.lxor a b = Z.lxor a c -> b = c.
Proof.
  intros H. apply Z.lxor_eq.
  replace (Z.lxor b c) with (Z.lxor (Z.lxor a b) (Z.lxor a c)).
  - rewrite H. apply Z.lxor_nilpotent.
  - rewrite (Z.lxor_comm a b), Z.lxor_assoc, <- (Z.lxor_assoc a a c).
    rewrite Z.lxor_nilpotent, Z.lxor_0_l. reflexivity.
Qed.

Lemma low8_lxor_inj x y c :
  Z.land (Z.lxor x c) 0xff = Z.land (Z.lxor y c) 0xff ->
  Z.land x 0xff = Z.land y 0xff.
Proof.
  intros H. apply Z.bits_inj'. intros n Hn.
  apply (f_equal (fun z => Z.testbit z n)) in H.
  rewrite !Z.land_spec, !Z.lxor_spec in H. rewrite !Z.land_spec.
  destruct (Z.testbit x n), (Z.testbit y n), (Z.testbit c n),
    (Z.testbit 0xff n); simpl in *; congruence.
Qed.

Lemma u16_split f f' :
  is_u16 f -> is_u16 f' ->
  Z.shiftr f 8 = Z.shiftr f' 8 -> Z.land f 0xff = Z.land f' 0xff -> f = f'.
Proof.
  unfold is_u16. intros Hf Hf' Hhi Hlo.
  rewrite !Z.shiftr_div_pow2 in Hhi by lia.
  change 0xff with (Z.ones 8) in Hlo. rewrite !Z.land_ones in Hlo by lia.
  rewrite (Z.div_mod f (2 ^ 8)), (Z.div_mod f' (2 ^ 8)) by lia.
  rewrite Hhi, Hlo. reflexivity.
Qed.

Lemma fcstab_high_inj i j :
  is_u8 i -> is_u8 j ->
  Z.shiftr (nth (Z.to_nat i) fcstab 0) 8 = Z.shiftr (nth (Z.to_nat j) fcstab 0) 8 ->
  i = j.
Proof.
  intros Hi Hj H.
  pose proof (forall_u8
    (fun i => forallb (fun j =>
       implb (Z.shiftr (nth (Z.to_nat i) fcstab 0) 8 =?
              Z.shiftr (nth (Z.to_nat j) fcstab 0) 8) (i =? j))
       (map Z.of_nat (seq 0 256))) ltac:(vm_compute; reflexivity) i Hi) as Hall.
  cbv beta in Hall.
  pose proof (forall_u8 _ Hall j Hj) as Hij. cbv beta in Hij.
  rewrite H, Z.eqb_refl in Hij. simpl in Hij. apply Z.eqb_eq. exact Hij.
Qed.

Lemma shiftr_16_u16 f : is_u16 f -> Z.shiftr (Z.shiftr f 8) 8 = 0.
Proof.
  unfold is_u16. intros Hf. rewrite Z.shiftr_shiftr by lia.
  rewrite Z.shiftr_div_pow2 by lia. apply Z.div_small. simpl. lia.
Qed.

(** One step of the check sequence loses nothing: it is one-to-one in the
    running value and in the octet. *)
Lemma PPP_FCS_inj_fcs f f' c :
  is_u16 f -> is_u16 f' -> PPP_FCS f c = PPP_FCS f' c -> f = f'.
Proof.
  intros Hf Hf' H. unfold PPP_FCS in H.
  set (i := Z.land (Z.lxor f c) 0xff) in *.
  set (i' := Z.land (Z.lxor f' c) 0xff) in *.
  assert (Hi : i = i').
  { apply fcstab_high_inj; [apply land_255_u8 | apply land_255_u8 |].
    apply (f_equal (fun z => Z.shiftr z 8)) in H.
    rewrite !Z.shiftr_lxor, !shiftr_16_u16, !Z.lxor_0_l in H by assumption.
    exact H. }
  apply u16_split; try assumption.
  - rewrite Hi in H. rewrite (Z.lxor_comm (Z.shiftr f 8)),
      (Z.lxor_comm (Z.shiftr f' 8)) in H.
    apply lxor_cancel_l in H. exact H.
  - apply (low8_lxor_inj f f' c). exact Hi.
Qed.

Lemma PPP_FCS_inj_octet f c c' :
  is_u8 c -> is_u8 c' -> PPP_FCS f c = PPP_FCS f c' -> c = c'.
Proof.
  intros Hc Hc' H. unfold PPP_FCS in H. apply lxor_cancel_l in H.
  assert (Hi : Z.land (Z.lxor f c) 0xff = Z.land (Z.lxor f c') 0xff).
  { apply fcstab_high_inj; [apply land_255_u8 | apply land_255_u8 |].
    rewrite H. reflexivity. }
  rewrite (Z.lxor_comm f c), (Z.lxor_comm f c') in Hi.
  apply low8_lxor_inj in Hi.
  unfold is_u8 in *.
  rewrite !land_255_small in Hi by lia. exact Hi.
Qed.

Lemma fcs_update_inj bs : forall f f',
  is_u16 f -> is_u16 f' -> fcs_update f bs = fcs_update f' bs -> f = f'.
Proof.
  unfold fcs_update. induction bs as [|c bs IH]; intros f f' Hf Hf' H.
  - exact H.
  - simpl in H. apply IH in H; [|apply PPP_FCS_u16; assumption ..].
    eapply PPP_FCS_inj_fcs; eauto.
Qed.

(** X2. Two frames of the same length that differ in one octet never run
    the check sequence to the same value: a single corrupted octet is
    always seen by the check, wherever it sits in the frame. *)
Theorem fcs_detects_single_octet (f : Z) (a b : list Z) (c c' : Z) :
  is_u16 f -> is_u8 c -> is_u8 c' -> c <> c' ->
  fcs_update f (a ++ c :: b) <> fcs_update f (a ++ c' :: b).
Proof.
  intros Hf Hc Hc' Hne H.
  rewrite !fcs_update_app in H.
  change (fcs_update ?g (?x :: b)) with (fcs_update (PPP_FCS g x) b) in H.
  apply fcs_update_inj in H;
    [|apply PPP_FCS_u16, fcs_update_u16; exact Hf ..].
  apply PPP_FCS_inj_octet in H; [contradiction | assumption ..].
Qed.

(** ** The receive side: chunks, noise, resynchronisation *)

Lemma pppos_input_loop_app_bind s2 s1 : forall w,
  pppos_input_loop (s1 ++ s2) w
  = (pppos_input_loop s1 ;;; pppos_input_loop s2) w.
Proof.
  induction s1 as [|c s1 IH]; intros w; [reflexivity|].
  simpl. rewrite bind_assoc.
  destruct (pppos_input_byte c w) as [[[] w1]|f] eqn:E.
  - rewrite !(bind_Ok _ _ _ _ _ E). apply IH.
  - rewrite !(bind_Err _ _ _ _ E). reflexivity.
Qed.

(** X3. Feeding a stream to [pppos_input] in two calls is the same as
    feeding it in one: whatever the first call leaves unfinished (a frame
    in progress, a pending escape) the second picks up, and a fault in the
    first part is the fault of the whole. *)
Theorem pppos_input_chunks (s1 s2 : list Z) (w : world) :
  pppos_input (s1 ++ s2) w = (pppos_input s1 ;;; pppos_input s2) w.
Proof.
  unfold pppos_input, magic_randomize.
  assert (E := pppos_input_loop_app_bind s2 s1 w).
  unfold bind, ret in *. rewrite E.
  destruct (pppos_input_loop s1 w) as [[[] w1]|f]; reflexivity.
Qed.

Lemma pppos_input_byte_noise w c :
  rx_noise (in_accm (rxf w)) c = true ->
  pppos_input_byte c w = Ok (tt, w).
Proof.
  unfold rx_noise. intros H.
  apply andb_true_iff in H as [H Hf]. apply andb_true_iff in H as [He Hx].
  apply negb_true_iff in Hf, Hx.
  unfold pppos_input_byte. mprim. fold (rxf w). rewrite He, Hx, Hf.
  reflexivity.
Qed.

(** ** The receive path never writes the receive character map *)

Lemma ka_ret {A} (a : A) : keeps_accm (ret a).
Proof. intros w x w' [= _ <-]. reflexivity. Qed.

Lemma ka_fail {A} f : keeps_accm (@fail A f).
Proof. intros w x w' H. discriminate H. Qed.

Lemma ka_bind {A B} (m : M A) (k : A -> M B) :
  keeps_accm m -> (forall a, keeps_accm (k a)) -> keeps_accm (bind m k).
Proof.
  intros Hm Hk w x w' H. apply bind_inv in H as (a & w1 & H1 & H2).
  rewrite (Hk a _ _ _ H2). exact (Hm _ _ _ H1).
Qed.

Lemma ka_get : keeps_accm get.
Proof. intros w x w' [= _ <-]. reflexivity. Qed.

Lemma ka_modify f :
  (forall w, in_accm (rxf (f w)) = in_accm (rxf w)) -> keeps_accm (modify f).
Proof. intros Hf w x w' [= _ <-]. apply Hf. Qed.

Lemma ka_load p : keeps_accm (load p).
Proof.
  intros w x w' H. unfold load in H. destruct p as [l|]; [|discriminate H].
  destruct (heap w !! l); [|discriminate H].
  injection H as _ <-. reflexivity.
Qed.

Lemma ka_update p f : keeps_accm (update p f).
Proof.
  unfold update. apply ka_bind; [apply ka_load|]. intros b.
  destruct p; [apply ka_modify; reflexivity | apply ka_fail].
Qed.

Lemma ka_pbuf_alloc : keeps_accm pbuf_alloc.
Proof.
  intros w x w' H. unfold pbuf_alloc in H. cbv zeta in H.
  destruct (pool_ok (allocs w)); injection H as _ <-; reflexivity.
Qed.

Lemma ka_rx_set f :
  (forall r, in_accm (f r) = in_accm r) -> keeps_accm (rx_set f).
Proof. intros Hf. apply ka_modify. intros w. apply Hf. Qed.

Lemma ka_stat c n : keeps_accm (modify (add_stat c n)).
Proof. apply ka_modify. reflexivity. Qed.

Lemma ka_ppp_input p : keeps_accm (ppp_input p).
Proof.
  destruct p; [apply ka_modify; reflexivity | apply ka_fail].
Qed.

Create HintDb accm_kept.
#[local] Hint Resolve ka_ret ka_fail ka_get ka_load ka_update ka_pbuf_alloc
  ka_stat ka_ppp_input : accm_kept.

Ltac ka_step :=
  first
    [ solve [auto with accm_kept]
    | apply ka_bind; [|intros ?]
    | apply ka_rx_set; intros ?; reflexivity
    | apply ka_modify; intros ?; reflexivity
    | match goal with
      | |- keeps_accm (if ?c then _ else _) => destruct c
      | |- keeps_accm (match ?x with _ => _ end) => destruct x
      end ].
Ltac ka_auto := repeat ka_step.

Lemma ka_rx_get : keeps_accm rx_get.
Proof. unfold rx_get. ka_auto. Qed.

Lemma ka_peek p i : keeps_accm (peek p i).
Proof. unfold peek. ka_auto. Qed.

Lemma ka_poke p i c : keeps_accm (poke p i c).
Proof. unfold poke. ka_auto. Qed.

#[local] Hint Resolve ka_rx_get ka_peek ka_poke : accm_kept.

Lemma ka_push p c : keeps_accm (push p c).
Proof. unfold push. ka_auto. Qed.

Lemma ka_free_chain fuel : forall p, keeps_accm (pbuf_free_chain fuel p).
Proof.
  induction fuel as [|fuel IH]; intros [q|]; simpl;
    try apply ka_ret; try apply ka_fail.
  apply ka_bind; [apply ka_load|]. intros b.
  apply ka_bind; [apply ka_modify; reflexivity | intros _; apply IH].
Qed.

Lemma ka_pbuf_free p : keeps_accm (pbuf_free p).
Proof.
  unfold pbuf_free. destruct p as [q|]; [|apply ka_ret].
  apply ka_bind; [apply ka_modify; reflexivity|]. intros _.
  apply ka_bind; [apply ka_get|]. intros w0. apply ka_free_chain.
Qed.

Lemma ka_cat_loop fuel : forall p t, keeps_accm (pbuf_cat_loop fuel p t).
Proof.
  induction fuel as [|fuel IH]; intros p t; simpl; [apply ka_fail|].
  ka_auto.
Qed.

Lemma ka_pbuf_cat h t : keeps_accm (pbuf_cat h t).
Proof.
  unfold pbuf_cat. apply ka_bind; [apply ka_get|].
  intros w0. apply ka_cat_loop.
Qed.

Lemma ka_realloc_loop fuel : forall q r g,
  keeps_accm (pbuf_realloc_loop fuel q r g).
Proof.
  induction fuel as [|fuel IH]; intros q r g; simpl; [apply ka_fail|].
  ka_auto.
Qed.

#[local] Hint Resolve ka_push ka_pbuf_free ka_pbuf_cat ka_realloc_loop
  : accm_kept.

Lemma ka_pbuf_realloc p n : keeps_accm (pbuf_realloc p n).
Proof. unfold pbuf_realloc. ka_auto. Qed.

#[local] Hint Resolve ka_pbuf_realloc : accm_kept.

Lemma ka_free_input : keeps_accm pppos_free_current_input_packet.
Proof. unfold pppos_free_current_input_packet. ka_auto. Qed.

#[local] Hint Resolve ka_free_input : accm_kept.

Lemma ka_pppos_drop : keeps_accm pppos_drop.
Proof. unfold pppos_drop, LINK_STATS_INC, snmp_inc. ka_auto. Qed.

Lemma ka_rx_deliver : keeps_accm rx_deliver.
Proof. unfold rx_deliver. ka_auto. Qed.

#[local] Hint Resolve ka_pppos_drop ka_rx_deliver : accm_kept.

Lemma ka_rx_flag : keeps_accm rx_flag.
Proof. unfold rx_flag, LINK_STATS_INC. ka_auto. Qed.

Lemma ka_rx_switch st c : keeps_accm (rx_switch st c).
Proof.
  destruct st; simpl;
    unfold case_PDIDLE, case_PDSTART, case_PDADDRESS, case_PDCONTROL,
      case_PDPROTOCOL1, case_PDPROTOCOL2, case_PDDATA, rx_make_space,
      rx_close_tail, rx_open_tail, LINK_STATS_INC;
    ka_auto.
Qed.

#[local] Hint Resolve ka_rx_flag ka_rx_switch : accm_kept.

(** Whatever the state and the octet, an octet processed to the end leaves
    [in_accm] as it was. *)
Lemma ka_input_byte c : keeps_accm (pppos_input_byte c).
Proof. unfold pppos_input_byte, rx_char. ka_auto. Qed.

Lemma pppos_input_loop_noise s : forall w accm,
  accm = in_accm (rxf w) ->
  pppos_input_loop s w
  = pppos_input_loop (filter (fun c => negb (rx_noise accm c)) s) w.
Proof.
  induction s as [|c s IH]; intros w accm Ea; [reflexivity|].
  rewrite filter_cons.
  destruct (rx_noise accm c) eqn:Hn; simpl negb.
  - rewrite decide_False by (simpl; auto). simpl. subst accm.
    rewrite (bind_Ok _ _ _ _ _ (pppos_input_byte_noise w c Hn)).
    apply IH. reflexivity.
  - rewrite decide_True by (simpl; auto). simpl.
    destruct (pppos_input_byte c w) as [[[] w1]|f] eqn:Hrun.
    + rewrite !(bind_Ok _ _ _ _ _ Hrun). apply IH.
      rewrite (ka_input_byte c _ _ _ Hrun). exact Ea.
    + rewrite !(bind_Err _ _ _ _ Hrun). reflexivity.
Qed.

(** X5. Characters that the receive map marks, other than the flag and the
    escape octet, are dropped wherever they appear: for every stream of
    octets and every state of the receive side, whether consistent or not,
    the stream with such characters anywhere in it, even between an escape
    octet and the octet it escapes, is received exactly as the stream
    without them -- the same result, fault or not, and the same state. *)
Theorem pppos_input_ignores_noise (s : list Z) (w : world) :
  pppos_input s w
  = pppos_input (filter (fun c => negb (rx_noise (in_accm (rxf w)) c)) s) w.
Proof.
  unfold pppos_input. unfold bind.
  rewrite (pppos_input_loop_noise s w _ eq_refl). reflexivity.
Qed.


(** ** Letting go of the frame in progress *)


Lemma free_input_run w held :
  heap_ok w -> rx_holds w held ->
  pppos_free_current_input_packet w
  = Ok (tt, mk_world (delete_all held (heap w)) (allocs w) (sio_calls w)
                     (jiffies w) (wire w) (delivered w)
                     (freed w ++ rx_freed w) (stats w)
                     (set_rx (fun r => set_in_tail None (set_in_head None r))
                             (ppp w))) /\
  NoDup held /\ (forall l, l ∈ held -> is_Some (heap w !! l)).
Proof.
  intros Hok Hd. unfold pppos_free_current_input_packet.
  unfold rx_holds, rx_freed, rxf in *.
  destruct Hd as [[Hh ->] | (hd & ls & Hh & Hseg & Ht)].
  - split; [|split; [constructor | intros l Hl; apply elem_of_nil in Hl; contradiction]].
    mprim. rewrite Hh. repeat mprim.
    destruct w as [h a s j wi d f st [lx oa ac pc [ia ih it ip ifc ist ie]]].
    simpl in *. subst ih. rewrite app_nil_r. reflexivity.
  - pose proof (lseg_NoDup _ _ _ Hseg) as Hnd.
    assert (Hlive : forall l, l ∈ ls -> is_Some (heap w !! l))
      by (intros l Hl; eapply lseg_live; eauto).
    destruct Ht as [[Ht ->] | (t & tb & Ht & Hni & Htb & Hn & ->)].
    + split; [|auto].
      mprim. rewrite Hh.
      assert (Hcond : bool_decide (in_tail (rx (ppp w)) <> None) &&
                      bool_decide (in_tail (rx (ppp w)) <> Some hd) = false).
      { destruct Ht as [Ht|Ht]; rewrite Ht.
        - rewrite bool_decide_eq_false_2 by auto. reflexivity.
        - rewrite (bool_decide_eq_false_2 (Some hd <> Some hd)) by auto.
          apply andb_false_r. }
      rewrite Hcond. mprim.
      mstep (pbuf_free_ok w hd ls Hok Hseg). repeat mprim.
      destruct w as [h a s j wi d f st [lx oa ac pc [ia ih it ip ifc ist ie]]].
      simpl in *. subst ih.
      destruct Ht as [->| ->]; [reflexivity|].
      rewrite bool_decide_eq_true_2 by reflexivity. reflexivity.
    + assert (Hne : t <> hd).
      { destruct (lseg_hd _ _ _ Hseg) as [ls' ->].
        apply not_elem_of_cons in Hni as [Hne _]. exact Hne. }
      assert (Hseg_t : lseg (heap w) (Some t) [t]).
      { split; [reflexivity|]. exists tb. split; [exact Htb | exact Hn]. }
      split; [|split].
      * mprim. rewrite Hh. rewrite Ht.
        rewrite (bool_decide_eq_true_2 (Some t <> None)) by discriminate.
        rewrite (bool_decide_eq_true_2 (Some t <> Some hd)) by congruence.
        cbn [andb].
        mstep (pbuf_free_ok w t [t] Hok Hseg_t).
        mnorm. erewrite bind_Ok.
        2:{ apply (pbuf_free_ok _ hd ls).
            - intros l Hl. simpl in *. apply Hok.
              rewrite lookup_delete_ne in Hl; [exact Hl|].
              intros ->. rewrite lookup_delete_eq in Hl.
              destruct Hl; discriminate.
            - simpl. apply lseg_to_delete_notin; assumption. }
        repeat mprim.
        destruct w as [h a s j wi d f st [lx oa ac pc [ia ih it ip ifc ist ie]]].
        simpl in *. subst ih it.
        rewrite bool_decide_eq_false_2 by exact Hne.
        rewrite <- app_assoc. reflexivity.
      * apply NoDup_cons. auto.
      * intros l Hl. apply elem_of_cons in Hl as [->|Hl]; eauto.
Qed.

(** X7. [pppos_drop] on a receive side that holds a frame in progress:
    every buffer held, the chain from [in_head] and the tail when it is not
    yet linked, is released, each one once and by one call of [pbuf_free]
    per chain; no other buffer is touched; [in_head] and [in_tail] are null
    afterwards; and the drop is counted once in [link.drop] and once in
    [ifindiscards]. *)
Theorem pppos_drop_releases (w : world) (held : list loc) :
  heap_ok w -> rx_holds w held ->
  exists w',
    pppos_drop w = Ok (tt, w') /\
    heap w' = delete_all held (heap w) /\
    NoDup held /\ (forall l, l ∈ held -> is_Some (heap w !! l)) /\
    (forall l, l ∈ held -> heap w' !! l = None) /\
    (forall l, l ∉ held -> heap w' !! l = heap w !! l) /\
    freed w' = freed w ++ rx_freed w /\
    in_head (rxf w') = None /\ in_tail (rxf w') = None /\
    stats w' = (ifindiscards, 1) :: (link_drop, 1) :: stats w /\
    delivered w' = delivered w /\ wire w' = wire w.
Proof.
  intros Hok Hh.
  destruct (free_input_run w held Hok Hh) as (Hrun & Hnd & Hlive).
  eexists. split.
  { unfold pppos_drop. mstep Hrun. unfold LINK_STATS_INC, snmp_inc.
    repeat mprim. reflexivity. }
  simpl. split; [reflexivity|]. split; [exact Hnd|]. split; [exact Hlive|].
  split; [intros l Hl; apply delete_all_in; exact Hl|].
  split; [intros l Hl; apply delete_all_notin; exact Hl|].
  repeat split.
Qed.

(** ** The pool runs dry in the middle of a frame *)

Lemma rx_open_tail_starved_run w held :
  heap_ok w -> rx_holds w held -> pool_ok (allocs w) = false ->
  rx_open_tail w
  = Ok (false,
        mk_world (delete_all held (heap w)) (S (allocs w)) (sio_calls w)
                 (jiffies w) (wire w) (delivered w) (freed w ++ rx_freed w)
                 ((ifindiscards, 1) :: (link_drop, 1) :: (link_memerr, 1)
                  :: stats w)
                 (set_rx (fun r => set_in_state PDSTART
                                     (set_in_tail None (set_in_head None r)))
                         (ppp w))).
Proof.
  intros Hok Hd Hpool.
  set (w1 := add_stat link_memerr 1 (set_allocs (S (allocs w)) w)).
  assert (Hok1 : heap_ok w1).
  { intros l Hl. simpl in *. specialize (Hok l Hl). lia. }
  assert (Hd1 : rx_holds w1 held) by exact Hd.
  destruct (free_input_run w1 held Hok1 Hd1) as (Hrun & _).
  unfold rx_open_tail.
  mnorm. erewrite bind_Ok by (unfold pbuf_alloc; rewrite Hpool; reflexivity).
  mprim. fold w1. unfold pppos_drop. mstep Hrun.
  unfold LINK_STATS_INC, snmp_inc. repeat mprim. reflexivity.
Qed.

Lemma case_PDDATA_starved w data c :
  rx_inv w data -> rx_needs_buffer w -> pool_ok (allocs w) = false ->
  exists held w1,
    rx_holds w held /\ case_PDDATA c w = Ok (tt, w1) /\
    (forall l, l ∈ held -> heap w1 !! l = None) /\
    (forall l, l ∉ held -> heap w1 !! l = heap w !! l) /\
    rxf w1 = set_in_state PDSTART (set_in_tail None (set_in_head None (rxf w))) /\
    stats w1 = (ifindiscards, 1) :: (link_drop, 1) :: (link_memerr, 1)
               :: stats w /\
    delivered w1 = delivered w /\ wire w1 = wire w /\
    allocs w1 = S (allocs w).
Proof.
  intros Hinv Hneed Hpool. pose proof (rxi_heap _ _ Hinv) as Hok.
  unfold rx_needs_buffer in Hneed.
  destruct (rxi_shape _ _ Hinv) as [Hh Ht _ | hd b Hh Ht Hb Hp Hn _ _
                 | hd t ls tb Hh Ht Hseg Hni _ Htb _ Hn _ _];
    fold (rxf w) in Hh, Ht.
  - assert (Hd : rx_holds w []) by (left; auto).
    eexists [], _. split; [exact Hd|]. split.
    { unfold case_PDDATA. mprim. fold (rxf w). rewrite Ht. mprim.
      unfold rx_make_space. unfold rx_close_tail at 1. mprim.
      fold (rxf w). rewrite Ht. mprim.
      mstep (rx_open_tail_starved_run w [] Hok Hd Hpool). reflexivity. }
    simpl. split; [intros l Hl; apply elem_of_nil in Hl; contradiction|].
    repeat split.
  - rewrite Ht in Hneed. destruct Hneed as (tb & Htb & Hfull).
    assert (tb = b) by congruence. subst tb.
    set (b1 := set_tot_len (len b) b).
    set (w1 := set_heap (<[hd := b1]>) w).
    pose proof (rx_close_tail_head w hd b Hh Ht Hb) as Hclose.
    fold b1 w1 in Hclose.
    assert (Hok1 : heap_ok w1).
    { apply heap_ok_insert; [exact Hok | apply Hok; eauto]. }
    assert (Hd1 : rx_holds w1 [hd]).
    { right. exists hd, [hd]. split; [exact Hh|]. split.
      - split; [reflexivity|]. exists b1.
        split; [simpl; apply lookup_insert_eq | exact Hn].
      - left. split; [right; exact Ht | reflexivity]. }
    eexists [hd], _. split.
    { right. exists hd, [hd]. split; [exact Hh|]. split.
      - split; [reflexivity|]. exists b. split; [exact Hb | exact Hn].
      - left. split; [right; exact Ht | reflexivity]. }
    split.
    { eapply (case_PDDATA_full_starved w hd b c w1 _ Ht Hb Hfull Hclose).
      apply (rx_open_tail_starved_run w1 [hd] Hok1 Hd1 Hpool). }
    simpl. split.
    { intros l Hl. apply list_elem_of_singleton in Hl as ->.
      apply lookup_delete_eq. }
    split.
    { intros l Hl. rewrite not_elem_of_cons in Hl. destruct Hl as [Hl _].
      rewrite lookup_delete_ne, lookup_insert_ne by congruence. reflexivity. }
    repeat split.
  - rewrite Ht in Hneed. destruct Hneed as (tb' & Htb' & Hfull).
    assert (tb' = tb) by congruence. subst tb'.
    destruct (rx_close_tail_cat w hd t ls tb Hok Hh Ht Hseg Hni Htb Hn)
      as (h' & Hclose & Hfr & Ht' & Hseg' & Hnodes).
    set (w1 := set_ppp (set_rx (set_in_tail None)) (set_heap (fun _ => h') w))
      in *.
    assert (Hlive' : forall l, is_Some (h' !! l) -> is_Some (heap w !! l)).
    { intros l Hl. destruct (decide (l = t)) as [->|Hlt]; [eauto|].
      destruct (decide (l ∈ ls)) as [Hin|Hnin].
      - eapply lseg_live; eauto.
      - rewrite Hfr in Hl by assumption. exact Hl. }
    assert (Hok1 : heap_ok w1).
    { intros l Hl. simpl in *. apply Hok. apply Hlive'. exact Hl. }
    assert (Hd1 : rx_holds w1 (ls ++ [t])).
    { right. exists hd, (ls ++ [t]). split; [exact Hh|].
      split; [exact Hseg'|]. left. split; [left|]; reflexivity. }
    eexists (t :: ls), _. split.
    { right. exists hd, ls. split; [exact Hh|]. split; [exact Hseg|].
      right. exists t, tb. auto. }
    split.
    { eapply (case_PDDATA_full_starved w t tb c w1 _ Ht Htb Hfull Hclose).
      apply (rx_open_tail_starved_run w1 (ls ++ [t]) Hok1 Hd1 Hpool). }
    simpl. split.
    { intros l Hl. apply delete_all_in. apply elem_of_cons in Hl as [->|Hl];
        apply elem_of_app; [right; apply list_elem_of_singleton|left]; auto. }
    split.
    { intros l Hl. apply not_elem_of_cons in Hl as [Hlt Hl].
      rewrite delete_all_notin.
      - apply Hfr; assumption.
      - intros Hin. apply elem_of_app in Hin as [Hin|Hin]; [contradiction|].
        apply list_elem_of_singleton in Hin. contradiction. }
    repeat split.
Qed.

(** In state START an unmarked octet is taken for the first octet of a
    frame header. *)
Lemma rx_start_takes_octet w c :
  in_state (rxf w) = PDSTART -> in_escaped (rxf w) = false ->
  escaped (in_accm (rxf w)) c = false ->
  exists w',
    pppos_input_byte c w = Ok (tt, w') /\
    pd_num PDADDRESS < pd_num (in_state (rxf w')) /\
    in_fcs (rxf w') = u16 (PPP_FCS PPP_INITFCS c).
Proof.
  intros Hst Hesc Hacc. rewrite (pppos_input_byte_char c w Hacc).
  destruct w as [h a s j wi d f st [lx oa ac pc [ia ih it ip ifc ist ie]]].
  unfold rxf in *. simpl in *. subst ist ie.
  unfold rx_char, rx_get, rx_set, bind, get, ret, modify. simpl.
  unfold case_PDSTART, case_PDADDRESS, case_PDCONTROL, case_PDPROTOCOL1,
    rx_set, bind, modify. simpl.
  destruct (c =? PPP_ALLSTATIONS); simpl;
    [eexists; split; [reflexivity|]; simpl; split; [lia | reflexivity]|].
  destruct (c =? PPP_UI); simpl;
    [eexists; split; [reflexivity|]; simpl; split; [lia | reflexivity]|].
  destruct (negb (Z.land c 1 =? 0)); simpl;
    eexists; (split; [reflexivity|]); simpl; (split; [lia | reflexivity]).
Qed.

(** X8. A data octet arrives, a buffer is needed to store it and the pool
    has none: the octet is lost with the frame in progress, whose buffers
    are all released while no other buffer is touched; nothing is handed
    to the upper engine; the loss is counted once each in [link.memerr],
    [link.drop] and [ifindiscards]; and the receiver goes on in state
    START, with no buffer held.  It does not wait there for a flag: the
    next unmarked octet is taken for the first octet of a frame header,
    and the check sequence starts over with it. *)
Theorem rx_pool_exhausted (w : world) (data : list Z) (c : Z) :
  rx_inv w data -> in_state (rxf w) = PDDATA ->
  escaped (in_accm (rxf w)) c = false ->
  rx_needs_buffer w -> pool_ok (allocs w) = false ->
  exists held w',
    rx_holds w held /\ pppos_input_byte c w = Ok (tt, w') /\
    (forall l, l ∈ held -> heap w' !! l = None) /\
    (forall l, l ∉ held -> heap w' !! l = heap w !! l) /\
    in_head (rxf w') = None /\ in_tail (rxf w') = None /\
    in_state (rxf w') = PDSTART /\
    stats w' = (ifindiscards, 1) :: (link_drop, 1) :: (link_memerr, 1)
               :: stats w /\
    delivered w' = delivered w /\ wire w' = wire w /\
    forall c2, escaped (in_accm (rxf w)) c2 = false ->
      exists w'',
        pppos_input_byte c2 w' = Ok (tt, w'') /\
        pd_num PDADDRESS < pd_num (in_state (rxf w'')) /\
        in_fcs (rxf w'') = u16 (PPP_FCS PPP_INITFCS c2).
Proof.
  intros Hinv Hst He Hneed Hpool.
  rewrite (pppos_input_byte_char c w He).
  set (c' := if in_escaped (rxf w) then Z.lxor c PPP_TRANS else c).
  set (w0 := if in_escaped (rxf w)
             then set_ppp (set_rx (set_in_escaped false)) w else w).
  assert (Hinv0 : rx_inv w0 data).
  { unfold w0. destruct (in_escaped (rxf w)); [|exact Hinv].
    apply (rx_inv_ext w _ data Hinv); try reflexivity.
    - exact (rxi_proto _ _ Hinv).
    - exact (rxi_fcs _ _ Hinv).
    - exact (rxi_state _ _ Hinv). }
  assert (E0 : heap w0 = heap w /\ allocs w0 = allocs w /\
               in_head (rxf w0) = in_head (rxf w) /\
               in_tail (rxf w0) = in_tail (rxf w) /\
               stats w0 = stats w /\ delivered w0 = delivered w /\
               wire w0 = wire w /\ in_escaped (rxf w0) = false /\
               in_accm (rxf w0) = in_accm (rxf w)).
  { unfold w0. destruct (in_escaped (rxf w)) eqn:Ee; repeat split.
    exact Ee. }
  destruct E0 as (Eh & Ea & Ehd & Etl & Est & Edl & Ewi & Eesc & Eaccm).
  assert (Hneed0 : rx_needs_buffer w0).
  { unfold rx_needs_buffer in *. rewrite Etl, Eh. exact Hneed. }
  assert (Hpool0 : pool_ok (allocs w0) = false) by (rewrite Ea; exact Hpool).
  destruct (case_PDDATA_starved w0 data c' Hinv0 Hneed0 Hpool0)
    as (held & w1 & Hheld & Hrun & Hgone & Hkept & Hrx & Hstats & Hdel & Hwire
        & _).
  exists held, (set_ppp (set_rx (set_in_fcs
                   (u16 (PPP_FCS (in_fcs (rxf w1)) c')))) w1).
  split.
  { unfold rx_holds in *. rewrite Ehd, Etl, Eh in Hheld. exact Hheld. }
  split.
  { unfold rx_char. mprim. fold (rxf w). rewrite Hst.
    change (rx_switch PDDATA ?x) with (case_PDDATA x).
    fold c'.
    assert (Hpre : (if in_escaped (rxf w)
                    then rx_set (set_in_escaped false) else ret tt) w
                   = Ok (tt, w0)).
    { unfold w0. destruct (in_escaped (rxf w)); reflexivity. }
    mstep Hpre. mstep Hrun. repeat mprim. reflexivity. }
  split; [exact Hgone|].
  split; [intros l Hl; simpl; rewrite (Hkept l Hl), Eh; reflexivity|].
  assert (Hrx' : rxf (set_ppp (set_rx (set_in_fcs
                   (u16 (PPP_FCS (in_fcs (rxf w1)) c')))) w1)
                 = set_in_fcs (u16 (PPP_FCS (in_fcs (rxf w1)) c'))
                     (set_in_state PDSTART
                        (set_in_tail None (set_in_head None (rxf w0))))).
  { unfold rxf in *. simpl. rewrite Hrx. reflexivity. }
  split; [rewrite Hrx'; reflexivity|].
  split; [rewrite Hrx'; reflexivity|].
  split; [rewrite Hrx'; reflexivity|].
  split; [simpl; congruence|].
  split; [simpl; congruence|].
  split; [simpl; congruence|].
  intros c2 Hc2. apply rx_start_takes_octet.
  - rewrite Hrx'. reflexivity.
  - rewrite Hrx'. simpl. exact Eesc.
  - rewrite Hrx'. simpl. rewrite Eaccm. exact Hc2.
Qed.

(** ** The transmit callbacks give back what they take *)

Lemma tx_release_heap w w6 ls :
  heap_ok w ->
  tx_chain (allocs w) w6 (allocs w) ls -> tx_owned (allocs w) w6 (allocs w) ->
  (forall l, (l < allocs w)%nat -> heap w6 !! l = heap w !! l) ->
  delete_all ls (heap w6) = heap w.
Proof.
  intros Hok Hc (ls1 & Hseg1 & Hown) Hfr.
  assert (ls1 = ls)
    by (eapply lseg_functional; [exact Hseg1 | apply (txc_seg _ _ _ _ Hc)]).
  subst ls1.
  assert (Hnone : forall l, (allocs w <= l)%nat -> heap w !! l = None).
  { intros l Hl. destruct (heap w !! l) eqn:E; [|reflexivity].
    assert (l < allocs w)%nat by (apply Hok; eauto). lia. }
  apply map_eq. intros l.
  destruct (decide (l ∈ ls)) as [Hin|Hni].
  - rewrite delete_all_in by exact Hin. symmetry. apply Hnone.
    pose proof (txc_fresh _ _ _ _ Hc) as Hf. rewrite Forall_forall in Hf.
    apply Hf. exact Hin.
  - rewrite delete_all_notin by exact Hni.
    destruct (le_lt_dec (allocs w) l) as [Hge|Hlt]; [|apply Hfr; exact Hlt].
    transitivity (@None pbuf); [|symmetry; apply Hnone; exact Hge].
    destruct (heap w6 !! l) eqn:E; [|reflexivity].
    exfalso. apply Hni. apply Hown; [exact Hge | eauto].
Qed.

(** X9.  [pppos_link_netif_output_callback] always returns, with ERR_OK or
    ERR_MEM, and on return the buffer pool is exactly as it was: the
    caller's packet is neither freed nor changed, and every buffer the call
    obtained has been given back.  Nothing is handed to the upper engine.
    With ERR_MEM no octet went to the serial device; [ifoutdiscards] and
    [link.drop] are counted once, and [link.memerr] once when the head
    buffer was refused but twice when a later request was; in the latter
    case [last_xmit] has been set to the current tick although nothing was
    sent.  When the pool grants every request the result is ERR_OK. *)
Theorem netif_output_restores_pool (w : world) (pb : option loc)
  (pls : list loc) (protocol : Z) :
  heap_ok w -> payload_chain w pb pls ->
  exists r w',
    pppos_link_netif_output_callback pb protocol w = Ok (r, w') /\
    (r = ERR_OK \/ r = ERR_MEM) /\
    heap w' = heap w /\ delivered w' = delivered w /\
    (r = ERR_OK -> freed w' = freed w ++ [allocs w]) /\
    (r = ERR_MEM ->
     wire w' = wire w /\ sio_calls w' = sio_calls w /\
     stats w' = (ifoutdiscards, 1) :: (link_drop, 1) :: (link_memerr, 1) ::
                (if pool_ok (allocs w) then [(link_memerr, 1)] else [])
                ++ stats w /\
     freed w' = freed w ++ (if pool_ok (allocs w) then [allocs w] else []) /\
     last_xmit (ppp w') = if pool_ok (allocs w) then jiffies w
                          else last_xmit (ppp w)) /\
    ((forall k, pool_ok k = true) -> r = ERR_OK).
Proof.
  intros Hok Hpc.
  destruct (pool_ok (allocs w)) eqn:Hpool.
  2:{ (* the head buffer is refused *)
    eexists ERR_MEM, _. split.
    { unfold pppos_link_netif_output_callback.
      rewrite (bind_Ok _ _ _ None (set_allocs (S (allocs w)) w))
        by (unfold pbuf_alloc; rewrite Hpool; reflexivity).
      unfold LINK_STATS_INC, snmp_inc.
      do 3 (erewrite (bind_Ok _ _ _ tt _) by reflexivity). reflexivity. }
    simpl. rewrite app_nil_r.
    split; [right; reflexivity|]. split; [reflexivity|].
    split; [reflexivity|]. split; [discriminate|].
    split; [intros _; repeat split|].
    intros Hall. rewrite Hall in Hpool. discriminate. }
  destruct (netif_output_build w pb pls protocol Hok Hpc Hpool)
    as (t6 & w6 & Hrun & Hinv6 & Hown & _ & Hstats & Hlive & Hppp & Hwire
        & Hdel & Hfreed & Hsio & _ & Hfr).
  destruct Hinv6 as (ls & Hchain & _).
  pose proof (tx_release_heap w w6 ls Hok Hchain Hown Hfr) as Hheap.
  rewrite Hrun. destruct t6 as [t6|].
  - (* the frame is complete: send it *)
    exists ERR_OK, (xmit_result w6 (allocs w) ls). split.
    { rewrite (bind_Ok _ _ _ _ _ (pppos_xmit_ok _ w6 _ ls Hchain)).
      reflexivity. }
    split; [left; reflexivity|].
    unfold xmit_result. cbv zeta.
    destruct (short_write _ _) as [[j c]|]; simpl;
      rewrite Hheap, Hdel, Hfreed;
      (split; [reflexivity|]); (split; [reflexivity|]);
      (split; [reflexivity|]); (split; [discriminate|]); reflexivity.
  - (* a buffer was refused on the way: discard the chain *)
    eexists ERR_MEM, _. split.
    { erewrite (bind_Ok _ _ _ tt _)
        by (apply (pbuf_free_ok _ (allocs w) ls);
            [apply (txc_heap _ _ _ _ Hchain) | apply (txc_seg _ _ _ _ Hchain)]).
      unfold LINK_STATS_INC, snmp_inc.
      do 3 (erewrite (bind_Ok _ _ _ tt _) by reflexivity). reflexivity. }
    simpl. rewrite Hheap, Hdel, Hfreed, Hwire, Hsio, Hstats, Hppp.
    split; [right; reflexivity|]. split; [reflexivity|].
    split; [reflexivity|]. split; [discriminate|].
    split; [intros _; repeat split|].
    intros Hall. exfalso. apply (Hlive Hall). reflexivity.
Qed.

(** The write callback up to the test of the tail pointer, whatever the
    pool grants after the head buffer. *)
Lemma write_callback_build (w : world) (p : loc) (pb : pbuf) :
  heap_ok w -> heap w !! p = Some pb ->
  (Z.to_nat (len pb) <= length (payload pb))%nat ->
  pool_ok (allocs w) = true ->
  exists (t3 : option loc) w3 ls,
    pppos_link_write_callback (Some p) w
      = match t3 with
        | None =>
            (pbuf_free (Some (allocs w)) ;;;
             LINK_STATS_INC link_memerr ;;;
             LINK_STATS_INC link_proterr ;;;
             snmp_inc ifoutdiscards ;;;
             pbuf_free (Some p) ;;;
             ret PPPERR_ALLOC) w3
        | Some _ =>
            (pppos_xmit (Some (allocs w)) ;;;
             pbuf_free (Some p) ;;;
             ret PPPERR_NONE) w3
        end /\
    tx_chain (allocs w) w3 (allocs w) ls /\
    tx_owned (allocs w) w3 (allocs w) /\
    stats w3 = match t3 with
               | Some _ => stats w
               | None => (link_memerr, 1) :: stats w
               end /\
    ((forall k, pool_ok k = true) -> t3 <> None) /\
    ppp w3 = set_last_xmit (jiffies w) (ppp w) /\
    wire w3 = wire w /\ delivered w3 = delivered w /\ freed w3 = freed w /\
    sio_calls w3 = sio_calls w /\
    (forall l, (l < allocs w)%nat -> heap w3 !! l = heap w !! l).
Proof.
  intros Hok Hp Hcap Hpool.
  set (A0 := allocs w).
  assert (HpA : (p < A0)%nat) by (apply Hok; eauto).
  destruct (alloc_head_inv w Hok Hpool) as [Halloc Hinv0].
  pose proof (alloc_head_owned w Hok) as Hown0.
  cbv zeta in Halloc, Hinv0. fold A0 in Halloc, Hinv0, Hown0.
  set (w0 := set_allocs (S A0) (set_heap (<[A0 := fresh_pbuf]>) w)) in *.
  assert (Hfr0 : forall l, (l < A0)%nat -> heap w0 !! l = heap w !! l).
  { intros l Hl. simpl. apply lookup_insert_ne. lia. }
  destruct (tx_idle_flag_inv A0 w0 A0 _ _ Hinv0)
    as (t1 & w1 & Hrun1 & Hinv1 & Hok1 & Hppp1 & Hwire1 & Hdel1 & Hfreed1 &
        Hsio1 & Hjif1 & Hal1 & Hfr1 & Hfl1).
  pose proof (tx_idle_flag_build A0 w0 A0 A0 _ t1 w1 Hinv0 Hrun1) as Hb1.
  change (jiffies w0) with (jiffies w) in Hppp1.
  change (ppp w0) with (ppp w) in Hppp1.
  assert (Hp1 : heap w1 !! p = Some pb)
    by (rewrite Hfr1, Hfr0 by exact HpA; exact Hp).
  destruct (tx_load_inv A0 (Z.to_nat (len pb)) w1 A0 t1 _ p pb 0%nat
              PPP_INITFCS Hinv1 HpA Hp1 ltac:(lia))
    as (t2 & w2 & Hrun2 & Hinv2 & Hstep2 & Hfl2).
  pose proof (tx_load_build A0 (Z.to_nat (len pb)) w1 A0 t1 _ p pb 0%nat
                PPP_INITFCS _ w2 Hinv1 HpA Hp1 ltac:(lia) Hrun2) as Hb2.
  simpl snd in Hb2. cbv zeta in Hrun2, Hinv2.
  destruct (tx_trailer_inv A0 w2 A0 t2 _
              (fcs_update PPP_INITFCS (take (Z.to_nat (len pb))
                                         (drop 0 (payload pb)))) Hinv2)
    as (t3 & w3 & Hrun3 & Hinv3 & Hstep3 & Hfl3).
  pose proof (tx_trailer_build A0 w2 A0 t2 _ _ t3 w3 Hinv2 Hrun3) as Hb3.
  pose proof (tx_step_trans _ _ _ _ Hstep2 Hstep3) as Hstep13.
  pose proof (tx_build_trans _ _ _ _ _ _ _ _ Hb1
               (tx_build_trans _ _ _ _ _ _ _ _ Hb2 Hb3)) as (Hstats & Hown & _).
  destruct Hinv3 as (ls & Hchain & _).
  exists t3, w3, ls. split; [|split; [exact Hchain|split; [exact (Hown Hown0)|]]].
  { unfold pppos_link_write_callback.
    rewrite (bind_Ok _ _ _ _ _ (load_Ok _ _ _ Hp)).
    rewrite (bind_Ok _ _ _ _ _ Halloc).
    rewrite (bind_Ok _ _ _ _ _ Hrun1).
    rewrite (bind_Ok _ _ _ _ _ Hrun2). simpl fst. simpl snd.
    rewrite (bind_Ok _ _ _ _ _ Hrun3).
    destruct t3; reflexivity. }
  split; [exact Hstats|]. split.
  { intros Hall. apply Hfl3; [|exact Hall]. apply Hfl2; [|exact Hall].
    apply Hfl1; [|exact Hall]. discriminate. }
  destruct Hstep13.
  rewrite txs_ppp0, txs_wire0, txs_delivered0, txs_freed0, txs_sio0.
  repeat split; auto.
  intros l Hl. rewrite txs_frame0, Hfr1, Hfr0 by exact Hl. reflexivity.
Qed.

(** X10.  [pppos_link_write_callback] returns PPPERR_NONE or PPPERR_ALLOC,
    and either way what is left of the buffer pool is what was there before
    without the packet [p]: its whole chain has been released, every buffer
    the call obtained has been given back and no other buffer is touched.
    Nothing is handed to the upper engine.  With PPPERR_ALLOC no octet went
    to the serial device; [ifoutdiscards] and [link.proterr] are counted
    once, and [link.memerr] once when the head buffer was refused but twice
    when a later request was.  When the pool grants every request the
    result is PPPERR_NONE. *)
Theorem write_callback_restores_pool (w : world) (p : loc) (pb : pbuf)
  (pls : list loc) :
  heap_ok w -> heap w !! p = Some pb ->
  (Z.to_nat (len pb) <= length (payload pb))%nat ->
  lseg (heap w) (Some p) pls ->
  exists r w',
    pppos_link_write_callback (Some p) w = Ok (r, w') /\
    heap w' = delete_all pls (heap w) /\ delivered w' = delivered w /\
    (r = PPPERR_ALLOC ->
     wire w' = wire w /\ sio_calls w' = sio_calls w /\
     stats w' = (ifoutdiscards, 1) :: (link_proterr, 1) :: (link_memerr, 1) ::
                (if pool_ok (allocs w) then [(link_memerr, 1)] else [])
                ++ stats w /\
     freed w' = freed w ++ (if pool_ok (allocs w) then [allocs w] else [])
                ++ [p]) /\
    (r = PPPERR_NONE -> freed w' = freed w ++ [allocs w; p]) /\
    ((forall k, pool_ok k = true) -> r = PPPERR_NONE).
Proof.
  intros Hok Hp Hcap Hpls.
  destruct (pool_ok (allocs w)) eqn:Hpool.
  2:{ (* no head buffer *)
    eexists PPPERR_ALLOC, _. split.
    { unfold pppos_link_write_callback.
      rewrite (bind_Ok _ _ _ _ _ (load_Ok _ _ _ Hp)).
      rewrite (bind_Ok _ _ _ None (set_allocs (S (allocs w)) w))
        by (unfold pbuf_alloc; rewrite Hpool; reflexivity).
      unfold LINK_STATS_INC, snmp_inc.
      do 3 (erewrite (bind_Ok _ _ _ tt _) by reflexivity).
      erewrite (bind_Ok _ _ _ tt _).
      2:{ apply (pbuf_free_framed w _ p pls); [|exact Hpls|reflexivity].
          eapply heap_ok_shrink; [exact Hok | simpl; lia | simpl; auto]. }
      reflexivity. }
    simpl.
    split; [reflexivity|]. split; [reflexivity|].
    split; [intros _; repeat split|].
    split; [discriminate|].
    intros Hall. rewrite Hall in Hpool. discriminate. }
  destruct (write_callback_build w p pb Hok Hp Hcap Hpool)
    as (t3 & w3 & ls & Hrun & Hchain & Hown & Hstats & Hlive & Hppp & Hwire
        & Hdel & Hfreed & Hsio & Hfr).
  pose proof (tx_release_heap w w3 ls Hok Hchain Hown Hfr) as Hheap.
  destruct (lseg_bounded w _ _ Hok Hpls) as [HplsA _].
  rewrite Forall_forall in HplsA.
  assert (Hal3 : (allocs w <= allocs w3)%nat).
  { pose proof (txc_heap _ _ _ _ Hchain) as Hok3.
    pose proof (txc_seg _ _ _ _ Hchain) as Hseg.
    destruct ls as [|x ls']; [unfold lseg in Hseg; simpl in Hseg; discriminate|].
    destruct Hseg as (E & b & Hb & _). injection E as <-.
    assert (allocs w < allocs w3)%nat by (apply Hok3; eauto). lia. }
  rewrite Hrun. destruct t3 as [t3|].
  - (* the frame is complete: send it *)
    rewrite (bind_Ok _ _ _ _ _ (pppos_xmit_ok _ w3 _ ls Hchain)).
    set (wx := xmit_result w3 (allocs w) ls).
    assert (Hwx : heap wx = heap w /\ delivered wx = delivered w /\
                  freed wx = freed w ++ [allocs w] /\ allocs wx = allocs w3).
    { unfold wx, xmit_result. cbv zeta.
      destruct (short_write _ _) as [[j c]|]; simpl;
        rewrite Hheap, Hdel, Hfreed; auto. }
    destruct Hwx as (Hhx & Hdx & Hfx & Hax).
    eexists PPPERR_NONE, _. split.
    { erewrite (bind_Ok _ _ _ tt _).
      2:{ apply (pbuf_free_framed w _ p pls); [|exact Hpls|].
          - intros l Hl. rewrite Hhx in Hl. rewrite Hax.
            specialize (Hok l Hl). lia.
          - intros l _. rewrite Hhx. reflexivity. }
      reflexivity. }
    simpl. rewrite Hhx, Hdx, Hfx, <- app_assoc.
    split; [reflexivity|]. split; [reflexivity|].
    split; [discriminate|]. split; reflexivity.
  - (* a buffer was refused on the way: discard the chain *)
    eexists PPPERR_ALLOC, _. split.
    { erewrite (bind_Ok _ _ _ tt _)
        by (apply (pbuf_free_ok _ (allocs w) ls);
            [apply (txc_heap _ _ _ _ Hchain) | apply (txc_seg _ _ _ _ Hchain)]).
      unfold LINK_STATS_INC, snmp_inc.
      do 3 (erewrite (bind_Ok _ _ _ tt _) by reflexivity).
      erewrite (bind_Ok _ _ _ tt _).
      2:{ apply (pbuf_free_framed w _ p pls); [|exact Hpls|].
          - intros l Hl. simpl in *. rewrite Hheap in Hl.
            specialize (Hok l Hl). lia.
          - intros l _. simpl. rewrite Hheap. reflexivity. }
      reflexivity. }
    simpl. rewrite Hheap, Hdel, Hfreed, Hwire, Hsio, Hstats, <- app_assoc.
    split; [reflexivity|]. split; [reflexivity|].
    split; [intros _; repeat split|].
    split; [discriminate|].
    intros Hall. exfalso. apply (Hlive Hall). reflexivity.
Qed.

(** ** Bringing the link up *)

Lemma pppos_connect_run w held :
  heap_ok w -> rx_holds w held ->
  pppos_connect w
  = Ok (tt, mk_world (delete_all held (heap w)) (allocs w) (sio_calls w)
                     (jiffies w) (wire w) (delivered w)
                     (freed w ++ rx_freed w) (stats w) connected_pcb).
Proof.
  intros Hok Hd. destruct (free_input_run w held Hok Hd) as (Hrun & _).
  unfold pppos_connect. mstep Hrun. unfold ppp_clear. repeat mprim.
  reflexivity.
Qed.

Lemma connected_accm_marks c :
  is_u8 c ->
  escaped (<[15%nat := 0x60]> (replicate 32 0)) c
  = (c =? PPP_ESCAPE) || (c =? PPP_FLAG).
Proof.
  intros Hc.
  assert (Hall : forallb
    (fun c => Bool.eqb (escaped (<[15%nat := 0x60]> (replicate 32 0)) c)
                       ((c =? PPP_ESCAPE) || (c =? PPP_FLAG)))
    (map Z.of_nat (seq 0 256)) = true) by (vm_compute; reflexivity).
  pose proof (forall_u8 _ Hall c Hc) as H.
  cbv beta in H. apply Bool.eqb_prop in H. exact H.
Qed.

Lemma connected_inv w :
  heap_ok w -> ppp w = connected_pcb -> rx_inv w [].
Proof.
  intros Hok E. constructor; unfold rxf; rewrite ?E; simpl.
  - exact Hok.
  - unfold is_u16. lia.
  - unfold is_u16. lia.
  - apply rx_none; unfold rxf; rewrite ?E; reflexivity.
  - intros H. contradiction.
Qed.

(** X11.  [pppos_connect] on a receiver that may still hold a frame from
    the last session: the buffers of that frame are released and no other
    buffer is touched; no counter changes, nothing is sent or delivered;
    afterwards the receiver holds no buffer and idles, and both character
    maps mark the escape octet and the flag and, the control block having
    been cleared, no other character. *)
Theorem pppos_connect_fresh (w : world) (held : list loc) :
  heap_ok w -> rx_holds w held ->
  exists w',
    pppos_connect w = Ok (tt, w') /\
    heap w' = delete_all held (heap w) /\
    freed w' = freed w ++ rx_freed w /\
    stats w' = stats w /\ delivered w' = delivered w /\ wire w' = wire w /\
    sio_calls w' = sio_calls w /\
    rx_inv w' [] /\
    in_head (rxf w') = None /\ in_tail (rxf w') = None /\
    in_state (rxf w') = PDIDLE /\ in_escaped (rxf w') = false /\
    (forall c, is_u8 c ->
       escaped (in_accm (rxf w')) c = (c =? PPP_ESCAPE) || (c =? PPP_FLAG)) /\
    (forall c, is_u8 c ->
       escaped (out_accm (ppp w')) c = (c =? PPP_ESCAPE) || (c =? PPP_FLAG)).
Proof.
  intros Hok Hd. eexists. split; [apply (pppos_connect_run w held Hok Hd)|].
  simpl. do 6 (split; [reflexivity|]). split.
  { apply connected_inv; [|reflexivity].
    intros l Hl. simpl in *. apply Hok. eapply delete_all_is_Some. exact Hl. }
  do 4 (split; [reflexivity|]).
  split; intros c Hc; apply connected_accm_marks; exact Hc.
Qed.



(** ** What a successful transmission counts *)

Lemma enc_all_length accm l : (length l <= length (enc_all accm l))%nat.
Proof.
  induction l as [|c l IH]; [unfold enc_all; simpl; lia|].
  change (c :: l) with ([c] ++ l).
  rewrite enc_all_app, enc_all_single, !length_app. unfold enc.
  destruct (escaped accm c); simpl; lia.
Qed.

(** X13.  A packet sent through the netif callback, every buffer granted
    and every serial write complete, counts one in [link.xmit] and one in
    [ifoutucastpkts], but adds nothing to [ifoutoctets], although at least
    four octets went out: the amount added is [tot_len] of the head of the
    output chain, which is 0 when [pbuf_alloc] hands the buffer out and
    which [pppos_append] never updates.  [last_xmit] is the tick of the
    call. *)
Theorem ifoutoctets_not_counted (w : world) (pb : option loc)
  (pls : list loc) (protocol : Z) :
  heap_ok w -> payload_chain w pb pls ->
  (forall k, pool_ok k = true) -> (forall k n, sio_ret k n = n) ->
  exists w' sent,
    pppos_link_netif_output_callback pb protocol w = Ok (ERR_OK, w') /\
    wire w' = wire w ++ sent /\
    (4 <= length sent)%nat /\
    stats w' = (link_xmit, 1) :: (ifoutucastpkts, 1) :: (ifoutoctets, 0)
               :: stats w /\
    last_xmit (ppp w') = jiffies w.
Proof.
  intros Hok Hpc Hpool Hsio.
  destruct (netif_output_build w pb pls protocol Hok Hpc (Hpool _))
    as (t6 & w6 & Hrun & Hinv6 & _ & (b & Hb & Htot) & Hstats & Hlive & Hppp
        & Hwire & _).
  specialize (Hlive Hpool).
  destruct (tx_inv_live _ _ _ _ _ Hinv6 Hlive) as (ls & Hchain & Hbytes).
  destruct t6 as [t6|]; [|congruence].
  exists (xmit_result w6 (allocs w) ls), (chain_bytes (heap w6) ls).
  split.
  { rewrite Hrun.
    rewrite (bind_Ok _ _ _ _ _ (pppos_xmit_ok _ w6 _ ls Hchain)).
    reflexivity. }
  unfold xmit_result. cbv zeta.
  rewrite short_write_complete by exact Hsio.
  match goal with
  | |- context [from_option tot_len 0 ?x] =>
      replace (from_option tot_len 0 x) with 0
        by (symmetry;
            exact (eq_trans (f_equal (from_option tot_len 0) Hb) Htot))
  end.
  cbn [wire stats ppp].
  rewrite Hwire, Hstats, Hppp.
  split; [reflexivity|]. split; [|split; reflexivity].
  rewrite Hbytes. unfold hdlc_frame.
  rewrite !length_app.
  pose proof (enc_all_length (out_accm (ppp w))
    ((tx_header (accomp (ppp w)) (pcomp (ppp w)) protocol
      ++ chain_bytes (heap w) pls)
     ++ fcs_trailer (fcs_update PPP_INITFCS
          (tx_header (accomp (ppp w)) (pcomp (ppp w)) protocol
           ++ chain_bytes (heap w) pls)))) as Hl.
  rewrite !length_app in Hl. unfold tx_header in Hl at 1.
  rewrite !length_app in Hl. simpl in Hl. simpl. lia.
Qed.

(** ** A frame damaged on the way *)

Lemma rx_leading_flag w flagged :
  escaped (in_accm (rxf w)) PPP_FLAG = true -> rx_at_boundary flagged w ->
  exists w0,
    pppos_input_loop (if flagged then [PPP_FLAG] else []) w = Ok (tt, w0) /\
    in_state (rxf w0) = PDADDRESS /\ in_fcs (rxf w0) = PPP_INITFCS /\
    in_escaped (rxf w0) = false /\ in_head (rxf w0) = None /\
    in_tail (rxf w0) = None /\ heap w0 = heap w /\ allocs w0 = allocs w /\
    in_accm (rxf w0) = in_accm (rxf w) /\ delivered w0 = delivered w /\
    stats w0 = stats w.
Proof.
  intros Hflag (Hh & Ht & Hb). destruct flagged.
  - exists (set_ppp (set_rx rx_reset) w). split.
    + simpl. rewrite (bind_Ok _ _ _ _ _
        (eq_trans (pppos_input_byte_flag w Hflag) (rx_flag_ignore w Hb))).
      reflexivity.
    + unfold rxf in *. simpl. auto 12.
  - destruct Hb as (Hst & Hfcs & Hesc). exists w.
    split; [reflexivity|]. auto 12.
Qed.

(** A frame built from the octets of another with one octet of the payload
    or of the check sequence different is dropped at its closing flag. *)
Lemma corrupt_frame_run (out : ext_accm) (w : world) (flagged : bool)
  (ac pc : bool) (protocol : Z) (P a b : list Z) (c c' : Z) :
  (forall k, pool_ok k = true) -> heap_ok w ->
  accm_consistent out (in_accm (rxf w)) = true ->
  valid_protocol protocol = true -> header_clash ac pc protocol = false ->
  rx_at_boundary flagged w ->
  P ++ fcs_trailer (fcs_update PPP_INITFCS (tx_header ac pc protocol ++ P))
    = a ++ c :: b ->
  Forall is_u8 P -> is_u8 c' -> c' <> c ->
  exists w',
    pppos_input ((if flagged then [PPP_FLAG] else []) ++
                 enc_all out (tx_header ac pc protocol ++ a ++ c' :: b) ++
                 [PPP_FLAG]) w = Ok (tt, w') /\
    delivered w' = delivered w /\
    stats w' = (ifindiscards, 1) :: (link_drop, 1) :: (link_chkerr, 1)
               :: stats w /\
    heap_ok w' /\ rx_at_boundary false w' /\
    in_accm (rxf w') = in_accm (rxf w).
Proof.
  intros Hpool Hok Hacc Hvalid Hclash Hbnd HT HP Hc' Hne.
  destruct (accm_consistent_spec _ _ Hacc) as (_ & Hflag & _).
  destruct (valid_protocol_spec _ Hvalid) as (Hp16 & _).
  set (hdr := tx_header ac pc protocol) in *.
  assert (HT8 : Forall is_u8 (a ++ c :: b)).
  { rewrite <- HT. apply Forall_app. split; [exact HP | apply fcs_trailer_u8]. }
  apply Forall_app in HT8 as [Ha8 Hcb8].
  apply Forall_cons in Hcb8 as [Hc8 Hb8].
  destruct (rx_leading_flag w flagged Hflag Hbnd)
    as (w0 & Hrun0 & Hst0 & Hfcs0 & Hesc0 & Hh0 & Ht0 & Hheap0 & Hal0
        & Haccm0 & Hdel0 & Hstats0).
  assert (Hacc0 : accm_consistent out (in_accm (rxf w0)) = true)
    by (rewrite Haccm0; exact Hacc).
  pose proof (rx_header_phase out w0 ac pc protocol Hacc0 Hvalid Hclash
                Hst0 Hfcs0 Hesc0) as Hrun1.
  fold hdr in Hrun1.
  match type of Hrun1 with _ = Ok (tt, ?x) => set (w1 := x) in * end.
  assert (Hinv1 : rx_inv w1 []).
  { constructor.
    - intros l Hl. unfold w1 in *. simpl in *. rewrite Hheap0 in Hl.
      rewrite Hal0. apply Hok. exact Hl.
    - exact Hp16.
    - simpl. apply fcs_update_u16. unfold is_u16, PPP_INITFCS. lia.
    - apply rx_none; [exact Hh0 | exact Ht0 | reflexivity].
    - intros E. contradiction. }
  assert (Hcs : Forall is_u8 (a ++ c' :: b)).
  { apply Forall_app. split; [exact Ha8|]. constructor; assumption. }
  destruct (rx_data_phase out (a ++ c' :: b) w1 [] Hpool Hacc0 Hcs Hinv1
              eq_refl eq_refl)
    as (w2 & Hrun2 & Hinv2 & Hst2 & Hesc2 & Hfcs2 & Hproto2 & Hdel2 & Hstats2
        & Hstep2).
  simpl app in Hinv2.
  change (in_fcs (rxf w1)) with (fcs_update PPP_INITFCS hdr) in Hfcs2.
  assert (Hf16 : is_u16 (fcs_update PPP_INITFCS hdr))
    by (apply fcs_update_u16; unfold is_u16, PPP_INITFCS; lia).
  assert (Hbad : in_fcs (rxf w2) <> PPP_GOODFCS).
  { rewrite Hfcs2. intros E.
    assert (Hgood : fcs_update (fcs_update PPP_INITFCS hdr) (a ++ c :: b)
                    = PPP_GOODFCS).
    { rewrite <- HT, fcs_update_app, <- (fcs_update_app _ hdr P).
      apply fcs_residue. apply fcs_update_u16.
      unfold is_u16, PPP_INITFCS. lia. }
    rewrite <- Hgood in E. rewrite !fcs_update_app in E.
    change (fcs_update ?g (?x :: b)) with (fcs_update (PPP_FCS g x) b) in E.
    apply fcs_update_inj in E;
      [|apply PPP_FCS_u16, fcs_update_u16; exact Hf16 ..].
    apply PPP_FCS_inj_octet in E; [contradiction | assumption ..]. }
  destruct (rx_flag_drop w2 (a ++ c' :: b) link_chkerr Hinv2
              ltac:(right; auto))
    as (w3 & Hrun3 & Hok3 & Hstep3 & Hrx3 & Hstats3 & Hdel3 & _).
  assert (Haccm2 : in_accm (rxf w2) = in_accm (rxf w)).
  { unfold rxf. rewrite (rxs_in_accm _ _ Hstep2). exact Haccm0. }
  exists w3. split.
  { unfold pppos_input.
    assert (Hloop : pppos_input_loop
              ((if flagged then [PPP_FLAG] else []) ++
               enc_all out (hdr ++ a ++ c' :: b) ++ [PPP_FLAG]) w
            = Ok (tt, w3)).
    { rewrite (pppos_input_loop_app _ _ _ _ Hrun0).
      rewrite enc_all_app, <- app_assoc.
      rewrite (pppos_input_loop_app _ _ _ _ Hrun1).
      rewrite (pppos_input_loop_app _ _ _ _ Hrun2).
      assert (Hf2 : pppos_input_byte PPP_FLAG w2 = Ok (tt, w3)).
      { rewrite pppos_input_byte_flag by (rewrite Haccm2; exact Hflag).
        exact Hrun3. }
      simpl. mstep Hf2. reflexivity. }
    mstep Hloop. reflexivity. }
  split; [rewrite Hdel3, Hdel2; exact Hdel0|].
  split.
  { rewrite Hstats3, Hstats2. change (stats w1) with (stats w0).
    rewrite Hstats0. reflexivity. }
  split; [exact Hok3|].
  split.
  { unfold rx_at_boundary. rewrite Hrx3. simpl. auto. }
  rewrite Hrx3. simpl. exact Haccm2.
Qed.

(** Replacing the octet that stands for [c] on the wire by the octet that
    stands for [c'], when the map marks both or neither, turns the encoding
    of [c] into the encoding of [c'] and touches nothing else. *)
Lemma enc_replace (out : ext_accm) (pre post : list Z) (c c' : Z) :
  escaped out c' = escaped out c ->
  let i := (length pre + (if escaped out c then 1 else 0))%nat in
  (pre ++ enc (Some out) c ++ post) !! i = Some (wire_octet out c) /\
  <[i := wire_octet out c']> (pre ++ enc (Some out) c ++ post)
  = pre ++ enc (Some out) c' ++ post.
Proof.
  intros E. cbv zeta. unfold enc, wire_octet. rewrite E.
  destruct (escaped out c).
  - split.
    + rewrite lookup_app_r by lia.
      replace (length pre + 1 - length pre)%nat with 1%nat by lia.
      reflexivity.
    + rewrite insert_app_r. reflexivity.
  - rewrite Nat.add_0_r. split.
    + apply list_lookup_middle. reflexivity.
    + rewrite <- (Nat.add_0_r (length pre)) at 1.
      rewrite insert_app_r. reflexivity.
Qed.

Lemma wire_octet_inj (out : ext_accm) (c c' : Z) :
  escaped out c' = escaped out c ->
  wire_octet out c' = wire_octet out c -> c' = c.
Proof.
  unfold wire_octet. intros E. rewrite E.
  destruct (escaped out c); [|auto].
  intros H. apply (f_equal (fun z => Z.lxor z PPP_TRANS)) in H.
  rewrite !Z.lxor_assoc, !Z.lxor_nilpotent, !Z.lxor_0_r in H. exact H.
Qed.

(** X14.  The frame of a packet as the sender puts it on the wire, in which
    one octet of the payload or of the check sequence was replaced on the
    way by a different octet, is never handed to the upper engine, provided
    the replacement left the escape sequences of the frame as they were: the
    octet replaced, at position [i] of the frame, is either an octet sent as
    itself, replaced by an octet the sender's map does not mark, or the
    octet after 0x7D of an escape sequence, replaced by an octet that after
    0x7D stands for a character the sender's map marks. At the closing flag
    the receiver drops the frame, counts a check error with [link.drop] and
    [ifindiscards], holds no buffer, and is ready for the next frame. (An
    octet replaced by a flag or an escape octet, or a flag or escape octet
    replaced, is outside this statement: the flag 0x7E in place of a data
    octet ends the frame early, and what precedes it is judged as a frame
    of its own.) *)
Theorem corrupt_frame_dropped (out : ext_accm) (w : world) (flagged : bool)
  (ac pc : bool) (protocol : Z) (P a b : list Z) (c c' : Z) :
  (forall k, pool_ok k = true) -> heap_ok w ->
  accm_consistent out (in_accm (rxf w)) = true ->
  valid_protocol protocol = true -> header_clash ac pc protocol = false ->
  rx_at_boundary flagged w ->
  P ++ fcs_trailer (fcs_update PPP_INITFCS (tx_header ac pc protocol ++ P))
    = a ++ c :: b ->
  Forall is_u8 P -> is_u8 c' -> c' <> c ->
  escaped out c' = escaped out c ->
  let sent := hdlc_frame flagged out (tx_header ac pc protocol ++ P) in
  let i := (length (if flagged then [PPP_FLAG] else [])
            + length (enc_all out (tx_header ac pc protocol ++ a))
            + (if escaped out c then 1 else 0))%nat in
  sent !! i = Some (wire_octet out c) /\
  wire_octet out c' <> wire_octet out c /\
  exists w',
    pppos_input (<[i := wire_octet out c']> sent) w = Ok (tt, w') /\
    delivered w' = delivered w /\
    stats w' = (ifindiscards, 1) :: (link_drop, 1) :: (link_chkerr, 1)
               :: stats w /\
    heap_ok w' /\ rx_at_boundary false w' /\
    in_accm (rxf w') = in_accm (rxf w).
Proof.
  intros Hpool Hok Hacc Hvalid Hclash Hbnd HT HP Hc' Hne Hesc.
  cbv zeta.
  set (F := if flagged then [PPP_FLAG] else []).
  set (hdr := tx_header ac pc protocol) in *.
  assert (Hsent : hdlc_frame flagged out (hdr ++ P)
                  = (F ++ enc_all out (hdr ++ a)) ++ enc (Some out) c
                    ++ (enc_all out b ++ [PPP_FLAG])).
  { unfold hdlc_frame. fold F. rewrite <- (app_assoc hdr P), HT.
    rewrite (app_assoc hdr a), enc_all_app.
    change (enc_all out (c :: b)) with (enc (Some out) c ++ enc_all out b).
    rewrite <- !app_assoc. reflexivity. }
  assert (Hrecv : F ++ enc_all out (hdr ++ a ++ c' :: b) ++ [PPP_FLAG]
                  = (F ++ enc_all out (hdr ++ a)) ++ enc (Some out) c'
                    ++ (enc_all out b ++ [PPP_FLAG])).
  { rewrite (app_assoc hdr a), enc_all_app.
    change (enc_all out (c' :: b)) with (enc (Some out) c' ++ enc_all out b).
    rewrite <- !app_assoc. reflexivity. }
  destruct (enc_replace out (F ++ enc_all out (hdr ++ a))
              (enc_all out b ++ [PPP_FLAG]) c c' Hesc) as [Hat Hrep].
  rewrite length_app in Hat, Hrep.
  rewrite Hsent. split; [exact Hat|].
  split; [intros E; apply Hne; exact (wire_octet_inj out c c' Hesc E)|].
  rewrite Hrep, <- Hrecv.
  exact (corrupt_frame_run out w flagged ac pc protocol P a b c c'
           Hpool Hok Hacc Hvalid Hclash Hbnd HT HP Hc' Hne).
Qed.

(** ** The receive side and the buffers of others *)

Lemma local_ret {A} l b (a : A) : local l b (ret a).
Proof. intros w Hw. simpl. auto. Qed.

Lemma local_fail {A} l b f : local l b (@fail A f).
Proof. intros w Hw. unfold fail. destruct f; simpl; auto. Qed.

Lemma local_bind {A B} l b (m : M A) (k : A -> M B) :
  local l b m -> (forall a, local l b (k a)) -> local l b (bind m k).
Proof.
  intros Hm Hk w Hw. specialize (Hm w Hw). unfold bind.
  destruct (m w) as [[a w']|f].
  - destruct Hm as [E Hw']. rewrite E. apply Hk. exact Hw'.
  - destruct f; try exact I; rewrite Hm; reflexivity.
Qed.

Lemma local_get {A} l b (k : world -> M A) :
  (forall w, k (with_buf l b w) = k w) -> (forall w0, local l b (k w0)) ->
  local l b (bind get k).
Proof.
  intros Hext Hk w Hw. unfold bind, get. rewrite Hext. apply Hk. exact Hw.
Qed.

Lemma local_modify l b f :
  (forall w, f (with_buf l b w) = with_buf l b (f w)) ->
  (forall w, absent l w -> absent l (f w)) ->
  local l b (modify f).
Proof.
  intros Hc Ha w Hw. unfold modify. split; [rewrite Hc; reflexivity | auto].
Qed.

Lemma local_load_k {A} l b p (k : pbuf -> M A) :
  (forall x, (forall q, p = Some q -> q <> l) -> local l b (k x)) ->
  local l b (bind (load p) k).
Proof.
  intros Hk w Hw. unfold bind, load.
  destruct p as [q|]; [|reflexivity].
  destruct (heap w !! q) as [x|] eqn:E; [|exact I].
  assert (Hq : q <> l) by (intros ->; destruct Hw; congruence).
  unfold with_buf at 1 2 3. simpl heap.
  rewrite lookup_insert_ne by congruence. rewrite E.
  apply Hk; [|exact Hw]. intros q' [= <-]. exact Hq.
Qed.

Lemma local_load l b p : local l b (load p).
Proof.
  intros w Hw. unfold load.
  destruct p as [q|]; [|reflexivity].
  destruct (heap w !! q) as [x|] eqn:E; [|exact I].
  assert (Hq : q <> l) by (intros ->; destruct Hw; congruence).
  unfold with_buf at 1. simpl heap.
  rewrite lookup_insert_ne by congruence. rewrite E. auto.
Qed.

Lemma local_update l b p f : local l b (update p f).
Proof.
  unfold update. apply local_load_k. intros x Hq.
  destruct p as [q|]; [|apply local_fail].
  specialize (Hq q eq_refl). apply local_modify.
  - intros w. unfold with_buf. simpl. f_equal.
    apply insert_insert_ne. congruence.
  - intros w [H1 H2]. split; simpl; [|exact H2].
    rewrite lookup_insert_ne by congruence. exact H1.
Qed.

Lemma local_pbuf_alloc l b : local l b pbuf_alloc.
Proof.
  intros w [H1 H2]. unfold pbuf_alloc. cbv zeta.
  change (allocs (with_buf l b w)) with (allocs w).
  destruct (pool_ok (allocs w)).
  - split.
    + unfold with_buf. simpl. do 3 f_equal. apply insert_insert_ne. lia.
    + split; simpl; [rewrite lookup_insert_ne by lia; exact H1 | lia].
  - split; [reflexivity|]. split; simpl; [exact H1 | lia].
Qed.

Lemma local_pure l b f :
  (forall w, heap (f w) = heap w /\ allocs (f w) = allocs w) ->
  (forall w, f (with_buf l b w) = with_buf l b (f w)) ->
  local l b (modify f).
Proof.
  intros Hf Hc. apply local_modify; [exact Hc|].
  intros w [H1 H2]. destruct (Hf w) as [E1 E2].
  split; [rewrite E1; exact H1 | rewrite E2; exact H2].
Qed.

Lemma local_rx_get l b : local l b rx_get.
Proof. intros w Hw. simpl. auto. Qed.

Lemma local_rx_set l b f : local l b (rx_set f).
Proof. apply local_pure; intros w; auto. Qed.

Lemma local_stat l b c n : local l b (modify (add_stat c n)).
Proof. apply local_pure; intros w; auto. Qed.

Lemma local_ppp_input l b p : local l b (ppp_input p).
Proof.
  destruct p as [q|]; [|apply local_fail].
  apply local_pure; intros w; auto.
Qed.

Create HintDb locality.
#[local] Hint Resolve local_ret local_fail local_load local_update
  local_pbuf_alloc local_rx_get local_rx_set local_stat local_ppp_input
  : locality.

Ltac local_step :=
  first
    [ solve [auto with locality]
    | apply local_bind; [|intros ?]
    | match goal with
      | |- local _ _ (if ?c then _ else _) => destruct c
      | |- local _ _ (match ?x with _ => _ end) => destruct x
      end ].
Ltac local_auto := repeat local_step.

Lemma local_peek l b p i : local l b (peek p i).
Proof. unfold peek. local_auto. Qed.

Lemma local_poke l b p i c : local l b (poke p i c).
Proof. unfold poke. local_auto. Qed.

#[local] Hint Resolve local_peek local_poke : locality.

Lemma local_push l b p c : local l b (push p c).
Proof. unfold push. local_auto. Qed.

Lemma local_free_chain l b fuel : forall p, local l b (pbuf_free_chain fuel p).
Proof.
  induction fuel as [|fuel IH]; intros [q|]; simpl;
    try apply local_ret; try apply local_fail.
  apply local_load_k. intros x Hq. specialize (Hq q eq_refl).
  apply local_bind; [|intros _; apply IH].
  apply local_modify.
  - intros w. unfold with_buf. simpl. f_equal.
    apply delete_insert_ne. congruence.
  - intros w [H1 H2]. split; simpl; [|exact H2].
    rewrite lookup_delete_ne by congruence. exact H1.
Qed.

Lemma local_pbuf_free l b p : local l b (pbuf_free p).
Proof.
  unfold pbuf_free. destruct p as [q|]; [|apply local_ret].
  apply local_bind; [apply local_pure; intros w; auto|]. intros _.
  apply local_get; [reflexivity|]. intros w0. apply local_free_chain.
Qed.

Lemma local_cat_loop l b fuel : forall p t, local l b (pbuf_cat_loop fuel p t).
Proof.
  induction fuel as [|fuel IH]; intros p t; simpl; [apply local_fail|].
  local_auto.
Qed.

Lemma local_pbuf_cat l b h t : local l b (pbuf_cat h t).
Proof.
  unfold pbuf_cat. apply local_get; [reflexivity|].
  intros w0. apply local_cat_loop.
Qed.

Lemma local_realloc_loop l b fuel : forall q r g,
  local l b (pbuf_realloc_loop fuel q r g).
Proof.
  induction fuel as [|fuel IH]; intros q r g; simpl; [apply local_fail|].
  local_auto.
Qed.

#[local] Hint Resolve local_push local_pbuf_free local_pbuf_cat
  local_realloc_loop : locality.

Lemma local_pbuf_realloc l b p n : local l b (pbuf_realloc p n).
Proof.
  unfold pbuf_realloc. apply local_bind; [auto with locality|]. intros x.
  destruct (n >=? tot_len x); [apply local_ret|].
  apply local_get; [reflexivity|]. intros w0. local_auto.
Qed.

#[local] Hint Resolve local_pbuf_realloc : locality.

Lemma local_free_input l b : local l b pppos_free_current_input_packet.
Proof. unfold pppos_free_current_input_packet. local_auto. Qed.

#[local] Hint Resolve local_free_input : locality.

Lemma local_pppos_drop l b : local l b pppos_drop.
Proof. unfold pppos_drop, LINK_STATS_INC, snmp_inc. local_auto. Qed.

Lemma local_rx_deliver l b : local l b rx_deliver.
Proof. unfold rx_deliver. local_auto. Qed.

#[local] Hint Resolve local_pppos_drop local_rx_deliver : locality.

Lemma local_rx_flag l b : local l b rx_flag.
Proof. unfold rx_flag, LINK_STATS_INC. local_auto. Qed.

Lemma local_rx_switch l b st c : local l b (rx_switch st c).
Proof.
  destruct st; simpl;
    unfold case_PDIDLE, case_PDSTART, case_PDADDRESS, case_PDCONTROL,
      case_PDPROTOCOL1, case_PDPROTOCOL2, case_PDDATA, rx_make_space,
      rx_close_tail, rx_open_tail, LINK_STATS_INC;
    local_auto.
Qed.

#[local] Hint Resolve local_rx_flag local_rx_switch : locality.











(** ** Frames back to back *)





(** ** The write callback and the receive side *)


(** ** A session from end to end *)






(** ** The commands of the link adapter *)

(** X19.  The command callback on a link whose receive side may hold a
    frame in progress.  CONNECT releases exactly the buffers held and
    leaves the control block as [pppos_connect] does.  FREE is
    [pppos_destroy]: it returns ERR_OK, releases exactly the buffers held,
    each chain by one [pbuf_free], leaves [in_head] and [in_tail] null and
    counts nothing.  DISCONNECT and any other command code change nothing:
    in particular DISCONNECT does not release the frame in progress, which
    stays held until the next CONNECT or FREE. *)
Theorem link_commands (w : world) (held : list loc) :
  heap_ok w -> rx_holds w held ->
  (exists w1,
     pppos_link_command_callback PPP_LINK_COMMAND_CONNECT w = Ok (tt, w1) /\
     heap w1 = delete_all held (heap w) /\ ppp w1 = connected_pcb /\
     stats w1 = stats w) /\
  pppos_link_command_callback PPP_LINK_COMMAND_DISCONNECT w = Ok (tt, w) /\
  (exists w3,
     pppos_destroy w = Ok (ERR_OK, w3) /\
     pppos_link_command_callback PPP_LINK_COMMAND_FREE w = Ok (tt, w3) /\
     heap w3 = delete_all held (heap w) /\
     freed w3 = freed w ++ rx_freed w /\
     in_head (rxf w3) = None /\ in_tail (rxf w3) = None /\
     stats w3 = stats w /\ delivered w3 = delivered w /\ wire w3 = wire w) /\
  (forall code,
     pppos_link_command_callback (PPP_LINK_COMMAND_other code) w = Ok (tt, w)) /\
  (exists w4,
     (pppos_link_command_callback PPP_LINK_COMMAND_DISCONNECT ;;;
      pppos_link_command_callback PPP_LINK_COMMAND_CONNECT) w = Ok (tt, w4) /\
     forall l, l ∈ held -> heap w4 !! l = None).
Proof.
  intros Hok Hd.
  destruct (free_input_run w held Hok Hd) as (Hrun & _).
  pose proof (pppos_connect_run w held Hok Hd) as Hconn.
  split; [eexists; split; [exact Hconn|]; simpl; auto|].
  split; [reflexivity|].
  split.
  { eexists. split.
    { unfold pppos_destroy, memp_free. mstep Hrun. repeat mprim. reflexivity. }
    split.
    { simpl. unfold pppos_destroy, memp_free. mstep Hrun. repeat mprim.
      reflexivity. }
    simpl. repeat split. }
  split; [reflexivity|].
  eexists. split.
  { simpl. unfold pppos_disconnect, ppp_link_end.
    rewrite (bind_Ok _ _ _ tt w) by reflexivity. exact Hconn. }
  intros l Hl. simpl. apply delete_all_in. exact Hl.
Qed.
End PPPoS.

(** * The theorems at work on the example configurations

    Buffers of 8 bytes, a flag after 100 idle ticks, a pool that grants
    every buffer, a serial device that takes every write whole. *)

Lemma ex_tx_heap_ok : heap_ok ex_tx.
Proof. apply heap_okb_sound. reflexivity. Qed.

Lemma ex_tx_payload_chain : payload_chain ex_tx (Some 0%nat) [0%nat].
Proof.
  split.
  - split; [reflexivity|]. eexists. split; [reflexivity|]. reflexivity.
  - constructor; [|constructor]. eexists. split; [reflexivity|].
    simpl. lia.
Qed.

Lemma fcstab_matches_ppp_get_fcs_witness :
  nth (Z.to_nat 0x42) fcstab 0 = ppp_get_fcs 0x42.
Proof. apply (proj1 fcstab_matches_ppp_get_fcs 0x42). lia. Defined.

Lemma ex_tx_marked_heap_ok : heap_ok ex_tx_marked.
Proof. apply heap_okb_sound. reflexivity. Qed.

Lemma ex_tx_marked_payload_chain :
  payload_chain ex_tx_marked (Some 0%nat) [0%nat].
Proof.
  split.
  - split; [reflexivity|]. eexists. split; [reflexivity|]. reflexivity.
  - constructor; [|constructor]. eexists. split; [reflexivity|].
    simpl. lia.
Qed.

(** The payload 7E 11 7D 04 under a map that marks 0x11, 0x13, 0x7D and
    0x7E: the three marked octets go out as 7D 5E, 7D 31 and 7D 5D, the
    others as themselves, and the closing flag is not escaped. *)
Lemma netif_output_wire_format_witness :
  exists w',
    pppos_link_netif_output_callback 8 100 (fun _ => true) (fun _ n => n)
      (Some 0%nat) 0xC021 ex_tx_marked = Ok (ERR_OK, w') /\
    wire w' = [0x7E; 0xFF; 0x03; 0xC0; 0x21; 0x7D; 0x5E; 0x7D; 0x31;
               0x7D; 0x5D; 0x04; 0x44; 0x98; 0x7E].
Proof.
  destruct (netif_output_wire_format 8 100 (fun _ => true) (fun _ n => n)
              ltac:(lia) ex_tx_marked (Some 0%nat) [0%nat] 0xC021
              ex_tx_marked_heap_ok ex_tx_marked_payload_chain
              ltac:(reflexivity) ltac:(reflexivity))
    as (w' & Hrun & Hwire).
  exists w'. split; [exact Hrun|]. rewrite Hwire. reflexivity.
Defined.

Lemma ex_accm_consistent : accm_consistent ex_accm ex_accm = true.
Proof. reflexivity. Qed.

Lemma round_trip_witness :
  exists wt' wr' hd ls,
    pppos_link_netif_output_callback 8 100 (fun _ => true) (fun _ n => n)
      (Some 0%nat) 0xC021 ex_tx = Ok (ERR_OK, wt') /\
    pppos_input 8 (fun _ => true) (wire wt') ex_rx = Ok (tt, wr') /\
    delivered wr' = [hd] /\ lseg (heap wr') (Some hd) ls /\
    chain_bytes (heap wr') ls = [0xC0; 0x21; 0x09; 0x01; 0x00; 0x04].
Proof.
  destruct (round_trip 8 100 (fun _ => true) (fun _ n => n) ltac:(lia)
              ex_tx ex_rx (Some 0%nat) [0%nat] 0xC021
              ex_tx_heap_ok ex_tx_payload_chain
              ltac:(reflexivity) ltac:(reflexivity))
    as (wt' & stream & wr' & hd & ls & b & Hrun & Hwire & Hin & Hdel & Hseg
        & Hbytes & _).
  - change (chain_bytes (heap ex_tx) [0%nat]) with ex_payload.
    repeat constructor; unfold is_u8; lia.
  - change (chain_bytes (heap ex_tx) [0%nat]) with ex_payload. simpl. lia.
  - reflexivity.
  - reflexivity.
  - apply heap_okb_sound. reflexivity.
  - exact ex_accm_consistent.
  - repeat split. simpl. lia.
  - exists wt', wr', hd, ls. split; [exact Hrun|]. rewrite Hwire.
    split; [exact Hin|]. split; [exact Hdel|]. split; [exact Hseg|].
    exact Hbytes.
Defined.

(** With both header compressions on, the protocol number 0x0003 goes out
    as the single octet 0x03, which the receiver takes for the control
    field: the packet that arrives has protocol 0x0021 and has lost its
    first octet. *)
Lemma round_trip_counterexample :
  valid_protocol 0x0003 = true /\
  accm_consistent (out_accm (ppp ex_tx_comp)) (in_accm (rxf ex_rx)) = true /\
  bytes_at (heap ex_tx_comp) 0%nat = [0x21; 0x45] /\
  exists wt' wr' hd,
    pppos_link_netif_output_callback 8 100 (fun _ => true) (fun _ n => n)
      (Some 0%nat) 0x0003 ex_tx_comp = Ok (ERR_OK, wt') /\
    wire wt' = [0x7E; 0x03; 0x21; 0x45; 0xEA; 0x06; 0x7E] /\
    pppos_input 8 (fun _ => true) (wire wt') ex_rx = Ok (tt, wr') /\
    delivered wr' = [hd] /\
    bytes_at (heap wr') hd = [0x00; 0x21; 0x45].
Proof.
  split; [reflexivity|]. split; [reflexivity|]. split; [reflexivity|].
  eexists. eexists. exists 0%nat.
  split; [vm_compute; reflexivity|].
  split; [reflexivity|].
  split; [vm_compute; reflexivity|].
  split; reflexivity.
Qed.

Lemma ex_rx_data_inv : rx_inv 8 ex_rx_data ([0x09; 0x01; 0x00; 0x04] ++ ex_fcs).
Proof.
  constructor.
  - apply heap_okb_sound. reflexivity.
  - simpl. unfold is_u16. lia.
  - simpl. unfold is_u16. lia.
  - eapply (rx_single 8 _ _ 0%nat); try reflexivity.
    + split; [reflexivity | simpl; lia].
    + simpl. lia.
  - reflexivity.
Qed.

Lemma ex_rx_short_inv : rx_inv 8 ex_rx_short [0xF0].
Proof.
  constructor.
  - apply heap_okb_sound. reflexivity.
  - simpl. unfold is_u16. lia.
  - simpl. unfold is_u16. lia.
  - eapply (rx_single 8 _ _ 0%nat); try reflexivity.
    split; [reflexivity | simpl; lia].
  - reflexivity.
Qed.

(** The stream 7E 00 78 F0 7E on a receiver fresh from [pppos_connect]:
    the frame has the protocol field 00 78 and one data octet, its check
    sequence is good, and the chain handed up at the flag is one byte long
    and holds 00, the high octet of the protocol number. The example frame
    of six data octets is delivered with its protocol number and four
    octets. *)
Lemma good_frame_delivery_witness :
  (pppos_input_loop 8 (fun _ => true) [0x7E; 0x00; 0x78; 0xF0] ex_rx
     = Ok (tt, ex_rx_short) /\
   exists w' hd ls b,
     pppos_input_byte 8 (fun _ => true) PPP_FLAG ex_rx_short = Ok (tt, w') /\
     delivered w' = [hd] /\ heap w' !! hd = Some b /\ tot_len b = 1 /\
     lseg (heap w') (Some hd) ls /\ chain_bytes (heap w') ls = [0x00] /\
     in_head (rxf w') = None /\ in_tail (rxf w') = None) /\
  (pppos_input_loop 8 (fun _ => true)
     ([0x7E; 0xFF; 0x03; 0xC0; 0x21] ++ ex_payload ++ ex_fcs) ex_rx
     = Ok (tt, ex_rx_data) /\
   exists w' hd ls b,
     pppos_input_byte 8 (fun _ => true) PPP_FLAG ex_rx_data = Ok (tt, w') /\
     delivered w' = [hd] /\ heap w' !! hd = Some b /\ tot_len b = 6 /\
     lseg (heap w') (Some hd) ls /\
     chain_bytes (heap w') ls = [0xC0; 0x21; 0x09; 0x01; 0x00; 0x04] /\
     in_head (rxf w') = None /\ in_tail (rxf w') = None).
Proof.
  split.
  - split; [vm_compute; reflexivity|].
    destruct (good_frame_delivery 8 (fun _ => true) ltac:(lia)
                ex_rx_short [0xF0] ex_rx_short_inv
                ltac:(reflexivity) ltac:(reflexivity) ltac:(reflexivity)
                ltac:(discriminate) ltac:(simpl; lia))
      as (w' & hd & ls & b & Hrun & Hdel & Hb & _ & Hseg & _ & _ & Hone & Hh
          & Ht & _).
    destruct (Hone eq_refl) as [Htot Hbytes].
    exists w', hd, ls, b. auto 10.
  - split; [vm_compute; reflexivity|].
    destruct (good_frame_delivery 8 (fun _ => true) ltac:(lia)
                ex_rx_data ([0x09; 0x01; 0x00; 0x04] ++ ex_fcs) ex_rx_data_inv
                ltac:(reflexivity) ltac:(reflexivity) ltac:(reflexivity)
                ltac:(discriminate) ltac:(simpl; lia))
      as (w' & hd & ls & b & Hrun & Hdel & Hb & Htot & Hseg & _ & Htwo & _ & Hh
          & Ht & _).
    specialize (Htwo ltac:(simpl; lia)).
    exists w', hd, ls, b. auto 10.
Defined.

Lemma ex_rx_header_inv : rx_inv 8 ex_rx_header [].
Proof.
  constructor.
  - apply heap_okb_sound. reflexivity.
  - simpl. unfold is_u16. lia.
  - simpl. unfold is_u16. lia.
  - apply rx_none; reflexivity.
  - intros H. contradiction.
Qed.

Lemma flag_dispositions_witness :
  pppos_input_loop 8 (fun _ => true) [0xFF; 0x03] ex_rx_ready
    = Ok (tt, ex_rx_header) /\
  exists w',
    pppos_input_byte 8 (fun _ => true) PPP_FLAG ex_rx_header = Ok (tt, w') /\
    stats w' = [(ifindiscards, 1); (link_drop, 1); (link_lenerr, 1)] /\
    in_state (rxf w') = PDADDRESS /\ in_fcs (rxf w') = PPP_INITFCS /\
    in_escaped (rxf w') = false.
Proof.
  split; [vm_compute; reflexivity|].
  destruct (flag_dispositions 8 (fun _ => true)
              ex_rx_header [] ex_rx_header_inv ltac:(reflexivity))
    as (_ & Hlen & _ & Hreset).
  destruct (Hlen ltac:(simpl; lia)) as (w' & Hrun & _ & _ & _ & Hstats & _).
  exists w'. split; [exact Hrun|]. split; [exact Hstats|].
  exact (Hreset w' Hrun).
Defined.

(** A flag met by a receiver fresh from [pppos_connect]: the state it
    leaves is ADDRESS, not START. *)
Lemma flag_dispositions_counterexample :
  exists w',
    pppos_input 8 (fun _ => true) [PPP_FLAG] ex_rx = Ok (tt, w') /\
    in_state (rxf w') = PDADDRESS /\ in_state (rxf w') <> PDSTART.
Proof.
  eexists. split; [vm_compute; reflexivity|].
  split; [reflexivity | discriminate].
Qed.

Lemma ex_tx_framed_heap_ok : heap_ok ex_tx_framed.
Proof. apply heap_okb_sound. reflexivity. Qed.


Lemma null_tail_at_delivery_witness :
  pppos_input 8 (fun _ => true) [0x00; 0x00; PPP_FLAG] ex_rx_ready
  = Err NullDeref.
Proof.
  destruct (null_tail_at_delivery 8 (fun _ => true) ex_rx_ready
              ltac:(reflexivity) ltac:(reflexivity) ltac:(reflexivity)
              ltac:(reflexivity) ltac:(reflexivity) ltac:(reflexivity)
              ltac:(reflexivity))
    as (w2 & _ & _ & _ & _ & _ & _ & Hfault).
  exact Hfault.
Defined.

Lemma ex_tx_framed_chain : tx_chain 8 0 ex_tx_framed 0%nat [0%nat; 1%nat].
Proof.
  constructor.
  - exact ex_tx_framed_heap_ok.
  - split; [reflexivity|]. eexists. split; [reflexivity|].
    split; [reflexivity|]. eexists. split; [reflexivity|]. reflexivity.
  - apply NoDup_cons. split; [|apply NoDup_singleton].
    intros H. apply list_elem_of_singleton in H. discriminate.
  - repeat constructor; lia.
  - constructor; [|constructor; [|constructor]].
    + eexists. split; [reflexivity|]. split; [reflexivity | simpl; lia].
    + eexists. split; [reflexivity|]. split; [reflexivity | simpl; lia].
Qed.

(** The first write is cut short at tick 5; the packet sent next, at tick
    7, starts with 0xFF: no flag in front of it. *)
Lemma short_write_recovery_witness :
  exists w' w3,
    pppos_xmit ex_sio_short (Some 0%nat) ex_tx_framed = Ok (tt, w') /\
    stats w' = [(ifoutdiscards, 1); (link_err, 1)] /\
    last_xmit (ppp w') = 0 /\
    (heap w' !! 0%nat = None /\ heap w' !! 1%nat = None) /\
    sio_calls w' = 1%nat /\
    wire w' = [0x7E; 0xFF; 0x7D] /\
    pppos_link_netif_output_callback 8 100 (fun _ => true) ex_sio_short
      None 0xC021 (at_time 7 w') = Ok (ERR_OK, w3) /\
    wire w3 = [0x7E; 0xFF; 0x7D] ++ [0xFF; 0x03; 0xC0; 0x21; 0x49; 0x2C; 0x7E].
Proof.
  destruct (short_write_recovery 8 100 (fun _ => true) ex_sio_short
              ltac:(lia) 0%nat ex_tx_framed 0%nat [0%nat; 1%nat] 0%nat 3
              ex_tx_framed_chain ltac:(reflexivity))
    as (w' & Hrun & Hstats & Hlast & Hgone & Hfreed & Hsio & Hwire & Hnext).
  assert (Hheap : heap w' !! 0%nat = None /\ heap w' !! 1%nat = None).
  { split; apply Hgone; [left | right; left]. }
  destruct (Hnext 7 None [] 0xC021 ltac:(lia) ltac:(lia))
    as (w3 & Hrun3 & Hwire3).
  - split; [reflexivity | constructor].
  - reflexivity.
  - intros k n Hk. rewrite Hsio in Hk. unfold ex_sio_short.
    destruct k; [lia | reflexivity].
  - exists w', w3. split; [exact Hrun|]. split; [exact Hstats|].
    split; [exact Hlast|]. split; [exact Hheap|]. split; [exact Hsio|].
    split; [exact Hwire|]. split; [exact Hrun3|].
    rewrite Hwire3, Hwire. reflexivity.
Defined.



Lemma ex_tx_chain_heap_ok : heap_ok ex_tx_chain.
Proof. apply heap_okb_sound. reflexivity. Qed.

(** A packet of two buffers holding 01 02 03 and 04 05: only 01 02 03 and
    its check sequence go out, and both buffers are released. *)
Lemma raw_write_first_buffer_only_witness :
  exists r w',
    pppos_link_write_callback 8 100 (fun _ => true) (fun _ n => n)
      (Some 0%nat) ex_tx_chain = Ok (r, w') /\
    r = PPPERR_NONE /\
    wire w' = [0x7E; 0x01; 0x02; 0x03; 0x3B; 0x9D; 0x7E] /\
    heap w' !! 0%nat = None /\ heap w' !! 1%nat = None.
Proof.
  destruct (raw_write_first_buffer_only 8 100 (fun _ => true) (fun _ n => n)
              ltac:(lia) ex_tx_chain 0%nat
              (mk_pbuf (Some 1%nat) [0x01; 0x02; 0x03] 5 3) [0%nat; 1%nat]
              ex_tx_chain_heap_ok ltac:(reflexivity) ltac:(simpl; lia))
    as (r & w' & Hrun & _ & Hgone & Hwire).
  - split; [reflexivity|]. eexists. split; [reflexivity|].
    split; [reflexivity|]. eexists. split; [reflexivity|]. reflexivity.
  - destruct (Hwire ltac:(reflexivity) ltac:(reflexivity)) as [Hr Hw].
    exists r, w'. split; [exact Hrun|]. split; [exact Hr|].
    split; [rewrite Hw; reflexivity|].
    split; apply Hgone; [left | right; left].
Defined.

(** ** Further properties, on the examples *)

(** C0 21 09 and C0 23 09 run the check sequence to different values. *)
Lemma fcs_detects_single_octet_witness :
  (fcs_update PPP_INITFCS ([0xC0] ++ 0x21 :: [0x09])
   =? fcs_update PPP_INITFCS ([0xC0] ++ 0x23 :: [0x09])) = false.
Proof.
  apply Z.eqb_neq.
  apply (fcs_detects_single_octet PPP_INITFCS [0xC0] [0x09] 0x21 0x23);
    unfold is_u16, is_u8, PPP_INITFCS; lia.
Defined.


Lemma ex_rx_xon_inv : rx_inv 8 ex_rx_xon [].
Proof.
  constructor.
  - apply heap_okb_sound. reflexivity.
  - simpl. unfold is_u16. lia.
  - simpl. unfold is_u16. lia.
  - apply rx_none; reflexivity.
  - intros H. contradiction.
Qed.

(** XON and XOFF strewn over the start of a frame change nothing. *)
Lemma pppos_input_ignores_noise_witness :
  pppos_input 8 (fun _ => true) [0x11; 0xFF; 0x13; 0x03] ex_rx_xon
  = pppos_input 8 (fun _ => true) [0xFF; 0x03] ex_rx_xon.
Proof.
  exact (pppos_input_ignores_noise 8 (fun _ => true)
           [0x11; 0xFF; 0x13; 0x03] ex_rx_xon).
Defined.


Lemma ex_rx_data_holds : rx_holds ex_rx_data [0%nat].
Proof.
  right. exists 0%nat, [0%nat]. split; [reflexivity|]. split.
  - split; [reflexivity|]. eexists. split; [reflexivity|]. reflexivity.
  - left. split; [right; reflexivity | reflexivity].
Qed.

(** Dropping the example frame releases its one buffer. *)
Lemma pppos_drop_releases_witness :
  exists w',
    pppos_drop ex_rx_data = Ok (tt, w') /\
    heap w' = delete_all [0%nat] (heap ex_rx_data) /\
    freed w' = [0%nat] /\
    stats w' = [(ifindiscards, 1); (link_drop, 1)].
Proof.
  destruct (pppos_drop_releases ex_rx_data [0%nat]
              (rxi_heap 8 _ _ ex_rx_data_inv) ex_rx_data_holds)
    as (w' & Hrun & Hheap & _ & _ & _ & _ & Hfreed & _ & _ & Hstats & _).
  exists w'. split; [exact Hrun|]. split; [exact Hheap|].
  split; [exact Hfreed | exact Hstats].
Defined.

(** The buffer of the example frame is full; with the pool empty the next
    data octet loses the frame. *)
Lemma rx_pool_exhausted_witness :
  exists held w',
    rx_holds ex_rx_data held /\
    pppos_input_byte 8 (fun _ => false) 0x55 ex_rx_data = Ok (tt, w') /\
    in_head (rxf w') = None /\ in_tail (rxf w') = None /\
    in_state (rxf w') = PDSTART /\
    stats w' = [(ifindiscards, 1); (link_drop, 1); (link_memerr, 1)] /\
    delivered w' = [].
Proof.
  destruct (rx_pool_exhausted 8 (fun _ => false) ex_rx_data
              ([0x09; 0x01; 0x00; 0x04] ++ ex_fcs) 0x55 ex_rx_data_inv
              ltac:(reflexivity) ltac:(reflexivity))
    as (held & w' & Hheld & Hrun & _ & _ & Hh & Ht & Hst & Hstats & Hdel & _).
  - eexists. split; reflexivity.
  - reflexivity.
  - exists held, w'. auto 10.
Defined.

(** The pool grants the head buffer and refuses the second one: ERR_MEM,
    and the pool is as before. *)
Lemma netif_output_restores_pool_witness :
  exists r w',
    pppos_link_netif_output_callback 8 100 (fun k => (k <? 2)%nat)
      (fun _ n => n) (Some 0%nat) 0xC021 ex_tx = Ok (r, w') /\
    (r = ERR_OK \/ r = ERR_MEM) /\
    heap w' = heap ex_tx /\ delivered w' = delivered ex_tx.
Proof.
  destruct (netif_output_restores_pool 8 100 (fun k => (k <? 2)%nat)
              (fun _ n => n) ltac:(lia) ex_tx (Some 0%nat) [0%nat] 0xC021
              ex_tx_heap_ok ex_tx_payload_chain)
    as (r & w' & Hrun & Hr & Hheap & Hdel & _).
  exists r, w'. auto.
Defined.

Lemma ex_tx_chain_seg : lseg (heap ex_tx_chain) (Some 0%nat) [0%nat; 1%nat].
Proof.
  split; [reflexivity|]. eexists. split; [reflexivity|].
  split; [reflexivity|]. eexists. split; [reflexivity|]. reflexivity.
Qed.

(** The packet of two buffers: whatever the outcome, only its two buffers
    are gone. *)
Lemma write_callback_restores_pool_witness :
  exists r w',
    pppos_link_write_callback 8 100 (fun k => (k <? 3)%nat) (fun _ n => n)
      (Some 0%nat) ex_tx_chain = Ok (r, w') /\
    heap w' = delete_all [0%nat; 1%nat] (heap ex_tx_chain) /\
    delivered w' = delivered ex_tx_chain.
Proof.
  destruct (write_callback_restores_pool 8 100 (fun k => (k <? 3)%nat)
              (fun _ n => n) ltac:(lia) ex_tx_chain 0%nat
              (mk_pbuf (Some 1%nat) [0x01; 0x02; 0x03] 5 3) [0%nat; 1%nat]
              ex_tx_chain_heap_ok ltac:(reflexivity) ltac:(simpl; lia)
              ex_tx_chain_seg)
    as (r & w' & Hrun & Hheap & Hdel & _).
  exists r, w'. auto.
Defined.

(** Connecting while the example frame is still held releases it. *)
Lemma pppos_connect_fresh_witness :
  exists w',
    pppos_connect ex_rx_data = Ok (tt, w') /\
    heap w' = delete_all [0%nat] (heap ex_rx_data) /\
    freed w' = [0%nat] /\ stats w' = [] /\
    in_head (rxf w') = None /\ in_tail (rxf w') = None /\
    in_state (rxf w') = PDIDLE.
Proof.
  destruct (pppos_connect_fresh 8 ex_rx_data [0%nat]
              (rxi_heap 8 _ _ ex_rx_data_inv) ex_rx_data_holds)
    as (w' & Hrun & Hheap & Hfreed & Hstats & _ & _ & _ & _ & Hh & Ht & Hst
        & _).
  exists w'. auto 10.
Defined.



(** The example packet goes out in eleven octets and counts none. *)
Lemma ifoutoctets_not_counted_witness :
  exists w' sent,
    pppos_link_netif_output_callback 8 100 (fun _ => true) (fun _ n => n)
      (Some 0%nat) 0xC021 ex_tx = Ok (ERR_OK, w') /\
    wire w' = wire ex_tx ++ sent /\ (4 <= length sent)%nat /\
    stats w' = [(link_xmit, 1); (ifoutucastpkts, 1); (ifoutoctets, 0)].
Proof.
  destruct (ifoutoctets_not_counted 8 100 (fun _ => true) (fun _ n => n)
              ltac:(lia) ex_tx (Some 0%nat) [0%nat] 0xC021
              ex_tx_heap_ok ex_tx_payload_chain
              ltac:(reflexivity) ltac:(reflexivity))
    as (w' & sent & Hrun & Hwire & Hlen & Hstats & _).
  exists w', sent. auto.
Defined.

(** The echo request arrives with 02 in place of 01, the seventh octet of
    the frame on the wire. *)
Lemma corrupt_frame_dropped_witness :
  hdlc_frame true ex_accm (tx_header false false 0xC021 ++ ex_payload)
  = [0x7E; 0xFF; 0x03; 0xC0; 0x21; 0x09; 0x01; 0x00; 0x04; 0x09; 0x50; 0x7E] /\
  exists w',
    pppos_input 8 (fun _ => true)
      [0x7E; 0xFF; 0x03; 0xC0; 0x21; 0x09; 0x02; 0x00; 0x04; 0x09; 0x50; 0x7E]
      ex_rx = Ok (tt, w') /\
    delivered w' = [] /\
    stats w' = [(ifindiscards, 1); (link_drop, 1); (link_chkerr, 1)].
Proof.
  split; [vm_compute; reflexivity|].
  destruct (corrupt_frame_dropped 8 (fun _ => true) ltac:(lia) ex_accm ex_rx
              true false false 0xC021 ex_payload [0x09]
              [0x00; 0x04; 0x09; 0x50] 0x01 0x02
              ltac:(reflexivity) ltac:(apply heap_okb_sound; reflexivity)
              ltac:(reflexivity) ltac:(reflexivity) ltac:(reflexivity))
    as (_ & _ & w' & Hrun & Hdel & Hstats & _).
  - split; [reflexivity|]. split; [reflexivity|]. simpl. lia.
  - vm_compute. reflexivity.
  - repeat constructor; unfold is_u8; lia.
  - unfold is_u8. lia.
  - lia.
  - reflexivity.
  - exists w'. split; [exact Hrun|]. auto.
Defined.








(** The commands on the receiver that holds the example frame. *)
Lemma link_commands_witness :
  pppos_link_command_callback PPP_LINK_COMMAND_DISCONNECT ex_rx_data
    = Ok (tt, ex_rx_data) /\
  exists w3,
    pppos_destroy ex_rx_data = Ok (ERR_OK, w3) /\
    heap w3 = delete_all [0%nat] (heap ex_rx_data) /\
    freed w3 = [0%nat] /\ stats w3 = [].
Proof.
  destruct (link_commands ex_rx_data [0%nat]
              (rxi_heap 8 _ _ ex_rx_data_inv) ex_rx_data_holds)
    as (_ & Hdis & (w3 & Hrun & _ & Hheap & Hfreed & _ & _ & Hstats & _) & _).
  split; [exact Hdis|]. exists w3. auto.
Defined.
